(** * gofixedwidth: fixed-width column reader and writer

    A shallow embedding of the package [gofixedwidth] (revision of
    26 Jun 2018): the [Reader] with [readLine], [Init], [parseRecord],
    [skipInitialLines], [Read], [ReadRows] and [ReadAll], and the [Writer]
    with [Init], [outputSpaces], [Write], [WriteAll], [Flush] and
    [WriteComment].  Go's [int] is a 64-bit two's complement integer, a
    [string] is a sequence of bytes, an [error] is a value with a message,
    and a run-time panic is an outcome of its own. *)

From Stdlib Require Import ZArith List Ascii String Bool Lia DecimalString.
Import ListNotations.
Open Scope Z_scope.

(** ** Go's [int]: 64 bits, two's complement, silent wrap-around

    The sums over the configured numbers ([Init], the cursor of
    [parseRecord]) can leave the range and are written with [GoInt.add].
    A length, a length plus or minus one, a loop counter below a length, and
    a difference the code takes under a guard that bounds it
    ([fl - n] with [n <= fl], [width - len - 1] with [len + 1 < width],
    [width - 1] with [width <= len]) stay in range and are written with the
    plain operations. *)

Module GoInt.

Definition min_int : Z := - 2 ^ 63.
Definition max_int : Z := 2 ^ 63 - 1.

Definition in_range (z : Z) : Prop := min_int <= z <= max_int.

Definition wrap (z : Z) : Z := (z + 2 ^ 63) mod 2 ^ 64 - 2 ^ 63.

Definition add (a b : Z) : Z := wrap (a + b).

End GoInt.

(** ** Bytes, strings, slices *)

Definition byte := ascii.
Definition gostring := list byte.

Definition byteZ (b : byte) : Z := Z.of_N (N_of_ascii b).
Definition byte_of_Z (z : Z) : byte := ascii_of_N (Z.to_N (z mod 256)).

Definition CR : byte := byte_of_Z 13.
Definition LF : byte := byte_of_Z 10.
Definition SP : byte := " "%char.
Definition TAB : byte := byte_of_Z 9.

Definition str (s : string) : gostring := list_ascii_of_string s.

Definition len {A : Type} (s : list A) : Z := Z.of_nat (List.length s).

(** ** Outcomes: a call returns, panics, or never comes back *)

Inductive panic : Type :=
| IndexOutOfRange
| SliceBoundsOutOfRange
| MakesliceLenOutOfRange
| MakesliceCapOutOfRange.

Inductive outcome (A : Type) : Type :=
| Returns (a : A)
| Panics (p : panic)
| Spins.

Arguments Returns {A} a.
Arguments Panics {A} p.
Arguments Spins {A}.

Definition bind {A B : Type} (m : outcome A) (k : A -> outcome B) : outcome B :=
  match m with
  | Returns a => k a
  | Panics p => Panics p
  | Spins => Spins
  end.

Declare Scope outcome_scope.
Delimit Scope outcome_scope with outcome.
Notation "x <- m ;; k" := (bind m (fun x => k))
  (at level 61, m at next level, right associativity) : outcome_scope.
Notation "' pat <- m ;; k" := (bind m (fun x => match x with pat => k end))
  (at level 61, pat pattern, m at next level, right associativity) : outcome_scope.
Open Scope outcome_scope.

(** [s[i]]: panics outside [0 <= i < len(s)]. *)
Definition index {A : Type} (s : list A) (i : Z) : outcome A :=
  if (i <? 0) || (len s <=? i) then Panics IndexOutOfRange
  else match nth_error s (Z.to_nat i) with
       | Some a => Returns a
       | None => Panics IndexOutOfRange
       end.

(** [s[lo:hi]]: panics unless [0 <= lo <= hi <= len(s)]. *)
Definition slice {A : Type} (s : list A) (lo hi : Z) : outcome (list A) :=
  if (0 <=? lo) && (lo <=? hi) && (hi <=? len s)
  then Returns (firstn (Z.to_nat (hi - lo)) (skipn (Z.to_nat lo) s))
  else Panics SliceBoundsOutOfRange.

(** [make([]byte, n)]: zero bytes; panics on a negative length. *)
Definition make_bytes (n : Z) : outcome (list byte) :=
  if n <? 0 then Panics MakesliceLenOutOfRange
  else Returns (repeat zero (Z.to_nat n)).

(** ** Errors *)

(** [errors.New(msg)] and [ParseError]; [%d] prints a decimal. *)
Inductive error : Type :=
| errorString (msg : string)
| ParseError (Line Column : Z) (Err : error).

Definition itoa (z : Z) : string := NilZero.string_of_int (Z.to_int z).

Fixpoint Error (e : error) : string :=
  match e with
  | errorString msg => msg
  | ParseError l c e' =>
      ("line " ++ itoa l ++ ", column " ++ itoa c ++ ": " ++ Error e')%string
  end.

Definition ErrFieldCount : error := errorString "wrong number of fields in line".
Definition ErrNoFields : error := errorString "no fields defined to read".
Definition ErrFieldLengthError : error := errorString "fields width incorrect".
Definition ErrIncorrectLineWidth : error := errorString "incorrect line width".
Definition ErrNotEnoughLines : error := errorString "not enough lines".

(** [io.EOF]. *)
Definition EOF : error := errorString "EOF".

(** ** Constants of the package *)

Definition EOLNONE : Z := 0.
Definition EOLCR : Z := 1.
Definition EOLLF : Z := 2.
Definition EOLCRLF : Z := 3.

Definition ALIGNLEFT : Z := 0.
Definition ALIGNRIGHT : Z := 1.

(** ** The standard library the package calls *)

(** [unicode/utf8]: [EncodeRune], on the rune seen as a [uint32]. *)
Module utf8.

Definition RuneError : Z := 65533.
Definition MaxRune : Z := 1114111.
Definition surrogateMin : Z := 55296.
Definition surrogateMax : Z := 57343.

Definition enc3 (r : Z) : list byte :=
  [ byte_of_Z (Z.lor 224 (Z.shiftr r 12));
    byte_of_Z (Z.lor 128 (Z.land (Z.shiftr r 6) 63));
    byte_of_Z (Z.lor 128 (Z.land r 63)) ].

Definition EncodeRune (r : Z) : list byte :=
  let i := r mod 2 ^ 32 in
  if i <=? 127 then [ byte_of_Z r ]
  else if i <=? 2047 then
    [ byte_of_Z (Z.lor 192 (Z.shiftr r 6));
      byte_of_Z (Z.lor 128 (Z.land r 63)) ]
  else if (MaxRune <? i) || ((surrogateMin <=? i) && (i <=? surrogateMax))
  then enc3 RuneError
  else if i <=? 65535 then enc3 r
  else
    [ byte_of_Z (Z.lor 240 (Z.shiftr r 18));
      byte_of_Z (Z.lor 128 (Z.land (Z.shiftr r 12) 63));
      byte_of_Z (Z.lor 128 (Z.land (Z.shiftr r 6) 63));
      byte_of_Z (Z.lor 128 (Z.land r 63)) ].

(** [DecodeRuneInString], with the table [first] and its accept ranges
    read as: the size of the sequence a first byte opens, and the bounds
    of the second byte. *)
Definition locb : Z := 128.
Definition hicb : Z := 191.

Definition lead (s0 : Z) : option (nat * Z * Z) :=
  if (194 <=? s0) && (s0 <=? 223) then Some (2%nat, locb, hicb)
  else if s0 =? 224 then Some (3%nat, 160, hicb)
  else if (225 <=? s0) && (s0 <=? 236) then Some (3%nat, locb, hicb)
  else if s0 =? 237 then Some (3%nat, locb, 159)
  else if (238 <=? s0) && (s0 <=? 239) then Some (3%nat, locb, hicb)
  else if s0 =? 240 then Some (4%nat, 144, hicb)
  else if (241 <=? s0) && (s0 <=? 243) then Some (4%nat, locb, hicb)
  else if s0 =? 244 then Some (4%nat, locb, 143)
  else None.

Definition DecodeRuneInString (s : gostring) : Z * nat :=
  match s with
  | [] => (RuneError, 0%nat)
  | b0 :: t =>
      let s0 := byteZ b0 in
      if s0 <? 128 then (s0, 1%nat)
      else
        match lead s0 with
        | None => (RuneError, 1%nat)
        | Some (sz, lo, hi) =>
            match t with
            | [] => (RuneError, 1%nat)
            | b1 :: t1 =>
                let s1 := byteZ b1 in
                if (List.length s <? sz)%nat then (RuneError, 1%nat)
                else if (s1 <? lo) || (hi <? s1) then (RuneError, 1%nat)
                else if (sz <=? 2)%nat
                then (Z.lor (Z.shiftl (Z.land s0 31) 6) (Z.land s1 63), 2%nat)
                else
                  match t1 with
                  | [] => (RuneError, 1%nat)
                  | b2 :: t2 =>
                      let s2 := byteZ b2 in
                      if (s2 <? locb) || (hicb <? s2) then (RuneError, 1%nat)
                      else if (sz <=? 3)%nat
                      then (Z.lor (Z.lor (Z.shiftl (Z.land s0 15) 12)
                                         (Z.shiftl (Z.land s1 63) 6))
                                  (Z.land s2 63), 3%nat)
                      else
                        match t2 with
                        | [] => (RuneError, 1%nat)
                        | b3 :: _ =>
                            let s3 := byteZ b3 in
                            if (s3 <? locb) || (hicb <? s3)
                            then (RuneError, 1%nat)
                            else (Z.lor (Z.lor (Z.lor
                                    (Z.shiftl (Z.land s0 7) 18)
                                    (Z.shiftl (Z.land s1 63) 12))
                                    (Z.shiftl (Z.land s2 63) 6))
                                    (Z.land s3 63), 4%nat)
                        end
                  end
            end
        end
  end.

(** [for _, val := range s]: the runes of a string, one for each valid
    sequence and [RuneError] for each byte that opens none; [skip] bytes
    of the sequence decoded last are still to be passed over. *)
Fixpoint rangeRunes (s : gostring) (skip : nat) : list Z :=
  match s with
  | [] => []
  | b :: t =>
      match skip with
      | S k => rangeRunes t k
      | O =>
          let '(r, size) := DecodeRuneInString s in
          r :: rangeRunes t (size - 1)
      end
  end.

End utf8.

(** [strings.Trim] with a cutset of ASCII bytes: bytes of the cutset are
    removed at the right end, then at the left end. *)
Module strings.

Definition inCutset (cutset : gostring) (b : byte) : bool :=
  existsb (Ascii.eqb b) cutset.

Fixpoint TrimLeft (s cutset : gostring) : gostring :=
  match s with
  | [] => []
  | b :: s' => if inCutset cutset b then TrimLeft s' cutset else s
  end.

Definition TrimRight (s cutset : gostring) : gostring :=
  rev (TrimLeft (rev s) cutset).

Definition Trim (s cutset : gostring) : gostring :=
  TrimLeft (TrimRight s cutset) cutset.

End strings.

(** [bufio], over an in-memory source and an in-memory sink.

    The source (a [strings.Reader], a [bytes.Buffer]) hands over, at each
    read, as many bytes as are asked for and as it has left, and reports
    [io.EOF] once it has none.  A [bufio.Reader] is the bytes it has taken
    from the source and not handed out yet, [buf], at most
    [defaultBufSize] of them, and the bytes still in the source, [src].
    Between two calls no error is pending.

    A [bufio.Writer] is the sequence of bytes written so far; a write to
    such a sink never fails. *)
Module bufio.

Definition defaultBufSize : Z := 4096.

Record Reader : Type := mkReader {
  buf : list byte;
  src : list byte
}.

Definition NewReader (rd : list byte) : Reader := mkReader [] rd.

(** The bytes not read yet. *)
Definition unread (b : Reader) : list byte := buf b ++ src b.

Definition Writer := list byte.

(** [bytes.IndexByte], as the parts before and after the first [delim]. *)
Fixpoint cut (delim : byte) (l : list byte) : option (list byte * list byte) :=
  match l with
  | [] => None
  | c :: l' =>
      if Ascii.eqb c delim then Some ([], l')
      else match cut delim l' with
           | Some (pre, post) => Some (c :: pre, post)
           | None => None
           end
  end.

(** [fill]: the buffer takes what the source gives for the room it has. *)
Definition fill (b : Reader) : Reader :=
  let k := Z.to_nat (Z.min (defaultBufSize - len (buf b)) (len (src b))) in
  mkReader (buf b ++ firstn k (src b)) (skipn k (src b)).

(** [ReadString], that is the rounds of [ReadSlice] under
    [collectFragments]: the delimiter is in the buffer; or the source is
    at its end and what is left comes back with [io.EOF]; or the buffer is
    full, goes to the fragments [acc] and is emptied; or the buffer is
    filled.  [io.ErrNoProgress] is what [fill] reports when reading makes
    no progress. *)
Fixpoint readFragments (fuel : nat) (delim : byte) (acc : list byte)
         (b : Reader) : gostring * option error * Reader :=
  match fuel with
  | O => (acc, Some (errorString "multiple Read calls return no data or error"), b)
  | S fuel' =>
      match cut delim (buf b) with
      | Some (pre, post) => (acc ++ pre ++ [delim], None, mkReader post (src b))
      | None =>
          match src b with
          | [] => (acc ++ buf b, Some EOF, mkReader [] [])
          | _ :: _ =>
              if defaultBufSize <=? len (buf b)
              then readFragments fuel' delim (acc ++ buf b) (mkReader [] (src b))
              else readFragments fuel' delim acc (fill b)
          end
      end
  end.

Definition ReadString (delim : byte) (b : Reader)
  : gostring * option error * Reader :=
  readFragments (2 * List.length (src b) + 2) delim [] b.

(** [ReadByte]: from the buffer, filled first when it is empty. *)
Definition ReadByte (b : Reader) : byte * option error * Reader :=
  match buf b with
  | c :: l => (c, None, mkReader l (src b))
  | [] =>
      match src b with
      | [] => (zero, Some EOF, b)
      | _ :: _ =>
          match buf (fill b) with
          | c :: l => (c, None, mkReader l (src (fill b)))
          | [] => (zero, Some EOF, b)
          end
      end
  end.

(** [Read(p)]: copies into the front of [p], and the rest of [p] keeps
    what it held.  What is copied comes from the buffer when it holds
    bytes, and otherwise from one read of the source, into [p] itself
    when [p] is at least as large as the buffer, and else into the
    buffer; so fewer than [len(p)] bytes may come. *)
Definition Read (p : list byte) (b : Reader)
  : list byte * Z * option error * Reader :=
  match p with
  | [] => (p, 0, None, b)
  | _ :: _ =>
      match buf b with
      | _ :: _ =>
          let n := Nat.min (List.length p) (List.length (buf b)) in
          (firstn n (buf b) ++ skipn n p, Z.of_nat n, None,
           mkReader (skipn n (buf b)) (src b))
      | [] =>
          match src b with
          | [] => (p, 0, Some EOF, b)
          | _ :: _ =>
              if defaultBufSize <=? len p then
                let n := Nat.min (List.length p) (List.length (src b)) in
                (firstn n (src b) ++ skipn n p, Z.of_nat n, None,
                 mkReader [] (skipn n (src b)))
              else
                let b' := fill b in
                let n := Nat.min (List.length p) (List.length (buf b')) in
                (firstn n (buf b') ++ skipn n p, Z.of_nat n, None,
                 mkReader (skipn n (buf b')) (src b'))
          end
      end
  end.

Definition Write (p : list byte) (w : Writer) : Z * option error * Writer :=
  (len p, None, w ++ p).

Definition WriteString (s : gostring) (w : Writer)
  : Z * option error * Writer :=
  (len s, None, w ++ s).

Definition WriteByte (c : byte) (w : Writer) : option error * Writer :=
  (None, w ++ [c]).

Definition WriteRune (r : Z) (w : Writer) : Z * option error * Writer :=
  let enc := utf8.EncodeRune r in (len enc, None, w ++ enc).

Definition Flush (w : Writer) : option error * Writer := (None, w).

End bufio.

(** ** The Reader *)

Module Reader.

(** The struct, with the process's standard output next to it:
    [parseRecord] prints a diagnostic there. *)
Record t : Type := mk {
  Comment : Z;
  SkipLines : Z;
  SkipStart : Z;
  SkipEnd : Z;
  FieldLengths : list Z;
  FieldAlign : option (list Z);   (* [None] is the nil slice *)
  TrimFields : bool;
  HasEOL : Z;
  width : Z;
  line : Z;
  column : Z;
  initialskipdone : bool;
  r : bufio.Reader;
  stdout : list string
}.

Definition set_SkipStart (x : t) (v : Z) : t :=
  mk (Comment x) (SkipLines x) v (SkipEnd x) (FieldLengths x) (FieldAlign x)
     (TrimFields x) (HasEOL x) (width x) (line x) (column x)
     (initialskipdone x) (r x) (stdout x).

Definition set_SkipEnd (x : t) (v : Z) : t :=
  mk (Comment x) (SkipLines x) (SkipStart x) v (FieldLengths x) (FieldAlign x)
     (TrimFields x) (HasEOL x) (width x) (line x) (column x)
     (initialskipdone x) (r x) (stdout x).

Definition set_FieldAlign (x : t) (v : option (list Z)) : t :=
  mk (Comment x) (SkipLines x) (SkipStart x) (SkipEnd x) (FieldLengths x) v
     (TrimFields x) (HasEOL x) (width x) (line x) (column x)
     (initialskipdone x) (r x) (stdout x).

Definition set_width (x : t) (v : Z) : t :=
  mk (Comment x) (SkipLines x) (SkipStart x) (SkipEnd x) (FieldLengths x)
     (FieldAlign x) (TrimFields x) (HasEOL x) v (line x) (column x)
     (initialskipdone x) (r x) (stdout x).

Definition set_initialskipdone (x : t) (v : bool) : t :=
  mk (Comment x) (SkipLines x) (SkipStart x) (SkipEnd x) (FieldLengths x)
     (FieldAlign x) (TrimFields x) (HasEOL x) (width x) (line x) (column x)
     v (r x) (stdout x).

Definition set_r (x : t) (v : bufio.Reader) : t :=
  mk (Comment x) (SkipLines x) (SkipStart x) (SkipEnd x) (FieldLengths x)
     (FieldAlign x) (TrimFields x) (HasEOL x) (width x) (line x) (column x)
     (initialskipdone x) v (stdout x).

Definition printf (x : t) (s : string) : t :=
  mk (Comment x) (SkipLines x) (SkipStart x) (SkipEnd x) (FieldLengths x)
     (FieldAlign x) (TrimFields x) (HasEOL x) (width x) (line x) (column x)
     (initialskipdone x) (r x) (stdout x ++ [s]).

(** [readLine]: the next line, by the kind of line delimiter (or none). *)
Definition readLine (x : t) : outcome (gostring * option error * t) :=
  if HasEOL x =? EOLCR then
    let '(tmp, err, b) := bufio.ReadString CR (r x) in
    match err with
    | Some e => Returns (tmp, Some e, set_r x b)
    | None =>
        res <- slice tmp 0 (len tmp - 1) ;;
        Returns (res, None, set_r x b)
    end
  else if HasEOL x =? EOLLF then
    let '(tmp, err, b) := bufio.ReadString LF (r x) in
    match err with
    | Some e => Returns (tmp, Some e, set_r x b)
    | None =>
        res <- slice tmp 0 (len tmp - 1) ;;
        Returns (res, None, set_r x b)
    end
  else if HasEOL x =? EOLCRLF then
    let '(tmp, err, b) := bufio.ReadString CR (r x) in
    match err with
    | Some e => Returns (tmp, Some e, set_r x b)
    | None =>
        let '(c, err, b') := bufio.ReadByte b in
        match err with
        | Some e => Returns (tmp, Some e, set_r x b')
        | None =>
            if byteZ c =? 10 then Returns (tmp, None, set_r x b')
            else
              res <- slice tmp 0 (len tmp - 1) ;;
              Returns (res, Some (errorString "CRLF not found at end of line"),
                       set_r x b')
        end
    end
  else if HasEOL x =? EOLNONE then
    tmp2 <- make_bytes (width x) ;;
    let '(tmp2', _, err, b) := bufio.Read tmp2 (r x) in
    match err with
    | Some e => Returns ([], Some e, set_r x b)
    | None => Returns (tmp2', None, set_r x b)
    end
  else Returns ([], Some (errorString "Nothing to return"), x).

(** The loop of [Init] over [FieldLengths]: the first length that is not
    positive stops it, with the width summed so far. *)
Fixpoint sumWidth (w : Z) (fl : list Z) : Z * option error :=
  match fl with
  | [] => (w, None)
  | val :: fl' =>
      if val <=? 0 then (w, Some ErrFieldLengthError)
      else sumWidth (GoInt.add w val) fl'
  end.

Definition Init (x : t) : option error * t :=
  let x := if SkipStart x <? 0 then set_SkipStart x 0 else x in
  let x := if SkipEnd x <? 0 then set_SkipEnd x 0 else x in
  let x := set_width x (GoInt.add (SkipStart x) (SkipEnd x)) in
  if len (FieldLengths x) =? 0 then (Some ErrNoFields, x)
  else
    let '(w, err) := sumWidth (width x) (FieldLengths x) in
    let x := set_width x w in
    match err with
    | Some e => (Some e, x)
    | None =>
        match FieldAlign x with
        | None =>
            (None, set_FieldAlign x
                     (Some (repeat ALIGNLEFT (List.length (FieldLengths x)))))
        | Some _ => (None, x)
        end
    end.

(** [NewReader]: the result of [Init] is dropped. *)
Definition NewReader (src : list byte) : t :=
  let tmp := mk 0 0 0 0 [] None false EOLCRLF 0 0 0 false
               (bufio.NewReader src) [] in
  snd (Init tmp).

Definition error_ (x : t) (err : error) : error :=
  ParseError (line x) (column x) err.

(** The loop [for rune(tmp[0]) == r.Comment {...}] of [parseRecord]. *)
Fixpoint skipComments (fuel : nat) (x : t) (tmp : gostring)
  : outcome (gostring * option error * t) :=
  match fuel with
  | O => Spins
  | S fuel' =>
      c <- index tmp 0 ;;
      if byteZ c =? Comment x then
        ' (tmp', err, x') <- readLine x ;;
        match err with
        | Some e => Returns (tmp', Some e, x')
        | None => skipComments fuel' x' tmp'
        end
      else Returns (tmp, None, x)
  end.

(** [for _, val := range tmp { if val == 13 || val == 10 ... } }], over the
    runes of the line. *)
Definition hasCRorLF (tmp : gostring) : bool :=
  existsb (fun val => (val =? 13) || (val =? 10)) (utf8.rangeRunes tmp 0).

(** The loop of [parseRecord] that cuts the fields out of the line. *)
Fixpoint extractFields (trim : bool) (tmp : gostring) (curpos : Z)
         (fl : list Z) (result : list gostring) : outcome (list gostring) :=
  match fl with
  | [] => Returns result
  | val :: fl' =>
      field <- slice tmp curpos (GoInt.add curpos val) ;;
      let field := if trim then strings.Trim field [SP; TAB] else field in
      extractFields trim tmp (GoInt.add curpos val) fl' (result ++ [field])
  end.

(** [parseRecord], first part: the test
    [r.Comment != 0 && rune(tmp[0]) == r.Comment] and the loop under it. *)
Definition dropComments (x : t) (tmp : gostring)
  : outcome (gostring * option error * t) :=
  if negb (Comment x =? 0) then
    c <- index tmp 0 ;;
    if byteZ c =? Comment x
    then skipComments (S (List.length (bufio.unread (r x)))) x tmp
    else Returns (tmp, None, x)
  else Returns (tmp, None, x).

(** [parseRecord], second part: the check of the width, the search for
    CR and LF, and the fields. *)
Definition cutLine (x : t) (tmp : gostring)
  : outcome (list gostring * option error * t) :=
  if negb (len tmp =? width x)
  then Returns ([], Some ErrIncorrectLineWidth, x)
  else if hasCRorLF tmp
  then Returns ([], Some ErrIncorrectLineWidth, printf x "Contains cr or lf")
  else
    result <- extractFields (TrimFields x) tmp (SkipStart x)
                            (FieldLengths x) [] ;;
    Returns (result, None, x).

Definition parseRecord (x : t) : outcome (list gostring * option error * t) :=
  ' (tmp, err, x) <- readLine x ;;
  match err with
  | Some e => Returns ([], Some e, x)
  | None =>
      ' (tmp, err, x) <- dropComments x tmp ;;
      match err with
      | Some e => Returns ([], Some e, x)
      | None => cutLine x tmp
      end
  end.

Fixpoint skipLoop (n : nat) (x : t) : outcome (option error * t) :=
  match n with
  | O => Returns (None, x)
  | S n' =>
      ' (_, err, x') <- readLine x ;;
      match err with
      | Some e => Returns (Some e, x')
      | None => skipLoop n' x'
      end
  end.

Definition skipInitialLines (x : t) : outcome (option error * t) :=
  ' (err, x') <- skipLoop (Z.to_nat (SkipLines x)) x ;;
  match err with
  | Some e => Returns (Some e, x')
  | None => Returns (None, set_initialskipdone x' true)
  end.

(** The test [if !r.initialskipdone {...}] that opens the three readers. *)
Definition initialSkip (x : t) : outcome (option error * t) :=
  if negb (initialskipdone x) then skipInitialLines x
  else Returns (None, x).

Definition Read (x : t) : outcome (list gostring * option error * t) :=
  ' (err, x) <- initialSkip x ;;
  match err with
  | Some e => Returns ([], Some (error_ x e), x)
  | None => parseRecord x
  end.

Fixpoint readRowsLoop (n : nat) (x : t) (result : list (list gostring))
  : outcome (list (list gostring) * option error * t) :=
  match n with
  | O => Returns (result, None, x)
  | S n' =>
      ' (record, err, x') <- parseRecord x ;;
      match err with
      | Some e => Returns (result, Some (error_ x' e), x')
      | None => readRowsLoop n' x' (result ++ [record])
      end
  end.

(** [make([][]string, 0, numOfRows)] panics on a negative capacity. *)
Definition ReadRows (x : t) (numOfRows : Z)
  : outcome (list (list gostring) * option error * t) :=
  ' (err, x) <- initialSkip x ;;
  match err with
  | Some e => Returns ([], Some (error_ x e), x)
  | None =>
      if numOfRows <? 0 then Panics MakesliceCapOutOfRange
      else readRowsLoop (Z.to_nat numOfRows) x []
  end.

(** The loop [for {...}] of [ReadAll]; [Spins] when [fuel] rounds were
    not enough. *)
Fixpoint readAllLoop (fuel : nat) (x : t) (result : list (list gostring))
  : outcome (list (list gostring) * option error * t) :=
  match fuel with
  | O => Spins
  | S fuel' =>
      ' (record, err, x') <- parseRecord x ;;
      match err with
      | Some e =>
          if String.eqb (Error e) "EOF" then Returns (result, None, x')
          else Returns (result, Some e, x')
      | None => readAllLoop fuel' x' (result ++ [record])
      end
  end.

(** A round that returns a record either takes bytes off the input or
    leaves the reader as it was, so [S (len input)] rounds decide. *)
Definition ReadAll (x : t)
  : outcome (list (list gostring) * option error * t) :=
  ' (err, x) <- initialSkip x ;;
  match err with
  | Some e => Returns ([], Some (error_ x e), x)
  | None => readAllLoop (S (List.length (bufio.unread (r x)))) x []
  end.

End Reader.

(** ** The Writer *)

Module Writer.

Record t : Type := mk {
  Comment : Z;
  SkipStart : Z;
  SkipEnd : Z;
  FieldLengths : list Z;
  FieldAlign : option (list Z);   (* [None] is the nil slice *)
  HasEOL : Z;
  TrimFields : bool;
  width : Z;
  line : Z;
  column : Z;
  w : bufio.Writer
}.

Definition set_SkipStart (x : t) (v : Z) : t :=
  mk (Comment x) v (SkipEnd x) (FieldLengths x) (FieldAlign x) (HasEOL x)
     (TrimFields x) (width x) (line x) (column x) (w x).

Definition set_SkipEnd (x : t) (v : Z) : t :=
  mk (Comment x) (SkipStart x) v (FieldLengths x) (FieldAlign x) (HasEOL x)
     (TrimFields x) (width x) (line x) (column x) (w x).

Definition set_FieldAlign (x : t) (v : option (list Z)) : t :=
  mk (Comment x) (SkipStart x) (SkipEnd x) (FieldLengths x) v (HasEOL x)
     (TrimFields x) (width x) (line x) (column x) (w x).

Definition set_FieldLengths (x : t) (v : list Z) : t :=
  mk (Comment x) (SkipStart x) (SkipEnd x) v (FieldAlign x) (HasEOL x)
     (TrimFields x) (width x) (line x) (column x) (w x).

Definition set_width (x : t) (v : Z) : t :=
  mk (Comment x) (SkipStart x) (SkipEnd x) (FieldLengths x) (FieldAlign x)
     (HasEOL x) (TrimFields x) v (line x) (column x) (w x).

Definition set_w (x : t) (v : bufio.Writer) : t :=
  mk (Comment x) (SkipStart x) (SkipEnd x) (FieldLengths x) (FieldAlign x)
     (HasEOL x) (TrimFields x) (width x) (line x) (column x) v.

Fixpoint sumWidth (wd : Z) (fl : list Z) : Z * option error :=
  match fl with
  | [] => (wd, None)
  | val :: fl' =>
      if val <=? 0 then (wd, Some ErrFieldLengthError)
      else sumWidth (GoInt.add wd val) fl'
  end.

Definition Init (x : t) : option error * t :=
  let x := if SkipStart x <? 0 then set_SkipStart x 0 else x in
  let x := if SkipEnd x <? 0 then set_SkipEnd x 0 else x in
  let x := set_width x (GoInt.add (SkipStart x) (SkipEnd x)) in
  if len (FieldLengths x) =? 0 then (Some ErrNoFields, x)
  else
    let '(wd, err) := sumWidth (width x) (FieldLengths x) in
    let x := set_width x wd in
    match err with
    | Some e => (Some e, x)
    | None =>
        match FieldAlign x with
        | None =>
            (None, set_FieldAlign x
                     (Some (repeat ALIGNLEFT (List.length (FieldLengths x)))))
        | Some _ => (None, x)
        end
    end.

(** [NewWriter]: the result of [Init] is dropped. *)
Definition NewWriter (sink : list byte) : t :=
  let tmp := mk 0 0 0 [] None EOLCR false 0 0 0 sink in
  snd (Init tmp).

Definition error_ (x : t) (err : error) : error :=
  ParseError (line x) (column x) err.

(** [for n > 0 { WriteByte(' '); n-- }]. *)
Definition outputSpaces (x : t) (n : Z) : t :=
  set_w x (w x ++ repeat SP (Z.to_nat n)).

(** [w.FieldAlign[i]]. *)
Definition alignAt (x : t) (i : Z) : outcome Z :=
  match FieldAlign x with
  | None => Panics IndexOutOfRange
  | Some fa => index fa i
  end.

(** The line delimiter, as [Write] and [WriteComment] put it out. *)
Definition outputEOL (x : t) : t :=
  if negb (HasEOL x =? EOLNONE) then
    let x := if (HasEOL x =? EOLCR) || (HasEOL x =? EOLCRLF)
             then set_w x (snd (bufio.WriteByte CR (w x))) else x in
    let x := if (HasEOL x =? EOLLF) || (HasEOL x =? EOLCRLF)
             then set_w x (snd (bufio.WriteByte LF (w x))) else x in
    x
  else x.

(** The body of the loop of [Write] for field [i]: an error to return, or
    [None] to go on. *)
Definition writeField (x : t) (flds : list gostring) (i : Z)
  : outcome (option error * t) :=
  buf <- index flds i ;;
  fl <- index (FieldLengths x) i ;;
  if len buf >? fl then
    if negb (TrimFields x) then Returns (Some ErrFieldLengthError, x)
    else
      p <- slice buf 0 fl ;;
      let '(n, err, o) := bufio.Write p (w x) in
      let x := set_w x o in
      match err with
      | Some e => Returns (Some e, x)
      | None =>
          if negb (n =? fl) then Returns (Some ErrFieldLengthError, x)
          else Returns (None, x)
      end
  else
    let n := len buf in
    a <- alignAt x i ;;
    let x := if a =? ALIGNRIGHT then outputSpaces x (fl - n) else x in
    let '(_, err, o) := bufio.Write buf (w x) in
    let x := set_w x o in
    match err with
    | Some e => Returns (Some e, x)
    | None =>
        if negb (n =? len buf) then Returns (Some ErrFieldLengthError, x)
        else
          a <- alignAt x i ;;
          let x := if a =? ALIGNLEFT
                   then outputSpaces x (fl - n) else x in
          Returns (None, x)
    end.

(** [for i := 0; i < len(flds); i++], with [n] rounds left. *)
Fixpoint writeLoop (n : nat) (x : t) (flds : list gostring) (i : Z)
  : outcome (option error * t) :=
  match n with
  | O => Returns (None, x)
  | S n' =>
      ' (err, x') <- writeField x flds i ;;
      match err with
      | Some e => Returns (Some e, x')
      | None => writeLoop n' x' flds (i + 1)
      end
  end.

Definition Write (x : t) (flds : list gostring) : outcome (option error * t) :=
  let x := outputSpaces x (SkipStart x) in
  if negb (len flds =? len (FieldLengths x)) then Returns (Some ErrFieldCount, x)
  else
    ' (err, x) <- writeLoop (List.length flds) x flds 0 ;;
    match err with
    | Some e => Returns (Some e, x)
    | None =>
        let x := outputSpaces x (SkipEnd x) in
        Returns (None, outputEOL x)
    end.

Fixpoint WriteAll_loop (x : t) (recs : list (list gostring))
  : outcome (option error * t) :=
  match recs with
  | [] => Returns (None, x)
  | record :: recs' =>
      ' (err, x') <- Write x record ;;
      match err with
      | Some e => Returns (Some e, x')
      | None => WriteAll_loop x' recs'
      end
  end.

Definition Flush (x : t) : t := set_w x (snd (bufio.Flush (w x))).

Definition WriteAll (x : t) (recs : list (list gostring))
  : outcome (option error * t) :=
  ' (err, x) <- WriteAll_loop x recs ;;
  match err with
  | Some e => Returns (Some e, x)
  | None => Returns (None, Flush x)
  end.

Definition WriteComment (x : t) (line : gostring) : outcome (option error * t) :=
  if negb (Comment x =? 0) then
    let '(_, err, o) := bufio.WriteRune (Comment x) (w x) in
    let x := set_w x o in
    match err with
    | Some e => Returns (Some e, x)
    | None =>
        line <- (if len line + 1 >? width x
                 then slice line 0 (width x - 1)
                 else Returns line) ;;
        let '(_, err, o) := bufio.WriteString line (w x) in
        let x := set_w x o in
        let x := if len line + 1 <? width x
                 then outputSpaces x (width x - len line - 1)
                 else x in
        match err with
        | Some e => Returns (Some e, x)
        | None => Returns (None, outputEOL x)
        end
    end
  else Returns (None, x).

End Writer.

(** ** Vocabulary of the statements *)

(** [n] spaces, as [outputSpaces] puts them out. *)
Definition spaces (n : Z) : gostring := repeat SP (Z.to_nat n).

(** The bytes [outputEOL] appends for a line-ending mode. *)
Definition eolBytes (mode : Z) : gostring :=
  (if (mode =? EOLCR) || (mode =? EOLCRLF) then [CR] else []) ++
  (if (mode =? EOLLF) || (mode =? EOLCRLF) then [LF] else []).

(** What [Write] puts out for one field that is no longer than its column. *)
Definition padded (align fl : Z) (f : gostring) : gostring :=
  if align =? ALIGNRIGHT then spaces (fl - len f) ++ f
  else if align =? ALIGNLEFT then f ++ spaces (fl - len f)
  else f.

(** What [Write] puts out for one field when [TrimFields] is set. *)
Definition cell (align fl : Z) (f : gostring) : gostring :=
  if len f >? fl then firstn (Z.to_nat fl) f else padded align fl f.

Fixpoint cells (fa fl : list Z) (flds : list gostring) : list gostring :=
  match fa, fl, flds with
  | a :: fa', n :: fl', f :: flds' => cell a n f :: cells fa' fl' flds'
  | _, _, _ => []
  end.

Definition sumZ (l : list Z) : Z := fold_right Z.add 0 l.

(** A field [Write] takes without an error: no longer than its column, or
    cut to a column of a width that is not negative when [TrimFields] is
    set. *)
Definition fieldOK (trim : bool) (f : gostring) (n : Z) : Prop :=
  len f <= n \/ (trim = true /\ 0 <= n).

(** What [Read] makes of a field that was written padded: the padded
    field, or with [TrimFields] the field without the spaces and tabs at
    its ends. *)
Fixpoint readBack (trim : bool) (fa fl : list Z) (flds : list gostring)
  : list gostring :=
  match fa, fl, flds with
  | a :: fa', n :: fl', f :: flds' =>
      (if trim then strings.Trim f [SP; TAB] else padded a n f)
        :: readBack trim fa' fl' flds'
  | _, _, _ => []
  end.

(** The alignments of a writer, none for the nil slice. *)
Definition alignments (x : Writer.t) : list Z :=
  match Writer.FieldAlign x with
  | Some fa => fa
  | None => []
  end.

(** The line [Write] puts out for a record, before the line ending. *)
Definition writtenLine (x : Writer.t) (flds : list gostring) : gostring :=
  spaces (Writer.SkipStart x) ++
  List.concat (cells (alignments x) (Writer.FieldLengths x) flds) ++
  spaces (Writer.SkipEnd x).

(** A field no longer than its column. *)
Definition fits (f : gostring) (n : Z) : Prop := len f <= n.

(** One of the two alignments. *)
Definition leftOrRight (a : Z) : Prop := a = ALIGNLEFT \/ a = ALIGNRIGHT.

(** A field without CR and LF. *)
Definition clean (f : gostring) : Prop := ~ In CR f /\ ~ In LF f.

(** The first byte of a raw line is the comment marker. *)
Definition startsWith (marker : Z) (tmp : gostring) : Prop :=
  exists c rest, tmp = c :: rest /\ byteZ c = marker.

(** Raw lines read one after the other, each without error. *)
Inductive readsLines : Reader.t -> list gostring -> Reader.t -> Prop :=
| readsLines_nil : forall x, readsLines x [] x
| readsLines_cons : forall x tmp x1 lines x2,
    Reader.readLine x = Returns (tmp, None, x1) ->
    readsLines x1 lines x2 ->
    readsLines x (tmp :: lines) x2.

(** Records parsed one after the other, up to the first failure. *)
Inductive parsesUntil
  : Reader.t -> list (list gostring) -> error -> Reader.t -> Prop :=
| parsesUntil_fail : forall x e x',
    Reader.parseRecord x = Returns ([], Some e, x') ->
    parsesUntil x [] e x'
| parsesUntil_record : forall x record x1 records e x',
    Reader.parseRecord x = Returns (record, None, x1) ->
    parsesUntil x1 records e x' ->
    parsesUntil x (record :: records) e x'.

(** The rounds a [bufio.ReadString] needs at most. *)
Definition rounds (b : bufio.Reader) : nat :=
  2 * List.length (bufio.src b) +
  (if bufio.defaultBufSize <=? len (bufio.buf b) then 1 else 0).

(** The number of bytes a reader has not read yet. *)
Definition pending (x : Reader.t) : nat :=
  List.length (bufio.unread (Reader.r x)).

(** ** Inputs of the examples *)

Module Examples.

(** A [bufio.Reader] that holds [l] in its buffer, over a source at its
    end. *)
Definition buffered (l : list byte) : bufio.Reader := bufio.mkReader l [].

(** A writer no [Init] has seen: no columns, two leading spaces. *)
Definition writerNoFields : Writer.t :=
  Writer.mk 0 2 0 [] None EOLCR false 0 0 0 [].

(** A reader without columns over the one-byte input of a line feed. *)
Definition readerNoFields : Reader.t :=
  Reader.mk 0 0 0 0 [] None false EOLLF 0 0 0 false (bufio.NewReader [LF]) [].

(** One column of two bytes, lines ended by CR LF, over "ab\r\n". *)
Definition readerCRLF : Reader.t :=
  snd (Reader.Init
         (Reader.mk 0 0 0 0 [2] None false EOLCRLF 0 0 0 false
                    (bufio.NewReader (str "ab" ++ [CR; LF])) [])).

(** One column of two bytes, lines ended by LF, over "abc\n". *)
Definition readerLong : Reader.t :=
  snd (Reader.Init
         (Reader.mk 0 0 0 0 [2] None false EOLLF 0 0 0 false
                    (bufio.NewReader (str "abc" ++ [LF])) [])).

(** One column of two bytes, written without trimming. *)
Definition writerOne : Writer.t :=
  snd (Writer.Init (Writer.mk 0 0 0 [2] None EOLLF false 0 0 0 [])).

(** Comment marker '#', lines ended by CR, input starting with a CR. *)
Definition readerLoneCR : Reader.t :=
  snd (Reader.Init
         (Reader.mk 35 0 0 0 [2] None false EOLCR 0 0 0 true
                    (bufio.NewReader (CR :: str "ab" ++ [CR])) [])).

(** Comment marker '#', one column of two bytes, one line to skip, lines
    ended by LF; after the header, two comment lines and a record. *)
Definition readerComments : Reader.t :=
  snd (Reader.Init
         (Reader.mk 35 1 0 0 [2] None false EOLLF 0 0 0 false
                    (bufio.NewReader
                       (str "header" ++ LF :: str "#a" ++ LF ::
                        str "#bcd" ++ LF :: str "xy" ++ [LF]))
                    [])).

(** The same reader with the header behind it, and with the comment
    lines behind it. *)
Definition readerCommentsSkipped : Reader.t :=
  Reader.set_initialskipdone
    (Reader.set_r readerComments
                  (buffered (str "#a" ++ LF :: str "#bcd" ++ LF ::
                             str "xy" ++ [LF])))
    true.

Definition readerCommentsGone : Reader.t :=
  Reader.set_initialskipdone
    (Reader.set_r readerComments (buffered (str "xy" ++ [LF]))) true.

(** One column of two bytes, one line to skip, and an empty input. *)
Definition readerEmptyInput : Reader.t :=
  snd (Reader.Init
         (Reader.mk 0 1 0 0 [2] None false EOLLF 0 0 0 false
                    (bufio.NewReader []) [])).

(** One column of two bytes, one line to skip, lines ended by LF, over
    a header, two records and the end of the input. *)
Definition readerTwoRecords : Reader.t :=
  snd (Reader.Init
         (Reader.mk 0 1 0 0 [2] None false EOLLF 0 0 0 false
                    (bufio.NewReader
                       (str "header" ++ LF :: str "ab" ++ LF ::
                        str "cd" ++ [LF]))
                    [])).

(** Columns of two, three and four bytes, the second aligned right. *)
Definition writerThree (trim : bool) : Writer.t :=
  snd (Writer.Init
         (Writer.mk 0 1 1 [2; 3; 4] (Some [ALIGNLEFT; ALIGNRIGHT; ALIGNLEFT])
                    EOLLF trim 0 0 0 [])).

(** Comment marker '#', one column of five bytes, lines ended by CR. *)
Definition writerComment : Writer.t :=
  snd (Writer.Init (Writer.mk 35 0 0 [5] None EOLCR false 0 0 0 [])).

(** The writer and the reader of one layout: two leading spaces, one
    trailing space, columns of four and three bytes, the second aligned
    right, lines ended by LF. *)
Definition writerPair (trim : bool) : Writer.t :=
  snd (Writer.Init
         (Writer.mk 0 2 1 [4; 3] (Some [ALIGNLEFT; ALIGNRIGHT]) EOLLF trim
                    0 0 0 [])).

Definition readerPair0 (trim : bool) (input : list byte) : Reader.t :=
  Reader.mk 0 0 2 1 [4; 3] None trim EOLLF 0 0 0 false
            (bufio.NewReader input) [].

Definition readerPair (trim : bool) (input : list byte) : Reader.t :=
  snd (Reader.Init (readerPair0 trim input)).

(** The reader of the README: columns of seven and four bytes after two
    bytes to skip, one line to skip, comment marker '#', lines ended by
    LF, fields trimmed. *)
Definition readerReadme : Reader.t :=
  snd (Reader.Init
         (Reader.mk 35 1 2 0 [7; 4] None true EOLLF 0 0 0 false
                    (bufio.NewReader
                       (str "header" ++ LF :: str "# comment" ++ LF ::
                        str "  John   1245" ++ [LF]))
                    [])).

(** The writer of the README: columns of two, twenty and ten bytes. *)
Definition writerReadme : Writer.t :=
  snd (Writer.Init (Writer.mk 0 0 0 [2; 20; 10] None EOLCR true 0 0 0 [])).

(** [NewWriter], then [FieldLengths] set, and no [Init]. *)
Definition writerNoInit : Writer.t :=
  Writer.set_FieldLengths (Writer.NewWriter []) [2].

(** One column of four bytes, no line ending, and a line of which the
    buffer holds the first two bytes and the source the last two. *)
Definition readerNoneSplit : Reader.t :=
  snd (Reader.Init
         (Reader.mk 0 0 0 0 [4] None false EOLNONE 0 0 0 false
                    (bufio.mkReader (str "ab") (str "cd")) [])).

End Examples.

(** ** Vocabulary of the further properties *)

(** The lines [WriteAll] puts out for a list of records, each with its
    line ending. *)
Definition writtenLines (x : Writer.t) (recs : list (list gostring)) : gostring :=
  List.concat
    (map (fun flds => writtenLine x flds ++ eolBytes (Writer.HasEOL x)) recs).

(** The line [WriteComment] puts out for a text, before the line ending:
    the marker, then the text cut or filled up with spaces. *)
Definition commentLine (x : Writer.t) (text : gostring) : gostring :=
  utf8.EncodeRune (Writer.Comment x) ++
  (if len text + 1 >? Writer.width x
   then firstn (Z.to_nat (Writer.width x - 1)) text
   else text ++ spaces (Writer.width x - len text - 1)).

(** A reader as a successful [Init] leaves it: skips that are not
    negative, columns of positive lengths, and as width the two skips and
    the lengths of the columns, within the range of [int]. *)
Definition configured (x : Reader.t) : Prop :=
  0 <= Reader.SkipStart x /\ 0 <= Reader.SkipEnd x /\
  Reader.FieldLengths x <> [] /\
  Forall (fun n => 0 < n) (Reader.FieldLengths x) /\
  Reader.width x =
    Reader.SkipStart x + Reader.SkipEnd x + sumZ (Reader.FieldLengths x) /\
  Reader.width x <= GoInt.max_int.

(** Lines put one behind the other, each with the delimiter [d] behind
    it. *)
Definition joined (d : byte) (lines : list gostring) : gostring :=
  List.concat (map (fun l => l ++ [d]) lines).


(** The capacities that [make([][]string, 0, n)] accepts where [int] has
    64 bits: the slice headers, of 24 bytes each, may take up to
    [maxAlloc] bytes (two to the power of 48). *)
Definition maxAlloc : Z := 2 ^ 48.

(** ** Inputs of the further examples *)

Module Inputs.

(** A reader of one column of two bytes, after its [Init]: comment marker,
    lines to skip, line ending, whether the skipping is done, input. *)
Definition oneColumn (comment skip mode : Z) (done : bool) (input : list byte)
  : Reader.t :=
  snd (Reader.Init
         (Reader.mk comment skip 0 0 [2] None false mode 0 0 0 done
                    (bufio.NewReader input) [])).

End Inputs.

(** * The revision of 28 Sep 2016

    The earlier revision of the package: [HasEOL] is a boolean, the width
    is computed by [updateWidth] at the start of each read call,
    [parseRecord] takes a line off a [bufio.Reader] with [ReadRune],
    [ReadLine], [Read], [ReadByte] and their unread calls, and [Write]
    fills each field up on its right and ends a line with CR LF. *)

Module Rev2016.

(** [bufio.Reader], with what the unread calls and a pending error need:
    [buf] is what is buffered and not read yet, [src] what the source
    still holds, [err] the error of the source that [fill] has met and no
    call has reported yet, [lastByte] the byte that [UnreadByte] would put
    back, and [lastRune] the bytes that [UnreadRune] would put back (none
    for an invalid [lastRuneSize]).  When [lastByte] is valid, the read
    position is behind the start of the buffer or the buffer is empty, and
    [fill] moves the data to the start of the buffer, so that no
    [UnreadRune] can succeed behind it. *)
Module Bufio.

Definition ErrInvalidUnreadByte : error :=
  errorString "bufio: invalid use of UnreadByte".
Definition ErrInvalidUnreadRune : error :=
  errorString "bufio: invalid use of UnreadRune".
Definition ErrBufferFull : error := errorString "bufio: buffer full".
Definition ErrNoProgress : error :=
  errorString "multiple Read calls return no data or error".

Record Reader : Type := mk {
  buf : list byte;
  src : list byte;
  err : option error;
  lastByte : option byte;
  lastRune : list byte
}.

Definition NewReader (rd : list byte) : Reader := mk [] rd None None [].

(** The bytes not read yet. *)
Definition unread (b : Reader) : list byte := buf b ++ src b.

(** [fill]: one read of the source into the room the buffer has left; a
    source at its end gives no byte and [io.EOF]. *)
Definition fill (b : Reader) : Reader :=
  match src b with
  | [] => mk (buf b) [] (Some EOF) (lastByte b) []
  | _ :: _ =>
      let k := Z.to_nat (Z.min (bufio.defaultBufSize - len (buf b))
                               (len (src b))) in
      mk (buf b ++ firstn k (src b)) (skipn k (src b)) (err b) (lastByte b) []
  end.

(** The last byte of a line, for [lastByte]. *)
Definition lastOf (line : list byte) (old : option byte) : option byte :=
  match rev line with
  | c :: _ => Some c
  | [] => old
  end.

(** [Read(p)]: from the buffer when it holds bytes, and otherwise from
    one read of the source, into [p] itself when [p] is at least as large
    as the buffer, and else into the buffer, from its start. *)
Definition Read (p : list byte) (b : Reader)
  : list byte * Z * option error * Reader :=
  match p with
  | [] =>
      match buf b with
      | _ :: _ => (p, 0, None, b)
      | [] => (p, 0, err b, mk (buf b) (src b) None (lastByte b) (lastRune b))
      end
  | _ :: _ =>
      let copy (b : Reader) :=
        let n := Nat.min (List.length p) (List.length (buf b)) in
        (firstn n (buf b) ++ skipn n p, Z.of_nat n, None,
         mk (skipn n (buf b)) (src b) (err b)
            (lastOf (firstn n (buf b)) (lastByte b)) []) in
      match buf b with
      | _ :: _ => copy b
      | [] =>
          match err b with
          | Some e => (p, 0, Some e, mk [] (src b) None (lastByte b) (lastRune b))
          | None =>
              match src b with
              | [] =>
                  if bufio.defaultBufSize <=? len p then (p, 0, Some EOF, b)
                  else (p, 0, Some EOF, mk [] [] None (lastByte b) [])
              | _ :: _ =>
                  if bufio.defaultBufSize <=? len p then
                    let n := Nat.min (List.length p) (List.length (src b)) in
                    (firstn n (src b) ++ skipn n p, Z.of_nat n, None,
                     mk [] (skipn n (src b)) None
                        (lastOf (firstn n (src b)) (lastByte b)) [])
                  else
                    let k := Nat.min (Z.to_nat bufio.defaultBufSize)
                                     (List.length (src b)) in
                    copy (mk (firstn k (src b)) (skipn k (src b)) None
                             (lastByte b) (lastRune b))
              end
          end
      end
  end.

(** [ReadByte]: the loop [for b.r == b.w] ends after one [fill], with a
    byte or with the error of the source. *)
Definition ReadByte (b : Reader) : byte * option error * Reader :=
  let take (b : Reader) :=
    match buf b with
    | c :: l => Some (c, None, mk l (src b) (err b) (Some c) [])
    | [] =>
        match err b with
        | Some e => Some (zero, Some e, mk [] (src b) None (lastByte b) [])
        | None => None
        end
    end in
  match take b with
  | Some res => res
  | None =>
      match take (fill b) with
      | Some res => res
      | None => (zero, Some ErrNoProgress, fill b)
      end
  end.

(** [UnreadByte]. *)
Definition UnreadByte (b : Reader) : option error * Reader :=
  match lastByte b with
  | None => (Some ErrInvalidUnreadByte, b)
  | Some c => (None, mk (c :: buf b) (src b) (err b) None [])
  end.

(** [utf8.FullRune]. *)
Definition FullRune (p : list byte) : bool :=
  match p with
  | [] => false
  | b0 :: t =>
      match utf8.lead (byteZ b0) with
      | None => true
      | Some (sz, lo, hi) =>
          if (sz <=? List.length p)%nat then true
          else
            match t with
            | [] => false
            | b1 :: t1 =>
                if (byteZ b1 <? lo) || (hi <? byteZ b1) then true
                else
                  match t1 with
                  | [] => false
                  | b2 :: _ =>
                      (byteZ b2 <? utf8.locb) || (utf8.hicb <? byteZ b2)
                  end
            end
      end
  end.

(** The loop that opens [ReadRune]: [fill] as long as fewer than
    [utf8.UTFMax] bytes are buffered, they hold no full rune, and no error
    is pending. *)
Fixpoint fillRune (fuel : nat) (b : Reader) : Reader :=
  match fuel with
  | O => b
  | S fuel' =>
      if (len (buf b) <? 4) && negb (FullRune (buf b)) &&
         (match err b with None => true | Some _ => false end) &&
         (len (buf b) <? bufio.defaultBufSize)
      then fillRune fuel' (fill b)
      else b
  end.

(** [ReadRune]: the rune, its size, the error. *)
Definition ReadRune (b : Reader) : Z * Z * option error * Reader :=
  let b := fillRune (S (S (List.length (src b)))) b in
  match buf b with
  | [] => (0, 0, err b, mk [] (src b) None (lastByte b) [])
  | c :: _ =>
      let '(r, size) :=
        if byteZ c <? 128 then (byteZ c, 1%nat)
        else utf8.DecodeRuneInString (buf b) in
      (r, Z.of_nat size, None,
       mk (skipn size (buf b)) (src b) (err b)
          (lastOf (firstn size (buf b)) (lastByte b))
          (firstn size (buf b)))
  end.

(** [UnreadRune]. *)
Definition UnreadRune (b : Reader) : option error * Reader :=
  match lastRune b with
  | [] => (Some ErrInvalidUnreadRune, b)
  | l => (None, mk (l ++ buf b) (src b) (err b) None [])
  end.

(** [ReadSlice]: the rounds of its loop. *)
Fixpoint readSlice (fuel : nat) (delim : byte) (b : Reader)
  : list byte * option error * Reader :=
  match fuel with
  | O => ([], Some ErrNoProgress, b)
  | S fuel' =>
      match bufio.cut delim (buf b) with
      | Some (pre, post) =>
          (pre ++ [delim], None, mk post (src b) (err b) (Some delim) [])
      | None =>
          match err b with
          | Some e =>
              (buf b, Some e,
               mk [] (src b) None (lastOf (buf b) (lastByte b))
                  (match buf b with [] => lastRune b | _ => [] end))
          | None =>
              if bufio.defaultBufSize <=? len (buf b)
              then (buf b, Some ErrBufferFull,
                    mk [] (src b) None (lastOf (buf b) (lastByte b)) [])
              else readSlice fuel' delim (fill b)
          end
      end
  end.

Definition ReadSlice (delim : byte) (b : Reader)
  : list byte * option error * Reader :=
  readSlice (S (S (S (List.length (src b))))) delim b.

(** [ReadLine]: the line, [isPrefix], the error.  A CR at the end of a
    full buffer is put back. *)
Definition ReadLine (b : Reader) : list byte * bool * option error * Reader :=
  let '(line, e, b) := ReadSlice LF b in
  match e with
  | Some (errorString "bufio: buffer full") =>
      match rev line with
      | c :: front =>
          if byteZ c =? 13
          then (rev front, true, None,
                mk (c :: buf b) (src b) (err b) (lastByte b) (lastRune b))
          else (line, true, None, b)
      | [] => (line, true, None, b)
      end
  | _ =>
      match rev line with
      | [] => ([], false, e, b)
      | c :: front =>
          if byteZ c =? 10 then
            match front with
            | c' :: front' =>
                if byteZ c' =? 13 then (rev front', false, None, b)
                else (rev front, false, None, b)
            | [] => (rev front, false, None, b)
            end
          else (line, false, None, b)
      end
  end.

(** [bufio.Writer]: the bytes written so far. *)
Definition Write (p : list byte) (w : list byte) : Z * option error * list byte :=
  (len p, None, w ++ p).

Definition WriteByte (c : byte) (w : list byte) : option error * list byte :=
  (None, w ++ [c]).

Definition Flush (w : list byte) : option error * list byte := (None, w).

End Bufio.

(** The reader of the revision, with the standard output of the process
    next to it. *)
Module Reader.

Record t : Type := mk {
  Comment : Z;
  SkipLines : Z;
  SkipStart : Z;
  SkipEnd : Z;
  FieldLengths : list Z;
  TrimFields : bool;
  HasEOL : bool;
  width : Z;
  line : Z;
  column : Z;
  initialskipdone : bool;
  r : Bufio.Reader;
  stdout : list string
}.

Definition set_SkipStart (x : t) (v : Z) : t :=
  mk (Comment x) (SkipLines x) v (SkipEnd x) (FieldLengths x) (TrimFields x)
     (HasEOL x) (width x) (line x) (column x) (initialskipdone x) (r x)
     (stdout x).

Definition set_SkipEnd (x : t) (v : Z) : t :=
  mk (Comment x) (SkipLines x) (SkipStart x) v (FieldLengths x) (TrimFields x)
     (HasEOL x) (width x) (line x) (column x) (initialskipdone x) (r x)
     (stdout x).

Definition set_width (x : t) (v : Z) : t :=
  mk (Comment x) (SkipLines x) (SkipStart x) (SkipEnd x) (FieldLengths x)
     (TrimFields x) (HasEOL x) v (line x) (column x) (initialskipdone x) (r x)
     (stdout x).

Definition set_initialskipdone (x : t) (v : bool) : t :=
  mk (Comment x) (SkipLines x) (SkipStart x) (SkipEnd x) (FieldLengths x)
     (TrimFields x) (HasEOL x) (width x) (line x) (column x) v (r x)
     (stdout x).

Definition set_r (x : t) (v : Bufio.Reader) : t :=
  mk (Comment x) (SkipLines x) (SkipStart x) (SkipEnd x) (FieldLengths x)
     (TrimFields x) (HasEOL x) (width x) (line x) (column x)
     (initialskipdone x) v (stdout x).

Definition printf (x : t) (s : string) : t :=
  mk (Comment x) (SkipLines x) (SkipStart x) (SkipEnd x) (FieldLengths x)
     (TrimFields x) (HasEOL x) (width x) (line x) (column x)
     (initialskipdone x) (r x) (stdout x ++ [s]).

(** The loop of [updateWidth] over [FieldLengths]. *)
Fixpoint sumWidth (w : Z) (fl : list Z) : Z * option error :=
  match fl with
  | [] => (w, None)
  | val :: fl' =>
      if val <=? 0 then (w, Some ErrFieldLengthError)
      else sumWidth (GoInt.add w val) fl'
  end.

Definition updateWidth (x : t) : option error * t :=
  let x := if SkipStart x <? 0 then set_SkipStart x 0 else x in
  let x := if SkipEnd x <? 0 then set_SkipEnd x 0 else x in
  let x := set_width x (GoInt.add (SkipStart x) (SkipEnd x)) in
  if len (FieldLengths x) =? 0 then (Some ErrNoFields, x)
  else
    let '(w, err) := sumWidth (width x) (FieldLengths x) in
    let x := set_width x w in
    match err with
    | Some e => (Some e, x)
    | None => (None, x)
    end.

Definition NewReader (src : list byte) : t :=
  mk 0 0 0 0 [] false true 0 0 0 false (Bufio.NewReader src) [].

Definition error_ (x : t) (err : error) : error :=
  ParseError (line x) (column x) err.

(** The loop [for b == r.Comment {...}] of [parseRecord], entered with the
    rune [b] that [ReadRune] has returned; it hands back the error to
    return, if any. *)
Fixpoint skipComments (fuel : nat) (x : t) (b : Z) : outcome (option error * t) :=
  match fuel with
  | O => Spins
  | S fuel' =>
      if b =? Comment x then
        let '(_, _, err, rd) := Bufio.ReadLine (r x) in
        let x := set_r x rd in
        match err with
        | Some e => Returns (Some e, x)
        | None =>
            let '(b, _, err, rd) := Bufio.ReadRune (r x) in
            let x := set_r x rd in
            match err with
            | Some e => Returns (Some e, x)
            | None => skipComments fuel' x b
            end
        end
      else Returns (None, x)
  end.

(** [parseRecord], first part: comment lines, looked for only when lines
    have an ending and a marker is set. *)
Definition dropComments (x : t) : outcome (option error * t) :=
  if HasEOL x && negb (Comment x =? 0) then
    let '(b, _, err, rd) := Bufio.ReadRune (r x) in
    let x := set_r x rd in
    match err with
    | Some e => Returns (Some e, x)
    | None =>
        ' (err, x) <- skipComments (S (List.length (Bufio.unread (r x)))) x b ;;
        match err with
        | Some e => Returns (Some e, x)
        | None => Returns (None, set_r x (snd (Bufio.UnreadRune (r x))))
        end
    end
  else Returns (None, x).

(** [parseRecord], the byte or the two bytes behind the line. *)
Definition endOfLine (x : t) : option error * t :=
  if HasEOL x then
    let '(b, err, rd) := Bufio.ReadByte (r x) in
    let x := set_r x rd in
    match err with
    | Some e => (Some e, x)
    | None =>
        if negb (byteZ b =? 13) && negb (byteZ b =? 10)
        then (Some ErrIncorrectLineWidth, x)
        else if byteZ b =? 10 then
          let '(b, err, rd) := Bufio.ReadByte (r x) in
          let x := set_r x rd in
          match err with
          | None =>
              if negb (byteZ b =? 13)
              then (None, set_r x (snd (Bufio.UnreadByte (r x))))
              else (None, x)
          | Some _ => (None, x)
          end
        else (None, x)
    end
  else (None, x).

(** The loop of [parseRecord] that cuts the fields out of the line. *)
Fixpoint extractFields (trim : bool) (tmp : gostring) (curpos : Z)
         (fl : list Z) (result : list gostring) : outcome (list gostring) :=
  match fl with
  | [] => Returns result
  | val :: fl' =>
      field <- slice tmp curpos (GoInt.add curpos val) ;;
      let field := if trim then strings.Trim field [SP; TAB] else field in
      extractFields trim tmp (GoInt.add curpos val) fl' (result ++ [field])
  end.

Definition parseRecord (x : t) : outcome (list gostring * option error * t) :=
  tmp <- make_bytes (width x) ;;
  ' (err, x) <- dropComments x ;;
  match err with
  | Some e => Returns ([], Some e, x)
  | None =>
      let '(tmp, n, err, rd) := Bufio.Read tmp (r x) in
      let x := set_r x rd in
      match err with
      | Some e => Returns ([], Some e, x)
      | None =>
          if negb (n =? width x)
          then Returns ([], Some ErrIncorrectLineWidth, x)
          else if existsb (fun val => (byteZ val =? 13) || (byteZ val =? 10)) tmp
          then Returns ([], Some ErrIncorrectLineWidth,
                        printf x "Contains cr or lf")
          else
            let '(err, x) := endOfLine x in
            match err with
            | Some e => Returns ([], Some e, x)
            | None =>
                result <- extractFields (TrimFields x) tmp (SkipStart x)
                                        (FieldLengths x) [] ;;
                Returns (result, None, x)
            end
      end
  end.

Fixpoint skipLoop (n : nat) (x : t) : option error * t :=
  match n with
  | O => (None, x)
  | S n' =>
      let '(_, _, err, rd) := Bufio.ReadLine (r x) in
      let x := set_r x rd in
      match err with
      | Some e => (Some e, x)
      | None => skipLoop n' x
      end
  end.

Definition skipInitialLines (x : t) : option error * t :=
  let '(err, x) :=
    if HasEOL x then skipLoop (Z.to_nat (SkipLines x)) x else (None, x) in
  match err with
  | Some e => (Some e, x)
  | None => (None, set_initialskipdone x true)
  end.

(** What opens [Read], [ReadRows] and [ReadAll]: [updateWidth], then the
    lines to skip, each with its error wrapped. *)
Definition prepare (x : t) : option error * t :=
  let '(err, x) := updateWidth x in
  match err with
  | Some e => (Some (error_ x e), x)
  | None =>
      if negb (initialskipdone x) then
        let '(err, x) := skipInitialLines x in
        match err with
        | Some e => (Some (error_ x e), x)
        | None => (None, x)
        end
      else (None, x)
  end.

Definition Read (x : t) : outcome (list gostring * option error * t) :=
  let '(err, x) := prepare x in
  match err with
  | Some e => Returns ([], Some e, x)
  | None => parseRecord x
  end.

Fixpoint readRowsLoop (n : nat) (x : t) (result : list (list gostring))
  : outcome (list (list gostring) * option error * t) :=
  match n with
  | O => Returns (result, None, x)
  | S n' =>
      ' (record, err, x') <- parseRecord x ;;
      match err with
      | Some e => Returns (result, Some (error_ x' e), x')
      | None => readRowsLoop n' x' (result ++ [record])
      end
  end.

Definition ReadRows (x : t) (numOfRows : Z)
  : outcome (list (list gostring) * option error * t) :=
  let '(err, x) := prepare x in
  match err with
  | Some e => Returns ([], Some e, x)
  | None =>
      if numOfRows <? 0 then Panics MakesliceCapOutOfRange
      else readRowsLoop (Z.to_nat numOfRows) x []
  end.

(** The loop [for {...}] of [ReadAll], which ends at the first error;
    [Spins] when [fuel] rounds were not enough. *)
Fixpoint readAllLoop (fuel : nat) (x : t) (result : list (list gostring))
  : outcome (list (list gostring) * option error * t) :=
  match fuel with
  | O => Spins
  | S fuel' =>
      ' (record, err, x') <- parseRecord x ;;
      match err with
      | Some e => Returns (result, Some (error_ x' e), x')
      | None => readAllLoop fuel' x' (result ++ [record])
      end
  end.

(** A round that returns a record has taken bytes off the input, so
    [S (len input)] rounds decide. *)
Definition ReadAll (x : t)
  : outcome (list (list gostring) * option error * t) :=
  let '(err, x) := prepare x in
  match err with
  | Some e => Returns ([], Some e, x)
  | None => readAllLoop (S (List.length (Bufio.unread (r x)))) x []
  end.

End Reader.

(** The writer of the revision. *)
Module Writer.

Record t : Type := mk {
  SkipStart : Z;
  SkipEnd : Z;
  FieldLengths : list Z;
  HasEOL : bool;
  TrimFields : bool;
  width : Z;
  line : Z;
  column : Z;
  w : list byte
}.

Definition set_w (x : t) (v : list byte) : t :=
  mk (SkipStart x) (SkipEnd x) (FieldLengths x) (HasEOL x) (TrimFields x)
     (width x) (line x) (column x) v.

Definition NewWriter (sink : list byte) : t :=
  mk 0 0 [] true false 0 0 0 sink.

(** [for n > 0 { WriteByte(' '); n-- }]. *)
Definition outputSpaces (x : t) (n : Z) : t :=
  set_w x (w x ++ repeat SP (Z.to_nat n)).

(** The body of the loop of [Write] for field [i]. *)
Definition writeField (x : t) (flds : list gostring) (i : Z)
  : outcome (option error * t) :=
  buf <- index flds i ;;
  fl <- index (FieldLengths x) i ;;
  if len buf >? fl then
    if negb (TrimFields x) then Returns (Some ErrFieldLengthError, x)
    else
      p <- slice buf 0 fl ;;
      let '(n, err, o) := Bufio.Write p (w x) in
      let x := set_w x o in
      match err with
      | Some e => Returns (Some e, x)
      | None =>
          if negb (n =? fl) then Returns (Some ErrFieldLengthError, x)
          else Returns (None, x)
      end
  else
    let '(n, err, o) := Bufio.Write buf (w x) in
    let x := set_w x o in
    match err with
    | Some e => Returns (Some e, x)
    | None =>
        if negb (n =? len buf) then Returns (Some ErrFieldLengthError, x)
        else Returns (None, outputSpaces x (fl - n))
    end.

Fixpoint writeLoop (n : nat) (x : t) (flds : list gostring) (i : Z)
  : outcome (option error * t) :=
  match n with
  | O => Returns (None, x)
  | S n' =>
      ' (err, x') <- writeField x flds i ;;
      match err with
      | Some e => Returns (Some e, x')
      | None => writeLoop n' x' flds (i + 1)
      end
  end.

Definition Write (x : t) (flds : list gostring) : outcome (option error * t) :=
  let x := outputSpaces x (SkipStart x) in
  if negb (len flds =? len (FieldLengths x)) then Returns (Some ErrFieldCount, x)
  else
    ' (err, x) <- writeLoop (List.length flds) x flds 0 ;;
    match err with
    | Some e => Returns (Some e, x)
    | None =>
        let x := outputSpaces x (SkipEnd x) in
        if HasEOL x
        then Returns (None,
                      set_w x (snd (Bufio.WriteByte LF
                                      (snd (Bufio.WriteByte CR (w x))))))
        else Returns (None, x)
    end.

Fixpoint WriteAll_loop (x : t) (recs : list (list gostring))
  : outcome (option error * t) :=
  match recs with
  | [] => Returns (None, x)
  | record :: recs' =>
      ' (err, x') <- Write x record ;;
      match err with
      | Some e => Returns (Some e, x')
      | None => WriteAll_loop x' recs'
      end
  end.

Definition Flush (x : t) : t := set_w x (snd (Bufio.Flush (w x))).

Definition WriteAll (x : t) (recs : list (list gostring))
  : outcome (option error * t) :=
  ' (err, x) <- WriteAll_loop x recs ;;
  match err with
  | Some e => Returns (Some e, x)
  | None => Returns (None, Flush x)
  end.

End Writer.

End Rev2016.

(** What may stand behind a line for the reader of 2016, and what is left
    of it behind the line ending: a CR, an LF with a CR behind it, or an
    LF with no CR behind it. *)
Inductive lineEnd2016 : list byte -> list byte -> Prop :=
| lineEnd_CR : forall rest, lineEnd2016 (CR :: rest) rest
| lineEnd_LF_CR : forall rest, lineEnd2016 (LF :: CR :: rest) rest
| lineEnd_LF : forall rest,
    (forall t, rest <> CR :: t) -> lineEnd2016 (LF :: rest) rest.

(** What the [Write] of 2016 puts out for the fields of a record: a field
    longer than its column cut to it, any other filled up with spaces on
    its right. *)
Fixpoint cells2016 (fl : list Z) (flds : list gostring) : list gostring :=
  match fl, flds with
  | n :: fl', f :: flds' =>
      (if len f >? n then firstn (Z.to_nat n) f else f ++ spaces (n - len f))
        :: cells2016 fl' flds'
  | _, _ => []
  end.

(** The line the [Write] of 2016 puts out for a record, and its ending. *)
Definition writtenLine2016 (x : Rev2016.Writer.t) (flds : list gostring)
  : gostring :=
  spaces (Rev2016.Writer.SkipStart x) ++
  List.concat (cells2016 (Rev2016.Writer.FieldLengths x) flds) ++
  spaces (Rev2016.Writer.SkipEnd x).

Definition eol2016 (x : Rev2016.Writer.t) : gostring :=
  if Rev2016.Writer.HasEOL x then [CR; LF] else [].

(** Comment lines for the reader of 2016: each is the marker, a text and
    an LF. *)
Definition comments2016 (marker : Z) (texts : list gostring) : list byte :=
  List.concat (map (fun t => byte_of_Z marker :: t ++ [LF]) texts).

(** Inputs of the examples for the revision of 2016. *)
Module Inputs2016.

(** One column of two bytes over two lines ended by LF, and the reader
    that [ReadAll] leaves. *)
Definition twoRecords : Rev2016.Reader.t :=
  Rev2016.Reader.mk 0 0 0 0 [2] false true 0 0 0 false
    (Rev2016.Bufio.NewReader (str "ab" ++ LF :: str "cd" ++ [LF])) [].

Definition twoRecordsRead : Rev2016.Reader.t :=
  Rev2016.Reader.mk 0 0 0 0 [2] false true 2 0 0 true
    (Rev2016.Bufio.mk [] [] None (Some LF) []) [].

(** One column of two bytes over the bytes behind [input]. *)
Definition oneColumn (input : list byte) : Rev2016.Reader.t :=
  Rev2016.Reader.mk 0 0 0 0 [2] false true 0 0 0 true
    (Rev2016.Bufio.NewReader input) [].

(** A writer of columns of four and three bytes, between two leading
    spaces and one trailing space. *)
Definition writerPair (trim : bool) : Rev2016.Writer.t :=
  Rev2016.Writer.mk 2 1 [4; 3] true trim 0 0 0 [].

(** The reader of the same layout. *)
Definition readerPair (trim : bool) (input : list byte) : Rev2016.Reader.t :=
  Rev2016.Reader.mk 0 0 2 1 [4; 3] trim true 0 0 0 true
    (Rev2016.Bufio.NewReader input) [].

(** One column of two bytes, with one byte of a line in the buffer and
    the rest of the line in the source. *)
Definition readerSplit : Rev2016.Reader.t :=
  Rev2016.Reader.mk 0 0 0 0 [2] false true 0 0 0 true
    (Rev2016.Bufio.mk (str "a") (str "b" ++ [LF]) None None []) [].

(** One column of two bytes over 1366 lines "ab" ended by LF: 4098 bytes,
    two more than the buffer holds. *)
Definition manyLines : Rev2016.Reader.t :=
  Rev2016.Reader.mk 0 0 0 0 [2] false true 0 0 0 true
    (Rev2016.Bufio.NewReader
       (List.concat (repeat (str "ab" ++ [LF]) 1366))) [].

(** One column of two bytes and the marker '#' over the bytes behind
    [input]. *)
Definition commented (input : list byte) : Rev2016.Reader.t :=
  Rev2016.Reader.mk 35 0 0 0 [2] false true 0 0 0 true
    (Rev2016.Bufio.NewReader input) [].

End Inputs2016.

(** * Properties *)

(** ** Arithmetic of [int] *)

Lemma wrap_in_range (z : Z) : GoInt.in_range z -> GoInt.wrap z = z.
Proof.
  unfold GoInt.in_range, GoInt.min_int, GoInt.max_int, GoInt.wrap.
  intros H. rewrite Z.mod_small; lia.
Qed.

Lemma add_in_range (a b : Z) :
  GoInt.in_range (a + b) -> GoInt.add a b = a + b.
Proof. apply wrap_in_range. Qed.

Lemma len_nonneg {A : Type} (s : list A) : 0 <= len s.
Proof. unfold len. lia. Qed.

Lemma len_app {A : Type} (s t : list A) : len (s ++ t) = len s + len t.
Proof. unfold len. rewrite length_app. lia. Qed.

Lemma len_cons {A : Type} (a : A) (s : list A) : len (a :: s) = 1 + len s.
Proof. unfold len. simpl List.length. lia. Qed.

Lemma len_spaces (n : Z) : 0 <= n -> len (spaces n) = n.
Proof. intros H. unfold len, spaces. rewrite repeat_length. lia. Qed.

(** ** C2: an empty column list *)

(** C2, the claim as stated fails: with no columns configured, [Write] of
    the empty record succeeds after putting out the leading spaces and the
    line ending, and [Read] returns an empty record after taking a line
    off the input. *)
Lemma empty_FieldLengths_not_rejected :
  Writer.FieldLengths Examples.writerNoFields = [] /\
  Writer.Write Examples.writerNoFields [] =
    Returns (None, Writer.set_w Examples.writerNoFields [SP; SP; CR]) /\
  Reader.FieldLengths Examples.readerNoFields = [] /\
  bufio.unread (Reader.r Examples.readerNoFields) = [LF] /\
  Reader.Read Examples.readerNoFields =
    Returns ([], None,
             Reader.set_initialskipdone
               (Reader.set_r Examples.readerNoFields (Examples.buffered []))
               true).
Proof. repeat split. Qed.

(** C2, amended: with no columns configured it is [Init], of the reader
    and of the writer, that fails with [ErrNoFields], and it leaves the
    input and the output as they were. *)
Theorem Init_empty_FieldLengths (x : Reader.t) (y : Writer.t) :
  Reader.FieldLengths x = [] ->
  Writer.FieldLengths y = [] ->
  fst (Reader.Init x) = Some ErrNoFields /\
  Reader.r (snd (Reader.Init x)) = Reader.r x /\
  fst (Writer.Init y) = Some ErrNoFields /\
  Writer.w (snd (Writer.Init y)) = Writer.w y.
Proof.
  intros Hx Hy. unfold Reader.Init, Writer.Init.
  destruct x as [c sl ss se fl fa tf he wd ln cl isd b so].
  destruct y as [c' ss' se' fl' fa' he' tf' wd' ln' cl' o].
  simpl in Hx, Hy. subst fl fl'. cbn.
  repeat (match goal with
          | |- context [?a <? 0] => destruct (a <? 0)
          end; cbn);
    auto.
Qed.

Lemma Init_empty_FieldLengths_witness :
  fst (Reader.Init Examples.readerNoFields) = Some ErrNoFields /\
  Reader.r (snd (Reader.Init Examples.readerNoFields)) =
    Reader.r Examples.readerNoFields /\
  fst (Writer.Init Examples.writerNoFields) = Some ErrNoFields /\
  Writer.w (snd (Writer.Init Examples.writerNoFields)) =
    Writer.w Examples.writerNoFields.
Proof.
  apply (Init_empty_FieldLengths Examples.readerNoFields
                                 Examples.writerNoFields);
    reflexivity.
Defined.

(** ** Reading up to a delimiter *)

Lemma cut_Some (d : byte) (l : list byte) :
  forall pre post,
    bufio.cut d l = Some (pre, post) -> l = pre ++ d :: post /\ ~ In d pre.
Proof.
  induction l as [|c l IH]; intros pre post; cbn [bufio.cut]; [discriminate|].
  destruct (Ascii.eqb_spec c d) as [->|Hcd].
  - intros [= <- <-]. auto.
  - destruct (bufio.cut d l) as [[pre' post']|]; [|discriminate].
    intros [= <- <-]. destruct (IH pre' post' eq_refl) as [-> Hn].
    split; [reflexivity|]. intros [H|H]; [now apply Hcd | now apply Hn].
Qed.

Lemma cut_None (d : byte) (l : list byte) : bufio.cut d l = None -> ~ In d l.
Proof.
  induction l as [|c l IH]; cbn [bufio.cut]; [auto|].
  destruct (Ascii.eqb_spec c d) as [->|Hcd]; [discriminate|].
  destruct (bufio.cut d l) as [[pre' post']|]; [discriminate|].
  intros _ [H|H]; [now apply Hcd | now apply IH].
Qed.

Lemma cut_missing (d : byte) (l : list byte) : ~ In d l -> bufio.cut d l = None.
Proof.
  intros Hn. destruct (bufio.cut d l) as [[pre post]|] eqn:E; [|reflexivity].
  apply cut_Some in E. destruct E as [-> _]. exfalso. apply Hn.
  apply in_or_app. right. now left.
Qed.

(** The first [d] of a sequence is where it is. *)
Lemma first_occurrence (d : byte) (l : list byte) :
  forall l' t t',
    ~ In d l -> ~ In d l' -> l ++ d :: t = l' ++ d :: t' -> l = l' /\ t = t'.
Proof.
  induction l as [|c l IH]; intros l' t t' Hn Hn' H.
  - destruct l' as [|c' l']; cbn in H.
    + injection H as <-. auto.
    + injection H as <- _. exfalso. apply Hn'. now left.
  - destruct l' as [|c' l']; cbn in H.
    + injection H as -> _. exfalso. apply Hn. now left.
    + injection H as <- H.
      destruct (IH l' t t') as [-> ->]; auto.
      * intros Hin. apply Hn. now right.
      * intros Hin. apply Hn'. now right.
Qed.

(** A [d] that is not in the front part is in the back part. *)
Lemma occurrence_behind (d : byte) (front : list byte) :
  forall back l rest,
    ~ In d front -> ~ In d l -> front ++ back = l ++ d :: rest ->
    exists l', l = front ++ l' /\ back = l' ++ d :: rest.
Proof.
  induction front as [|c front IH]; intros back l rest Hf Hl H.
  - exists l. auto.
  - destruct l as [|c' l]; cbn in H.
    + injection H as -> _. exfalso. apply Hf. now left.
    + injection H as <- H.
      destruct (IH back l rest) as (l' & -> & ->); auto.
      * intros Hin. apply Hf. now right.
      * intros Hin. apply Hl. now right.
      * exists l'. auto.
Qed.

Lemma unread_fill (b : bufio.Reader) : bufio.unread (bufio.fill b) = bufio.unread b.
Proof.
  unfold bufio.unread, bufio.fill. cbn [bufio.buf bufio.src].
  now rewrite <- app_assoc, firstn_skipn.
Qed.

Lemma rounds_fill (b : bufio.Reader) :
  bufio.src b <> [] ->
  len (bufio.buf b) < bufio.defaultBufSize ->
  (rounds (bufio.fill b) < 2 * List.length (bufio.src b))%nat.
Proof.
  intros Hs Hb. unfold rounds, bufio.fill. cbn [bufio.buf bufio.src].
  rewrite length_skipn.
  assert (Hk : (1 <= Z.to_nat (Z.min (bufio.defaultBufSize - len (bufio.buf b))
                                     (len (bufio.src b))))%nat).
  { destruct (bufio.src b) as [|c l]; [congruence|].
    rewrite len_cons. pose proof (len_nonneg l). lia. }
  assert (Hl : (1 <= List.length (bufio.src b))%nat).
  { destruct (bufio.src b); [congruence|cbn; lia]. }
  destruct (bufio.defaultBufSize <=? _); lia.
Qed.

Lemma readFragments_found (fuel : nat) (d : byte) :
  forall (acc : list byte) (b : bufio.Reader) (l rest : list byte),
    bufio.unread b = l ++ d :: rest -> ~ In d l ->
    (rounds b < fuel)%nat ->
    exists b',
      bufio.readFragments fuel d acc b = (acc ++ l ++ [d], None, b') /\
      bufio.unread b' = rest.
Proof.
  induction fuel as [|fuel IH]; intros acc b l rest Hu Hn Hf; [lia|].
  cbn [bufio.readFragments].
  destruct (bufio.cut d (bufio.buf b)) as [[pre post]|] eqn:Ec.
  - apply cut_Some in Ec. destruct Ec as [Hb Hpre].
    unfold bufio.unread in Hu. rewrite Hb, <- app_assoc in Hu. cbn [app] in Hu.
    destruct (first_occurrence d pre l _ _ Hpre Hn Hu) as [-> <-].
    eexists. split; reflexivity.
  - apply cut_None in Ec.
    destruct (occurrence_behind d _ _ _ _ Ec Hn Hu) as (l' & -> & Hs).
    destruct (bufio.src b) as [|c s] eqn:Es;
      [destruct l'; discriminate|].
    destruct (Z.leb_spec bufio.defaultBufSize (len (bufio.buf b))) as [Hfull|Hroom].
    + destruct (IH (acc ++ bufio.buf b) (bufio.mkReader [] (c :: s)) l' rest)
        as (b' & Hr & Hu').
      * exact Hs.
      * intros Hin. apply Hn. apply in_or_app. now right.
      * unfold rounds in *. cbn [bufio.buf bufio.src] in *. rewrite Es in Hf.
        change (bufio.defaultBufSize <=? len (@nil byte)) with false.
        destruct (bufio.defaultBufSize <=? len (bufio.buf b)) eqn:E;
          [lia|]. apply Z.leb_gt in E. lia.
      * exists b'. split; [|exact Hu']. rewrite Hr. now rewrite <- !app_assoc.
    + destruct (IH acc (bufio.fill b) (bufio.buf b ++ l') rest)
        as (b' & Hr & Hu').
      * rewrite unread_fill. exact Hu.
      * exact Hn.
      * assert (Hne : bufio.src b <> []) by (rewrite Es; discriminate).
        pose proof (rounds_fill b Hne Hroom). unfold rounds in Hf. lia.
      * exists b'. split; [exact Hr|exact Hu'].
Qed.

Lemma readFragments_missing (fuel : nat) (d : byte) :
  forall (acc : list byte) (b : bufio.Reader),
    ~ In d (bufio.unread b) ->
    (rounds b < fuel)%nat ->
    bufio.readFragments fuel d acc b =
      (acc ++ bufio.unread b, Some EOF, bufio.mkReader [] []).
Proof.
  induction fuel as [|fuel IH]; intros acc b Hn Hf; [lia|].
  cbn [bufio.readFragments].
  assert (Hb : ~ In d (bufio.buf b)).
  { intros Hin. apply Hn. apply in_or_app. now left. }
  rewrite (cut_missing _ _ Hb).
  destruct (bufio.src b) as [|c s] eqn:Es.
  - unfold bufio.unread. now rewrite Es, app_nil_r.
  - destruct (Z.leb_spec bufio.defaultBufSize (len (bufio.buf b))) as [Hfull|Hroom].
    + rewrite IH.
      * unfold bufio.unread. cbn [bufio.buf bufio.src app].
        now rewrite Es, <- app_assoc.
      * intros Hin. apply Hn. apply in_or_app. right. now rewrite Es.
      * unfold rounds in *. cbn [bufio.buf bufio.src] in *. rewrite Es in Hf.
        change (bufio.defaultBufSize <=? len (@nil byte)) with false.
        destruct (bufio.defaultBufSize <=? len (bufio.buf b)) eqn:E;
          [lia|]. apply Z.leb_gt in E. lia.
    + rewrite IH.
      * now rewrite unread_fill.
      * now rewrite unread_fill.
      * assert (Hne : bufio.src b <> []) by (rewrite Es; discriminate).
        pose proof (rounds_fill b Hne Hroom). unfold rounds in Hf. lia.
Qed.

Lemma rounds_ReadString (b : bufio.Reader) :
  (rounds b < 2 * List.length (bufio.src b) + 2)%nat.
Proof. unfold rounds. destruct (_ <=? _); lia. Qed.

(** [ReadString] hands over the bytes up to and with the first [delim],
    and leaves the rest unread. *)
Lemma ReadString_found (d : byte) (b : bufio.Reader) (l rest : list byte) :
  bufio.unread b = l ++ d :: rest -> ~ In d l ->
  exists b', bufio.ReadString d b = (l ++ [d], None, b') /\
             bufio.unread b' = rest.
Proof.
  intros Hu Hn. unfold bufio.ReadString.
  destruct (readFragments_found _ d [] b l rest Hu Hn (rounds_ReadString b))
    as (b' & Hr & Hu').
  exists b'. split; [exact Hr|exact Hu'].
Qed.

(** Without a [delim], [ReadString] hands over all there is, with
    [io.EOF]. *)
Lemma ReadString_missing (d : byte) (b : bufio.Reader) :
  ~ In d (bufio.unread b) ->
  bufio.ReadString d b = (bufio.unread b, Some EOF, bufio.mkReader [] []).
Proof.
  intros Hn. unfold bufio.ReadString.
  now rewrite (readFragments_missing _ d [] b Hn (rounds_ReadString b)).
Qed.

Lemma ReadString_ok (d : byte) (b b' : bufio.Reader) (s : list byte) :
  bufio.ReadString d b = (s, None, b') ->
  exists l, s = l ++ [d] /\ ~ In d l /\
            bufio.unread b = l ++ d :: bufio.unread b'.
Proof.
  intros H. destruct (bufio.cut d (bufio.unread b)) as [[l rest]|] eqn:Ec.
  - apply cut_Some in Ec. destruct Ec as [Hu Hn].
    destruct (ReadString_found d b l rest Hu Hn) as (b1 & Hr & Hu1).
    rewrite Hr in H. injection H as <- <-. exists l. rewrite Hu1. auto.
  - apply cut_None in Ec. rewrite (ReadString_missing d b Ec) in H.
    discriminate.
Qed.

Lemma ReadString_err (d : byte) (b b' : bufio.Reader) (s : list byte)
      (e : error) :
  bufio.ReadString d b = (s, Some e, b') ->
  e = EOF /\ s = bufio.unread b /\ bufio.unread b' = [] /\
  ~ In d (bufio.unread b).
Proof.
  intros H. destruct (bufio.cut d (bufio.unread b)) as [[l rest]|] eqn:Ec.
  - apply cut_Some in Ec. destruct Ec as [Hu Hn].
    destruct (ReadString_found d b l rest Hu Hn) as (b1 & Hr & Hu1).
    rewrite Hr in H. discriminate.
  - apply cut_None in Ec. rewrite (ReadString_missing d b Ec) in H.
    injection H as <- <- <-. auto.
Qed.


Lemma ReadByte_ok (b b' : bufio.Reader) (c : byte) :
  bufio.ReadByte b = (c, None, b') -> bufio.unread b = c :: bufio.unread b'.
Proof.
  unfold bufio.ReadByte, bufio.unread.
  destruct (bufio.buf b) as [|c0 l] eqn:Eb.
  - destruct (bufio.src b) as [|c1 s] eqn:Es; [discriminate|].
    destruct (bufio.buf (bufio.fill b)) as [|c2 l2] eqn:Ef; [discriminate|].
    intros [= <- <-]. cbn [bufio.buf bufio.src].
    pose proof (unread_fill b) as H. unfold bufio.unread in H.
    rewrite Ef, Eb, Es in H. cbn [app] in H. rewrite <- H. reflexivity.
  - intros [= <- <-]. reflexivity.
Qed.

Lemma ReadByte_err (b b' : bufio.Reader) (c : byte) (e : error) :
  bufio.ReadByte b = (c, Some e, b') ->
  (List.length (bufio.unread b') <= List.length (bufio.unread b))%nat.
Proof.
  unfold bufio.ReadByte.
  destruct (bufio.buf b) as [|c0 l] eqn:Eb; [|discriminate].
  destruct (bufio.src b) as [|c1 s] eqn:Es; [now intros [= _ _ <-]|].
  destruct (bufio.buf (bufio.fill b)); [now intros [= _ _ <-]|discriminate].
Qed.

(** [Read(p)] copies [k] bytes, at least one and at most [len(p)]; it
    copies [len(p)] of them, or all there is, when the buffer is empty or
    holds as many. *)
Lemma Read_some (p : list byte) (b : bufio.Reader) :
  p <> [] -> bufio.unread b <> [] ->
  exists k b',
    bufio.Read p b =
      (firstn k (bufio.unread b) ++ skipn k p, Z.of_nat k, None, b') /\
    bufio.unread b' = skipn k (bufio.unread b) /\
    (1 <= k <= Nat.min (List.length p) (List.length (bufio.unread b)))%nat /\
    (bufio.buf b = [] \/
     (List.length p <= List.length (bufio.buf b))%nat ->
     k = Nat.min (List.length p) (List.length (bufio.unread b))).
Proof.
  intros Hp Hu. unfold bufio.Read, bufio.unread in *.
  destruct p as [|p0 p]; [congruence|].
  destruct (bufio.buf b) as [|c l] eqn:Eb.
  - cbn [app] in *. destruct (bufio.src b) as [|c s] eqn:Es; [congruence|].
    destruct (Z.leb_spec bufio.defaultBufSize (len (p0 :: p))) as [Hbig|Hsmall].
    + eexists. eexists. split; [reflexivity|]. cbn [bufio.buf bufio.src app].
      split; [reflexivity|]. cbn [List.length]. split; [lia|auto].
    + set (k0 := Z.to_nat (Z.min (bufio.defaultBufSize - len (@nil byte))
                                 (len (c :: s)))).
      assert (Hfill : bufio.fill b =
                      bufio.mkReader (firstn k0 (c :: s)) (skipn k0 (c :: s))).
      { unfold bufio.fill. now rewrite Eb, Es. }
      rewrite Hfill. cbn [bufio.buf bufio.src].
      assert (Hk0 : (List.length (firstn k0 (c :: s)) =
                     Nat.min (Z.to_nat bufio.defaultBufSize)
                             (List.length (c :: s)))%nat).
      { rewrite length_firstn. subst k0. change (len (@nil byte)) with 0.
        unfold len. rewrite Z.sub_0_r. lia. }
      set (n := Nat.min (List.length (p0 :: p))
                        (List.length (firstn k0 (c :: s)))).
      assert (Hn : n = Nat.min (List.length (p0 :: p)) (List.length (c :: s))).
      { subst n. rewrite Hk0. unfold len in Hsmall. lia. }
      exists n. eexists. split; [|split; [|split]].
      * f_equal. f_equal. f_equal. f_equal.
        rewrite firstn_firstn. f_equal.
        pose proof (firstn_le_length k0 (c :: s)). subst n. lia.
      * cbn [bufio.buf bufio.src].
        rewrite <- (firstn_skipn k0 (c :: s)) at 3.
        rewrite skipn_app.
        replace (n - List.length (firstn k0 (c :: s)))%nat with 0%nat
          by (subst n; lia).
        reflexivity.
      * rewrite Hn. cbn [List.length]. lia.
      * intros _. exact Hn.
  - set (n := Nat.min (List.length (p0 :: p)) (List.length (c :: l))).
    exists n. eexists. split; [|split; [|split]].
    + f_equal. f_equal. f_equal. f_equal.
      rewrite firstn_app.
      replace (n - List.length (c :: l))%nat with 0%nat by (subst n; lia).
      cbn [firstn]. now rewrite app_nil_r.
    + cbn [bufio.buf bufio.src]. rewrite skipn_app.
      replace (n - List.length (c :: l))%nat with 0%nat by (subst n; lia).
      reflexivity.
    + subst n. rewrite length_app. cbn [List.length]. lia.
    + intros [H|H]; [discriminate|]. subst n. rewrite length_app.
      cbn [List.length] in *. lia.
Qed.

Lemma Read_EOF (p : list byte) (b : bufio.Reader) :
  p <> [] -> bufio.unread b = [] ->
  bufio.Read p b = (p, 0, Some EOF, b).
Proof.
  intros Hp Hu. unfold bufio.Read, bufio.unread in *.
  destruct p as [|p0 p]; [congruence|].
  apply app_eq_nil in Hu. destruct Hu as [-> ->]. reflexivity.
Qed.
Lemma slice_prefix {A : Type} (l t : list A) :
  slice (l ++ t) 0 (len l) = Returns l.
Proof.
  unfold slice. pose proof (len_nonneg l) as Hl. rewrite len_app.
  pose proof (len_nonneg t) as Ht.
  replace (0 <=? 0) with true by reflexivity.
  replace (0 <=? len l) with true by (symmetry; apply Z.leb_le; lia).
  replace (len l <=? len l + len t) with true
    by (symmetry; apply Z.leb_le; lia).
  simpl. f_equal. rewrite Z.sub_0_r. unfold len. rewrite Nat2Z.id.
  rewrite firstn_app, firstn_all, Nat.sub_diag. simpl. apply app_nil_r.
Qed.

Lemma slice_drop_last {A : Type} (l : list A) (d : A) :
  slice (l ++ [d]) 0 (len (l ++ [d]) - 1) = Returns l.
Proof.
  rewrite len_app, len_cons. change (len (@nil A)) with 0.
  replace (len l + (1 + 0) - 1) with (len l) by lia.
  apply slice_prefix.
Qed.

Lemma byteZ_CR : byteZ CR = 13. Proof. reflexivity. Qed.
Lemma byteZ_LF : byteZ LF = 10. Proof. reflexivity. Qed.

Lemma byteZ_inj (a b : byte) : byteZ a = byteZ b -> a = b.
Proof.
  unfold byteZ. intros H. apply N2Z.inj in H.
  rewrite <- (ascii_N_embedding a), <- (ascii_N_embedding b). now f_equal.
Qed.


(** ** What [readLine] does to the reader *)

(** [readLine] only moves the input forward. *)
Lemma readLine_set_r (x x' : Reader.t) (tmp : gostring) (err : option error) :
  Reader.readLine x = Returns (tmp, err, x') ->
  exists b, x' = Reader.set_r x b.
Proof.
  unfold Reader.readLine.
  destruct (Reader.HasEOL x =? EOLCR).
  { destruct (bufio.ReadString CR (Reader.r x)) as [[s e] b].
    destruct e; [intros [= <- <- <-]; eauto|].
    destruct (slice s 0 (len s - 1)); simpl; try discriminate.
    intros [= <- <- <-]; eauto. }
  destruct (Reader.HasEOL x =? EOLLF).
  { destruct (bufio.ReadString LF (Reader.r x)) as [[s e] b].
    destruct e; [intros [= <- <- <-]; eauto|].
    destruct (slice s 0 (len s - 1)); simpl; try discriminate.
    intros [= <- <- <-]; eauto. }
  destruct (Reader.HasEOL x =? EOLCRLF).
  { destruct (bufio.ReadString CR (Reader.r x)) as [[s e] b].
    destruct e; [intros [= <- <- <-]; eauto|].
    destruct (bufio.ReadByte b) as [[c e] b'].
    destruct e; [intros [= <- <- <-]; eauto|].
    destruct (byteZ c =? 10); [intros [= <- <- <-]; eauto|].
    destruct (slice s 0 (len s - 1)); simpl; try discriminate.
    intros [= <- <- <-]; eauto. }
  destruct (Reader.HasEOL x =? EOLNONE).
  { destruct (make_bytes (Reader.width x)); cbn [bind]; try discriminate.
    destruct (bufio.Read a (Reader.r x)) as [[[p n] e] b].
    destruct e; intros [= <- <- <-]; eauto. }
  intros [= <- <- <-]. exists (Reader.r x). now destruct x.
Qed.

Lemma set_r_same (x : Reader.t) : Reader.set_r x (Reader.r x) = x.
Proof. now destruct x. Qed.

Lemma r_set_r (x : Reader.t) (b : bufio.Reader) :
  Reader.r (Reader.set_r x b) = b.
Proof. reflexivity. Qed.

Lemma pending_set_r (x : Reader.t) (b : bufio.Reader) :
  pending (Reader.set_r x b) = List.length (bufio.unread b).
Proof. reflexivity. Qed.

(** What the modes with a delimiter have in common. *)
Lemma ReadString_progress (d : byte) (b b' : bufio.Reader) (s : list byte) :
  bufio.ReadString d b = (s, None, b') ->
  (List.length (bufio.unread b') < List.length (bufio.unread b))%nat.
Proof.
  intros H. apply ReadString_ok in H. destruct H as (l & _ & _ & ->).
  rewrite length_app. cbn. lia.
Qed.

(** A line read without error took bytes off the input, unless no byte
    was asked for (no delimiter and a width of zero). *)
Lemma readLine_progress (x x' : Reader.t) (tmp : gostring) :
  Reader.readLine x = Returns (tmp, None, x') ->
  (pending x' < pending x)%nat \/
  (x' = x /\ tmp = [] /\ Reader.HasEOL x = EOLNONE /\ Reader.width x = 0).
Proof.
  unfold Reader.readLine, pending.
  destruct (Reader.HasEOL x =? EOLCR).
  { destruct (bufio.ReadString CR (Reader.r x)) as [[s e] b] eqn:E.
    destruct e; [discriminate|].
    pose proof (ReadString_progress _ _ _ _ E).
    destruct (slice s 0 (len s - 1)); cbn [bind]; try discriminate.
    intros [= <- <-]. left. now rewrite r_set_r. }
  destruct (Reader.HasEOL x =? EOLLF).
  { destruct (bufio.ReadString LF (Reader.r x)) as [[s e] b] eqn:E.
    destruct e; [discriminate|].
    pose proof (ReadString_progress _ _ _ _ E).
    destruct (slice s 0 (len s - 1)); cbn [bind]; try discriminate.
    intros [= <- <-]. left. now rewrite r_set_r. }
  destruct (Reader.HasEOL x =? EOLCRLF).
  { destruct (bufio.ReadString CR (Reader.r x)) as [[s e] b] eqn:E.
    destruct e; [discriminate|].
    pose proof (ReadString_progress _ _ _ _ E).
    destruct (bufio.ReadByte b) as [[c e] b'] eqn:Eb.
    destruct e; [discriminate|].
    apply ReadByte_ok in Eb.
    destruct (byteZ c =? 10).
    - intros [= <- <-]. left. rewrite r_set_r. rewrite Eb in H. cbn in H. lia.
    - destruct (slice s 0 (len s - 1)); cbn [bind]; discriminate. }
  destruct (Z.eqb_spec (Reader.HasEOL x) EOLNONE) as [Hm|Hm]; [|discriminate].
  unfold make_bytes.
  destruct (Z.ltb_spec (Reader.width x) 0) as [Hw|Hw]; cbn [bind];
    [discriminate|].
  destruct (repeat zero (Z.to_nat (Reader.width x))) as [|p0 p] eqn:Ep.
  - cbn. intros [= <- <-]. right.
    apply (f_equal (@List.length _)) in Ep. rewrite repeat_length in Ep.
    cbn in Ep. repeat split; auto; [apply set_r_same|lia].
  - destruct (bufio.unread (Reader.r x)) as [|u0 u] eqn:Eu.
    + rewrite Read_EOF by (auto; discriminate). discriminate.
    + destruct (Read_some (p0 :: p) (Reader.r x)) as (k & b' & Hr & Hu & Hk & _);
        [discriminate|congruence|].
      rewrite Hr. intros [= <- <-]. left.
      rewrite r_set_r, Hu, Eu, length_skipn. rewrite Eu in Hk. lia.
Qed.

(** With a delimiter configured the line is what stood before it. *)
Lemma readLine_CR (x : Reader.t) (l rest : list byte) :
  Reader.HasEOL x = EOLCR ->
  bufio.unread (Reader.r x) = l ++ CR :: rest -> ~ In CR l ->
  exists b, Reader.readLine x = Returns (l, None, Reader.set_r x b) /\
            bufio.unread b = rest.
Proof.
  intros Hm Hr Hn. unfold Reader.readLine. rewrite Hm. simpl Z.eqb. cbv iota.
  destruct (ReadString_found CR _ _ _ Hr Hn) as (b & -> & Hu).
  exists b. now rewrite slice_drop_last.
Qed.

Lemma readLine_LF (x : Reader.t) (l rest : list byte) :
  Reader.HasEOL x = EOLLF ->
  bufio.unread (Reader.r x) = l ++ LF :: rest -> ~ In LF l ->
  exists b, Reader.readLine x = Returns (l, None, Reader.set_r x b) /\
            bufio.unread b = rest.
Proof.
  intros Hm Hr Hn. unfold Reader.readLine. rewrite Hm. simpl Z.eqb. cbv iota.
  destruct (ReadString_found LF _ _ _ Hr Hn) as (b & -> & Hu).
  exists b. now rewrite slice_drop_last.
Qed.

(** Without a delimiter the line is the next [width] bytes, when the
    buffer is empty or holds as many. *)
Lemma readLine_NONE (x : Reader.t) (l rest : list byte) :
  Reader.HasEOL x = EOLNONE ->
  bufio.unread (Reader.r x) = l ++ rest ->
  len l = Reader.width x -> l <> [] ->
  bufio.buf (Reader.r x) = [] \/ Reader.width x <= len (bufio.buf (Reader.r x)) ->
  exists b, Reader.readLine x = Returns (l, None, Reader.set_r x b) /\
            bufio.unread b = rest.
Proof.
  intros Hm Hr Hw Hl Hb. unfold Reader.readLine. rewrite Hm. simpl Z.eqb. cbv iota.
  unfold make_bytes. rewrite <- Hw in *.
  replace (len l <? 0) with false
    by (symmetry; apply Z.ltb_ge; apply len_nonneg).
  cbn [bind]. unfold len in *. rewrite Nat2Z.id.
  destruct (Read_some (repeat zero (List.length l)) (Reader.r x))
    as (k & b' & Hrd & Hu & Hk & Hfull).
  { destruct l; [congruence|discriminate]. }
  { rewrite Hr. destruct l; [congruence|discriminate]. }
  rewrite repeat_length in *. rewrite Hr, length_app in *.
  assert (Hkl : k = List.length l).
  { rewrite Hfull; [lia|]. destruct Hb as [Hb|Hb]; [now left|right; lia]. }
  subst k. rewrite Hrd. exists b'.
  rewrite firstn_app, firstn_all, Nat.sub_diag in *.
  rewrite skipn_all2 by (rewrite repeat_length; lia).
  rewrite skipn_app, skipn_all, Nat.sub_diag in Hu.
  cbn [firstn skipn app] in *. now rewrite !app_nil_r.
Qed.


(** ** C3: the CR LF mode *)

(** In CR LF mode the line handed back still ends with the CR. *)
Lemma readLine_CRLF_keeps_CR (x x' : Reader.t) (tmp : gostring) :
  Reader.HasEOL x = EOLCRLF ->
  Reader.readLine x = Returns (tmp, None, x') ->
  exists l, tmp = l ++ [CR] /\ ~ In CR l /\
            bufio.unread (Reader.r x) =
              l ++ CR :: LF :: bufio.unread (Reader.r x').
Proof.
  intros Hm. unfold Reader.readLine. rewrite Hm. simpl Z.eqb. cbv iota.
  destruct (bufio.ReadString CR (Reader.r x)) as [[s e] b] eqn:E.
  destruct e; [discriminate|].
  apply ReadString_ok in E. destruct E as (l & -> & Hn & Hb).
  destruct (bufio.ReadByte b) as [[c e] b'] eqn:Eb.
  destruct e; [discriminate|].
  apply ReadByte_ok in Eb.
  destruct (Z.eqb_spec (byteZ c) 10) as [Hc|Hc].
  - intros [= <- <-]. exists l. repeat split; auto.
    rewrite Hb, Eb, r_set_r. rewrite <- byteZ_LF in Hc. apply byteZ_inj in Hc.
    now subst c.
  - rewrite slice_drop_last. cbn [bind]. discriminate.
Qed.

(** C3, the code at the failing input: over "ab\r\n", with one column of
    two bytes, [readLine] in CR LF mode hands back the three bytes "ab\r",
    and [Read] fails on the width of the line. *)
Theorem readLine_CRLF_leaves_CR_in_line :
  Reader.HasEOL Examples.readerCRLF = EOLCRLF /\
  Reader.width Examples.readerCRLF = 2 /\
  bufio.unread (Reader.r Examples.readerCRLF) = str "ab" ++ [CR; LF] /\
  Reader.readLine Examples.readerCRLF =
    Returns (str "ab" ++ [CR], None,
             Reader.set_r Examples.readerCRLF (Examples.buffered [])) /\
  Reader.Read Examples.readerCRLF =
    Returns ([], Some ErrIncorrectLineWidth,
             Reader.set_initialskipdone
               (Reader.set_r Examples.readerCRLF (Examples.buffered [])) true).
Proof. repeat split. Qed.

(** ** Runes and bytes *)

Lemma byteZ_range (b : byte) : 0 <= byteZ b < 256.
Proof.
  unfold byteZ. pose proof (N_ascii_bounded b) as H. lia.
Qed.

Lemma lor_high_small (hi lo v : Z) :
  0 <= hi -> 0 <= lo -> hi <> 0 -> 0 <= v < 64 ->
  Z.lor (Z.shiftl hi 6) lo <> v.
Proof.
  intros Hh Hl Hn Hv H.
  apply (f_equal (fun z => Z.shiftr z 6)) in H.
  rewrite Z.shiftr_lor, Z.shiftr_shiftl_l, Z.sub_diag, Z.shiftl_0_r in H by lia.
  rewrite (Z.shiftr_div_pow2 v 6), Z.div_small in H by (cbn; lia).
  apply Z.lor_eq_0_iff in H. tauto.
Qed.

Lemma lor3_high_small (x y z v : Z) :
  0 <= x -> 0 <= y -> 0 <= z -> x <> 0 \/ y <> 0 -> 0 <= v < 64 ->
  Z.lor (Z.lor (Z.shiftl x 12) (Z.shiftl y 6)) z <> v.
Proof.
  intros Hx Hy Hz Hn Hv.
  replace (Z.shiftl x 12) with (Z.shiftl (Z.shiftl x 6) 6)
    by (rewrite Z.shiftl_shiftl by lia; reflexivity).
  rewrite <- Z.shiftl_lor.
  apply lor_high_small; auto.
  - apply Z.lor_nonneg. split; [apply Z.shiftl_nonneg|]; lia.
  - intros H. apply Z.lor_eq_0_iff in H. destruct H as [H ->].
    apply Z.shiftl_eq_0_iff in H; [|lia]. tauto.
Qed.

Lemma lor4_high_small (x y w z v : Z) :
  0 <= x -> 0 <= y -> 0 <= w -> 0 <= z -> x <> 0 \/ y <> 0 -> 0 <= v < 64 ->
  Z.lor (Z.lor (Z.lor (Z.shiftl x 18) (Z.shiftl y 12)) (Z.shiftl w 6)) z <> v.
Proof.
  intros Hx Hy Hw Hz Hn Hv.
  replace (Z.shiftl x 18) with (Z.shiftl (Z.shiftl x 12) 6)
    by (rewrite Z.shiftl_shiftl by lia; reflexivity).
  replace (Z.shiftl y 12) with (Z.shiftl (Z.shiftl y 6) 6)
    by (rewrite Z.shiftl_shiftl by lia; reflexivity).
  rewrite <- !Z.shiftl_lor.
  apply lor_high_small; auto.
  - repeat (apply Z.lor_nonneg; split); try apply Z.shiftl_nonneg; lia.
  - intros H. apply Z.lor_eq_0_iff in H. destruct H as [H _].
    apply Z.lor_eq_0_iff in H. destruct H as [H1 H2].
    apply Z.shiftl_eq_0_iff in H1; [|lia].
    apply Z.shiftl_eq_0_iff in H2; [|lia]. tauto.
Qed.

Lemma land_low (a n : Z) : 0 <= n -> 0 <= Z.land a (Z.ones n) < 2 ^ n.
Proof. intros Hn. rewrite Z.land_ones by lia. apply Z.mod_pos_bound. lia. Qed.

Lemma lead_spec (s0 : Z) (sz : nat) (lo hi : Z) :
  utf8.lead s0 = Some (sz, lo, hi) ->
  128 <= lo /\ hi <= 191 /\
  ((sz = 2%nat /\ Z.land s0 31 <> 0) \/
   (sz = 3%nat /\ (Z.land s0 15 <> 0 \/ 160 <= lo)) \/
   (sz = 4%nat /\ (Z.land s0 7 <> 0 \/ 144 <= lo))).
Proof.
  unfold utf8.lead, utf8.locb, utf8.hicb.
  change 31 with (Z.ones 5). change 15 with (Z.ones 4). change 7 with (Z.ones 3).
  rewrite !Z.land_ones by lia.
  repeat match goal with
         | |- context [if ?c then _ else _] => destruct c eqn:?
         end; intros [= <- <- <-]; (split; [lia|]); (split; [lia|]);
    repeat match goal with
           | H : (_ && _) = true |- _ => apply andb_true_iff in H; destruct H
           | H : (_ <=? _) = true |- _ => apply Z.leb_le in H
           | H : (_ =? _) = true |- _ => apply Z.eqb_eq in H
           end.
  - left. split; auto. Z.div_mod_to_equations. lia.
  - right. left. split; auto. right. lia.
  - right. left. split; auto. left. Z.div_mod_to_equations. lia.
  - right. left. split; auto. left. subst. discriminate.
  - right. left. split; auto. left. Z.div_mod_to_equations. lia.
  - right. right. split; auto. right. lia.
  - right. right. split; auto. left. Z.div_mod_to_equations. lia.
  - right. right. split; auto. left. subst. discriminate.
Qed.

Lemma DecodeRune_high (b0 : byte) (t : gostring) :
  128 <= byteZ b0 ->
  let '(r, size) := utf8.DecodeRuneInString (b0 :: t) in
  r <> 13 /\ r <> 10 /\ (1 <= size)%nat /\
  Forall (fun b => 128 <= byteZ b) (firstn (size - 1) t).
Proof.
  intros H0. pose proof (byteZ_range b0) as R0.
  assert (Herr : utf8.RuneError <> 13 /\ utf8.RuneError <> 10 /\ (1 <= 1)%nat /\
                 Forall (fun b => 128 <= byteZ b) (firstn (1 - 1) t)).
  { repeat split; try discriminate; auto. }
  unfold utf8.DecodeRuneInString.
  replace (byteZ b0 <? 128) with false by (symmetry; apply Z.ltb_ge; lia).
  destruct (utf8.lead (byteZ b0)) as [[[sz lo] hi]|] eqn:El; [|exact Herr].
  destruct (lead_spec _ _ _ _ El) as (Hlo & Hhi & Hsz).
  destruct t as [|b1 t1]; [exact Herr|].
  destruct (Nat.ltb_spec (List.length (b0 :: b1 :: t1)) sz) as [Hn|Hn]; [exact Herr|].
  pose proof (byteZ_range b1) as R1.
  destruct (Z.ltb_spec (byteZ b1) lo) as [H1|H1]; [exact Herr|].
  destruct (Z.ltb_spec hi (byteZ b1)) as [H1'|H1']; [exact Herr|].
  cbn [orb].
  pose proof (land_low (byteZ b0) 5 ltac:(lia)) as L05.
  pose proof (land_low (byteZ b0) 4 ltac:(lia)) as L04.
  pose proof (land_low (byteZ b0) 3 ltac:(lia)) as L03.
  pose proof (land_low (byteZ b1) 6 ltac:(lia)) as L1.
  change (Z.ones 5) with 31 in L05. change (Z.ones 4) with 15 in L04.
  change (Z.ones 3) with 7 in L03. change (Z.ones 6) with 63 in L1.
  assert (Hs1 : 160 <= lo \/ 144 <= lo -> Z.land (byteZ b1) 63 <> 0).
  { intros Hl. change 63 with (Z.ones 6). rewrite Z.land_ones by lia.
    Z.div_mod_to_equations. lia. }
  destruct Hsz as [[-> Hx]|[[-> Hx]|[-> Hx]]]; cbn [Nat.leb].
  - repeat split; try (apply lor_high_small; lia); try lia.
    cbn. constructor; [lia|constructor].
  - destruct t1 as [|b2 t2]; [exact Herr|].
    pose proof (byteZ_range b2) as R2.
    unfold utf8.locb, utf8.hicb.
    destruct (Z.ltb_spec (byteZ b2) 128) as [H2|H2]; [exact Herr|].
    destruct (Z.ltb_spec 191 (byteZ b2)) as [H2'|H2']; [exact Herr|].
    cbn [orb].
    pose proof (land_low (byteZ b2) 6 ltac:(lia)) as L2.
    change (Z.ones 6) with 63 in L2.
    assert (Hxy : Z.land (byteZ b0) 15 <> 0 \/ Z.land (byteZ b1) 63 <> 0)
      by (destruct Hx; [left|right]; auto).
    repeat split; try (apply lor3_high_small; lia); try lia.
    cbn. constructor; [lia|]. constructor; [lia|constructor].
  - destruct t1 as [|b2 t2]; [exact Herr|].
    pose proof (byteZ_range b2) as R2.
    unfold utf8.locb, utf8.hicb.
    destruct (Z.ltb_spec (byteZ b2) 128) as [H2|H2]; [exact Herr|].
    destruct (Z.ltb_spec 191 (byteZ b2)) as [H2'|H2']; [exact Herr|].
    cbn [orb].
    pose proof (land_low (byteZ b2) 6 ltac:(lia)) as L2.
    change (Z.ones 6) with 63 in L2.
    destruct t2 as [|b3 t3]; [exact Herr|].
    pose proof (byteZ_range b3) as R3.
    destruct (Z.ltb_spec (byteZ b3) 128) as [H3|H3]; [exact Herr|].
    destruct (Z.ltb_spec 191 (byteZ b3)) as [H3'|H3']; [exact Herr|].
    cbn [orb].
    pose proof (land_low (byteZ b3) 6 ltac:(lia)) as L3.
    change (Z.ones 6) with 63 in L3.
    assert (Hxy : Z.land (byteZ b0) 7 <> 0 \/ Z.land (byteZ b1) 63 <> 0)
      by (destruct Hx; [left|right]; auto).
    repeat split; try (apply lor4_high_small; lia); try lia.
    cbn. repeat (constructor; [lia|]). constructor.
Qed.

Lemma DecodeRune_low (b0 : byte) (t : gostring) :
  byteZ b0 < 128 ->
  utf8.DecodeRuneInString (b0 :: t) = (byteZ b0, 1%nat).
Proof.
  intros H. unfold utf8.DecodeRuneInString.
  now replace (byteZ b0 <? 128) with true by (symmetry; apply Z.ltb_lt; lia).
Qed.

(** A rune of the line is 13 or 10 exactly where a byte of it is. *)
Lemma rangeRunes_CRorLF (s : gostring) :
  forall skip,
    Forall (fun b => 128 <= byteZ b) (firstn skip s) ->
    existsb (fun val => (val =? 13) || (val =? 10)) (utf8.rangeRunes s skip) =
    existsb (fun b => (byteZ b =? 13) || (byteZ b =? 10)) s.
Proof.
  induction s as [|b t IH]; intros skip Hs; [reflexivity|].
  cbn [utf8.rangeRunes existsb].
  destruct skip as [|k].
  - destruct (Z.lt_ge_cases (byteZ b) 128) as [Hlo|Hhi].
    + rewrite DecodeRune_low by assumption. cbn [existsb Nat.sub].
      f_equal. apply IH. constructor.
    + pose proof (DecodeRune_high b t Hhi) as H.
      destruct (utf8.DecodeRuneInString (b :: t)) as [r size].
      destruct H as (H13 & H10 & Hsz & Hf).
      cbn [existsb].
      replace (r =? 13) with false by (symmetry; now apply Z.eqb_neq).
      replace (r =? 10) with false by (symmetry; now apply Z.eqb_neq).
      replace (byteZ b =? 13) with false by (symmetry; apply Z.eqb_neq; lia).
      replace (byteZ b =? 10) with false by (symmetry; apply Z.eqb_neq; lia).
      cbn [orb]. now apply IH.
  - cbn [firstn] in Hs. inversion Hs as [|? ? Hb Hs']; subst.
    replace (byteZ b =? 13) with false by (symmetry; apply Z.eqb_neq; lia).
    replace (byteZ b =? 10) with false by (symmetry; apply Z.eqb_neq; lia).
    cbn [orb]. now apply IH.
Qed.

Lemma hasCRorLF_bytes (tmp : gostring) :
  Reader.hasCRorLF tmp =
  existsb (fun b => (byteZ b =? 13) || (byteZ b =? 10)) tmp.
Proof. unfold Reader.hasCRorLF. apply rangeRunes_CRorLF. constructor. Qed.

(** In CR LF mode no line passes [parseRecord]: the CR that stays in the
    line makes it either one byte too long or a line with a CR inside. *)
Lemma hasCRorLF_last_CR (l : gostring) : Reader.hasCRorLF (l ++ [CR]) = true.
Proof.
  rewrite hasCRorLF_bytes, existsb_app. simpl.
  now rewrite orb_true_r.
Qed.

(** ** The comment loop *)

Lemma readLine_NONE_len (x x' : Reader.t) (tmp : gostring) :
  Reader.HasEOL x = EOLNONE ->
  Reader.readLine x = Returns (tmp, None, x') ->
  len tmp = Reader.width x.
Proof.
  intros Hm. unfold Reader.readLine. rewrite Hm. simpl Z.eqb. cbv iota.
  unfold make_bytes. destruct (Z.ltb_spec (Reader.width x) 0) as [Hw|Hw];
    cbn [bind]; [discriminate|].
  destruct (repeat zero (Z.to_nat (Reader.width x))) as [|p0 p] eqn:Ep.
  - cbn. intros [= <- <-].
    apply (f_equal (@List.length _)) in Ep. rewrite repeat_length in Ep.
    cbn in Ep. unfold len. cbn. lia.
  - apply (f_equal (@List.length _)) in Ep. rewrite repeat_length in Ep.
    destruct (bufio.unread (Reader.r x)) as [|u0 u] eqn:Eu.
    + rewrite Read_EOF by (auto; discriminate). discriminate.
    + destruct (Read_some (p0 :: p) (Reader.r x)) as (k & b' & Hr & Hu & Hk & _);
        [discriminate|congruence|].
      rewrite Hr. intros [= <- <-]. unfold len.
      rewrite length_app, length_firstn, length_skipn.
      unfold byte in *. lia.
Qed.

(** No call of [readLine] makes the input longer. *)
Lemma readLine_input_le (x x' : Reader.t) (tmp : gostring) (err : option error) :
  Reader.readLine x = Returns (tmp, err, x') ->
  (pending x' <= pending x)%nat.
Proof.
  destruct err as [e|].
  2:{ intros H. destruct (readLine_progress _ _ _ H) as [Hlt|[-> _]]; lia. }
  unfold Reader.readLine, pending.
  destruct (Reader.HasEOL x =? EOLCR).
  { destruct (bufio.ReadString CR (Reader.r x)) as [[s e0] b] eqn:E.
    destruct e0 as [e0|].
    - apply ReadString_err in E. destruct E as (_ & _ & Hu & _).
      intros [= _ _ <-]. rewrite r_set_r, Hu. cbn. lia.
    - destruct (slice s 0 (len s - 1)); cbn [bind]; discriminate. }
  destruct (Reader.HasEOL x =? EOLLF).
  { destruct (bufio.ReadString LF (Reader.r x)) as [[s e0] b] eqn:E.
    destruct e0 as [e0|].
    - apply ReadString_err in E. destruct E as (_ & _ & Hu & _).
      intros [= _ _ <-]. rewrite r_set_r, Hu. cbn. lia.
    - destruct (slice s 0 (len s - 1)); cbn [bind]; discriminate. }
  destruct (Reader.HasEOL x =? EOLCRLF).
  { destruct (bufio.ReadString CR (Reader.r x)) as [[s e0] b] eqn:E.
    destruct e0 as [e0|].
    - apply ReadString_err in E. destruct E as (_ & _ & Hu & _).
      intros [= _ _ <-]. rewrite r_set_r, Hu. cbn. lia.
    - pose proof (ReadString_progress _ _ _ _ E) as Hp.
      destruct (bufio.ReadByte b) as [[c e1] b'] eqn:Eb.
      destruct e1 as [e1|].
      + apply ReadByte_err in Eb. intros [= _ _ <-]. rewrite r_set_r. lia.
      + apply ReadByte_ok in Eb.
        destruct (byteZ c =? 10); [discriminate|].
        destruct (slice s 0 (len s - 1)); cbn [bind]; try discriminate.
        intros [= _ _ <-]. rewrite r_set_r. rewrite Eb in Hp. cbn in Hp. lia. }
  destruct (Reader.HasEOL x =? EOLNONE).
  { destruct (make_bytes (Reader.width x)) as [p| |]; cbn [bind];
      try discriminate.
    destruct p as [|p0 p]; [cbn; discriminate|].
    destruct (bufio.unread (Reader.r x)) as [|u0 u] eqn:Eu.
    - rewrite Read_EOF by (auto; discriminate).
      intros [= _ _ <-]. rewrite r_set_r, Eu. lia.
    - destruct (Read_some (p0 :: p) (Reader.r x)) as (k & b' & Hr & _);
        [discriminate|congruence|].
      rewrite Hr. discriminate. }
  intros [= _ _ <-]. lia.
Qed.

(** [HasEOL], [Comment] and [width] are those of the reader that read. *)
Lemma readLine_config (x x' : Reader.t) (tmp : gostring) (err : option error) :
  Reader.readLine x = Returns (tmp, err, x') ->
  Reader.HasEOL x' = Reader.HasEOL x /\
  Reader.Comment x' = Reader.Comment x /\
  Reader.width x' = Reader.width x /\
  Reader.initialskipdone x' = Reader.initialskipdone x.
Proof.
  intros H. destruct (readLine_set_r _ _ _ _ H) as [b ->]. now destruct x.
Qed.

Lemma index_head {A : Type} (c : A) (s : list A) : index (c :: s) 0 = Returns c.
Proof.
  unfold index. rewrite len_cons. pose proof (len_nonneg s).
  replace (1 + len s <=? 0) with false by (symmetry; apply Z.leb_gt; lia).
  reflexivity.
Qed.

Lemma index_nil {A : Type} (i : Z) : index (@nil A) i = Panics IndexOutOfRange.
Proof.
  unfold index. change (len (@nil A)) with 0.
  destruct (i <? 0) eqn:E; simpl; [reflexivity|].
  apply Z.ltb_ge in E. now replace (0 <=? i) with true
    by (symmetry; apply Z.leb_le; lia).
Qed.

Lemma index_ok_nonempty {A : Type} (s : list A) (c : A) :
  index s 0 = Returns c -> exists s', s = c :: s'.
Proof.
  destruct s as [|a s]; [now rewrite index_nil|].
  rewrite index_head. intros [= ->]. eauto.
Qed.

(** A line that starts with a byte was read with progress. *)
Lemma readLine_progress_nonempty
      (x1 x2 : Reader.t) (tmp t : gostring) (c : byte) :
  (Reader.HasEOL x1 = EOLNONE -> len tmp = Reader.width x1) ->
  index tmp 0 = Returns c ->
  Reader.readLine x1 = Returns (t, None, x2) ->
  (pending x2 < pending x1)%nat.
Proof.
  intros Hinv Ei E.
  destruct (readLine_progress _ _ _ E) as [Hlt|(_ & _ & Hn & Hz)]; [exact Hlt|].
  apply index_ok_nonempty in Ei. destruct Ei as [s' ->].
  specialize (Hinv Hn). rewrite len_cons in Hinv.
  pose proof (len_nonneg s'). lia.
Qed.

(** The comment loop gives the same result for every number of rounds
    above the length of the input: each round it takes reads bytes. *)
Lemma skipComments_fuel (f1 : nat) :
  forall (f2 : nat) (x : Reader.t) (tmp : gostring),
    (Reader.HasEOL x = EOLNONE -> len tmp = Reader.width x) ->
    (pending x < f1)%nat ->
    (pending x < f2)%nat ->
    Reader.skipComments f1 x tmp = Reader.skipComments f2 x tmp.
Proof.
  induction f1 as [|f1 IH]; intros f2 x tmp Hinv H1 H2; [lia|].
  destruct f2 as [|f2]; [lia|]. simpl.
  destruct (index tmp 0) as [c| |] eqn:Ei; simpl; auto.
  destruct (byteZ c =? Reader.Comment x); auto.
  destruct (Reader.readLine x) as [[[t e] x1]| |] eqn:E; simpl; auto.
  destruct e as [e|]; auto.
  destruct (readLine_config _ _ _ _ E) as (Hm & _ & Hw & _).
  pose proof (readLine_progress_nonempty _ _ _ _ _ Hinv Ei E) as Hlt.
  apply IH; try lia.
  intros Hn. rewrite Hm in Hn. rewrite Hw. eapply readLine_NONE_len; eauto.
Qed.

(** The reader after the comment loop has the configuration it had, and
    an input that is no longer. *)
Lemma skipComments_state (fuel : nat) :
  forall (x x' : Reader.t) (tmp tmp' : gostring) (err : option error),
    Reader.skipComments fuel x tmp = Returns (tmp', err, x') ->
    (exists b, x' = Reader.set_r x b) /\ (pending x' <= pending x)%nat.
Proof.
  induction fuel as [|fuel IH]; intros x x' tmp tmp' err; simpl;
    [discriminate|].
  destruct (index tmp 0) as [c| |]; simpl; try discriminate.
  destruct (byteZ c =? Reader.Comment x).
  - destruct (Reader.readLine x) as [[[t e] x1]| |] eqn:E; simpl;
      try discriminate.
    pose proof (readLine_input_le _ _ _ _ E) as Hle.
    destruct (readLine_set_r _ _ _ _ E) as [b1 Hx1].
    destruct e as [e|].
    + intros [= <- <- <-]. split; eauto.
    + intros H. apply IH in H. destruct H as [[b ->] Hle'].
      subst x1. split; [|unfold pending in *; simpl in *; lia].
      exists b. now destruct x.
  - intros [= <- <- <-]. split; [|lia]. exists (Reader.r x).
    now rewrite set_r_same.
Qed.

(** A line the comment loop hands on does not start with the marker; it
    is the line the loop was given or a line [readLine] returned. *)
Lemma skipComments_result (fuel : nat) :
  forall (x x' : Reader.t) (tmp tmp' : gostring),
    Reader.skipComments fuel x tmp = Returns (tmp', None, x') ->
    ~ startsWith (Reader.Comment x) tmp' /\
    ((tmp' = tmp /\ x' = x) \/
     exists x0, Reader.readLine x0 = Returns (tmp', None, x') /\
                Reader.HasEOL x0 = Reader.HasEOL x /\
                Reader.width x0 = Reader.width x).
Proof.
  induction fuel as [|fuel IH]; intros x x' tmp tmp'; simpl; [discriminate|].
  destruct (index tmp 0) as [c| |] eqn:Ei; simpl; try discriminate.
  destruct (Z.eqb_spec (byteZ c) (Reader.Comment x)) as [Hc|Hc].
  - destruct (Reader.readLine x) as [[[t e] x1]| |] eqn:E; simpl;
      try discriminate.
    destruct e as [e|]; [discriminate|].
    destruct (readLine_config _ _ _ _ E) as (Hm & Hcm & Hw & _).
    intros H. apply IH in H. rewrite Hcm in H.
    destruct H as [Hns [[-> ->]|(x0 & Hr & Hm0 & Hw0)]]; split; auto; right.
    + exists x. auto.
    + exists x0. rewrite Hm0, Hw0. auto.
  - intros [= <- <-]. split; [|now left].
    intros (c' & rest & -> & Hc'). rewrite index_head in Ei.
    injection Ei as ->. contradiction.
Qed.

Lemma dropComments_state (x x' : Reader.t) (tmp tmp' : gostring)
      (err : option error) :
  Reader.dropComments x tmp = Returns (tmp', err, x') ->
  (exists b, x' = Reader.set_r x b) /\ (pending x' <= pending x)%nat.
Proof.
  unfold Reader.dropComments.
  assert (Hsame : (exists b, x = Reader.set_r x b) /\
                  (pending x <= pending x)%nat).
  { split; [|lia]. exists (Reader.r x). now rewrite set_r_same. }
  destruct (negb (Reader.Comment x =? 0)).
  - destruct (index tmp 0) as [c| |]; cbn [bind]; try discriminate.
    destruct (byteZ c =? Reader.Comment x).
    + apply skipComments_state.
    + now intros [= <- <- <-].
  - now intros [= <- <- <-].
Qed.

Lemma dropComments_result (x x' : Reader.t) (tmp tmp' : gostring) :
  Reader.dropComments x tmp = Returns (tmp', None, x') ->
  (Reader.Comment x <> 0 -> ~ startsWith (Reader.Comment x) tmp') /\
  ((tmp' = tmp /\ x' = x) \/
   exists x0, Reader.readLine x0 = Returns (tmp', None, x') /\
              Reader.HasEOL x0 = Reader.HasEOL x /\
              Reader.width x0 = Reader.width x).
Proof.
  unfold Reader.dropComments.
  destruct (Z.eqb_spec (Reader.Comment x) 0) as [Hz|Hz]; cbn [negb].
  - intros [= <- <-]. split; [congruence|now left].
  - destruct (index tmp 0) as [c| |] eqn:Ei; cbn [bind]; try discriminate.
    destruct (Z.eqb_spec (byteZ c) (Reader.Comment x)) as [Hc|Hc].
    + intros H. apply skipComments_result in H. tauto.
    + intros [= <- <-]. split; [|now left].
      intros _ (c' & rest & -> & Hc'). rewrite index_head in Ei.
      injection Ei as ->. contradiction.
Qed.

(** The record [parseRecord] returns is cut out of a line that [readLine]
    returned, as wide as the configuration says, free of CR and LF, and,
    with a comment marker configured, not starting with it. *)
Lemma parseRecord_line (x x' : Reader.t) (record : list gostring) :
  Reader.parseRecord x = Returns (record, None, x') ->
  exists x0 tmp,
    Reader.readLine x0 = Returns (tmp, None, x') /\
    Reader.HasEOL x0 = Reader.HasEOL x /\
    (Reader.Comment x <> 0 -> ~ startsWith (Reader.Comment x) tmp) /\
    len tmp = Reader.width x /\
    Reader.hasCRorLF tmp = false /\
    Reader.extractFields (Reader.TrimFields x) tmp (Reader.SkipStart x)
                         (Reader.FieldLengths x) [] = Returns record.
Proof.
  unfold Reader.parseRecord.
  destruct (Reader.readLine x) as [[[t e] x1]| |] eqn:E; simpl;
    try discriminate.
  destruct e as [e|]; [discriminate|].
  destruct (Reader.dropComments x1 t) as [[[t2 e2] x2]| |] eqn:E2; simpl;
    try discriminate.
  destruct e2 as [e2|]; [discriminate|].
  destruct (readLine_set_r _ _ _ _ E) as [b1 Hx1].
  destruct (dropComments_state _ _ _ _ _ E2) as [[b2 Hx2] _].
  apply dropComments_result in E2.
  unfold Reader.cutLine.
  destruct (Z.eqb_spec (len t2) (Reader.width x2)) as [Hw|Hw]; simpl;
    [|discriminate].
  destruct (Reader.hasCRorLF t2) eqn:Hs; [discriminate|].
  destruct (Reader.extractFields _ _ _ _ _) as [res| |] eqn:Ex; simpl;
    try discriminate.
  intros [= <- <-].
  assert (Hcfg : Reader.Comment x1 = Reader.Comment x /\
                 Reader.HasEOL x1 = Reader.HasEOL x /\
                 Reader.width x2 = Reader.width x /\
                 Reader.width x1 = Reader.width x /\
                 Reader.TrimFields x2 = Reader.TrimFields x /\
                 Reader.SkipStart x2 = Reader.SkipStart x /\
                 Reader.FieldLengths x2 = Reader.FieldLengths x).
  { subst x2 x1. now destruct x. }
  destruct Hcfg as (Hc & Hm & Hw2 & Hw1 & Ht & Hss & Hfl).
  rewrite Ht, Hss, Hfl in Ex. rewrite Hw2 in Hw. rewrite Hc in E2.
  destruct E2 as [Hns [[-> ->]|(x0 & Hr & Hm0 & Hw0)]].
  - exists x, t. auto 10.
  - exists x0, t2. rewrite Hm0, Hm. auto 10.
Qed.

(** C3, the consequence: in CR LF mode [parseRecord] returns no record,
    whatever the input. *)
Lemma parseRecord_CRLF_never_returns_a_record
      (x x' : Reader.t) (record : list gostring) :
  Reader.HasEOL x = EOLCRLF ->
  Reader.parseRecord x <> Returns (record, None, x').
Proof.
  intros Hm H. apply parseRecord_line in H.
  destruct H as (x0 & tmp & Hr & Hm0 & _ & _ & Hs & _).
  rewrite Hm in Hm0.
  destruct (readLine_CRLF_keeps_CR _ _ _ Hm0 Hr) as (l & -> & _).
  rewrite hasCRorLF_last_CR in Hs. discriminate.
Qed.

(** A record returned means bytes were read, or nothing changed at all. *)
Lemma parseRecord_progress (x x' : Reader.t) (record : list gostring) :
  Reader.parseRecord x = Returns (record, None, x') ->
  (pending x' < pending x)%nat \/ x' = x.
Proof.
  unfold Reader.parseRecord.
  destruct (Reader.readLine x) as [[[t e] x1]| |] eqn:E; simpl;
    try discriminate.
  destruct e as [e|]; [discriminate|].
  destruct (Reader.dropComments x1 t) as [[[t2 e2] x2]| |] eqn:E2; simpl;
    try discriminate.
  destruct e2 as [e2|]; [discriminate|].
  destruct (dropComments_state _ _ _ _ _ E2) as [_ Hle].
  unfold Reader.cutLine.
  destruct (negb (len t2 =? Reader.width x2)); [discriminate|].
  destruct (Reader.hasCRorLF t2); [discriminate|].
  destruct (Reader.extractFields _ _ _ _ _) as [res| |]; simpl;
    try discriminate.
  intros [= <- <-].
  destruct (readLine_progress _ _ _ E) as [Hlt|(-> & -> & _ & _)];
    [left; lia|].
  right. revert E2. unfold Reader.dropComments.
  destruct (negb (Reader.Comment x =? 0)).
  - rewrite index_nil. simpl. discriminate.
  - now intros [= _ <-].
Qed.

(** ** C10: the first byte of an empty line *)

(** With a comment marker configured, an empty raw line makes
    [parseRecord] panic, in every line-ending mode. *)
Lemma parseRecord_empty_line_panics (x x1 : Reader.t) :
  Reader.Comment x <> 0 ->
  Reader.readLine x = Returns ([], None, x1) ->
  Reader.parseRecord x = Panics IndexOutOfRange.
Proof.
  intros Hc H. unfold Reader.parseRecord. rewrite H. cbn [bind].
  unfold Reader.dropComments.
  destruct (readLine_config _ _ _ _ H) as (_ & -> & _).
  destruct (Z.eqb_spec (Reader.Comment x) 0) as [Hz|Hz]; [contradiction|].
  cbn [negb]. now rewrite index_nil.
Qed.

(** C10: with a comment marker configured and lines ended by CR, an input
    that starts with a CR gives an empty raw line, and [Read] panics on
    its first byte instead of returning an error. *)
Theorem Read_panics_on_lone_CR (x : Reader.t) (rest : list byte) :
  Reader.Comment x <> 0 ->
  Reader.HasEOL x = EOLCR ->
  Reader.initialskipdone x = true ->
  bufio.unread (Reader.r x) = CR :: rest ->
  (exists b, Reader.readLine x = Returns ([], None, Reader.set_r x b) /\
             bufio.unread b = rest) /\
  Reader.Read x = Panics IndexOutOfRange.
Proof.
  intros Hc Hm Hs Hr.
  destruct (readLine_CR x [] rest Hm Hr) as (b & Hl & Hu); [auto|].
  split; [exists b; auto|].
  unfold Reader.Read, Reader.initialSkip. rewrite Hs. cbn [negb bind].
  eapply parseRecord_empty_line_panics; eauto.
Qed.

Lemma Read_panics_on_lone_CR_witness :
  (exists b,
      Reader.readLine Examples.readerLoneCR =
        Returns ([], None, Reader.set_r Examples.readerLoneCR b) /\
      bufio.unread b = str "ab" ++ [CR]) /\
  Reader.Read Examples.readerLoneCR = Panics IndexOutOfRange.
Proof.
  apply (Read_panics_on_lone_CR Examples.readerLoneCR (str "ab" ++ [CR]));
    [discriminate | reflexivity | reflexivity | reflexivity].
Defined.

(** ** C7: comment lines *)

Lemma skipComments_guard (k : nat) (x : Reader.t) (tmp : gostring) :
  (c <- index tmp 0 ;;
   if byteZ c =? Reader.Comment x
   then Reader.skipComments (S k) x tmp
   else Returns (tmp, None, x)) =
  Reader.skipComments (S k) x tmp.
Proof.
  cbn [Reader.skipComments].
  destruct (index tmp 0) as [c| |]; cbn [bind]; auto.
  destruct (byteZ c =? Reader.Comment x); auto.
Qed.

(** One comment line in front changes nothing: [parseRecord] gives what
    it gives once the line is off the input. *)
Lemma parseRecord_skips_comment_line (x x1 : Reader.t) (tmp : gostring) :
  Reader.Comment x <> 0 ->
  Reader.readLine x = Returns (tmp, None, x1) ->
  startsWith (Reader.Comment x) tmp ->
  Reader.parseRecord x = Reader.parseRecord x1.
Proof.
  intros Hc H (c & rest & -> & Hb).
  destruct (readLine_config _ _ _ _ H) as (Hm & Hcm & Hw & _).
  unfold Reader.parseRecord at 1. rewrite H. cbn [bind].
  unfold Reader.dropComments. rewrite Hcm.
  destruct (Z.eqb_spec (Reader.Comment x) 0) as [Hz|Hz]; [contradiction|].
  cbn [negb]. rewrite index_head. cbn [bind].
  rewrite Hb, Z.eqb_refl.
  cbn [Reader.skipComments]. rewrite index_head. cbn [bind].
  rewrite Hcm, Hb, Z.eqb_refl.
  unfold Reader.parseRecord.
  destruct (Reader.readLine x1) as [[[t e] x2]| |] eqn:E; cbn [bind]; auto.
  destruct e as [e|]; auto.
  destruct (readLine_config _ _ _ _ E) as (Hm2 & Hcm2 & Hw2 & _).
  assert (Hlt : (pending x2 < pending x1)%nat).
  { apply (readLine_progress_nonempty x1 x2 (c :: rest) t c);
      [|apply index_head|exact E].
    intros Hn. rewrite Hw. rewrite Hm in Hn.
    eapply readLine_NONE_len; eauto. }
  assert (Hinv : Reader.HasEOL x2 = EOLNONE -> len t = Reader.width x2).
  { intros Hn. rewrite Hm2 in Hn. rewrite Hw2.
    eapply readLine_NONE_len; eauto. }
  f_equal.
  unfold Reader.dropComments. rewrite Hcm2, Hcm.
  destruct (Z.eqb_spec (Reader.Comment x) 0) as [Hz'|_]; [contradiction|].
  cbn [negb].
  unfold pending in Hlt.
  destruct (List.length (bufio.unread (Reader.r x1))) as [|k] eqn:Ek; [lia|].
  rewrite (skipComments_fuel (S (List.length (bufio.unread (Reader.r x2))))
                             (S k))
    by (auto; unfold pending; lia).
  replace (Reader.Comment x) with (Reader.Comment x2) by congruence.
  symmetry. apply skipComments_guard.
Qed.

Lemma readsLines_config (x x1 : Reader.t) (lines : list gostring) :
  readsLines x lines x1 ->
  Reader.Comment x1 = Reader.Comment x /\
  Reader.initialskipdone x1 = Reader.initialskipdone x /\
  (pending x1 <= pending x)%nat.
Proof.
  induction 1 as [x|x tmp x1 lines x2 H _ IH]; [auto|].
  destruct (readLine_config _ _ _ _ H) as (_ & Hc & _ & Hs).
  pose proof (readLine_input_le _ _ _ _ H).
  destruct IH as (-> & -> & Hle). repeat split; auto. lia.
Qed.

Lemma parseRecord_skips_comment_lines (x x1 : Reader.t) (lines : list gostring) :
  Reader.Comment x <> 0 ->
  readsLines x lines x1 ->
  Forall (startsWith (Reader.Comment x)) lines ->
  Reader.parseRecord x = Reader.parseRecord x1.
Proof.
  intros Hc Hl. induction Hl as [x|x tmp x1 lines x2 H _ IH]; intros Hf;
    [reflexivity|].
  inversion Hf as [|? ? Hs Hf']; subst.
  destruct (readLine_config _ _ _ _ H) as (_ & Hcm & _).
  rewrite (parseRecord_skips_comment_line x x1 tmp); auto.
  apply IH; rewrite Hcm; auto.
Qed.

(** ** The loop of [ReadAll] *)

(** A round that returns a record and leaves the reader as it was is
    followed by the same round, for ever. *)
Lemma readAllLoop_stuck (x : Reader.t) (record : list gostring) :
  Reader.parseRecord x = Returns (record, None, x) ->
  forall (fuel : nat) (acc : list (list gostring)),
    Reader.readAllLoop fuel x acc = Spins.
Proof.
  intros H fuel. induction fuel as [|fuel IH]; intros acc; [reflexivity|].
  cbn [Reader.readAllLoop]. rewrite H. cbn [bind]. apply IH.
Qed.

(** Above the length of the input, the number of rounds allowed makes no
    difference. *)
Lemma readAllLoop_fuel (f1 : nat) :
  forall (f2 : nat) (x : Reader.t) (acc : list (list gostring)),
    (pending x < f1)%nat ->
    (pending x < f2)%nat ->
    Reader.readAllLoop f1 x acc = Reader.readAllLoop f2 x acc.
Proof.
  induction f1 as [|f1 IH]; intros f2 x acc H1 H2; [lia|].
  destruct f2 as [|f2]; [lia|]. cbn [Reader.readAllLoop].
  destruct (Reader.parseRecord x) as [[[record e] x1]| |] eqn:E;
    cbn [bind]; auto.
  destruct e as [e|]; auto.
  destruct (parseRecord_progress _ _ _ E) as [Hlt| ->].
  - apply IH; lia.
  - now rewrite !(readAllLoop_stuck x record E).
Qed.

Lemma skipLoop_config (n : nat) :
  forall (x x' : Reader.t) (err : option error),
    Reader.skipLoop n x = Returns (err, x') ->
    Reader.Comment x' = Reader.Comment x /\
    Reader.initialskipdone x' = Reader.initialskipdone x.
Proof.
  induction n as [|n IH]; intros x x' err; cbn [Reader.skipLoop].
  - now intros [= <- <-].
  - destruct (Reader.readLine x) as [[[t e] x1]| |] eqn:E; cbn [bind];
      try discriminate.
    destruct (readLine_config _ _ _ _ E) as (_ & Hc & _ & Hs).
    destruct e as [e|].
    + now intros [= <- <-].
    + intros H. apply IH in H. destruct H as [-> ->]. auto.
Qed.

(** After the lines to skip the reader has the marker it had, and will
    not skip again. *)
Lemma initialSkip_config (x x0 : Reader.t) :
  Reader.initialSkip x = Returns (None, x0) ->
  Reader.Comment x0 = Reader.Comment x /\ Reader.initialskipdone x0 = true.
Proof.
  unfold Reader.initialSkip, Reader.skipInitialLines.
  destruct (Reader.initialskipdone x) eqn:Hd; cbn [negb].
  - now intros [= <-].
  - destruct (Reader.skipLoop _ x) as [[err x1]| |] eqn:E; cbn [bind];
      try discriminate.
    destruct err as [e|]; [discriminate|].
    intros [= <-]. apply skipLoop_config in E. destruct E as [Hc _].
    split; [|reflexivity]. now destruct x1.
Qed.

Lemma initialSkip_done (x : Reader.t) :
  Reader.initialskipdone x = true -> Reader.initialSkip x = Returns (None, x).
Proof. intros H. unfold Reader.initialSkip. now rewrite H. Qed.

(** C7: once the lines to skip are behind, comment lines in front of the
    input, however many, are skipped: [Read], [ReadAll], [ReadRows] for
    at least one row, and [parseRecord] under them, give what they give
    once these lines are off the input; and a record that [parseRecord]
    returns is cut out of a raw line that does not start with the
    marker. *)
Theorem comment_lines_are_skipped
        (x x0 x1 : Reader.t) (lines : list gostring) :
  Reader.Comment x <> 0 ->
  Reader.initialSkip x = Returns (None, x0) ->
  readsLines x0 lines x1 ->
  Forall (startsWith (Reader.Comment x)) lines ->
  Reader.Read x = Reader.Read x1 /\
  Reader.ReadAll x = Reader.ReadAll x1 /\
  (forall n, 0 < n -> Reader.ReadRows x n = Reader.ReadRows x1 n) /\
  Reader.parseRecord x0 = Reader.parseRecord x1 /\
  (forall record x',
      Reader.parseRecord x0 = Returns (record, None, x') ->
      exists xl tmp,
        Reader.readLine xl = Returns (tmp, None, x') /\
        ~ startsWith (Reader.Comment x) tmp /\
        Reader.extractFields (Reader.TrimFields x0) tmp (Reader.SkipStart x0)
                             (Reader.FieldLengths x0) [] = Returns record).
Proof.
  intros Hc Hi Hl Hf.
  destruct (initialSkip_config _ _ Hi) as [Hc0 Hd0].
  rewrite <- Hc0 in Hc, Hf.
  pose proof (parseRecord_skips_comment_lines x0 x1 lines Hc Hl Hf) as Hp.
  destruct (readsLines_config _ _ _ Hl) as (_ & Hs & Hle).
  rewrite Hd0 in Hs. pose proof (initialSkip_done _ Hs) as Hi1.
  split; [|split; [|split; [|split]]].
  5:{ intros record x' Hr. apply parseRecord_line in Hr.
      destruct Hr as (xl & tmp & Hrl & _ & Hns & _ & _ & Hex).
      exists xl, tmp. rewrite <- Hc0. auto. }
  - unfold Reader.Read. rewrite Hi, Hi1. cbn [bind]. exact Hp.
  - unfold Reader.ReadAll. rewrite Hi, Hi1.
    cbn [bind Reader.readAllLoop]. rewrite Hp.
    destruct (Reader.parseRecord x1) as [[[record e] x2]| |] eqn:E;
      cbn [bind]; auto.
    destruct e as [e|]; auto.
    destruct (parseRecord_progress _ _ _ E) as [Hlt| ->].
    + apply readAllLoop_fuel; unfold pending in *; lia.
    + now rewrite !(readAllLoop_stuck x1 record E).
  - intros n Hn. unfold Reader.ReadRows. rewrite Hi, Hi1. cbn [bind].
    destruct (n <? 0); [reflexivity|].
    destruct (Z.to_nat n) as [|k] eqn:Ek; [lia|].
    cbn [Reader.readRowsLoop]. now rewrite Hp.
  - exact Hp.
Qed.

Lemma comment_lines_are_skipped_witness :
  Reader.Read Examples.readerComments =
    Reader.Read Examples.readerCommentsGone /\
  Reader.ReadAll Examples.readerComments =
    Reader.ReadAll Examples.readerCommentsGone /\
  (forall n, 0 < n ->
     Reader.ReadRows Examples.readerComments n =
     Reader.ReadRows Examples.readerCommentsGone n) /\
  Reader.parseRecord Examples.readerCommentsSkipped =
    Reader.parseRecord Examples.readerCommentsGone /\
  (forall record x',
      Reader.parseRecord Examples.readerCommentsSkipped =
        Returns (record, None, x') ->
      exists xl tmp,
        Reader.readLine xl = Returns (tmp, None, x') /\
        ~ startsWith (Reader.Comment Examples.readerComments) tmp /\
        Reader.extractFields
          (Reader.TrimFields Examples.readerCommentsSkipped) tmp
          (Reader.SkipStart Examples.readerCommentsSkipped)
          (Reader.FieldLengths Examples.readerCommentsSkipped) [] =
          Returns record).
Proof.
  apply (comment_lines_are_skipped
           Examples.readerComments Examples.readerCommentsSkipped
           Examples.readerCommentsGone [str "#a"; str "#bcd"]).
  - discriminate.
  - reflexivity.
  - eapply readsLines_cons; [reflexivity|].
    eapply readsLines_cons; [reflexivity|].
    apply readsLines_nil.
  - repeat constructor; eexists; eexists; split; reflexivity.
Defined.

(** The record behind the header and the comment lines. *)
Example Read_after_comment_lines :
  Reader.Read Examples.readerComments =
    Returns ([str "xy"], None,
             Reader.set_r Examples.readerCommentsGone (Examples.buffered [])).
Proof. reflexivity. Qed.

(** ** C4: how [ReadAll] ends *)

(** Only [io.EOF] has the message "EOF". *)
Lemma Error_EOF (e : error) : Error e = "EOF"%string <-> e = EOF.
Proof.
  split; [|now intros ->].
  destruct e as [msg|l c e']; simpl.
  - now intros ->.
  - discriminate.
Qed.

(** No first failure can follow a round that returns a record and leaves
    the reader as it was. *)
Lemma parsesUntil_not_stuck (x x' : Reader.t) (records : list (list gostring))
      (e : error) :
  parsesUntil x records e x' ->
  forall record, Reader.parseRecord x <> Returns (record, None, x).
Proof.
  induction 1 as [x e x' H|x record x1 records e x' H _ IH];
    intros record0 H0.
  - congruence.
  - rewrite H in H0. injection H0 as -> ->. now apply (IH record0).
Qed.

Lemma readAllLoop_parsesUntil (x x' : Reader.t)
      (records : list (list gostring)) (e : error) :
  parsesUntil x records e x' ->
  forall (fuel : nat) (acc : list (list gostring)),
    (pending x < fuel)%nat ->
    Reader.readAllLoop fuel x acc =
      Returns (acc ++ records,
               if String.eqb (Error e) "EOF" then None else Some e, x').
Proof.
  induction 1 as [x e x' H|x record x1 records e x' H Hu IH];
    intros fuel acc Hf; (destruct fuel as [|fuel]; [lia|]);
    cbn [Reader.readAllLoop]; rewrite H; cbn [bind].
  - rewrite app_nil_r. now destruct (String.eqb (Error e) "EOF").
  - destruct (parseRecord_progress _ _ _ H) as [Hlt| ->].
    + rewrite IH by lia. now rewrite <- app_assoc.
    + exfalso. exact (parsesUntil_not_stuck _ _ _ _ Hu record H).
Qed.

(** C4, the claim as stated fails: with one line to skip and an empty
    input, the first failure [ReadAll] meets is the end of the input, and
    [ReadAll] returns it as an error, inside a [ParseError]. *)
Lemma ReadAll_end_of_input_while_skipping :
  Reader.SkipLines Examples.readerEmptyInput = 1 /\
  bufio.unread (Reader.r Examples.readerEmptyInput) = [] /\
  Reader.ReadAll Examples.readerEmptyInput =
    Returns ([], Some (ParseError 0 0 EOF), Examples.readerEmptyInput).
Proof. repeat split. Qed.

(** C4, amended: once the lines to skip are behind, [ReadAll] returns at
    the first failure of [parseRecord] with the records read before it:
    without an error when the failure is the end of the input, with the
    error, as it is, when it is any other. *)
Theorem ReadAll_ends_at_first_failure
        (x x1 x' : Reader.t) (records : list (list gostring)) (e : error) :
  Reader.initialSkip x = Returns (None, x1) ->
  parsesUntil x1 records e x' ->
  (e = EOF -> Reader.ReadAll x = Returns (records, None, x')) /\
  (e <> EOF -> Reader.ReadAll x = Returns (records, Some e, x')).
Proof.
  intros Hs Hu. unfold Reader.ReadAll. rewrite Hs. cbn [bind].
  rewrite (readAllLoop_parsesUntil _ _ _ _ Hu) by (unfold pending; lia).
  cbn [app].
  split; intros He.
  - apply Error_EOF in He. rewrite He. reflexivity.
  - destruct (String.eqb_spec (Error e) "EOF") as [Hm|Hm]; [|reflexivity].
    apply Error_EOF in Hm. contradiction.
Qed.

Lemma ReadAll_ends_at_first_failure_witness :
  (EOF = EOF ->
   Reader.ReadAll Examples.readerTwoRecords =
     Returns ([[str "ab"]; [str "cd"]], None,
              Reader.set_initialskipdone
                (Reader.set_r Examples.readerTwoRecords
                              (Examples.buffered [])) true)) /\
  (EOF <> EOF ->
   Reader.ReadAll Examples.readerTwoRecords =
     Returns ([[str "ab"]; [str "cd"]], Some EOF,
              Reader.set_initialskipdone
                (Reader.set_r Examples.readerTwoRecords
                              (Examples.buffered [])) true)).
Proof.
  apply (ReadAll_ends_at_first_failure
           Examples.readerTwoRecords
           (Reader.set_initialskipdone
              (Reader.set_r Examples.readerTwoRecords
                            (Examples.buffered
                               (str "ab" ++ LF :: str "cd" ++ [LF]))) true)).
  - reflexivity.
  - eapply parsesUntil_record; [reflexivity|].
    eapply parsesUntil_record; [reflexivity|].
    apply parsesUntil_fail. reflexivity.
Defined.

(** ** One field of [Write] *)

Lemma index_app_mid {A : Type} (l t : list A) (a : A) :
  index (l ++ a :: t) (len l) = Returns a.
Proof.
  unfold index. rewrite len_app, len_cons.
  pose proof (len_nonneg l). pose proof (len_nonneg t).
  replace (len l <? 0) with false by (symmetry; apply Z.ltb_ge; lia).
  replace (len l + (1 + len t) <=? len l) with false
    by (symmetry; apply Z.leb_gt; lia).
  cbn [orb]. unfold len. rewrite Nat2Z.id.
  rewrite nth_error_app2 by lia. now rewrite Nat.sub_diag.
Qed.

Lemma index_beyond {A : Type} (s : list A) (i : Z) :
  len s <= i -> index s i = Panics IndexOutOfRange.
Proof.
  intros H. unfold index.
  replace (len s <=? i) with true by (symmetry; apply Z.leb_le; lia).
  now rewrite orb_true_r.
Qed.

Lemma slice_firstn {A : Type} (s : list A) (n : Z) :
  0 <= n <= len s -> slice s 0 n = Returns (firstn (Z.to_nat n) s).
Proof.
  intros H. unfold slice.
  replace (0 <=? 0) with true by reflexivity.
  replace (0 <=? n) with true by (symmetry; apply Z.leb_le; lia).
  replace (n <=? len s) with true by (symmetry; apply Z.leb_le; lia).
  cbn [andb]. now rewrite Z.sub_0_r.
Qed.

Lemma slice_negative {A : Type} (s : list A) (n : Z) :
  n < 0 -> slice s 0 n = Panics SliceBoundsOutOfRange.
Proof.
  intros H. unfold slice.
  replace (0 <=? n) with false by (symmetry; apply Z.leb_gt; lia).
  reflexivity.
Qed.

Lemma alignAt_set_w (x : Writer.t) (o : bufio.Writer) (i : Z) :
  Writer.alignAt (Writer.set_w x o) i = Writer.alignAt x i.
Proof. reflexivity. Qed.

Lemma set_w_set_w (x : Writer.t) (o o' : bufio.Writer) :
  Writer.set_w (Writer.set_w x o) o' = Writer.set_w x o'.
Proof. reflexivity. Qed.

Lemma set_w_same (x : Writer.t) : Writer.set_w x (Writer.w x) = x.
Proof. now destruct x. Qed.

(** A field longer than its column, without [TrimFields]: the error, and
    nothing put out. *)
Lemma writeField_too_long (x : Writer.t) (flds : list gostring) (i : Z)
      (f : gostring) (n : Z) :
  index flds i = Returns f ->
  index (Writer.FieldLengths x) i = Returns n ->
  n < len f ->
  Writer.TrimFields x = false ->
  Writer.writeField x flds i = Returns (Some ErrFieldLengthError, x).
Proof.
  intros Hf Hn Hlt Ht. unfold Writer.writeField.
  rewrite Hf, Hn. cbn [bind].
  replace (len f >? n) with true by (symmetry; apply Z.gtb_lt; lia).
  now rewrite Ht.
Qed.

(** A field longer than its column, with [TrimFields]: its first [n]
    bytes. *)
Lemma writeField_truncates (x : Writer.t) (flds : list gostring) (i : Z)
      (f : gostring) (n : Z) :
  index flds i = Returns f ->
  index (Writer.FieldLengths x) i = Returns n ->
  n < len f ->
  Writer.TrimFields x = true ->
  0 <= n ->
  Writer.writeField x flds i =
    Returns (None, Writer.set_w x (Writer.w x ++ firstn (Z.to_nat n) f)).
Proof.
  intros Hf Hn Hlt Ht H0. unfold Writer.writeField.
  rewrite Hf, Hn. cbn [bind].
  replace (len f >? n) with true by (symmetry; apply Z.gtb_lt; lia).
  rewrite Ht. cbn [negb]. rewrite slice_firstn by lia. cbn [bind].
  unfold bufio.Write.
  replace (len (firstn (Z.to_nat n) f) =? n) with true; [reflexivity|].
  symmetry. apply Z.eqb_eq. unfold len in *. rewrite length_firstn. lia.
Qed.

(** A field no longer than its column: the field and its padding. *)
Lemma writeField_pads (x : Writer.t) (flds : list gostring) (i : Z)
      (f : gostring) (n a : Z) :
  index flds i = Returns f ->
  index (Writer.FieldLengths x) i = Returns n ->
  len f <= n ->
  Writer.alignAt x i = Returns a ->
  Writer.writeField x flds i =
    Returns (None, Writer.set_w x (Writer.w x ++ padded a n f)).
Proof.
  intros Hf Hn Hle Ha. unfold Writer.writeField.
  rewrite Hf, Hn. cbn [bind].
  replace (len f >? n) with false by (rewrite Z.gtb_ltb; symmetry; apply Z.ltb_ge; lia).
  rewrite Ha. cbn [bind]. unfold bufio.Write, padded, Writer.outputSpaces, spaces.
  destruct (Z.eqb_spec a ALIGNRIGHT) as [Hr|Hr].
  - rewrite set_w_set_w. rewrite Z.eqb_refl. cbn [negb].
    rewrite alignAt_set_w, Ha. cbn [bind].
    destruct (Z.eqb_spec a ALIGNLEFT) as [Hl|Hl];
      [unfold ALIGNLEFT, ALIGNRIGHT in *; lia|].
    cbn [Writer.w Writer.set_w]. now rewrite <- app_assoc.
  - rewrite set_w_set_w. rewrite Z.eqb_refl. cbn [negb].
    rewrite alignAt_set_w, Ha. cbn [bind].
    destruct (Z.eqb_spec a ALIGNLEFT) as [Hl|Hl].
    + unfold Writer.outputSpaces. cbn [Writer.w Writer.set_w].
      now rewrite <- app_assoc.
    + reflexivity.
Qed.

(** A field no longer than its column, and no alignment for it. *)
Lemma writeField_no_alignment (x : Writer.t) (flds : list gostring) (i : Z)
      (f : gostring) (n : Z) (p : panic) :
  index flds i = Returns f ->
  index (Writer.FieldLengths x) i = Returns n ->
  len f <= n ->
  Writer.alignAt x i = Panics p ->
  Writer.writeField x flds i = Panics p.
Proof.
  intros Hf Hn Hle Ha. unfold Writer.writeField.
  rewrite Hf, Hn. cbn [bind].
  replace (len f >? n) with false by (rewrite Z.gtb_ltb; symmetry; apply Z.ltb_ge; lia).
  now rewrite Ha.
Qed.

(** ** The loop of [Write] *)

Lemma alignAt_alignments (x : Writer.t) (i : Z) :
  Writer.alignAt x i = index (alignments x) i.
Proof.
  unfold Writer.alignAt, alignments.
  destruct (Writer.FieldAlign x); [reflexivity|]. now rewrite index_nil.
Qed.

Lemma index_panics {A : Type} (s : list A) (i : Z) (p : panic) :
  index s i = Panics p -> p = IndexOutOfRange.
Proof.
  unfold index. destruct ((i <? 0) || (len s <=? i)); [now intros [= <-]|].
  destruct (nth_error s (Z.to_nat i)); [discriminate|now intros [= <-]].
Qed.

Lemma index_never_spins {A : Type} (s : list A) (i : Z) : index s i <> Spins.
Proof.
  unfold index. destruct ((i <? 0) || (len s <=? i)); [discriminate|].
  destruct (nth_error s (Z.to_nat i)); discriminate.
Qed.

Lemma len_snoc {A : Type} (s : list A) (a : A) : len (s ++ [a]) = len s + 1.
Proof. rewrite len_app, len_cons. change (len (@nil A)) with 0. lia. Qed.

(** What a field handed to [Write] without an error puts out is its
    [cell]. *)
Lemma writeField_cell (x : Writer.t) (flds : list gostring) (i : Z)
      (f : gostring) (n a : Z) :
  index flds i = Returns f ->
  index (Writer.FieldLengths x) i = Returns n ->
  index (alignments x) i = Returns a ->
  fieldOK (Writer.TrimFields x) f n ->
  Writer.writeField x flds i =
    Returns (None, Writer.set_w x (Writer.w x ++ cell a n f)).
Proof.
  intros Hf Hn Ha Hok. unfold cell.
  destruct (Z.gtb_spec (len f) n) as [Hgt|Hle].
  - destruct Hok as [Hle|[Ht H0]]; [lia|].
    now apply writeField_truncates.
  - apply writeField_pads; auto. now rewrite alignAt_alignments.
Qed.

(** The loop over a run of fields that are all taken: their cells, one
    after the other. *)
Lemma writeLoop_cells (pre : list gostring) :
  forall (preL prea : list Z) (F0 F1 : list gostring) (L0 L1 A0 A1 : list Z)
         (x : Writer.t),
    Writer.FieldLengths x = L0 ++ preL ++ L1 ->
    alignments x = A0 ++ prea ++ A1 ->
    List.length L0 = List.length F0 ->
    List.length A0 = List.length F0 ->
    List.length preL = List.length pre ->
    List.length prea = List.length pre ->
    Forall2 (fieldOK (Writer.TrimFields x)) pre preL ->
    Writer.writeLoop (List.length pre) x (F0 ++ pre ++ F1) (len F0) =
      Returns (None,
               Writer.set_w x (Writer.w x ++ List.concat (cells prea preL pre))).
Proof.
  induction pre as [|f pre IH];
    intros preL prea F0 F1 L0 L1 A0 A1 x HL HA HL0 HA0 HLp HAp Hok.
  - destruct preL, prea; try discriminate. cbn.
    now rewrite app_nil_r, set_w_same.
  - destruct preL as [|n preL]; [discriminate|].
    destruct prea as [|a prea]; [discriminate|].
    inversion Hok as [|? ? ? ? Hf Hok']; subst.
    cbn [List.length Writer.writeLoop].
    assert (Hif : index (F0 ++ (f :: pre) ++ F1) (len F0) = Returns f)
      by apply index_app_mid.
    assert (Hin : index (Writer.FieldLengths x) (len F0) = Returns n).
    { rewrite HL. replace (len F0) with (len L0) by (unfold len; lia).
      apply index_app_mid. }
    assert (Hia : index (alignments x) (len F0) = Returns a).
    { rewrite HA. replace (len F0) with (len A0) by (unfold len; lia).
      apply index_app_mid. }
    rewrite (writeField_cell x _ _ f n a Hif Hin Hia Hf). cbn [bind].
    replace (F0 ++ (f :: pre) ++ F1) with ((F0 ++ [f]) ++ pre ++ F1)
      by (now rewrite <- app_assoc).
    rewrite <- (len_snoc F0 f).
    rewrite (IH preL prea (F0 ++ [f]) F1 (L0 ++ [n]) L1 (A0 ++ [a]) A1).
    + cbn [Writer.w Writer.set_w cells List.concat]. rewrite set_w_set_w.
      now rewrite <- app_assoc.
    + cbn. rewrite HL. now rewrite <- app_assoc.
    + unfold alignments in *. cbn. rewrite HA. now rewrite <- app_assoc.
    + rewrite !length_app. cbn. lia.
    + rewrite !length_app. cbn. lia.
    + cbn in HLp. lia.
    + cbn in HAp. lia.
    + exact Hok'.
Qed.

Lemma outputEOL_eolBytes (x : Writer.t) :
  Writer.outputEOL x = Writer.set_w x (Writer.w x ++ eolBytes (Writer.HasEOL x)).
Proof.
  unfold Writer.outputEOL, eolBytes, bufio.WriteByte.
  destruct (Z.eqb_spec (Writer.HasEOL x) EOLNONE) as [H0|H0]; cbn [negb].
  - rewrite H0. cbn. now rewrite app_nil_r, set_w_same.
  - destruct (Z.eqb_spec (Writer.HasEOL x) EOLCR) as [H1|H1];
      destruct (Z.eqb_spec (Writer.HasEOL x) EOLCRLF) as [H3|H3];
      destruct (Z.eqb_spec (Writer.HasEOL x) EOLLF) as [H2|H2];
      try (unfold EOLCR, EOLCRLF, EOLLF in *; lia);
      cbn [orb snd Writer.HasEOL Writer.set_w Writer.w app].
    + rewrite H1. cbn. reflexivity.
    + rewrite H3. cbn. now rewrite <- app_assoc.
    + rewrite H2. cbn. reflexivity.
    + destruct (Z.eqb_spec (Writer.HasEOL x) EOLLF); [contradiction|].
      destruct (Z.eqb_spec (Writer.HasEOL x) EOLCRLF); [contradiction|].
      cbn. now rewrite app_nil_r, set_w_same.
Qed.

(** [Write] of a record whose fields are all taken: the leading spaces,
    the cells, the trailing spaces and the line ending. *)
Lemma Write_cells (x : Writer.t) (flds : list gostring) :
  List.length (Writer.FieldLengths x) = List.length flds ->
  List.length (alignments x) = List.length flds ->
  Forall2 (fieldOK (Writer.TrimFields x)) flds (Writer.FieldLengths x) ->
  Writer.Write x flds =
    Returns (None,
             Writer.set_w x
               (Writer.w x ++ spaces (Writer.SkipStart x) ++
                List.concat (cells (alignments x) (Writer.FieldLengths x) flds) ++
                spaces (Writer.SkipEnd x) ++ eolBytes (Writer.HasEOL x))).
Proof.
  intros HL HA Hok. unfold Writer.Write.
  cbn [Writer.FieldLengths Writer.outputSpaces Writer.set_w].
  replace (len flds =? len (Writer.FieldLengths x)) with true
    by (symmetry; apply Z.eqb_eq; unfold len; lia).
  cbn [negb].
  pose proof (writeLoop_cells flds (Writer.FieldLengths x) (alignments x)
                [] [] [] [] [] []
                (Writer.outputSpaces x (Writer.SkipStart x))) as H.
  cbn [app] in H. rewrite !app_nil_r in H.
  change (len (@nil gostring)) with 0 in H.
  unfold Writer.outputSpaces in H |- *. rewrite H; auto.
  cbn [bind]. rewrite outputEOL_eolBytes.
  cbn [Writer.w Writer.set_w Writer.SkipEnd Writer.HasEOL].
  rewrite !set_w_set_w. unfold spaces. now rewrite <- !app_assoc.
Qed.

Lemma writeLoop_app (n1 : nat) :
  forall (n2 : nat) (x : Writer.t) (flds : list gostring) (i : Z),
    Writer.writeLoop (n1 + n2) x flds i =
      (' (err, x') <- Writer.writeLoop n1 x flds i ;;
       match err with
       | Some e => Returns (Some e, x')
       | None => Writer.writeLoop n2 x' flds (i + Z.of_nat n1)
       end).
Proof.
  induction n1 as [|n1 IH]; intros n2 x flds i.
  - cbn. now rewrite Z.add_0_r.
  - cbn [Nat.add Writer.writeLoop].
    destruct (Writer.writeField x flds i) as [[err x']| |]; cbn [bind]; auto.
    destruct err as [e|]; cbn [bind]; auto.
    rewrite IH. replace (i + 1 + Z.of_nat n1) with (i + Z.of_nat (S n1)) by lia.
    reflexivity.
Qed.

Lemma cells_app (pre : list gostring) :
  forall (preL prea : list Z) (post : list gostring) (postL posta : list Z),
    List.length preL = List.length pre ->
    List.length prea = List.length pre ->
    cells (prea ++ posta) (preL ++ postL) (pre ++ post) =
      cells prea preL pre ++ cells posta postL post.
Proof.
  induction pre as [|f pre IH]; intros preL prea post postL posta HL HA.
  - destruct preL, prea; try discriminate. reflexivity.
  - destruct preL as [|n preL]; [discriminate|].
    destruct prea as [|a prea]; [discriminate|].
    cbn. f_equal. apply IH; cbn in *; lia.
Qed.

Lemma Forall2_fieldOK_app (trim : bool) (pre post : list gostring)
      (preL postL : list Z) :
  Forall2 (fieldOK trim) pre preL ->
  Forall2 (fieldOK trim) post postL ->
  Forall2 (fieldOK trim) (pre ++ post) (preL ++ postL).
Proof. intros H1 H2. now apply Forall2_app. Qed.

(** ** C5: a field longer than its column *)

(** C5: in a record with one field for each column and an alignment for
    each column, let [f] be a field longer than its column of width [n],
    after fields [pre] that [Write] takes.  Without [TrimFields], [Write]
    returns [ErrFieldLengthError], and the output ends with the cells of
    [pre]: nothing of [f] or after it.  With [TrimFields], [Write] puts
    out the first [n] bytes of [f] in its place and goes on to the end of
    the line. *)
Theorem Write_field_longer_than_column
        (x : Writer.t) (pre post : list gostring) (f : gostring)
        (preL postL prea posta : list Z) (n a : Z) :
  Writer.FieldLengths x = preL ++ n :: postL ->
  alignments x = prea ++ a :: posta ->
  List.length preL = List.length pre ->
  List.length prea = List.length pre ->
  List.length postL = List.length post ->
  List.length posta = List.length post ->
  Forall2 (fieldOK (Writer.TrimFields x)) pre preL ->
  0 <= n < len f ->
  (Writer.TrimFields x = false ->
   Writer.Write x (pre ++ f :: post) =
     Returns (Some ErrFieldLengthError,
              Writer.set_w x
                (Writer.w x ++ spaces (Writer.SkipStart x) ++
                 List.concat (cells prea preL pre)))) /\
  (Writer.TrimFields x = true ->
   Forall2 (fieldOK true) post postL ->
   Writer.Write x (pre ++ f :: post) =
     Returns (None,
              Writer.set_w x
                (Writer.w x ++ spaces (Writer.SkipStart x) ++
                 List.concat (cells prea preL pre) ++
                 firstn (Z.to_nat n) f ++
                 List.concat (cells posta postL post) ++
                 spaces (Writer.SkipEnd x) ++ eolBytes (Writer.HasEOL x)))).
Proof.
  intros HL HA HLp HAp HLq HAq Hpre Hn. split.
  - intros Ht. unfold Writer.Write.
    cbn [Writer.FieldLengths Writer.outputSpaces Writer.set_w].
    replace (len (pre ++ f :: post) =? len (Writer.FieldLengths x)) with true
      by (symmetry; apply Z.eqb_eq; unfold len; rewrite HL, !length_app;
          cbn; lia).
    cbn [negb]. rewrite length_app. cbn [List.length].
    rewrite writeLoop_app.
    pose proof (writeLoop_cells pre preL prea [] (f :: post) [] (n :: postL)
                  [] (a :: posta)
                  (Writer.outputSpaces x (Writer.SkipStart x))) as H.
    cbn [app] in H. change (len (@nil gostring)) with 0 in H.
    unfold Writer.outputSpaces in H |- *. rewrite H; auto.
    cbn [bind Writer.writeLoop].
    rewrite (writeField_too_long _ _ _ f n); auto.
    + cbn [bind Writer.w Writer.set_w]. rewrite set_w_set_w.
      unfold spaces. now rewrite <- app_assoc.
    + rewrite Z.add_0_l. apply index_app_mid.
    + cbn [Writer.FieldLengths Writer.set_w]. rewrite HL, Z.add_0_l.
      replace (Z.of_nat (List.length pre)) with (len preL)
        by (unfold len; lia).
      apply index_app_mid.
    + lia.
  - intros Ht Hpost. rewrite Write_cells.
    + rewrite HL, HA. rewrite cells_app by auto. cbn [cells].
      rewrite concat_app. cbn [List.concat]. unfold cell.
      replace (len f >? n) with true by (symmetry; apply Z.gtb_lt; lia).
      now rewrite <- !app_assoc.
    + rewrite HL, !length_app. cbn. lia.
    + rewrite HA, !length_app. cbn. lia.
    + rewrite HL, Ht in *. apply Forall2_fieldOK_app; auto.
      constructor; auto. right. split; [reflexivity|lia].
Qed.

Lemma Write_field_longer_than_column_witness :
  (Writer.TrimFields (Examples.writerThree false) = false ->
   Writer.Write (Examples.writerThree false)
                ([str "ab"] ++ str "wxyz" :: [str "cd"]) =
     Returns (Some ErrFieldLengthError,
              Writer.set_w (Examples.writerThree false)
                (Writer.w (Examples.writerThree false) ++
                 spaces (Writer.SkipStart (Examples.writerThree false)) ++
                 List.concat (cells [ALIGNLEFT] [2] [str "ab"])))) /\
  (Writer.TrimFields (Examples.writerThree false) = true ->
   Forall2 (fieldOK true) [str "cd"] [4] ->
   Writer.Write (Examples.writerThree false)
                ([str "ab"] ++ str "wxyz" :: [str "cd"]) =
     Returns (None,
              Writer.set_w (Examples.writerThree false)
                (Writer.w (Examples.writerThree false) ++
                 spaces (Writer.SkipStart (Examples.writerThree false)) ++
                 List.concat (cells [ALIGNLEFT] [2] [str "ab"]) ++
                 firstn (Z.to_nat 3) (str "wxyz") ++
                 List.concat (cells [ALIGNLEFT] [4] [str "cd"]) ++
                 spaces (Writer.SkipEnd (Examples.writerThree false)) ++
                 eolBytes (Writer.HasEOL (Examples.writerThree false))))).
Proof.
  apply (Write_field_longer_than_column
           (Examples.writerThree false) [str "ab"] [str "cd"] (str "wxyz")
           [2] [4] [ALIGNLEFT] [ALIGNLEFT] 3 ALIGNRIGHT);
    try reflexivity.
  - constructor; [|constructor]. left. vm_compute. discriminate.
  - vm_compute. split; [discriminate|reflexivity].
Defined.

(** The two answers of [Write] on the record "ab", "wxyz", "cd" for
    columns of two, three and four bytes. *)
Example Write_wxyz_without_TrimFields :
  Writer.Write (Examples.writerThree false) [str "ab"; str "wxyz"; str "cd"] =
    Returns (Some ErrFieldLengthError,
             Writer.set_w (Examples.writerThree false) (str " ab")).
Proof. reflexivity. Qed.

Example Write_wxyz_with_TrimFields :
  Writer.Write (Examples.writerThree true) [str "ab"; str "wxyz"; str "cd"] =
    Returns (None,
             Writer.set_w (Examples.writerThree true)
                          (str " abwxycd   " ++ [LF])).
Proof. reflexivity. Qed.

(** ** C9: a field without an alignment *)

Lemma NewWriter_FieldAlign_nil (sink : list byte) (fl : list Z) :
  Writer.FieldAlign (Writer.set_FieldLengths (Writer.NewWriter sink) fl) = None.
Proof. reflexivity. Qed.

Lemma writeLoop_reaches_unaligned (pre : list gostring) :
  forall (preL : list Z) (F0 : list gostring) (L0 : list Z) (x : Writer.t)
         (f : gostring) (n : Z) (post : list gostring) (postL : list Z),
    Writer.FieldLengths x = L0 ++ preL ++ n :: postL ->
    List.length L0 = List.length F0 ->
    List.length preL = List.length pre ->
    Forall2 (fieldOK (Writer.TrimFields x)) pre preL ->
    len f <= n ->
    len (alignments x) <= len F0 + len pre ->
    Writer.writeLoop (List.length pre + S (List.length post)) x
                     (F0 ++ pre ++ f :: post) (len F0) =
      Panics IndexOutOfRange.
Proof.
  induction pre as [|f0 pre IH];
    intros preL F0 L0 x f n post postL HL HL0 HLp Hok Hf Ha.
  - destruct preL; [|discriminate]. cbn [List.length Nat.add Writer.writeLoop app].
    rewrite (writeField_no_alignment x _ _ f n IndexOutOfRange); auto.
    + apply index_app_mid.
    + rewrite HL. replace (len F0) with (len L0) by (unfold len; lia).
      apply index_app_mid.
    + rewrite alignAt_alignments. apply index_beyond.
      change (len (@nil gostring)) with 0 in Ha. lia.
  - destruct preL as [|n0 preL]; [discriminate|].
    inversion Hok as [|? ? ? ? Hf0 Hok']; subst.
    cbn [List.length Nat.add Writer.writeLoop].
    assert (Hif : index (F0 ++ (f0 :: pre) ++ f :: post) (len F0) = Returns f0)
      by apply index_app_mid.
    assert (Hin : index (Writer.FieldLengths x) (len F0) = Returns n0).
    { rewrite HL. replace (len F0) with (len L0) by (unfold len; lia).
      apply index_app_mid. }
    assert (Hnext :
      forall o,
        Writer.writeLoop (List.length pre + S (List.length post))
                         (Writer.set_w x o)
                         (F0 ++ (f0 :: pre) ++ f :: post) (len F0 + 1) =
          Panics IndexOutOfRange).
    { intros o.
      replace (F0 ++ (f0 :: pre) ++ f :: post)
        with ((F0 ++ [f0]) ++ pre ++ f :: post) by (now rewrite <- app_assoc).
      rewrite <- (len_snoc F0 f0).
      apply (IH preL (F0 ++ [f0]) (L0 ++ [n0]) (Writer.set_w x o) f n post postL).
      - cbn. rewrite HL. now rewrite <- app_assoc.
      - rewrite !length_app. cbn. lia.
      - cbn in HLp. lia.
      - exact Hok'.
      - exact Hf.
      - rewrite len_snoc. rewrite len_cons in Ha.
        change (alignments (Writer.set_w x o)) with (alignments x). lia. }
    destruct (index (alignments x) (len F0)) as [a0|p|] eqn:Hia.
    + rewrite (writeField_cell x _ _ f0 n0 a0 Hif Hin Hia Hf0). cbn [bind].
      apply Hnext.
    + apply index_panics in Hia as Hp. subst p.
      destruct (Z.le_gt_cases (len f0) n0) as [Hle|Hgt].
      * rewrite (writeField_no_alignment x _ _ f0 n0 IndexOutOfRange); auto.
        now rewrite alignAt_alignments.
      * destruct Hf0 as [Hle|[Ht H0]]; [lia|].
        rewrite (writeField_truncates x _ _ f0 n0 Hif Hin) by (auto; lia).
        cbn [bind]. apply Hnext.
    + now apply index_never_spins in Hia.
Qed.

(** C9: in a record with one field for each column, a field that is no
    longer than its column and stands at or beyond the end of
    [FieldAlign], after fields that [Write] takes, makes [Write] panic
    with an index out of range; and that is the state [NewWriter] leaves
    behind when [FieldLengths] is set afterwards: [FieldAlign] is nil. *)
Theorem Write_panics_without_alignment
        (x : Writer.t) (pre post : list gostring) (f : gostring)
        (preL postL : list Z) (n : Z) :
  Writer.FieldLengths x = preL ++ n :: postL ->
  List.length preL = List.length pre ->
  List.length postL = List.length post ->
  Forall2 (fieldOK (Writer.TrimFields x)) pre preL ->
  len f <= n ->
  (List.length (alignments x) <= List.length pre)%nat ->
  Writer.Write x (pre ++ f :: post) = Panics IndexOutOfRange /\
  forall sink fl,
    alignments (Writer.set_FieldLengths (Writer.NewWriter sink) fl) = [].
Proof.
  intros HL HLp HLq Hok Hf Ha. split; [|reflexivity].
  unfold Writer.Write.
  cbn [Writer.FieldLengths Writer.outputSpaces Writer.set_w].
  replace (len (pre ++ f :: post) =? len (Writer.FieldLengths x)) with true
    by (symmetry; apply Z.eqb_eq; unfold len; rewrite HL, !length_app;
        cbn; lia).
  cbn [negb]. rewrite length_app. cbn [List.length].
  pose proof (writeLoop_reaches_unaligned pre preL [] []
                (Writer.outputSpaces x (Writer.SkipStart x))
                f n post postL) as H.
  cbn [app] in H. change (len (@nil gostring)) with 0 in H.
  rewrite H; auto.
  change (alignments (Writer.outputSpaces x (Writer.SkipStart x)))
    with (alignments x).
  unfold len. lia.
Qed.

Lemma Write_panics_without_alignment_witness :
  Writer.Write Examples.writerNoInit ([] ++ str "a" :: []) =
    Panics IndexOutOfRange /\
  forall sink fl,
    alignments (Writer.set_FieldLengths (Writer.NewWriter sink) fl) = [].
Proof.
  apply (Write_panics_without_alignment
           Examples.writerNoInit [] [] (str "a") [] [] 2).
  - reflexivity.
  - reflexivity.
  - reflexivity.
  - constructor.
  - vm_compute. discriminate.
  - vm_compute. lia.
Defined.

(** ** C8: comment lines of the writer *)

(** A marker below 128 is one byte. *)
Lemma EncodeRune_ascii (r : Z) :
  0 <= r <= 127 -> utf8.EncodeRune r = [byte_of_Z r].
Proof.
  intros H. unfold utf8.EncodeRune.
  rewrite Z.mod_small by lia.
  now replace (r <=? 127) with true by (symmetry; apply Z.leb_le; lia).
Qed.

(** C8: without a comment marker [WriteComment] returns without an error
    and writes nothing.  With one, and a line width that is positive, it
    puts out the marker, then the first [width - 1] bytes of the text when
    the text is longer than that, and otherwise the text and the spaces
    that fill it up to [width - 1] bytes, then the line ending. *)
Theorem WriteComment_line (x : Writer.t) (text : gostring) :
  0 < Writer.width x ->
  (Writer.Comment x = 0 -> Writer.WriteComment x text = Returns (None, x)) /\
  (Writer.Comment x <> 0 -> Writer.width x - 1 < len text ->
   Writer.WriteComment x text =
     Returns (None,
              Writer.set_w x
                (Writer.w x ++ utf8.EncodeRune (Writer.Comment x) ++
                 firstn (Z.to_nat (Writer.width x - 1)) text ++
                 eolBytes (Writer.HasEOL x))) /\
   len (firstn (Z.to_nat (Writer.width x - 1)) text) = Writer.width x - 1) /\
  (Writer.Comment x <> 0 -> len text <= Writer.width x - 1 ->
   Writer.WriteComment x text =
     Returns (None,
              Writer.set_w x
                (Writer.w x ++ utf8.EncodeRune (Writer.Comment x) ++
                 text ++ spaces (Writer.width x - 1 - len text) ++
                 eolBytes (Writer.HasEOL x))) /\
   len (text ++ spaces (Writer.width x - 1 - len text)) = Writer.width x - 1).
Proof.
  intros Hw. unfold Writer.WriteComment. split; [|split].
  - intros ->. reflexivity.
  - intros Hc Hlong.
    assert (Hl : len (firstn (Z.to_nat (Writer.width x - 1)) text) =
                 Writer.width x - 1).
    { unfold len in *. rewrite length_firstn. lia. }
    split; [|exact Hl].
    destruct (Z.eqb_spec (Writer.Comment x) 0) as [|_]; [contradiction|].
    cbn [negb]. unfold bufio.WriteRune, bufio.WriteString.
    cbn [Writer.width Writer.set_w].
    replace (len text + 1 >? Writer.width x) with true
      by (symmetry; apply Z.gtb_lt; lia).
    rewrite slice_firstn by lia. cbn [bind].
    rewrite Hl.
    replace (Writer.width x - 1 + 1 <? Writer.width x) with false
      by (symmetry; apply Z.ltb_ge; lia).
    rewrite outputEOL_eolBytes. cbn [Writer.w Writer.set_w Writer.HasEOL].
    rewrite !set_w_set_w. now rewrite <- !app_assoc.
  - intros Hc Hshort.
    split; [|rewrite len_app, len_spaces by lia; lia].
    destruct (Z.eqb_spec (Writer.Comment x) 0) as [|_]; [contradiction|].
    cbn [negb]. unfold bufio.WriteRune, bufio.WriteString.
    cbn [Writer.width Writer.set_w].
    replace (len text + 1 >? Writer.width x) with false
      by (rewrite Z.gtb_ltb; symmetry; apply Z.ltb_ge; lia).
    cbn [bind].
    destruct (Z.ltb_spec (len text + 1) (Writer.width x)) as [Hlt|Hge].
    + rewrite outputEOL_eolBytes. unfold Writer.outputSpaces, spaces.
      cbn [Writer.w Writer.set_w Writer.HasEOL].
      rewrite !set_w_set_w.
      replace (Writer.width x - len text - 1)
        with (Writer.width x - 1 - len text) by lia.
      now rewrite <- !app_assoc.
    + rewrite outputEOL_eolBytes. unfold spaces.
      cbn [Writer.w Writer.set_w Writer.HasEOL].
      rewrite !set_w_set_w.
      replace (Writer.width x - 1 - len text) with 0 by lia.
      cbn [Z.to_nat repeat app]. now rewrite <- !app_assoc.
Qed.

Lemma WriteComment_line_witness :
  (Writer.Comment Examples.writerComment = 0 ->
   Writer.WriteComment Examples.writerComment (str "hi") =
     Returns (None, Examples.writerComment)) /\
  (Writer.Comment Examples.writerComment <> 0 ->
   Writer.width Examples.writerComment - 1 < len (str "hi") ->
   Writer.WriteComment Examples.writerComment (str "hi") =
     Returns (None,
              Writer.set_w Examples.writerComment
                (Writer.w Examples.writerComment ++
                 utf8.EncodeRune (Writer.Comment Examples.writerComment) ++
                 firstn (Z.to_nat (Writer.width Examples.writerComment - 1))
                        (str "hi") ++
                 eolBytes (Writer.HasEOL Examples.writerComment))) /\
   len (firstn (Z.to_nat (Writer.width Examples.writerComment - 1))
               (str "hi")) =
     Writer.width Examples.writerComment - 1) /\
  (Writer.Comment Examples.writerComment <> 0 ->
   len (str "hi") <= Writer.width Examples.writerComment - 1 ->
   Writer.WriteComment Examples.writerComment (str "hi") =
     Returns (None,
              Writer.set_w Examples.writerComment
                (Writer.w Examples.writerComment ++
                 utf8.EncodeRune (Writer.Comment Examples.writerComment) ++
                 str "hi" ++
                 spaces (Writer.width Examples.writerComment - 1 -
                         len (str "hi")) ++
                 eolBytes (Writer.HasEOL Examples.writerComment))) /\
   len (str "hi" ++
        spaces (Writer.width Examples.writerComment - 1 - len (str "hi"))) =
     Writer.width Examples.writerComment - 1).
Proof.
  apply (WriteComment_line Examples.writerComment (str "hi")).
  vm_compute. reflexivity.
Defined.

(** The comment lines "hi" and "hi there" for a width of five. *)
Example WriteComment_hi :
  Writer.WriteComment Examples.writerComment (str "hi") =
    Returns (None, Writer.set_w Examples.writerComment (str "#hi  " ++ [CR])).
Proof. reflexivity. Qed.

Example WriteComment_hi_there :
  Writer.WriteComment Examples.writerComment (str "hi there") =
    Returns (None, Writer.set_w Examples.writerComment (str "#hi t" ++ [CR])).
Proof. reflexivity. Qed.

(** Before any [Init] that succeeds the width is zero, and
    [WriteComment] panics on the slice [line[0 : width-1]]. *)
Example WriteComment_width_zero :
  Writer.WriteComment (Writer.mk 35 0 0 [] None EOLCR false 0 0 0 []) (str "hi") =
    Panics SliceBoundsOutOfRange.
Proof. reflexivity. Qed.

(** ** C6: errors and their position *)

(** C6, the code at the failing input: over "abc\n", with one column of
    two bytes, [Read] and [ReadAll] return [ErrIncorrectLineWidth] as it
    is, with no [ParseError] around it; [Write] of the field "abc" returns
    [ErrFieldLengthError] as it is; [ReadRows] puts a [ParseError] around
    the error, with line 0 and column 0. *)
Theorem errors_are_returned_without_position :
  bufio.unread (Reader.r Examples.readerLong) = str "abc" ++ [LF] /\
  Reader.Read Examples.readerLong =
    Returns ([], Some ErrIncorrectLineWidth,
             Reader.set_initialskipdone
               (Reader.set_r Examples.readerLong (Examples.buffered []))
               true) /\
  Reader.ReadAll Examples.readerLong =
    Returns ([], Some ErrIncorrectLineWidth,
             Reader.set_initialskipdone
               (Reader.set_r Examples.readerLong (Examples.buffered []))
               true) /\
  Writer.Write Examples.writerOne [str "abc"] =
    Returns (Some ErrFieldLengthError, Examples.writerOne) /\
  Reader.ReadRows Examples.readerLong 1 =
    Returns ([], Some (ParseError 0 0 ErrIncorrectLineWidth),
             Reader.set_initialskipdone
               (Reader.set_r Examples.readerLong (Examples.buffered []))
               true).
Proof. repeat split. Qed.

(** ** Trimming a padded field *)

Section Trim.

Variable cutset : gostring.
Hypothesis SP_in_cutset : strings.inCutset cutset SP = true.

Lemma TrimLeft_spaces (k : nat) (s : gostring) :
  strings.TrimLeft (repeat SP k ++ s) cutset = strings.TrimLeft s cutset.
Proof.
  induction k as [|k IH]; [reflexivity|].
  cbn [repeat app strings.TrimLeft]. now rewrite SP_in_cutset.
Qed.

Lemma rev_repeat {A : Type} (a : A) (k : nat) : rev (repeat a k) = repeat a k.
Proof.
  induction k as [|k IH]; [reflexivity|].
  cbn [repeat rev]. rewrite IH. symmetry. apply repeat_cons.
Qed.

Lemma TrimRight_spaces (k : nat) (s : gostring) :
  strings.TrimRight (s ++ repeat SP k) cutset = strings.TrimRight s cutset.
Proof.
  unfold strings.TrimRight. now rewrite rev_app_distr, rev_repeat, TrimLeft_spaces.
Qed.

Lemma TrimLeft_snoc_cut (l : gostring) (c : byte) :
  strings.inCutset cutset c = true ->
  strings.TrimLeft (l ++ [c]) cutset =
    match strings.TrimLeft l cutset with
    | [] => []
    | t => t ++ [c]
    end.
Proof.
  intros Hc. induction l as [|b l IH]; cbn [app strings.TrimLeft].
  - now rewrite Hc.
  - destruct (strings.inCutset cutset b); [exact IH|reflexivity].
Qed.

(** A space in front is trimmed away, whatever follows. *)
Lemma Trim_space_in_front (s : gostring) :
  strings.Trim (SP :: s) cutset = strings.Trim s cutset.
Proof.
  unfold strings.Trim, strings.TrimRight. cbn [rev].
  rewrite TrimLeft_snoc_cut by exact SP_in_cutset.
  destruct (strings.TrimLeft (rev s) cutset) as [|b t] eqn:E.
  - reflexivity.
  - rewrite rev_app_distr. cbn [rev app strings.TrimLeft].
    now rewrite SP_in_cutset.
Qed.

Lemma Trim_spaces_in_front (k : nat) (s : gostring) :
  strings.Trim (repeat SP k ++ s) cutset = strings.Trim s cutset.
Proof.
  induction k as [|k IH]; [reflexivity|].
  cbn [repeat app]. now rewrite Trim_space_in_front.
Qed.

Lemma Trim_spaces_behind (k : nat) (s : gostring) :
  strings.Trim (s ++ repeat SP k) cutset = strings.Trim s cutset.
Proof. unfold strings.Trim. now rewrite TrimRight_spaces. Qed.

(** Trimming the padded field is trimming the field. *)
Lemma Trim_padded (a n : Z) (f : gostring) :
  strings.Trim (padded a n f) cutset = strings.Trim f cutset.
Proof.
  unfold padded, spaces.
  destruct (a =? ALIGNRIGHT); [apply Trim_spaces_in_front|].
  destruct (a =? ALIGNLEFT); [apply Trim_spaces_behind|reflexivity].
Qed.

End Trim.

(** ** What [Init] leaves behind *)

Lemma sumWidth_positive (fl : list Z) :
  forall (w w' : Z),
    Reader.sumWidth w fl = (w', None) -> Forall (fun n => 0 < n) fl.
Proof.
  induction fl as [|n fl IH]; intros w w'; cbn [Reader.sumWidth];
    [constructor|].
  destruct (Z.leb_spec n 0) as [Hn|Hn]; [discriminate|].
  intros H. constructor; [lia|]. eapply IH; eauto.
Qed.

Lemma sumZ_nonneg (fl : list Z) : Forall (fun n => 0 < n) fl -> 0 <= sumZ fl.
Proof.
  induction 1 as [|n fl Hn _ IH]; cbn [sumZ fold_right]; [lia|].
  fold (sumZ fl). lia.
Qed.

Lemma sumWidth_exact (fl : list Z) :
  forall (w w' : Z),
    Reader.sumWidth w fl = (w', None) ->
    0 <= w -> w + sumZ fl <= GoInt.max_int ->
    w' = w + sumZ fl.
Proof.
  induction fl as [|n fl IH]; intros w w'; cbn [Reader.sumWidth sumZ fold_right].
  - intros [= <-] _ _. lia.
  - fold (sumZ fl). destruct (Z.leb_spec n 0) as [Hn|Hn]; [discriminate|].
    intros H H0 Hmax.
    pose proof (sumZ_nonneg fl (sumWidth_positive _ _ _ H)) as Hs.
    rewrite add_in_range in H
      by (unfold GoInt.in_range, GoInt.min_int, GoInt.max_int in *; lia).
    apply IH in H; lia.
Qed.

(** After an [Init] without an error: skips that are not negative,
    columns, all of a positive width, and, when the sum stays in the
    range of [int], the width of the line. *)
Lemma Reader_Init_ok (x0 x : Reader.t) :
  Reader.Init x0 = (None, x) ->
  0 <= Reader.SkipStart x /\ 0 <= Reader.SkipEnd x /\
  Reader.FieldLengths x <> [] /\
  Forall (fun n => 0 < n) (Reader.FieldLengths x) /\
  (Reader.SkipStart x + Reader.SkipEnd x + sumZ (Reader.FieldLengths x)
     <= GoInt.max_int ->
   Reader.width x =
     Reader.SkipStart x + Reader.SkipEnd x + sumZ (Reader.FieldLengths x)).
Proof.
  destruct x0 as [c sl ss se fl fa tf he wd ln cl isd b so].
  unfold Reader.Init.
  set (ss' := if ss <? 0 then 0 else ss).
  set (se' := if se <? 0 then 0 else se).
  assert (Hss : 0 <= ss') by (subst ss'; destruct (Z.ltb_spec ss 0); lia).
  assert (Hse : 0 <= se') by (subst se'; destruct (Z.ltb_spec se 0); lia).
  assert (Hx :
    (let x := if Reader.SkipStart
                   (Reader.mk c sl ss se fl fa tf he wd ln cl isd b so) <? 0
              then Reader.set_SkipStart
                     (Reader.mk c sl ss se fl fa tf he wd ln cl isd b so) 0
              else Reader.mk c sl ss se fl fa tf he wd ln cl isd b so in
     let x := if Reader.SkipEnd x <? 0 then Reader.set_SkipEnd x 0 else x in
     x) = Reader.mk c sl ss' se' fl fa tf he wd ln cl isd b so).
  { subst ss' se'. cbn. destruct (ss <? 0); cbn; destruct (se <? 0); reflexivity. }
  cbv zeta in Hx. rewrite Hx. clear Hx. cbn.
  destruct fl as [|n fl]; [discriminate|].
  change (len (n :: fl) =? 0) with (Z.of_nat (S (List.length fl)) =? 0).
  replace (Z.of_nat (S (List.length fl)) =? 0) with false
    by (symmetry; apply Z.eqb_neq; lia).
  destruct (Reader.sumWidth (GoInt.add ss' se') (n :: fl)) as [w err] eqn:E.
  destruct err as [e|]; [discriminate|].
  assert (Hpos : Forall (fun n => 0 < n) (n :: fl))
    by (eapply sumWidth_positive; eauto).
  assert (Hw : ss' + se' + sumZ (n :: fl) <= GoInt.max_int ->
               w = ss' + se' + sumZ (n :: fl)).
  { intros Hmax. pose proof (sumZ_nonneg _ Hpos).
    rewrite add_in_range in E
      by (unfold GoInt.in_range, GoInt.min_int, GoInt.max_int in *; lia).
    apply sumWidth_exact in E; lia. }
  destruct fa as [fa|]; intros [= <-]; cbn; repeat split; auto; discriminate.
Qed.

(** ** The line of a record whose fields fit *)

Lemma cell_fits (a n : Z) (f : gostring) : fits f n -> cell a n f = padded a n f.
Proof.
  unfold fits, cell. intros H.
  now replace (len f >? n) with false
    by (rewrite Z.gtb_ltb; symmetry; apply Z.ltb_ge; lia).
Qed.

Lemma len_padded (a n : Z) (f : gostring) :
  fits f n -> leftOrRight a -> len (padded a n f) = n.
Proof.
  unfold fits, leftOrRight, padded. intros Hf [-> | ->].
  - change (ALIGNLEFT =? ALIGNRIGHT) with false.
    change (ALIGNLEFT =? ALIGNLEFT) with true. cbv iota.
    rewrite len_app, len_spaces by lia. lia.
  - change (ALIGNRIGHT =? ALIGNRIGHT) with true. cbv iota.
    rewrite len_app, len_spaces by lia. lia.
Qed.

Lemma In_spaces (b : byte) (n : Z) : In b (spaces n) -> b = SP.
Proof. unfold spaces. intros H. now apply repeat_spec in H. Qed.

Lemma In_padded (a n : Z) (f : gostring) (b : byte) :
  In b (padded a n f) -> In b f \/ b = SP.
Proof.
  unfold padded.
  destruct (a =? ALIGNRIGHT); [|destruct (a =? ALIGNLEFT)]; intros H.
  - apply in_app_or in H. destruct H as [H|H]; [right; eapply In_spaces|left];
      eauto.
  - apply in_app_or in H. destruct H as [H|H]; [left|right; eapply In_spaces];
      eauto.
  - now left.
Qed.

Lemma cells_widths (flds : list gostring) (fl : list Z) :
  Forall2 fits flds fl ->
  forall fa, List.length fa = List.length fl -> Forall leftOrRight fa ->
             Forall2 (fun c n => len c = n) (cells fa fl flds) fl.
Proof.
  induction 1 as [|f n flds fl Hf _ IH]; intros fa Hl Ha.
  - destruct fa; [constructor|discriminate].
  - destruct fa as [|a fa]; [discriminate|].
    inversion Ha; subst. cbn [cells]. constructor.
    + rewrite cell_fits by assumption. now apply len_padded.
    + apply IH; auto.
Qed.

Lemma cells_clean (flds : list gostring) (fl : list Z) :
  Forall2 fits flds fl ->
  Forall clean flds ->
  forall fa b, In b (List.concat (cells fa fl flds)) -> b <> CR /\ b <> LF.
Proof.
  induction 1 as [|f n flds fl Hf _ IH]; intros Hc fa b.
  - destruct fa; cbn; tauto.
  - destruct fa as [|a fa]; [cbn; tauto|].
    inversion Hc as [|? ? [Hcr Hlf] Hc']; subst.
    cbn [cells List.concat]. intros H. apply in_app_or in H.
    destruct H as [H|H]; [|eapply IH; eauto].
    rewrite cell_fits in H by assumption. apply In_padded in H.
    destruct H as [H| ->]; [|split; discriminate].
    split; intros ->; contradiction.
Qed.

Lemma readBack_cells (trim : bool) (flds : list gostring) (fl : list Z) :
  Forall2 fits flds fl ->
  forall fa,
    map (fun c => if trim then strings.Trim c [SP; TAB] else c)
        (cells fa fl flds) =
    readBack trim fa fl flds.
Proof.
  induction 1 as [|f n flds fl Hf _ IH]; intros fa.
  - destruct fa; reflexivity.
  - destruct fa as [|a fa]; [reflexivity|].
    cbn [cells map readBack]. rewrite IH, cell_fits by assumption.
    destruct trim; [|reflexivity].
    now rewrite Trim_padded by reflexivity.
Qed.

Lemma len_concat_widths (cs : list gostring) (fl : list Z) :
  Forall2 (fun c n => len c = n) cs fl -> len (List.concat cs) = sumZ fl.
Proof.
  induction 1 as [|c n cs fl Hc _ IH]; [reflexivity|].
  cbn [List.concat sumZ fold_right]. fold (sumZ fl).
  rewrite len_app. lia.
Qed.

Lemma hasCRorLF_clean (l : gostring) :
  (forall b, In b l -> b <> CR /\ b <> LF) -> Reader.hasCRorLF l = false.
Proof.
  intros H. rewrite hasCRorLF_bytes.
  apply not_true_is_false. intros Hex. apply existsb_exists in Hex.
  destruct Hex as (b & Hin & Hb). destruct (H b Hin) as [Hcr Hlf].
  apply orb_true_iff in Hb. destruct Hb as [Hb|Hb]; apply Z.eqb_eq in Hb.
  - apply Hcr. apply byteZ_inj. now rewrite byteZ_CR.
  - apply Hlf. apply byteZ_inj. now rewrite byteZ_LF.
Qed.

(** ** Cutting the fields out of the line *)

Lemma slice_mid {A : Type} (pre c post : list A) :
  slice (pre ++ c ++ post) (len pre) (len pre + len c) = Returns c.
Proof.
  unfold slice. rewrite !len_app.
  pose proof (len_nonneg pre). pose proof (len_nonneg c).
  pose proof (len_nonneg post).
  replace (0 <=? len pre) with true by (symmetry; apply Z.leb_le; lia).
  replace (len pre <=? len pre + len c) with true
    by (symmetry; apply Z.leb_le; lia).
  replace (len pre + len c <=? len pre + (len c + len post)) with true
    by (symmetry; apply Z.leb_le; lia).
  cbn [andb]. f_equal.
  replace (len pre + len c - len pre) with (len c) by lia.
  unfold len. rewrite !Nat2Z.id.
  rewrite skipn_app, skipn_all, Nat.sub_diag. cbn [skipn app].
  rewrite firstn_app, firstn_all, Nat.sub_diag. cbn [firstn].
  apply app_nil_r.
Qed.

(** Over a line made of cells as wide as the columns, the loop of
    [parseRecord] returns the cells, trimmed when [TrimFields] is set. *)
Lemma extractFields_cells (trim : bool) (cs : list gostring) (fl : list Z) :
  Forall2 (fun c n => len c = n) cs fl ->
  forall (pre post : gostring) (acc : list gostring),
    len pre + sumZ fl <= GoInt.max_int ->
    Reader.extractFields trim (pre ++ List.concat cs ++ post) (len pre) fl acc =
      Returns (acc ++
               map (fun c => if trim then strings.Trim c [SP; TAB] else c) cs).
Proof.
  induction 1 as [|c n cs fl Hc Hcs IH]; intros pre post acc Hmax.
  - cbn. now rewrite app_nil_r.
  - cbn [Reader.extractFields List.concat map sumZ fold_right] in *.
    fold (sumZ fl) in Hmax.
    pose proof (len_nonneg pre). pose proof (len_nonneg c).
    assert (Hs : 0 <= sumZ fl).
    { rewrite <- (len_concat_widths cs fl Hcs). apply len_nonneg. }
    rewrite add_in_range
      by (unfold GoInt.in_range, GoInt.min_int, GoInt.max_int in *; lia).
    subst n. rewrite <- app_assoc. rewrite slice_mid. cbn [bind].
    rewrite <- len_app.
    replace (pre ++ c ++ List.concat cs ++ post)
      with ((pre ++ c) ++ List.concat cs ++ post) by (now rewrite <- app_assoc).
    rewrite IH by (rewrite len_app; lia).
    now rewrite <- app_assoc.
Qed.

(** ** C1: writing a record and reading it back *)

Lemma eolBytes_modes (mode : Z) :
  mode = EOLNONE \/ mode = EOLCR \/ mode = EOLLF ->
  (mode = EOLNONE /\ eolBytes mode = []) \/
  (mode = EOLCR /\ eolBytes mode = [CR]) \/
  (mode = EOLLF /\ eolBytes mode = [LF]).
Proof. intros [-> | [-> | ->]]; auto. Qed.

(** [parseRecord] over the line [Write] put out for a record whose fields
    fit, in a reader of the same layout. *)
Lemma parseRecord_writtenLine
      (x : Reader.t) (wr : Writer.t) (flds : list gostring) (rest : list byte) :
  Reader.SkipStart x = Writer.SkipStart wr ->
  Reader.SkipEnd x = Writer.SkipEnd wr ->
  Reader.FieldLengths x = Writer.FieldLengths wr ->
  Reader.HasEOL x = Writer.HasEOL wr ->
  Reader.TrimFields x = Writer.TrimFields wr ->
  0 <= Writer.SkipStart wr -> 0 <= Writer.SkipEnd wr ->
  Writer.FieldLengths wr <> [] ->
  Forall (fun n => 0 < n) (Writer.FieldLengths wr) ->
  Reader.width x =
    Writer.SkipStart wr + Writer.SkipEnd wr + sumZ (Writer.FieldLengths wr) ->
  Writer.SkipStart wr + Writer.SkipEnd wr + sumZ (Writer.FieldLengths wr)
    <= GoInt.max_int ->
  Writer.HasEOL wr = EOLNONE \/ Writer.HasEOL wr = EOLCR \/
  Writer.HasEOL wr = EOLLF ->
  List.length (alignments wr) = List.length (Writer.FieldLengths wr) ->
  Forall leftOrRight (alignments wr) ->
  Forall2 fits flds (Writer.FieldLengths wr) ->
  Forall clean flds ->
  Reader.Comment x = 0 \/
  ~ startsWith (Reader.Comment x) (writtenLine wr flds) ->
  bufio.unread (Reader.r x) =
    writtenLine wr flds ++ eolBytes (Writer.HasEOL wr) ++ rest ->
  (Writer.HasEOL wr = EOLNONE ->
   bufio.buf (Reader.r x) = [] \/
   Reader.width x <= len (bufio.buf (Reader.r x))) ->
  exists b,
    Reader.parseRecord x =
      Returns (readBack (Writer.TrimFields wr) (alignments wr)
                        (Writer.FieldLengths wr) flds,
               None, Reader.set_r x b) /\
    bufio.unread b = rest.
Proof.
  intros Hss Hse Hfl Hm Ht H0s H0e Hne Hpos Hw Hmax Hmode Hal Hlr Hfit Hcl
         Hcm Hr Hbuf.
  pose proof (cells_widths _ _ Hfit _ Hal Hlr) as Hcw.
  assert (Hlen : len (writtenLine wr flds) = Reader.width x).
  { unfold writtenLine. rewrite !len_app, !len_spaces by assumption.
    rewrite (len_concat_widths _ _ Hcw). lia. }
  assert (Hclean : forall b, In b (writtenLine wr flds) -> b <> CR /\ b <> LF).
  { unfold writtenLine. intros b Hb.
    apply in_app_or in Hb. destruct Hb as [Hb|Hb].
    { apply In_spaces in Hb. subst b. split; discriminate. }
    apply in_app_or in Hb. destruct Hb as [Hb|Hb].
    { eapply cells_clean; eauto. }
    apply In_spaces in Hb. subst b. split; discriminate. }
  assert (Hsum : 0 < sumZ (Writer.FieldLengths wr)).
  { destruct (Writer.FieldLengths wr) as [|n fl]; [congruence|].
    inversion Hpos as [|? ? Hn Hpos']; subst.
    cbn [sumZ fold_right]. fold (sumZ fl).
    pose proof (sumZ_nonneg fl Hpos'). lia. }
  assert (Hnonempty : writtenLine wr flds <> []).
  { intros He. rewrite He in Hlen. change (len (@nil byte)) with 0 in Hlen. lia. }
  assert (Hline : exists b,
             Reader.readLine x =
               Returns (writtenLine wr flds, None, Reader.set_r x b) /\
             bufio.unread b = rest).
  { destruct (eolBytes_modes _ Hmode) as [[Hn He]|[[Hn He]|[Hn He]]];
      rewrite He in Hr; rewrite Hn in Hm.
    - apply readLine_NONE; auto.
    - apply readLine_CR; auto. intros Hin. now apply Hclean in Hin.
    - apply readLine_LF; auto. intros Hin. now apply Hclean in Hin. }
  destruct Hline as (b & Hline & Hub). exists b. split; [|exact Hub].
  unfold Reader.parseRecord. rewrite Hline. cbn [bind].
  assert (Hdrop : Reader.dropComments (Reader.set_r x b) (writtenLine wr flds) =
                  Returns (writtenLine wr flds, None, Reader.set_r x b)).
  { unfold Reader.dropComments.
    change (Reader.Comment (Reader.set_r x b)) with (Reader.Comment x).
    destruct (Z.eqb_spec (Reader.Comment x) 0) as [Hz|Hz]; [reflexivity|].
    cbn [negb]. destruct Hcm as [Hcm|Hcm]; [contradiction|].
    destruct (writtenLine wr flds) as [|c l] eqn:El; [congruence|].
    rewrite index_head. cbn [bind].
    destruct (Z.eqb_spec (byteZ c) (Reader.Comment x)) as [Hc|Hc];
      [|reflexivity].
    exfalso. apply Hcm. exists c, l. auto. }
  rewrite Hdrop. cbn [bind]. unfold Reader.cutLine.
  change (Reader.width (Reader.set_r x b)) with (Reader.width x).
  rewrite Hlen, Z.eqb_refl. cbn [negb].
  rewrite (hasCRorLF_clean _ Hclean).
  change (Reader.TrimFields (Reader.set_r x b)) with (Reader.TrimFields x).
  change (Reader.SkipStart (Reader.set_r x b)) with (Reader.SkipStart x).
  change (Reader.FieldLengths (Reader.set_r x b)) with (Reader.FieldLengths x).
  rewrite Ht, Hss, Hfl. unfold writtenLine.
  rewrite <- (len_spaces (Writer.SkipStart wr)) at 2 by assumption.
  rewrite (extractFields_cells _ _ _ Hcw)
    by (rewrite len_spaces by assumption; lia).
  cbn [bind app]. now rewrite (readBack_cells _ _ _ Hfit).
Qed.

(** With no line to skip, or with the skipping done, the three readers
    go straight to the records. *)
Lemma initialSkip_nothing (x : Reader.t) :
  Reader.SkipLines x <= 0 \/ Reader.initialskipdone x = true ->
  exists b, Reader.initialSkip x =
            Returns (None, Reader.set_initialskipdone x b).
Proof.
  intros H. unfold Reader.initialSkip, Reader.skipInitialLines.
  destruct (Reader.initialskipdone x) eqn:Hd; cbn [negb].
  - exists true. f_equal. f_equal. destruct x. cbn in Hd. now subst.
  - destruct H as [H|H]; [|discriminate].
    replace (Z.to_nat (Reader.SkipLines x)) with 0%nat by lia.
    exists true. reflexivity.
Qed.

(** C1, the claim as stated fails: with columns of four and three bytes
    and [TrimFields] not set, the record "ab", "c" is written as
    "  ab    c \n" and read back as "ab  ", "  c": padded, not as it
    was. *)
Lemma Write_then_Read_returns_the_padding :
  Reader.Init (Examples.readerPair0 false (str "  ab    c " ++ [LF])) =
    (None, Examples.readerPair false (str "  ab    c " ++ [LF])) /\
  Writer.Write (Examples.writerPair false) [str "ab"; str "c"] =
    Returns (None,
             Writer.set_w (Examples.writerPair false)
                          (str "  ab    c " ++ [LF])) /\
  Reader.Read (Examples.readerPair false (str "  ab    c " ++ [LF])) =
    Returns ([str "ab  "; str "  c"], None,
             Reader.set_initialskipdone
               (Reader.set_r
                  (Examples.readerPair false (str "  ab    c " ++ [LF]))
                  (Examples.buffered []))
               true) /\
  [str "ab  "; str "  c"] <> [str "ab"; str "c"].
Proof. repeat split. discriminate. Qed.

(** C1, amended: let the reader be one whose [Init] succeeded, with the
    skips, the columns, the line ending and [TrimFields] of the writer, a
    line ending that is none, CR or LF, a line width within the range of
    [int], no line left to skip, an alignment, left or right, for each
    column of the writer, and, without a line ending, a buffer that is
    empty or holds a whole line.  For a record whose fields fit their
    columns and hold no CR and no LF, and whose line does not start with
    the comment marker of the reader, [Write] puts out the line and its
    ending, and [Read] over these bytes returns, column by column, the
    field with its padding when [TrimFields] is not set, and the field
    without the spaces and tabs at its ends when it is. *)
Theorem Write_then_Read
        (wr : Writer.t) (rd0 rd : Reader.t) (flds : list gostring)
        (rest : list byte) :
  Reader.Init rd0 = (None, rd) ->
  Reader.SkipStart rd = Writer.SkipStart wr ->
  Reader.SkipEnd rd = Writer.SkipEnd wr ->
  Reader.FieldLengths rd = Writer.FieldLengths wr ->
  Reader.HasEOL rd = Writer.HasEOL wr ->
  Reader.TrimFields rd = Writer.TrimFields wr ->
  Writer.HasEOL wr = EOLNONE \/ Writer.HasEOL wr = EOLCR \/
  Writer.HasEOL wr = EOLLF ->
  Writer.SkipStart wr + Writer.SkipEnd wr + sumZ (Writer.FieldLengths wr)
    <= GoInt.max_int ->
  Reader.SkipLines rd <= 0 \/ Reader.initialskipdone rd = true ->
  List.length (alignments wr) = List.length (Writer.FieldLengths wr) ->
  Forall leftOrRight (alignments wr) ->
  Forall2 fits flds (Writer.FieldLengths wr) ->
  Forall clean flds ->
  Reader.Comment rd = 0 \/
  ~ startsWith (Reader.Comment rd) (writtenLine wr flds) ->
  bufio.unread (Reader.r rd) =
    writtenLine wr flds ++ eolBytes (Writer.HasEOL wr) ++ rest ->
  (Writer.HasEOL wr = EOLNONE ->
   bufio.buf (Reader.r rd) = [] \/
   Reader.width rd <= len (bufio.buf (Reader.r rd))) ->
  Writer.Write wr flds =
    Returns (None,
             Writer.set_w wr
               (Writer.w wr ++ writtenLine wr flds ++
                eolBytes (Writer.HasEOL wr))) /\
  exists rd',
    Reader.Read rd =
      Returns (readBack (Writer.TrimFields wr) (alignments wr)
                        (Writer.FieldLengths wr) flds,
               None, rd') /\
    bufio.unread (Reader.r rd') = rest.
Proof.
  intros Hi Hss Hse Hfl Hm Ht Hmode Hmax Hskip Hal Hlr Hfit Hcl Hcm Hr Hbuf.
  destruct (Reader_Init_ok _ _ Hi) as (H0s & H0e & Hne & Hpos & Hw).
  rewrite Hss, Hse, Hfl in *. specialize (Hw Hmax).
  split.
  - rewrite Write_cells.
    + unfold writtenLine. now rewrite <- !app_assoc.
    + symmetry. eapply Forall2_length; eauto.
    + rewrite Hal. symmetry. eapply Forall2_length; eauto.
    + eapply Forall2_impl; [|exact Hfit]. intros f n Hf. now left.
  - destruct (initialSkip_nothing rd Hskip) as [d Hs].
    destruct (parseRecord_writtenLine
                (Reader.set_initialskipdone rd d) wr flds rest)
      as (b & Hp & Hu); auto.
    exists (Reader.set_r (Reader.set_initialskipdone rd d) b).
    split; [|exact Hu].
    unfold Reader.Read. rewrite Hs. cbn [bind]. exact Hp.
Qed.

Lemma Write_then_Read_witness :
  Writer.Write (Examples.writerPair true) [str "ab"; str "c"] =
    Returns (None,
             Writer.set_w (Examples.writerPair true)
               (Writer.w (Examples.writerPair true) ++
                writtenLine (Examples.writerPair true) [str "ab"; str "c"] ++
                eolBytes (Writer.HasEOL (Examples.writerPair true)))) /\
  exists rd',
    Reader.Read
      (Examples.readerPair true (str "  ab    c " ++ LF :: str "next")) =
      Returns (readBack (Writer.TrimFields (Examples.writerPair true))
                        (alignments (Examples.writerPair true))
                        (Writer.FieldLengths (Examples.writerPair true))
                        [str "ab"; str "c"],
               None, rd') /\
    bufio.unread (Reader.r rd') = str "next".
Proof.
  apply (Write_then_Read
           (Examples.writerPair true)
           (Examples.readerPair0 true (str "  ab    c " ++ LF :: str "next"))
           (Examples.readerPair true (str "  ab    c " ++ LF :: str "next"))
           [str "ab"; str "c"] (str "next"));
    try reflexivity.
  - right. right. reflexivity.
  - vm_compute. discriminate.
  - left. vm_compute. discriminate.
  - constructor; [left; reflexivity|].
    constructor; [right; reflexivity|constructor].
  - constructor; [vm_compute; discriminate|].
    constructor; [vm_compute; discriminate|constructor].
  - repeat constructor; vm_compute; intros H;
      repeat (destruct H as [H|H]; [discriminate|]); exact H.
  - left. reflexivity.
  - left. reflexivity.
Defined.

(** With [TrimFields] the record comes back as it was written; without,
    with its padding. *)
Example Read_back_trimmed :
  Reader.Read (Examples.readerPair true (str "  ab    c " ++ [LF])) =
    Returns ([str "ab"; str "c"], None,
             Reader.set_initialskipdone
               (Reader.set_r
                  (Examples.readerPair true (str "  ab    c " ++ [LF]))
                  (Examples.buffered []))
               true).
Proof. reflexivity. Qed.

(** Without a line ending [readLine] does not look at the count that
    [bufio.Read] returns: a line of which the buffer holds only the front
    comes back as that front and the zero bytes of [make], and the rest of
    the line is left to the next call. *)
Example Read_none_short_read :
  bufio.unread (Reader.r Examples.readerNoneSplit) = str "abcd" /\
  Reader.Read Examples.readerNoneSplit =
    Returns ([str "ab" ++ [zero; zero]], None,
             Reader.set_initialskipdone
               (Reader.set_r Examples.readerNoneSplit
                             (bufio.mkReader [] (str "cd")))
               true).
Proof. split; reflexivity. Qed.

(** ** The loops of the reader end *)

Lemma slice_not_Spins {A : Type} (s : list A) (lo hi : Z) : slice s lo hi <> Spins.
Proof. unfold slice. destruct (_ && _); discriminate. Qed.

Lemma readLine_not_Spins (x : Reader.t) : Reader.readLine x <> Spins.
Proof.
  unfold Reader.readLine.
  destruct (Reader.HasEOL x =? EOLCR).
  { destruct (bufio.ReadString CR (Reader.r x)) as [[s e] b].
    destruct e; [discriminate|].
    destruct (slice s 0 (len s - 1)) eqn:E; cbn [bind]; try discriminate.
    now apply slice_not_Spins in E. }
  destruct (Reader.HasEOL x =? EOLLF).
  { destruct (bufio.ReadString LF (Reader.r x)) as [[s e] b].
    destruct e; [discriminate|].
    destruct (slice s 0 (len s - 1)) eqn:E; cbn [bind]; try discriminate.
    now apply slice_not_Spins in E. }
  destruct (Reader.HasEOL x =? EOLCRLF).
  { destruct (bufio.ReadString CR (Reader.r x)) as [[s e] b].
    destruct e; [discriminate|].
    destruct (bufio.ReadByte b) as [[c e] b'].
    destruct e; [discriminate|].
    destruct (byteZ c =? 10); [discriminate|].
    destruct (slice s 0 (len s - 1)) eqn:E; cbn [bind]; try discriminate.
    now apply slice_not_Spins in E. }
  destruct (Reader.HasEOL x =? EOLNONE); [|discriminate].
  unfold make_bytes. destruct (Reader.width x <? 0); cbn [bind]; [discriminate|].
  destruct (bufio.Read _ (Reader.r x)) as [[[p n] e] b].
  destruct e; discriminate.
Qed.

(** With more rounds allowed than the input has bytes, the comment loop
    comes to an end. *)
Lemma skipComments_not_Spins (fuel : nat) :
  forall (x : Reader.t) (tmp : gostring),
    (Reader.HasEOL x = EOLNONE -> len tmp = Reader.width x) ->
    (pending x < fuel)%nat ->
    Reader.skipComments fuel x tmp <> Spins.
Proof.
  induction fuel as [|fuel IH]; intros x tmp Hinv Hf; [lia|].
  cbn [Reader.skipComments].
  destruct (index tmp 0) as [c| |] eqn:Ei; cbn [bind]; try discriminate.
  { destruct (byteZ c =? Reader.Comment x); [|discriminate].
    destruct (Reader.readLine x) as [[[t e] x1]| |] eqn:E; cbn [bind];
      try discriminate.
    - destruct e as [e|]; [discriminate|].
      destruct (readLine_config _ _ _ _ E) as (Hm & _ & Hw & _).
      apply IH.
      + intros Hn. rewrite Hm in Hn. rewrite Hw.
        eapply readLine_NONE_len; eauto.
      + pose proof (readLine_progress_nonempty _ _ _ _ _ Hinv Ei E). lia.
    - now apply readLine_not_Spins in E. }
  now apply index_never_spins in Ei.
Qed.

Lemma extractFields_not_Spins (trim : bool) (tmp : gostring) (fl : list Z) :
  forall (curpos : Z) (acc : list gostring),
    Reader.extractFields trim tmp curpos fl acc <> Spins.
Proof.
  induction fl as [|n fl IH]; intros curpos acc; cbn [Reader.extractFields];
    [discriminate|].
  destruct (slice tmp curpos (GoInt.add curpos n)) eqn:E; cbn [bind];
    try discriminate.
  - apply IH.
  - now apply slice_not_Spins in E.
Qed.

(** [parseRecord] returns or panics. *)
Lemma parseRecord_not_Spins (x : Reader.t) : Reader.parseRecord x <> Spins.
Proof.
  unfold Reader.parseRecord.
  destruct (Reader.readLine x) as [[[t e] x1]| |] eqn:E; cbn [bind];
    try discriminate.
  2:{ now apply readLine_not_Spins in E. }
  destruct e as [e|]; [discriminate|].
  destruct (Reader.dropComments x1 t) as [[[t2 e2] x2]| |] eqn:E2; cbn [bind];
    try discriminate.
  - destruct e2 as [e2|]; [discriminate|].
    unfold Reader.cutLine.
    destruct (negb (len t2 =? Reader.width x2)); [discriminate|].
    destruct (Reader.hasCRorLF t2); [discriminate|].
    destruct (Reader.extractFields _ _ _ _ _) eqn:Ex; cbn [bind];
      try discriminate.
    now apply extractFields_not_Spins in Ex.
  - revert E2. unfold Reader.dropComments.
    destruct (negb (Reader.Comment x1 =? 0)); [|discriminate].
    destruct (index t 0) as [c| |] eqn:Ei; cbn [bind]; try discriminate.
    + destruct (byteZ c =? Reader.Comment x1); [|discriminate].
      intros H _. eapply skipComments_not_Spins; [| |exact H];
        [|unfold pending; lia].
      destruct (readLine_config _ _ _ _ E) as (Hm & _ & Hw & _).
      intros Hn. rewrite Hm in Hn. rewrite Hw.
      eapply readLine_NONE_len; eauto.
    + intros _ _. now apply index_never_spins in Ei.
Qed.

(** The loop of [ReadAll] goes on for ever only from a reader at which a
    round returns a record and changes nothing. *)
Lemma readAllLoop_Spins (fuel : nat) :
  forall (x : Reader.t) (acc : list (list gostring)),
    (pending x < fuel)%nat ->
    Reader.readAllLoop fuel x acc = Spins ->
    exists x' record, Reader.parseRecord x' = Returns (record, None, x').
Proof.
  induction fuel as [|fuel IH]; intros x acc Hf; [lia|].
  cbn [Reader.readAllLoop].
  destruct (Reader.parseRecord x) as [[[record e] x1]| |] eqn:E; cbn [bind];
    try discriminate.
  - destruct e as [e|].
    + destruct (String.eqb (Error e) "EOF"); discriminate.
    + destruct (parseRecord_progress _ _ _ E) as [Hlt| ->].
      * apply IH. lia.
      * intros _. eauto.
  - intros _. now apply parseRecord_not_Spins in E.
Qed.

(** ** The scenarios of the README *)

Example Read_readme :
  Reader.Read Examples.readerReadme =
    Returns ([str "John"; str "1245"], None,
             Reader.set_initialskipdone
               (Reader.set_r Examples.readerReadme (Examples.buffered []))
               true).
Proof. reflexivity. Qed.

Example Write_readme :
  Writer.Write Examples.writerReadme
               [str "us"; str "United States"; str "English"] =
    Returns (None,
             Writer.set_w Examples.writerReadme
               (str "usUnited States       English   " ++ [CR])).
Proof. reflexivity. Qed.
(** * Further properties of the package *)

(** ** What [Init] checks and what it leaves *)

Lemma Reader_sumWidth_error (fl : list Z) :
  forall w,
    snd (Reader.sumWidth w fl) =
      if forallb (fun n => 0 <? n) fl then None else Some ErrFieldLengthError.
Proof.
  induction fl as [|n fl IH]; intros w; cbn [Reader.sumWidth forallb]; [reflexivity|].
  destruct (Z.leb_spec n 0) as [H|H].
  - replace (0 <? n) with false by (symmetry; apply Z.ltb_ge; lia). reflexivity.
  - replace (0 <? n) with true by (symmetry; apply Z.ltb_lt; lia).
    cbn [andb]. apply IH.
Qed.

Lemma forallb_positive (fl : list Z) :
  forallb (fun n => 0 <? n) fl = true <-> Forall (fun n => 0 < n) fl.
Proof.
  rewrite forallb_forall, Forall_forall.
  split; intros H n Hn; specialize (H n Hn); [now apply Z.ltb_lt|now apply Z.ltb_lt].
Qed.

Lemma forallb_not_positive (fl : list Z) :
  forallb (fun n => 0 <? n) fl = false <-> Exists (fun n => n <= 0) fl.
Proof.
  induction fl as [|n fl IH]; cbn [forallb].
  - split; [discriminate|]. intros H. inversion H.
  - rewrite andb_false_iff, IH, Exists_cons, Z.ltb_ge. reflexivity.
Qed.

Lemma max0_clamp (z : Z) : (if z <? 0 then 0 else z) = Z.max 0 z.
Proof. destruct (Z.ltb_spec z 0); lia. Qed.

(** [Init], with the two tests on the skips read as a maximum. *)
Lemma Reader_Init_steps (x : Reader.t) :
  Reader.Init x =
    let ss := Z.max 0 (Reader.SkipStart x) in
    let se := Z.max 0 (Reader.SkipEnd x) in
    let y w fa :=
      Reader.mk (Reader.Comment x) (Reader.SkipLines x) ss se
                (Reader.FieldLengths x) fa (Reader.TrimFields x)
                (Reader.HasEOL x) w (Reader.line x) (Reader.column x)
                (Reader.initialskipdone x) (Reader.r x) (Reader.stdout x) in
    match Reader.FieldLengths x with
    | [] => (Some ErrNoFields, y (GoInt.add ss se) (Reader.FieldAlign x))
    | _ :: _ =>
        let '(w, err) := Reader.sumWidth (GoInt.add ss se) (Reader.FieldLengths x) in
        match err with
        | Some e => (Some e, y w (Reader.FieldAlign x))
        | None =>
            (None,
             y w (Some match Reader.FieldAlign x with
                       | Some fa => fa
                       | None => repeat ALIGNLEFT
                                   (List.length (Reader.FieldLengths x))
                       end))
        end
    end.
Proof.
  destruct x as [c sl ss se fl fa tf he wd ln cl isd b so].
  unfold Reader.Init. cbn [Reader.SkipStart Reader.SkipEnd Reader.FieldLengths
                           Reader.FieldAlign].
  rewrite <- (max0_clamp ss), <- (max0_clamp se).
  destruct (ss <? 0); cbn; destruct (se <? 0); cbn;
    (destruct fl as [|n fl]; [reflexivity|]);
    match goal with
    | |- context [Reader.sumWidth ?w ?l] =>
        destruct (Reader.sumWidth w l) as [w' [e|]]
    end; cbn; try reflexivity; destruct fa; reflexivity.
Qed.

(** X1: [Reader.Init] fails with [ErrNoFields] exactly when there is no
    column, with [ErrFieldLengthError] exactly when there are columns and
    one of them has a length that is not positive, and succeeds exactly
    when there are columns and all lengths are positive; the skips, the
    alignments and the input play no part in this. *)
Theorem Reader_Init_error_cases (x : Reader.t) :
  (fst (Reader.Init x) = Some ErrNoFields <-> Reader.FieldLengths x = []) /\
  (fst (Reader.Init x) = Some ErrFieldLengthError <->
   Reader.FieldLengths x <> [] /\
   Exists (fun n => n <= 0) (Reader.FieldLengths x)) /\
  (fst (Reader.Init x) = None <->
   Reader.FieldLengths x <> [] /\
   Forall (fun n => 0 < n) (Reader.FieldLengths x)).
Proof.
  rewrite Reader_Init_steps. cbn zeta.
  destruct (Reader.FieldLengths x) as [|n fl] eqn:E.
  - cbn [fst]. repeat split; try discriminate; try tauto.
    all: intros [H _]; now elim H.
  - pose proof (Reader_sumWidth_error (n :: fl)
                  (GoInt.add (Z.max 0 (Reader.SkipStart x))
                             (Z.max 0 (Reader.SkipEnd x)))) as Hs.
    destruct (Reader.sumWidth _ (n :: fl)) as [w err]. cbn [snd] in Hs.
    subst err.
    destruct (forallb (fun n => 0 <? n) (n :: fl)) eqn:Ef; cbn [fst].
    + pose proof (proj1 (forallb_positive _) Ef) as Hp.
      repeat split; try discriminate; auto.
      intros [_ Hex]. apply forallb_not_positive in Hex. congruence.
    + pose proof (proj1 (forallb_not_positive _) Ef) as Hp.
      repeat split; try discriminate; auto.
      intros [_ Hall]. apply forallb_positive in Hall. congruence.
Qed.

Lemma Reader_sumWidth_sum (fl : list Z) (w : Z) :
  Forall (fun n => 0 < n) fl ->
  0 <= w -> w + sumZ fl <= GoInt.max_int ->
  Reader.sumWidth w fl = (w + sumZ fl, None).
Proof.
  intros Hp Hw Hm.
  pose proof (Reader_sumWidth_error fl w) as He.
  apply forallb_positive in Hp. rewrite Hp in He.
  destruct (Reader.sumWidth w fl) as [w' err] eqn:E. cbn [snd] in He. subst err.
  now rewrite (sumWidth_exact _ _ _ E Hw Hm).
Qed.

(** X2: a [Reader.Init] over columns of positive lengths, with a line
    width within the range of [int], returns no error and leaves the
    reader with its negative skips set to zero, with the width of a line
    (the two skips and the lengths of the columns), and with an alignment
    for each column, left for all of them when none was given; the rest of
    the reader, its input included, is as it was. *)
Theorem Reader_Init_result (x : Reader.t) :
  Reader.FieldLengths x <> [] ->
  Forall (fun n => 0 < n) (Reader.FieldLengths x) ->
  Z.max 0 (Reader.SkipStart x) + Z.max 0 (Reader.SkipEnd x) +
    sumZ (Reader.FieldLengths x) <= GoInt.max_int ->
  Reader.Init x =
    (None,
     Reader.mk (Reader.Comment x) (Reader.SkipLines x)
               (Z.max 0 (Reader.SkipStart x)) (Z.max 0 (Reader.SkipEnd x))
               (Reader.FieldLengths x)
               (Some match Reader.FieldAlign x with
                     | Some fa => fa
                     | None => repeat ALIGNLEFT
                                 (List.length (Reader.FieldLengths x))
                     end)
               (Reader.TrimFields x) (Reader.HasEOL x)
               (Z.max 0 (Reader.SkipStart x) + Z.max 0 (Reader.SkipEnd x) +
                sumZ (Reader.FieldLengths x))
               (Reader.line x) (Reader.column x) (Reader.initialskipdone x)
               (Reader.r x) (Reader.stdout x)).
Proof.
  intros Hne Hp Hm. rewrite Reader_Init_steps. cbn zeta.
  destruct (Reader.FieldLengths x) as [|n fl] eqn:E; [now elim Hne|].
  pose proof (sumZ_nonneg _ Hp) as H0.
  rewrite add_in_range by (unfold GoInt.in_range, GoInt.min_int, GoInt.max_int in *; lia).
  rewrite Reader_sumWidth_sum; auto; lia.
Qed.

Lemma Reader_Init_result_witness :
  Reader.Init (Examples.readerPair0 false (str "  ab    c " ++ [LF])) =
    (None,
     Reader.mk 0 0 2 1 [4; 3] (Some [ALIGNLEFT; ALIGNLEFT]) false EOLLF 10 0 0
               false (bufio.NewReader (str "  ab    c " ++ [LF])) []).
Proof.
  apply (Reader_Init_result
           (Examples.readerPair0 false (str "  ab    c " ++ [LF]))).
  - discriminate.
  - repeat constructor.
  - vm_compute. discriminate.
Defined.

(** X3: [Reader.Init] run a second time changes nothing and returns what
    it returned the first time. *)
Theorem Reader_Init_twice (x : Reader.t) :
  Reader.Init (snd (Reader.Init x)) = Reader.Init x.
Proof.
  rewrite (Reader_Init_steps (snd (Reader.Init x))).
  rewrite (Reader_Init_steps x). cbn zeta.
  destruct (Reader.FieldLengths x) as [|n fl] eqn:E.
  - cbn [snd Reader.FieldLengths Reader.SkipStart
      Reader.SkipEnd Reader.FieldAlign Reader.Comment Reader.SkipLines
      Reader.TrimFields Reader.HasEOL Reader.line Reader.column
      Reader.initialskipdone Reader.r Reader.stdout].
    rewrite !(Z.max_r 0 (Z.max 0 _)) by lia. reflexivity.
  - destruct (Reader.sumWidth _ (n :: fl)) as [w err] eqn:Es.
    destruct err as [e|]; cbn [snd Reader.FieldLengths Reader.SkipStart
      Reader.SkipEnd Reader.FieldAlign Reader.Comment Reader.SkipLines
      Reader.TrimFields Reader.HasEOL Reader.line Reader.column
      Reader.initialskipdone Reader.r Reader.stdout];
      rewrite !(Z.max_r 0 (Z.max 0 _)) by lia; rewrite Es; reflexivity.
Qed.

Lemma Writer_sumWidth_Reader (fl : list Z) :
  forall w, Writer.sumWidth w fl = Reader.sumWidth w fl.
Proof.
  induction fl as [|n fl IH]; intros w; cbn [Writer.sumWidth Reader.sumWidth];
    [reflexivity|].
  destruct (n <=? 0); [reflexivity|apply IH].
Qed.

(** [Writer.Init], with the two tests on the skips read as a maximum. *)
Lemma Writer_Init_steps (x : Writer.t) :
  Writer.Init x =
    let ss := Z.max 0 (Writer.SkipStart x) in
    let se := Z.max 0 (Writer.SkipEnd x) in
    let y wd fa :=
      Writer.mk (Writer.Comment x) ss se (Writer.FieldLengths x) fa
                (Writer.HasEOL x) (Writer.TrimFields x) wd
                (Writer.line x) (Writer.column x) (Writer.w x) in
    match Writer.FieldLengths x with
    | [] => (Some ErrNoFields, y (GoInt.add ss se) (Writer.FieldAlign x))
    | _ :: _ =>
        let '(wd, err) := Writer.sumWidth (GoInt.add ss se) (Writer.FieldLengths x) in
        match err with
        | Some e => (Some e, y wd (Writer.FieldAlign x))
        | None =>
            (None,
             y wd (Some match Writer.FieldAlign x with
                        | Some fa => fa
                        | None => repeat ALIGNLEFT
                                    (List.length (Writer.FieldLengths x))
                        end))
        end
    end.
Proof.
  destruct x as [c ss se fl fa he tf wd ln cl o].
  unfold Writer.Init. cbn [Writer.SkipStart Writer.SkipEnd Writer.FieldLengths
                           Writer.FieldAlign].
  rewrite <- (max0_clamp ss), <- (max0_clamp se).
  destruct (ss <? 0); cbn; destruct (se <? 0); cbn;
    (destruct fl as [|n fl]; [reflexivity|]);
    match goal with
    | |- context [Writer.sumWidth ?w ?l] =>
        destruct (Writer.sumWidth w l) as [w' [e|]]
    end; cbn; try reflexivity; destruct fa; reflexivity.
Qed.

(** X4: [Writer.Init] fails with [ErrNoFields] exactly when there is no
    column, with [ErrFieldLengthError] exactly when there are columns and
    one of them has a length that is not positive, and succeeds exactly
    when there are columns and all lengths are positive. *)
Theorem Writer_Init_error_cases (x : Writer.t) :
  (fst (Writer.Init x) = Some ErrNoFields <-> Writer.FieldLengths x = []) /\
  (fst (Writer.Init x) = Some ErrFieldLengthError <->
   Writer.FieldLengths x <> [] /\
   Exists (fun n => n <= 0) (Writer.FieldLengths x)) /\
  (fst (Writer.Init x) = None <->
   Writer.FieldLengths x <> [] /\
   Forall (fun n => 0 < n) (Writer.FieldLengths x)).
Proof.
  rewrite Writer_Init_steps. cbn zeta.
  destruct (Writer.FieldLengths x) as [|n fl] eqn:E.
  - cbn [fst]. repeat split; try discriminate; try tauto.
    all: intros [H _]; now elim H.
  - rewrite Writer_sumWidth_Reader.
    pose proof (Reader_sumWidth_error (n :: fl)
                  (GoInt.add (Z.max 0 (Writer.SkipStart x))
                             (Z.max 0 (Writer.SkipEnd x)))) as Hs.
    destruct (Reader.sumWidth _ (n :: fl)) as [w err]. cbn [snd] in Hs.
    subst err.
    destruct (forallb (fun n => 0 <? n) (n :: fl)) eqn:Ef; cbn [fst].
    + pose proof (proj1 (forallb_positive _) Ef) as Hp.
      repeat split; try discriminate; auto.
      intros [_ Hex]. apply forallb_not_positive in Hex. congruence.
    + pose proof (proj1 (forallb_not_positive _) Ef) as Hp.
      repeat split; try discriminate; auto.
      intros [_ Hall]. apply forallb_positive in Hall. congruence.
Qed.

Lemma Writer_Init_ok (x : Writer.t) :
  Writer.FieldLengths x <> [] ->
  Forall (fun n => 0 < n) (Writer.FieldLengths x) ->
  Z.max 0 (Writer.SkipStart x) + Z.max 0 (Writer.SkipEnd x) +
    sumZ (Writer.FieldLengths x) <= GoInt.max_int ->
  Writer.Init x =
    (None,
     Writer.mk (Writer.Comment x)
               (Z.max 0 (Writer.SkipStart x)) (Z.max 0 (Writer.SkipEnd x))
               (Writer.FieldLengths x)
               (Some match Writer.FieldAlign x with
                     | Some fa => fa
                     | None => repeat ALIGNLEFT
                                 (List.length (Writer.FieldLengths x))
                     end)
               (Writer.HasEOL x) (Writer.TrimFields x)
               (Z.max 0 (Writer.SkipStart x) + Z.max 0 (Writer.SkipEnd x) +
                sumZ (Writer.FieldLengths x))
               (Writer.line x) (Writer.column x) (Writer.w x)).
Proof.
  intros Hne Hp Hm. rewrite Writer_Init_steps. cbn zeta.
  destruct (Writer.FieldLengths x) as [|n fl] eqn:E; [now elim Hne|].
  pose proof (sumZ_nonneg _ Hp) as H0.
  rewrite add_in_range by (unfold GoInt.in_range, GoInt.min_int, GoInt.max_int in *; lia).
  rewrite Writer_sumWidth_Reader, Reader_sumWidth_sum; auto; lia.
Qed.

(** X5: a [Writer.Init] over columns of positive lengths, with a line
    width within the range of [int], returns no error and leaves the
    writer with its negative skips set to zero, with the width of a line,
    and with an alignment for each column, left for all of them when none
    was given; the output is as it was. *)
Theorem Writer_Init_result (x : Writer.t) :
  Writer.FieldLengths x <> [] ->
  Forall (fun n => 0 < n) (Writer.FieldLengths x) ->
  Z.max 0 (Writer.SkipStart x) + Z.max 0 (Writer.SkipEnd x) +
    sumZ (Writer.FieldLengths x) <= GoInt.max_int ->
  Writer.Init x =
    (None,
     Writer.mk (Writer.Comment x)
               (Z.max 0 (Writer.SkipStart x)) (Z.max 0 (Writer.SkipEnd x))
               (Writer.FieldLengths x)
               (Some match Writer.FieldAlign x with
                     | Some fa => fa
                     | None => repeat ALIGNLEFT
                                 (List.length (Writer.FieldLengths x))
                     end)
               (Writer.HasEOL x) (Writer.TrimFields x)
               (Z.max 0 (Writer.SkipStart x) + Z.max 0 (Writer.SkipEnd x) +
                sumZ (Writer.FieldLengths x))
               (Writer.line x) (Writer.column x) (Writer.w x)).
Proof. apply Writer_Init_ok. Qed.

Lemma Writer_Init_result_witness :
  Writer.Init (Writer.mk 0 (-3) 1 [2; 3; 4] None EOLLF false 0 0 0 (str "x")) =
    (None,
     Writer.mk 0 0 1 [2; 3; 4] (Some [ALIGNLEFT; ALIGNLEFT; ALIGNLEFT])
               EOLLF false 10 0 0 (str "x")).
Proof.
  apply (Writer_Init_result
           (Writer.mk 0 (-3) 1 [2; 3; 4] None EOLLF false 0 0 0 (str "x"))).
  - discriminate.
  - repeat constructor.
  - vm_compute. discriminate.
Defined.

(** ** The lines of [Write] and [WriteAll] *)

Lemma Writer_Init_inv (x0 x : Writer.t) :
  Writer.Init x0 = (None, x) ->
  0 <= Writer.SkipStart x /\ 0 <= Writer.SkipEnd x /\
  Forall (fun n => 0 < n) (Writer.FieldLengths x) /\
  (Writer.SkipStart x + Writer.SkipEnd x + sumZ (Writer.FieldLengths x)
     <= GoInt.max_int ->
   Writer.width x =
     Writer.SkipStart x + Writer.SkipEnd x + sumZ (Writer.FieldLengths x)) /\
  (Writer.FieldAlign x0 = None ->
   alignments x = repeat ALIGNLEFT (List.length (Writer.FieldLengths x))).
Proof.
  rewrite Writer_Init_steps. cbn zeta.
  destruct (Writer.FieldLengths x0) as [|n fl] eqn:E; [discriminate|].
  rewrite Writer_sumWidth_Reader.
  destruct (Reader.sumWidth _ (n :: fl)) as [wd err] eqn:Es.
  destruct err as [e|]; [discriminate|].
  intros [= <-].
  cbn [Writer.SkipStart Writer.SkipEnd Writer.FieldLengths Writer.width].
  assert (Hpos : Forall (fun n => 0 < n) (n :: fl))
    by (eapply sumWidth_positive; eauto).
  split; [lia|]. split; [lia|]. split; [exact Hpos|]. split.
  - intros Hmax. pose proof (sumZ_nonneg _ Hpos).
    rewrite add_in_range in Es
      by (unfold GoInt.in_range, GoInt.min_int, GoInt.max_int in *; lia).
    apply sumWidth_exact in Es; lia.
  - intros ->. reflexivity.
Qed.

Lemma len_firstn_le {A : Type} (s : list A) (n : Z) :
  0 <= n <= len s -> len (firstn (Z.to_nat n) s) = n.
Proof. unfold len. intros H. rewrite length_firstn. lia. Qed.

Lemma len_cell (trim : bool) (a n : Z) (f : gostring) :
  fieldOK trim f n -> leftOrRight a -> 0 <= n -> len (cell a n f) = n.
Proof.
  intros Hok Ha Hn. unfold cell.
  destruct (Z.gtb_spec (len f) n) as [Hgt|Hle].
  - apply len_firstn_le. lia.
  - now apply len_padded.
Qed.

Lemma cells_len (trim : bool) (flds : list gostring) (fl : list Z) :
  Forall2 (fieldOK trim) flds fl ->
  Forall (fun n => 0 < n) fl ->
  forall fa, List.length fa = List.length fl -> Forall leftOrRight fa ->
             Forall2 (fun c n => len c = n) (cells fa fl flds) fl.
Proof.
  induction 1 as [|f n flds fl Hf _ IH]; intros Hp fa Hl Ha.
  - destruct fa; [constructor|discriminate].
  - destruct fa as [|a fa]; [discriminate|].
    inversion Ha; subst. inversion Hp; subst. cbn [cells]. constructor.
    + eapply len_cell; eauto. lia.
    + apply IH; auto.
Qed.

Lemma len_writtenLine (x0 x : Writer.t) (flds : list gostring) :
  Writer.Init x0 = (None, x) ->
  Writer.SkipStart x + Writer.SkipEnd x + sumZ (Writer.FieldLengths x)
    <= GoInt.max_int ->
  List.length (alignments x) = List.length (Writer.FieldLengths x) ->
  Forall leftOrRight (alignments x) ->
  Forall2 (fieldOK (Writer.TrimFields x)) flds (Writer.FieldLengths x) ->
  len (writtenLine x flds) = Writer.width x.
Proof.
  intros Hi Hm Hl Ha Hok.
  destruct (Writer_Init_inv _ _ Hi) as (H0s & H0e & Hpos & Hw & _).
  rewrite (Hw Hm). unfold writtenLine.
  rewrite !len_app, !len_spaces by assumption.
  rewrite (len_concat_widths _ (Writer.FieldLengths x)); [lia|].
  eapply cells_len; eauto.
Qed.

(** X6: a writer whose [Init] succeeded, with a line width within the
    range of [int] and an alignment, left or right, for each column, puts
    out for every record it accepts (one field for each column, each no
    longer than its column, or any length when [TrimFields] is set) a line
    of exactly [width] bytes, followed by the line ending. *)
Theorem Write_line_has_width (x0 x : Writer.t) (flds : list gostring) :
  Writer.Init x0 = (None, x) ->
  Writer.SkipStart x + Writer.SkipEnd x + sumZ (Writer.FieldLengths x)
    <= GoInt.max_int ->
  List.length (alignments x) = List.length (Writer.FieldLengths x) ->
  Forall leftOrRight (alignments x) ->
  Forall2 (fieldOK (Writer.TrimFields x)) flds (Writer.FieldLengths x) ->
  Writer.Write x flds =
    Returns (None,
             Writer.set_w x (Writer.w x ++ writtenLine x flds ++
                             eolBytes (Writer.HasEOL x))) /\
  len (writtenLine x flds) = Writer.width x.
Proof.
  intros Hi Hm Hl Ha Hok. split; [|eapply len_writtenLine; eauto].
  rewrite Write_cells; auto.
  - unfold writtenLine. now rewrite <- !app_assoc.
  - symmetry. eapply Forall2_length; eauto.
  - rewrite Hl. symmetry. eapply Forall2_length; eauto.
Qed.

Lemma Write_line_has_width_witness :
  Writer.Write (Examples.writerThree true)
               [str "ab"; str "wxyz"; str "cd"] =
    Returns (None,
             Writer.set_w (Examples.writerThree true)
               (Writer.w (Examples.writerThree true) ++
                writtenLine (Examples.writerThree true)
                            [str "ab"; str "wxyz"; str "cd"] ++
                eolBytes (Writer.HasEOL (Examples.writerThree true)))) /\
  len (writtenLine (Examples.writerThree true)
                   [str "ab"; str "wxyz"; str "cd"]) =
    Writer.width (Examples.writerThree true).
Proof.
  apply (Write_line_has_width
           (Writer.mk 0 1 1 [2; 3; 4]
                      (Some [ALIGNLEFT; ALIGNRIGHT; ALIGNLEFT])
                      EOLLF true 0 0 0 [])
           (Examples.writerThree true)
           [str "ab"; str "wxyz"; str "cd"]).
  - reflexivity.
  - vm_compute. discriminate.
  - reflexivity.
  - constructor; [left; reflexivity|].
    constructor; [right; reflexivity|].
    constructor; [left; reflexivity|constructor].
  - constructor; [left; vm_compute; discriminate|].
    constructor; [right; split; [reflexivity|vm_compute; discriminate]|].
    constructor; [left; vm_compute; discriminate|constructor].
Defined.

Lemma Write_set_w (x : Writer.t) (o : bufio.Writer) (flds : list gostring) :
  List.length (Writer.FieldLengths x) = List.length flds ->
  List.length (alignments x) = List.length flds ->
  Forall2 (fieldOK (Writer.TrimFields x)) flds (Writer.FieldLengths x) ->
  Writer.Write (Writer.set_w x o) flds =
    Returns (None,
             Writer.set_w x (o ++ writtenLine x flds ++
                             eolBytes (Writer.HasEOL x))).
Proof.
  intros Hl Ha Hok.
  rewrite (Write_cells (Writer.set_w x o) flds); auto.
  destruct x; cbn. unfold writtenLine. cbn. now rewrite <- !app_assoc.
Qed.

Lemma WriteAll_loop_lines (x : Writer.t) (recs : list (list gostring)) :
  List.length (alignments x) = List.length (Writer.FieldLengths x) ->
  Forall (fun flds => Forall2 (fieldOK (Writer.TrimFields x)) flds
                              (Writer.FieldLengths x)) recs ->
  forall (o : bufio.Writer) (more : list (list gostring)),
    Writer.WriteAll_loop (Writer.set_w x o) (recs ++ more) =
      Writer.WriteAll_loop (Writer.set_w x (o ++ writtenLines x recs)) more.
Proof.
  intros Ha Hok. induction Hok as [|flds recs Hf _ IH]; intros o more.
  - unfold writtenLines. cbn. now rewrite app_nil_r.
  - cbn [app Writer.WriteAll_loop].
    pose proof (Forall2_length Hf) as Hl.
    rewrite Write_set_w by congruence. cbn [bind].
    rewrite IH. unfold writtenLines. cbn [map List.concat].
    now rewrite <- !app_assoc.
Qed.

(** X7: for a writer with an alignment for each column, [WriteAll] of
    records that all have one field for each column, each no longer than
    its column (or of any length when [TrimFields] is set), returns no
    error and has put out the lines of the records, one after the other
    and each with its line ending, behind what was written before. *)
Theorem WriteAll_writes_the_lines (x : Writer.t) (recs : list (list gostring)) :
  List.length (alignments x) = List.length (Writer.FieldLengths x) ->
  Forall (fun flds => Forall2 (fieldOK (Writer.TrimFields x)) flds
                              (Writer.FieldLengths x)) recs ->
  Writer.WriteAll x recs =
    Returns (None, Writer.set_w x (Writer.w x ++ writtenLines x recs)).
Proof.
  intros Ha Hok. unfold Writer.WriteAll.
  pose proof (WriteAll_loop_lines x recs Ha Hok (Writer.w x) []) as E.
  rewrite app_nil_r, set_w_same in E. rewrite E.
  cbn [Writer.WriteAll_loop bind]. unfold Writer.Flush. reflexivity.
Qed.

Lemma WriteAll_writes_the_lines_witness :
  Writer.WriteAll (Examples.writerThree true)
                  [[str "ab"; str "wxyz"; str "cd"]; [str "e"; str "f"; str "g"]] =
    Returns (None,
             Writer.set_w (Examples.writerThree true)
               (Writer.w (Examples.writerThree true) ++
                writtenLines (Examples.writerThree true)
                  [[str "ab"; str "wxyz"; str "cd"];
                   [str "e"; str "f"; str "g"]])).
Proof.
  apply (WriteAll_writes_the_lines (Examples.writerThree true)).
  - reflexivity.
  - constructor.
    + constructor; [left; vm_compute; discriminate|].
      constructor; [right; split; [reflexivity|vm_compute; discriminate]|].
      constructor; [left; vm_compute; discriminate|constructor].
    + constructor; [|constructor].
      constructor; [left; vm_compute; discriminate|].
      constructor; [left; vm_compute; discriminate|].
      constructor; [left; vm_compute; discriminate|constructor].
Defined.

Example WriteAll_two_records :
  Writer.WriteAll (Examples.writerThree true)
                  [[str "ab"; str "wxyz"; str "cd"]; [str "e"; str "f"; str "g"]] =
    Returns (None,
             Writer.set_w (Examples.writerThree true)
               (str " abwxycd   " ++ LF :: str " e   fg    " ++ [LF])).
Proof. reflexivity. Qed.

(** X8: [WriteAll] stops at the first record that has not one field for
    each column and returns [ErrFieldCount]; by then the lines of the
    records before it are written, and so are the leading spaces of the
    line of the record it refuses; the records behind it are not
    written. *)
Theorem WriteAll_stops_at_wrong_count
        (x : Writer.t) (good : list (list gostring)) (bad : list gostring)
        (rest : list (list gostring)) :
  List.length (alignments x) = List.length (Writer.FieldLengths x) ->
  Forall (fun flds => Forall2 (fieldOK (Writer.TrimFields x)) flds
                              (Writer.FieldLengths x)) good ->
  List.length bad <> List.length (Writer.FieldLengths x) ->
  Writer.WriteAll x (good ++ bad :: rest) =
    Returns (Some ErrFieldCount,
             Writer.set_w x (Writer.w x ++ writtenLines x good ++
                             spaces (Writer.SkipStart x))).
Proof.
  intros Ha Hok Hbad. unfold Writer.WriteAll.
  pose proof (WriteAll_loop_lines x good Ha Hok (Writer.w x) (bad :: rest)) as E.
  rewrite set_w_same in E. rewrite E.
  cbn [Writer.WriteAll_loop]. unfold Writer.Write.
  replace (len bad =? len (Writer.FieldLengths _)) with false.
  - cbn [negb bind]. unfold Writer.outputSpaces, spaces.
    destruct x; cbn. now rewrite <- app_assoc.
  - symmetry. apply Z.eqb_neq. unfold len. destruct x; cbn in *. lia.
Qed.

Lemma WriteAll_stops_at_wrong_count_witness :
  Writer.WriteAll (Examples.writerThree true)
                  ([[str "ab"; str "wxyz"; str "cd"]] ++
                   [str "e"; str "f"] :: [[str "g"; str "h"; str "i"]]) =
    Returns (Some ErrFieldCount,
             Writer.set_w (Examples.writerThree true)
               (Writer.w (Examples.writerThree true) ++
                writtenLines (Examples.writerThree true)
                             [[str "ab"; str "wxyz"; str "cd"]] ++
                spaces (Writer.SkipStart (Examples.writerThree true)))).
Proof.
  apply (WriteAll_stops_at_wrong_count (Examples.writerThree true)).
  - reflexivity.
  - constructor; [|constructor].
    constructor; [left; vm_compute; discriminate|].
    constructor; [right; split; [reflexivity|vm_compute; discriminate]|].
    constructor; [left; vm_compute; discriminate|constructor].
  - vm_compute. discriminate.
Defined.

(** ** Comment lines, from the writer to the reader *)

(** X9: with a comment marker and a line width that is not positive (the
    width of a writer on which no [Init] has succeeded is zero),
    [WriteComment] panics on the slice [line[0 : width-1]], whatever the
    text. *)
Theorem WriteComment_without_width (x : Writer.t) (text : gostring) :
  Writer.Comment x <> 0 ->
  Writer.width x <= 0 ->
  Writer.WriteComment x text = Panics SliceBoundsOutOfRange.
Proof.
  intros Hc Hw. unfold Writer.WriteComment.
  destruct (Z.eqb_spec (Writer.Comment x) 0) as [|_]; [contradiction|].
  cbn [negb]. unfold bufio.WriteRune. cbn [Writer.width Writer.set_w].
  pose proof (len_nonneg text).
  replace (len text + 1 >? Writer.width x) with true
    by (symmetry; apply Z.gtb_lt; lia).
  rewrite slice_negative by lia. reflexivity.
Qed.

Lemma WriteComment_without_width_witness :
  Writer.WriteComment
    (Writer.set_FieldLengths (Writer.mk 35 0 0 [] None EOLCR false 0 0 0 []) [5])
    (str "hi") =
    Panics SliceBoundsOutOfRange.
Proof.
  apply (WriteComment_without_width
           (Writer.set_FieldLengths
              (Writer.mk 35 0 0 [] None EOLCR false 0 0 0 []) [5])
           (str "hi")).
  - discriminate.
  - vm_compute. discriminate.
Defined.

Lemma WriteComment_commentLine (x : Writer.t) (text : gostring) :
  Writer.Comment x <> 0 ->
  0 < Writer.width x ->
  Writer.WriteComment x text =
    Returns (None,
             Writer.set_w x (Writer.w x ++ commentLine x text ++
                             eolBytes (Writer.HasEOL x))).
Proof.
  intros Hc Hw. unfold Writer.WriteComment, commentLine.
  destruct (Z.eqb_spec (Writer.Comment x) 0) as [|_]; [contradiction|].
  cbn [negb]. unfold bufio.WriteRune, bufio.WriteString.
  cbn [Writer.width Writer.set_w].
  destruct (Z.gtb_spec (len text + 1) (Writer.width x)) as [Hlong|Hshort].
  - assert (Hl : len (firstn (Z.to_nat (Writer.width x - 1)) text) =
                 Writer.width x - 1) by (apply len_firstn_le; lia).
    rewrite slice_firstn by lia. cbn [bind]. rewrite Hl.
    replace (Writer.width x - 1 + 1 <? Writer.width x) with false
      by (symmetry; apply Z.ltb_ge; lia).
    rewrite outputEOL_eolBytes. cbn [Writer.w Writer.set_w Writer.HasEOL].
    rewrite !set_w_set_w. now rewrite <- !app_assoc.
  - cbn [bind].
    destruct (Z.ltb_spec (len text + 1) (Writer.width x)) as [Hlt|Hge].
    + rewrite outputEOL_eolBytes. unfold Writer.outputSpaces, spaces.
      cbn [Writer.w Writer.set_w Writer.HasEOL].
      rewrite !set_w_set_w. now rewrite <- !app_assoc.
    + rewrite outputEOL_eolBytes. unfold spaces.
      cbn [Writer.w Writer.set_w Writer.HasEOL].
      rewrite !set_w_set_w.
      replace (Writer.width x - len text - 1) with 0 by lia.
      cbn [Z.to_nat repeat app]. now rewrite <- !app_assoc.
Qed.

Lemma byteZ_byte_of_Z (z : Z) : 0 <= z < 256 -> byteZ (byte_of_Z z) = z.
Proof.
  intros H. unfold byteZ, byte_of_Z. rewrite Z.mod_small by lia.
  rewrite N_ascii_embedding by lia. lia.
Qed.

Lemma In_firstn {A : Type} (n : nat) (s : list A) (a : A) :
  In a (firstn n s) -> In a s.
Proof.
  intros H. rewrite <- (firstn_skipn n s). apply in_or_app. now left.
Qed.

Lemma commentLine_ascii (x : Writer.t) (text : gostring) :
  1 <= Writer.Comment x <= 127 ->
  exists body,
    commentLine x text = byte_of_Z (Writer.Comment x) :: body /\
    forall b, In b body -> In b text \/ b = SP.
Proof.
  intros Hm. unfold commentLine. rewrite EncodeRune_ascii by lia.
  eexists. split; [reflexivity|]. intros b Hb.
  destruct (_ >? _).
  - left. eapply In_firstn; eauto.
  - apply in_app_or in Hb. destruct Hb as [Hb|Hb]; [now left|].
    right. eapply In_spaces; eauto.
Qed.

(** X10: a comment line that [WriteComment] writes is skipped by the
    reader.  With a marker that is an ASCII character other than CR and
    LF, a positive line width, lines ended by CR or by LF, and a text that
    holds no CR and no LF: [WriteComment] puts out the marker, the text
    cut or filled up, and the line ending; and a reader with the same
    marker and line ending that finds these bytes in front of its input
    parses what it would parse without them. *)
Theorem written_comment_is_skipped
        (wr : Writer.t) (x : Reader.t) (text : gostring) (rest : list byte) :
  1 <= Writer.Comment wr <= 127 ->
  Writer.Comment wr <> 13 ->
  Writer.Comment wr <> 10 ->
  0 < Writer.width wr ->
  Writer.HasEOL wr = EOLCR \/ Writer.HasEOL wr = EOLLF ->
  clean text ->
  Reader.Comment x = Writer.Comment wr ->
  Reader.HasEOL x = Writer.HasEOL wr ->
  bufio.unread (Reader.r x) =
    commentLine wr text ++ eolBytes (Writer.HasEOL wr) ++ rest ->
  Writer.WriteComment wr text =
    Returns (None,
             Writer.set_w wr (Writer.w wr ++ commentLine wr text ++
                              eolBytes (Writer.HasEOL wr))) /\
  exists b,
    Reader.parseRecord x = Reader.parseRecord (Reader.set_r x b) /\
    bufio.unread b = rest.
Proof.
  intros Hm H13 H10 Hw Hmode [Hcr Hlf] Hc He Hr.
  split; [apply WriteComment_commentLine; lia|].
  destruct (commentLine_ascii wr text Hm) as (body & Hline & Hbody).
  assert (Hfree : forall d, (d = CR \/ d = LF) -> ~ In d (commentLine wr text)).
  { intros d Hd. rewrite Hline. intros [Hin|Hin].
    - assert (Hz : byteZ d = Writer.Comment wr)
        by (rewrite <- Hin; apply byteZ_byte_of_Z; lia).
      destruct Hd as [-> | ->]; [rewrite byteZ_CR in Hz|rewrite byteZ_LF in Hz];
        lia.
    - destruct (Hbody _ Hin) as [Ht| ->].
      + destruct Hd as [-> | ->]; contradiction.
      + destruct Hd as [Hd|Hd]; discriminate Hd. }
  assert (Hs : startsWith (Reader.Comment x) (commentLine wr text)).
  { rewrite Hline. eexists _, _. split; [reflexivity|].
    rewrite Hc. apply byteZ_byte_of_Z. lia. }
  assert (Hrl : exists b,
             Reader.readLine x =
               Returns (commentLine wr text, None, Reader.set_r x b) /\
             bufio.unread b = rest).
  { destruct Hmode as [Hmd|Hmd]; rewrite Hmd in Hr, He.
    - apply readLine_CR; auto.
    - apply readLine_LF; auto. }
  destruct Hrl as (b & Hrl & Hb). exists b. split; [|exact Hb].
  eapply parseRecord_skips_comment_line; eauto. rewrite Hc. lia.
Qed.

Lemma written_comment_is_skipped_witness :
  Writer.WriteComment Examples.writerComment (str "hi there") =
    Returns (None,
             Writer.set_w Examples.writerComment
               (Writer.w Examples.writerComment ++
                commentLine Examples.writerComment (str "hi there") ++
                eolBytes (Writer.HasEOL Examples.writerComment))) /\
  exists b,
    Reader.parseRecord
      (Reader.mk 35 0 0 0 [2] None false EOLCR 2 0 0 true
                 (bufio.NewReader (str "#hi t" ++ CR :: str "ab" ++ [CR])) []) =
      Reader.parseRecord
        (Reader.set_r
           (Reader.mk 35 0 0 0 [2] None false EOLCR 2 0 0 true
                      (bufio.NewReader (str "#hi t" ++ CR :: str "ab" ++ [CR]))
                      [])
           b) /\
    bufio.unread b = str "ab" ++ [CR].
Proof.
  apply (written_comment_is_skipped
           Examples.writerComment
           (Reader.mk 35 0 0 0 [2] None false EOLCR 2 0 0 true
                      (bufio.NewReader (str "#hi t" ++ CR :: str "ab" ++ [CR]))
                      [])
           (str "hi there") (str "ab" ++ [CR])).
  - vm_compute. split; discriminate.
  - discriminate.
  - discriminate.
  - reflexivity.
  - left. reflexivity.
  - split; vm_compute; intros H;
      repeat (destruct H as [H|H]; [discriminate|]); exact H.
  - reflexivity.
  - reflexivity.
  - reflexivity.
Defined.

(** ** Lines that [Read] refuses *)

Lemma Read_done (x : Reader.t) :
  Reader.initialskipdone x = true -> Reader.Read x = Reader.parseRecord x.
Proof.
  intros H. unfold Reader.Read. rewrite initialSkip_done by assumption.
  reflexivity.
Qed.

Lemma ReadAll_done (x : Reader.t) :
  Reader.initialskipdone x = true ->
  Reader.ReadAll x = Reader.readAllLoop (S (pending x)) x [].
Proof.
  intros H. unfold Reader.ReadAll. rewrite initialSkip_done by assumption.
  reflexivity.
Qed.

(** A line that is not a comment line goes through the test of
    [parseRecord] for comment lines as it is. *)
Lemma dropComments_data (x : Reader.t) (tmp : gostring) :
  Reader.Comment x = 0 \/
  (exists c t, tmp = c :: t /\ byteZ c <> Reader.Comment x) ->
  Reader.dropComments x tmp = Returns (tmp, None, x).
Proof.
  intros H. unfold Reader.dropComments.
  destruct (Z.eqb_spec (Reader.Comment x) 0) as [Hz|Hz]; [reflexivity|].
  cbn [negb]. destruct H as [H|(c & t & -> & Hc)]; [contradiction|].
  rewrite index_head. cbn [bind].
  now replace (byteZ c =? Reader.Comment x) with false
    by (symmetry; apply Z.eqb_neq; exact Hc).
Qed.

Lemma readLine_delimited (x : Reader.t) (d : byte) (l rest : list byte) :
  (Reader.HasEOL x = EOLCR /\ d = CR) \/ (Reader.HasEOL x = EOLLF /\ d = LF) ->
  bufio.unread (Reader.r x) = l ++ d :: rest -> ~ In d l ->
  exists b, Reader.readLine x = Returns (l, None, Reader.set_r x b) /\
            bufio.unread b = rest.
Proof.
  intros [[Hm ->]|[Hm ->]] Hr Hn.
  - now apply readLine_CR.
  - now apply readLine_LF.
Qed.

(** X11: with lines ended by CR or by LF, a line that is not a comment
    line and whose length is not the width of a line is answered with
    [ErrIncorrectLineWidth]; the line and its ending are taken off the
    input, so that the next call starts at the next line. *)
Theorem Read_line_of_wrong_width
        (x : Reader.t) (d : byte) (l rest : list byte) :
  Reader.initialskipdone x = true ->
  (Reader.HasEOL x = EOLCR /\ d = CR) \/ (Reader.HasEOL x = EOLLF /\ d = LF) ->
  bufio.unread (Reader.r x) = l ++ d :: rest ->
  ~ In d l ->
  Reader.Comment x = 0 \/
  (exists c t, l = c :: t /\ byteZ c <> Reader.Comment x) ->
  len l <> Reader.width x ->
  exists b,
    Reader.Read x =
      Returns ([], Some ErrIncorrectLineWidth, Reader.set_r x b) /\
    bufio.unread b = rest.
Proof.
  intros Hs Hm Hr Hn Hc Hw.
  destruct (readLine_delimited x d l rest Hm Hr Hn) as (b & Hl & Hb).
  exists b. split; [|exact Hb].
  rewrite Read_done by assumption.
  unfold Reader.parseRecord. rewrite Hl. cbn [bind].
  rewrite dropComments_data by exact Hc. cbn [bind].
  unfold Reader.cutLine.
  change (Reader.width (Reader.set_r x b)) with (Reader.width x).
  now replace (len l =? Reader.width x) with false
    by (symmetry; apply Z.eqb_neq; exact Hw).
Qed.

Lemma Read_line_of_wrong_width_witness :
  exists b,
    Reader.Read
      (Inputs.oneColumn 35 0 EOLLF true (str "abc" ++ LF :: str "de" ++ [LF])) =
      Returns ([], Some ErrIncorrectLineWidth,
               Reader.set_r
                 (Inputs.oneColumn 35 0 EOLLF true
                    (str "abc" ++ LF :: str "de" ++ [LF])) b) /\
    bufio.unread b = str "de" ++ [LF].
Proof.
  apply (Read_line_of_wrong_width
           (Inputs.oneColumn 35 0 EOLLF true
              (str "abc" ++ LF :: str "de" ++ [LF]))
           LF (str "abc") (str "de" ++ [LF])).
  - reflexivity.
  - right. split; reflexivity.
  - reflexivity.
  - vm_compute. intros H.
    repeat (destruct H as [H|H]; [discriminate|]); exact H.
  - right. eexists _, _. split; [reflexivity|]. vm_compute. discriminate.
  - vm_compute. discriminate.
Defined.

Lemma hasCRorLF_In (l : gostring) (d : byte) :
  d = CR \/ d = LF -> In d l -> Reader.hasCRorLF l = true.
Proof.
  intros Hd Hin. rewrite hasCRorLF_bytes. apply existsb_exists.
  exists d. split; [exact Hin|].
  destruct Hd as [-> | ->]; reflexivity.
Qed.

(** X12: a line of the right width that holds a CR or an LF (a CR in a
    line ended by LF, or the other way round) is answered with
    [ErrIncorrectLineWidth], and the text "Contains cr or lf" goes to the
    standard output of the process; the line is taken off the input. *)
Theorem Read_line_with_CR_or_LF_inside
        (x : Reader.t) (d d' : byte) (l rest : list byte) :
  Reader.initialskipdone x = true ->
  (Reader.HasEOL x = EOLCR /\ d = CR /\ d' = LF) \/
  (Reader.HasEOL x = EOLLF /\ d = LF /\ d' = CR) ->
  bufio.unread (Reader.r x) = l ++ d :: rest ->
  ~ In d l ->
  In d' l ->
  Reader.Comment x = 0 \/
  (exists c t, l = c :: t /\ byteZ c <> Reader.Comment x) ->
  len l = Reader.width x ->
  exists b,
    Reader.Read x =
      Returns ([], Some ErrIncorrectLineWidth,
               Reader.printf (Reader.set_r x b) "Contains cr or lf") /\
    bufio.unread b = rest /\
    Reader.stdout (Reader.printf (Reader.set_r x b) "Contains cr or lf") =
      Reader.stdout x ++ ["Contains cr or lf"%string].
Proof.
  intros Hs Hm Hr Hn Hin Hc Hw.
  assert (Hm' : (Reader.HasEOL x = EOLCR /\ d = CR) \/
                (Reader.HasEOL x = EOLLF /\ d = LF)) by tauto.
  destruct (readLine_delimited x d l rest Hm' Hr Hn) as (b & Hl & Hb).
  exists b. split; [|split; [exact Hb|reflexivity]].
  rewrite Read_done by assumption.
  unfold Reader.parseRecord. rewrite Hl. cbn [bind].
  rewrite dropComments_data by exact Hc. cbn [bind].
  unfold Reader.cutLine.
  change (Reader.width (Reader.set_r x b)) with (Reader.width x).
  rewrite Hw, Z.eqb_refl. cbn [negb].
  rewrite (hasCRorLF_In l d'); [reflexivity| |exact Hin].
  destruct Hm as [(_ & _ & ->)|(_ & _ & ->)]; auto.
Qed.

Lemma Read_line_with_CR_or_LF_inside_witness :
  exists b,
    Reader.Read
      (Inputs.oneColumn 0 0 EOLLF true (str "a" ++ CR :: LF :: str "de" ++ [LF])) =
      Returns ([], Some ErrIncorrectLineWidth,
               Reader.printf
                 (Reader.set_r
                    (Inputs.oneColumn 0 0 EOLLF true
                       (str "a" ++ CR :: LF :: str "de" ++ [LF])) b)
                 "Contains cr or lf") /\
    bufio.unread b = str "de" ++ [LF] /\
    Reader.stdout
      (Reader.printf
         (Reader.set_r
            (Inputs.oneColumn 0 0 EOLLF true
               (str "a" ++ CR :: LF :: str "de" ++ [LF])) b)
         "Contains cr or lf") =
      Reader.stdout
        (Inputs.oneColumn 0 0 EOLLF true
           (str "a" ++ CR :: LF :: str "de" ++ [LF])) ++
      ["Contains cr or lf"%string].
Proof.
  apply (Read_line_with_CR_or_LF_inside
           (Inputs.oneColumn 0 0 EOLLF true
              (str "a" ++ CR :: LF :: str "de" ++ [LF]))
           LF CR (str "a" ++ [CR]) (str "de" ++ [LF])).
  - reflexivity.
  - right. repeat split; reflexivity.
  - reflexivity.
  - vm_compute. intros H.
    repeat (destruct H as [H|H]; [discriminate|]); exact H.
  - vm_compute. right. left. reflexivity.
  - left. reflexivity.
  - reflexivity.
Defined.

(** ** The end of the input *)

Lemma ReadByte_EOF (b b' : bufio.Reader) (c : byte) (e : error) :
  bufio.ReadByte b = (c, Some e, b') -> e = EOF /\ bufio.unread b' = [].
Proof.
  unfold bufio.ReadByte.
  destruct (bufio.buf b) as [|c0 l] eqn:Eb; [|discriminate].
  destruct (bufio.src b) as [|c1 s] eqn:Es.
  - intros [= _ <- <-]. unfold bufio.unread. now rewrite Eb, Es.
  - destruct (bufio.buf (bufio.fill b)) as [|c2 l2] eqn:Ef; [|discriminate].
    exfalso. revert Ef. unfold bufio.fill. rewrite Eb, Es.
    cbn [bufio.buf app]. unfold len. cbn [List.length].
    unfold bufio.defaultBufSize.
    destruct (Z.to_nat _) as [|k] eqn:Ek; [lia|]. discriminate.
Qed.

Lemma bufio_Read_err (p p' : list byte) (b b' : bufio.Reader) (n : Z) (e : error) :
  bufio.Read p b = (p', n, Some e, b') -> e = EOF /\ bufio.unread b' = [].
Proof.
  unfold bufio.Read.
  destruct p as [|p0 p]; [discriminate|].
  destruct (bufio.buf b) as [|c0 l] eqn:Eb; [|discriminate].
  destruct (bufio.src b) as [|c1 s] eqn:Es.
  - intros [= _ _ <- <-]. unfold bufio.unread. now rewrite Eb, Es.
  - destruct (_ <=? _); discriminate.
Qed.

(** When [readLine] reports the end of the input, nothing is left of the
    input. *)
Lemma readLine_EOF (x x' : Reader.t) (tmp : gostring) :
  Reader.readLine x = Returns (tmp, Some EOF, x') ->
  bufio.unread (Reader.r x') = [].
Proof.
  unfold Reader.readLine.
  destruct (Reader.HasEOL x =? EOLCR).
  { destruct (bufio.ReadString CR (Reader.r x)) as [[s e] b] eqn:E.
    destruct e as [e|].
    - intros [= _ _ <-]. now apply ReadString_err in E.
    - destruct (slice s 0 (len s - 1)); cbn [bind]; discriminate. }
  destruct (Reader.HasEOL x =? EOLLF).
  { destruct (bufio.ReadString LF (Reader.r x)) as [[s e] b] eqn:E.
    destruct e as [e|].
    - intros [= _ _ <-]. now apply ReadString_err in E.
    - destruct (slice s 0 (len s - 1)); cbn [bind]; discriminate. }
  destruct (Reader.HasEOL x =? EOLCRLF).
  { destruct (bufio.ReadString CR (Reader.r x)) as [[s e] b] eqn:E.
    destruct e as [e|].
    - intros [= _ _ <-]. now apply ReadString_err in E.
    - destruct (bufio.ReadByte b) as [[c e] b'] eqn:Eb.
      destruct e as [e|].
      + intros [= _ _ <-]. now apply ReadByte_EOF in Eb.
      + destruct (byteZ c =? 10); [discriminate|].
        destruct (slice s 0 (len s - 1)); cbn [bind]; discriminate. }
  destruct (Reader.HasEOL x =? EOLNONE); [|discriminate].
  destruct (make_bytes (Reader.width x)) as [p| |]; cbn [bind];
    try discriminate.
  destruct (bufio.Read p (Reader.r x)) as [[[p' n] e] b] eqn:E.
  destruct e as [e|]; [|discriminate].
  intros [= _ _ <-]. now apply bufio_Read_err in E.
Qed.

Lemma skipComments_EOF (fuel : nat) :
  forall (x x' : Reader.t) (tmp tmp' : gostring),
    Reader.skipComments fuel x tmp = Returns (tmp', Some EOF, x') ->
    bufio.unread (Reader.r x') = [].
Proof.
  induction fuel as [|fuel IH]; intros x x' tmp tmp'; cbn [Reader.skipComments];
    [discriminate|].
  destruct (index tmp 0) as [c| |]; cbn [bind]; try discriminate.
  destruct (byteZ c =? Reader.Comment x); [|discriminate].
  destruct (Reader.readLine x) as [[[t e] x1]| |] eqn:E; cbn [bind];
    try discriminate.
  destruct e as [e|].
  - intros [= <- -> <-]. eapply readLine_EOF; eauto.
  - apply IH.
Qed.

Lemma parseRecord_EOF (x x' : Reader.t) (record : list gostring) :
  Reader.parseRecord x = Returns (record, Some EOF, x') ->
  bufio.unread (Reader.r x') = [].
Proof.
  unfold Reader.parseRecord.
  destruct (Reader.readLine x) as [[[t e] x1]| |] eqn:E; cbn [bind];
    try discriminate.
  destruct e as [e|].
  { intros [= _ -> <-]. eapply readLine_EOF; eauto. }
  destruct (Reader.dropComments x1 t) as [[[t2 e2] x2]| |] eqn:E2; cbn [bind];
    try discriminate.
  destruct e2 as [e2|].
  { intros [= _ -> <-]. revert E2. unfold Reader.dropComments.
    destruct (negb (Reader.Comment x1 =? 0)); [|discriminate].
    destruct (index t 0) as [c| |]; cbn [bind]; try discriminate.
    destruct (byteZ c =? Reader.Comment x1); [|discriminate].
    apply skipComments_EOF. }
  unfold Reader.cutLine.
  destruct (negb (len t2 =? Reader.width x2)); [discriminate|].
  destruct (Reader.hasCRorLF t2); [discriminate|].
  destruct (Reader.extractFields _ _ _ _ _); cbn [bind]; discriminate.
Qed.

Lemma readAllLoop_success (fuel : nat) :
  forall (x x' : Reader.t) (acc records : list (list gostring)),
    Reader.readAllLoop fuel x acc = Returns (records, None, x') ->
    bufio.unread (Reader.r x') = [].
Proof.
  induction fuel as [|fuel IH]; intros x x' acc records;
    cbn [Reader.readAllLoop]; [discriminate|].
  destruct (Reader.parseRecord x) as [[[record e] x1]| |] eqn:E; cbn [bind];
    try discriminate.
  destruct e as [e|]; [|apply IH].
  destruct (String.eqb (Error e) "EOF") eqn:Ee; [|discriminate].
  intros [= _ <-]. apply String.eqb_eq in Ee. apply Error_EOF in Ee. subst e.
  eapply parseRecord_EOF; eauto.
Qed.

(** X13: when [ReadAll] returns without an error, nothing is left of the
    input: it stops with success only at the end of the input. *)
Theorem ReadAll_success_at_end_of_input
        (x x' : Reader.t) (records : list (list gostring)) :
  Reader.ReadAll x = Returns (records, None, x') ->
  bufio.unread (Reader.r x') = [].
Proof.
  unfold Reader.ReadAll.
  destruct (Reader.initialSkip x) as [[e x0]| |]; cbn [bind]; try discriminate.
  destruct e as [e|]; [discriminate|].
  apply readAllLoop_success.
Qed.

Lemma ReadAll_success_at_end_of_input_witness :
  bufio.unread
    (Reader.r (Reader.set_initialskipdone
                 (Reader.set_r Examples.readerTwoRecords
                               (Examples.buffered [])) true)) = [].
Proof.
  apply (ReadAll_success_at_end_of_input
           Examples.readerTwoRecords
           (Reader.set_initialskipdone
              (Reader.set_r Examples.readerTwoRecords (Examples.buffered []))
              true)
           [[str "ab"]; [str "cd"]]).
  reflexivity.
Defined.

(** X14: with lines ended by CR or by LF, what stands behind the last line
    ending of the input is lost: [Read] takes these bytes off the input
    and returns [io.EOF], no record and no error about the width; and
    [ReadAll] returns without an error. *)
Theorem Read_last_line_without_ending (x : Reader.t) (d : byte) :
  Reader.initialskipdone x = true ->
  (Reader.HasEOL x = EOLCR /\ d = CR) \/ (Reader.HasEOL x = EOLLF /\ d = LF) ->
  ~ In d (bufio.unread (Reader.r x)) ->
  Reader.Read x =
    Returns ([], Some EOF, Reader.set_r x (bufio.mkReader [] [])) /\
  Reader.ReadAll x =
    Returns ([], None, Reader.set_r x (bufio.mkReader [] [])).
Proof.
  intros Hs Hm Hn.
  assert (Hp : Reader.parseRecord x =
               Returns ([], Some EOF, Reader.set_r x (bufio.mkReader [] []))).
  { unfold Reader.parseRecord, Reader.readLine.
    destruct Hm as [[Hm ->]|[Hm ->]]; rewrite Hm; simpl Z.eqb; cbv iota;
      rewrite ReadString_missing by assumption; reflexivity. }
  split.
  - now rewrite Read_done.
  - rewrite ReadAll_done by assumption.
    cbn [Reader.readAllLoop]. rewrite Hp. reflexivity.
Qed.

Lemma Read_last_line_without_ending_witness :
  Reader.Read (Inputs.oneColumn 0 0 EOLLF true (str "ab")) =
    Returns ([], Some EOF,
             Reader.set_r (Inputs.oneColumn 0 0 EOLLF true (str "ab"))
                          (bufio.mkReader [] [])) /\
  Reader.ReadAll (Inputs.oneColumn 0 0 EOLLF true (str "ab")) =
    Returns ([], None,
             Reader.set_r (Inputs.oneColumn 0 0 EOLLF true (str "ab"))
                          (bufio.mkReader [] [])).
Proof.
  apply (Read_last_line_without_ending
           (Inputs.oneColumn 0 0 EOLLF true (str "ab")) LF).
  - reflexivity.
  - right. split; reflexivity.
  - vm_compute. intros H.
    repeat (destruct H as [H|H]; [discriminate|]); exact H.
Defined.

(** ** Calls that come back, and one that does not *)

Lemma Init_configured (x0 x : Reader.t) :
  Reader.Init x0 = (None, x) ->
  Reader.SkipStart x + Reader.SkipEnd x + sumZ (Reader.FieldLengths x)
    <= GoInt.max_int ->
  configured x.
Proof.
  intros Hi Hm. destruct (Reader_Init_ok _ _ Hi) as (H1 & H2 & H3 & H4 & H5).
  unfold configured. rewrite (H5 Hm). auto 10.
Qed.

Lemma configured_set_r (x : Reader.t) (b : bufio.Reader) :
  configured x -> configured (Reader.set_r x b).
Proof. now destruct x. Qed.

Lemma configured_set_initialskipdone (x : Reader.t) (d : bool) :
  configured x -> configured (Reader.set_initialskipdone x d).
Proof. now destruct x. Qed.

Lemma readLine_returns (x : Reader.t) :
  Reader.HasEOL x = EOLCR \/ Reader.HasEOL x = EOLLF \/
  Reader.HasEOL x = EOLCRLF ->
  exists tmp err b, Reader.readLine x = Returns (tmp, err, Reader.set_r x b).
Proof.
  intros Hm. unfold Reader.readLine.
  destruct Hm as [Hm|[Hm|Hm]]; rewrite Hm; simpl Z.eqb; cbv iota.
  - destruct (bufio.ReadString CR (Reader.r x)) as [[s e] b] eqn:E.
    destruct e as [e|]; [eauto|].
    apply ReadString_ok in E. destruct E as (l & -> & _).
    rewrite slice_drop_last. cbn [bind]. eauto.
  - destruct (bufio.ReadString LF (Reader.r x)) as [[s e] b] eqn:E.
    destruct e as [e|]; [eauto|].
    apply ReadString_ok in E. destruct E as (l & -> & _).
    rewrite slice_drop_last. cbn [bind]. eauto.
  - destruct (bufio.ReadString CR (Reader.r x)) as [[s e] b] eqn:E.
    destruct e as [e|]; [eauto|].
    apply ReadString_ok in E. destruct E as (l & -> & _).
    destruct (bufio.ReadByte b) as [[c e] b'].
    destruct e as [e|]; [eauto|].
    destruct (byteZ c =? 10); [eauto|].
    rewrite slice_drop_last. cbn [bind]. eauto.
Qed.

Lemma skipLoop_returns (n : nat) :
  forall x : Reader.t,
    Reader.HasEOL x = EOLCR \/ Reader.HasEOL x = EOLLF \/
    Reader.HasEOL x = EOLCRLF ->
    exists err b, Reader.skipLoop n x = Returns (err, Reader.set_r x b).
Proof.
  induction n as [|n IH]; intros x Hm; cbn [Reader.skipLoop].
  - exists None, (Reader.r x). now rewrite set_r_same.
  - destruct (readLine_returns x Hm) as (tmp & err & b & ->). cbn [bind].
    destruct err as [e|]; [eauto|].
    destruct (IH (Reader.set_r x b)) as (err & b' & ->); [exact Hm|].
    exists err, b'. now destruct x.
Qed.

Lemma initialSkip_returns (x : Reader.t) :
  Reader.HasEOL x = EOLCR \/ Reader.HasEOL x = EOLLF \/
  Reader.HasEOL x = EOLCRLF ->
  exists err b d,
    Reader.initialSkip x =
      Returns (err, Reader.set_initialskipdone (Reader.set_r x b) d).
Proof.
  intros Hm. unfold Reader.initialSkip, Reader.skipInitialLines.
  destruct (Reader.initialskipdone x) eqn:Hd; cbn [negb].
  - exists None, (Reader.r x), true. rewrite set_r_same.
    now destruct x; cbn in *; subst.
  - destruct (skipLoop_returns (Z.to_nat (Reader.SkipLines x)) x Hm)
      as (err & b & ->). cbn [bind].
    destruct err as [e|].
    + exists (Some e), b, false. now destruct x; cbn in *; subst.
    + exists None, b, true. reflexivity.
Qed.

Lemma slice_returns {A : Type} (s : list A) (lo hi : Z) :
  0 <= lo <= hi -> hi <= len s ->
  slice s lo hi = Returns (firstn (Z.to_nat (hi - lo)) (skipn (Z.to_nat lo) s)).
Proof.
  intros H1 H2. unfold slice.
  replace (0 <=? lo) with true by (symmetry; apply Z.leb_le; lia).
  replace (lo <=? hi) with true by (symmetry; apply Z.leb_le; lia).
  now replace (hi <=? len s) with true by (symmetry; apply Z.leb_le; lia).
Qed.

Lemma extractFields_returns (trim : bool) (tmp : gostring) (fl : list Z) :
  forall (curpos : Z) (acc : list gostring),
    0 <= curpos ->
    Forall (fun n => 0 < n) fl ->
    curpos + sumZ fl <= len tmp ->
    len tmp <= GoInt.max_int ->
    exists res, Reader.extractFields trim tmp curpos fl acc = Returns res.
Proof.
  induction fl as [|n fl IH]; intros curpos acc H0 Hp Hs Hm;
    cbn [Reader.extractFields]; [eauto|].
  inversion Hp as [|? ? Hn Hp']; subst.
  pose proof (sumZ_nonneg _ Hp') as Hnn.
  unfold sumZ in Hs. cbn [fold_right] in Hs. fold (sumZ fl) in Hs.
  rewrite add_in_range
    by (unfold GoInt.in_range, GoInt.min_int, GoInt.max_int in *; lia).
  rewrite slice_returns by lia. cbn [bind].
  apply IH; auto; lia.
Qed.

Lemma parseRecord_returns (x : Reader.t) :
  configured x ->
  Reader.Comment x = 0 ->
  Reader.HasEOL x = EOLCR \/ Reader.HasEOL x = EOLLF \/
  Reader.HasEOL x = EOLCRLF ->
  exists record err x',
    Reader.parseRecord x = Returns (record, err, x') /\
    configured x' /\ Reader.Comment x' = 0 /\
    Reader.HasEOL x' = Reader.HasEOL x /\
    Reader.initialskipdone x' = Reader.initialskipdone x.
Proof.
  intros Hc Hz Hm. unfold Reader.parseRecord.
  destruct (readLine_returns x Hm) as (tmp & err & b & ->). cbn [bind].
  assert (Hc' : configured (Reader.set_r x b)) by now apply configured_set_r.
  destruct err as [e|]; [eauto 10|].
  rewrite dropComments_data by (left; exact Hz). cbn [bind].
  unfold Reader.cutLine.
  destruct (Z.eqb_spec (len tmp) (Reader.width (Reader.set_r x b)))
    as [Hw|Hw]; cbn [negb]; [|eauto 10].
  destruct (Reader.hasCRorLF tmp).
  { eexists _, _, _. split; [reflexivity|]. now destruct x. }
  destruct Hc' as (H0s & H0e & _ & Hp & Hwd & Hmax).
  destruct (extractFields_returns
              (Reader.TrimFields (Reader.set_r x b)) tmp
              (Reader.FieldLengths (Reader.set_r x b))
              (Reader.SkipStart (Reader.set_r x b)) [])
    as [res ->]; auto; try lia.
  cbn [bind]. eexists _, _, _. split; [reflexivity|].
  split; [now apply configured_set_r|]. now destruct x.
Qed.

(** A round of [parseRecord] that returns a record takes bytes off the
    input, unless there is no line ending and the width is zero. *)
Lemma parseRecord_takes_bytes (x x' : Reader.t) (record : list gostring) :
  Reader.parseRecord x = Returns (record, None, x') ->
  Reader.HasEOL x <> EOLNONE \/ Reader.width x <> 0 ->
  (pending x' < pending x)%nat.
Proof.
  unfold Reader.parseRecord.
  destruct (Reader.readLine x) as [[[t e] x1]| |] eqn:E; cbn [bind];
    try discriminate.
  destruct e as [e|]; [discriminate|].
  destruct (Reader.dropComments x1 t) as [[[t2 e2] x2]| |] eqn:E2; cbn [bind];
    try discriminate.
  destruct e2 as [e2|]; [discriminate|].
  destruct (dropComments_state _ _ _ _ _ E2) as [_ Hle].
  unfold Reader.cutLine.
  destruct (negb (len t2 =? Reader.width x2)); [discriminate|].
  destruct (Reader.hasCRorLF t2); [discriminate|].
  destruct (Reader.extractFields _ _ _ _ _) as [res| |]; cbn [bind];
    try discriminate.
  intros [= <- <-] Hnz.
  destruct (readLine_progress _ _ _ E) as [Hlt|(_ & _ & Hn & Hw)]; [lia|].
  tauto.
Qed.

Lemma readAllLoop_returns (fuel : nat) :
  forall (x : Reader.t) (acc : list (list gostring)),
    (pending x < fuel)%nat ->
    configured x ->
    Reader.Comment x = 0 ->
    Reader.HasEOL x = EOLCR \/ Reader.HasEOL x = EOLLF \/
    Reader.HasEOL x = EOLCRLF ->
    exists res, Reader.readAllLoop fuel x acc = Returns res.
Proof.
  induction fuel as [|fuel IH]; intros x acc Hf Hc Hz Hm; [lia|].
  cbn [Reader.readAllLoop].
  destruct (parseRecord_returns x Hc Hz Hm)
    as (record & err & x' & Hp & Hc' & Hz' & Hm' & _).
  rewrite Hp. cbn [bind].
  destruct err as [e|].
  - destruct (String.eqb (Error e) "EOF"); eauto.
  - apply IH; auto.
    + assert (Hlt : (pending x' < pending x)%nat).
      { eapply parseRecord_takes_bytes; eauto. left.
        unfold EOLNONE, EOLCR, EOLLF, EOLCRLF in *. lia. }
      lia.
    + now rewrite Hm'.
Qed.

(** X15: a reader as a successful [Init] leaves it, with no comment
    marker and lines ended by CR, by LF or by CR LF, never panics in [Read]
    and never panics nor goes on for ever in [ReadAll]: both return,
    whatever the input holds. *)
Theorem Read_without_comment_marker_returns (x : Reader.t) :
  configured x ->
  Reader.Comment x = 0 ->
  Reader.HasEOL x = EOLCR \/ Reader.HasEOL x = EOLLF \/
  Reader.HasEOL x = EOLCRLF ->
  (exists res, Reader.Read x = Returns res) /\
  (exists res, Reader.ReadAll x = Returns res).
Proof.
  intros Hc Hz Hm.
  destruct (initialSkip_returns x Hm) as (err & b & d & Hs).
  assert (Hc' : configured (Reader.set_initialskipdone (Reader.set_r x b) d))
    by now apply configured_set_initialskipdone, configured_set_r.
  split.
  - unfold Reader.Read. rewrite Hs. cbn [bind].
    destruct err as [e|]; [eauto|].
    destruct (parseRecord_returns _ Hc') as (record & err & x' & -> & _);
      [now destruct x|now destruct x|eauto].
  - unfold Reader.ReadAll. rewrite Hs. cbn [bind].
    destruct err as [e|]; [eauto|].
    apply readAllLoop_returns; auto; unfold pending; lia.
Qed.

Lemma Read_without_comment_marker_returns_witness :
  (exists res,
      Reader.Read (Inputs.oneColumn 0 1 EOLCR false
                     (CR :: CR :: str "abc" ++ CR :: str "de")) =
        Returns res) /\
  (exists res,
      Reader.ReadAll (Inputs.oneColumn 0 1 EOLCR false
                        (CR :: CR :: str "abc" ++ CR :: str "de")) =
        Returns res).
Proof.
  apply (Read_without_comment_marker_returns
           (Inputs.oneColumn 0 1 EOLCR false
              (CR :: CR :: str "abc" ++ CR :: str "de"))).
  - unfold configured. vm_compute.
    repeat split; try discriminate.
    constructor; [reflexivity|constructor].
  - reflexivity.
  - left. reflexivity.
Defined.

Lemma readLine_nothing (x : Reader.t) :
  Reader.HasEOL x = EOLNONE -> Reader.width x = 0 ->
  Reader.readLine x = Returns ([], None, x).
Proof.
  intros Hm Hw. unfold Reader.readLine. rewrite Hm, Hw.
  simpl Z.eqb. cbv iota. cbn. now rewrite set_r_same.
Qed.

Lemma skipLoop_nothing (n : nat) (x : Reader.t) :
  Reader.HasEOL x = EOLNONE -> Reader.width x = 0 ->
  Reader.skipLoop n x = Returns (None, x).
Proof.
  intros Hm Hw. induction n as [|n IH]; cbn [Reader.skipLoop]; [reflexivity|].
  rewrite readLine_nothing by assumption. cbn [bind]. exact IH.
Qed.

Lemma parseRecord_nothing (x : Reader.t) :
  Reader.HasEOL x = EOLNONE -> Reader.width x = 0 ->
  Reader.Comment x = 0 -> Reader.FieldLengths x = [] ->
  Reader.parseRecord x = Returns ([], None, x).
Proof.
  intros Hm Hw Hc Hf. unfold Reader.parseRecord.
  rewrite readLine_nothing by assumption. cbn [bind].
  rewrite dropComments_data by (left; exact Hc). cbn [bind].
  unfold Reader.cutLine. rewrite Hw, Hf. reflexivity.
Qed.

(** X16: a reader without line ending, without columns and without
    comment marker, and with the width zero (a new reader set to
    [EOLNONE], before any column is given), gets an empty record from each
    [Read] and takes nothing off its input; the loop of [ReadAll], which
    ends at the first error only, never ends. *)
Theorem ReadAll_without_columns_never_returns (x : Reader.t) :
  Reader.HasEOL x = EOLNONE ->
  Reader.width x = 0 ->
  Reader.Comment x = 0 ->
  Reader.FieldLengths x = [] ->
  Reader.Read x =
    Returns ([], None,
             if Reader.initialskipdone x then x
             else Reader.set_initialskipdone x true) /\
  (forall (fuel : nat) (acc : list (list gostring)),
      Reader.readAllLoop fuel (Reader.set_initialskipdone x true) acc = Spins) /\
  Reader.ReadAll x = Spins.
Proof.
  intros Hm Hw Hc Hf.
  assert (Hs : Reader.initialSkip x =
               Returns (None, if Reader.initialskipdone x then x
                              else Reader.set_initialskipdone x true)).
  { unfold Reader.initialSkip, Reader.skipInitialLines.
    destruct (Reader.initialskipdone x); cbn [negb]; [reflexivity|].
    now rewrite skipLoop_nothing. }
  assert (Hp : forall y, y = x \/ y = Reader.set_initialskipdone x true ->
                         Reader.parseRecord y = Returns ([], None, y)).
  { intros y [-> | ->]; apply parseRecord_nothing; auto. }
  assert (Hl : forall y, y = x \/ y = Reader.set_initialskipdone x true ->
                 forall fuel acc, Reader.readAllLoop fuel y acc = Spins).
  { intros y Hy. eapply readAllLoop_stuck. apply (Hp y Hy). }
  split; [|split].
  - unfold Reader.Read. rewrite Hs. cbn [bind].
    destruct (Reader.initialskipdone x); apply Hp; auto.
  - apply Hl. now right.
  - unfold Reader.ReadAll. rewrite Hs. cbn [bind].
    destruct (Reader.initialskipdone x); apply Hl; auto.
Qed.

Lemma ReadAll_without_columns_never_returns_witness :
  Reader.Read
    (Reader.mk 0 0 0 0 [] None false EOLNONE 0 0 0 false
               (bufio.NewReader (str "abc")) []) =
    Returns ([], None,
             if Reader.initialskipdone
                  (Reader.mk 0 0 0 0 [] None false EOLNONE 0 0 0 false
                             (bufio.NewReader (str "abc")) [])
             then Reader.mk 0 0 0 0 [] None false EOLNONE 0 0 0 false
                            (bufio.NewReader (str "abc")) []
             else Reader.set_initialskipdone
                    (Reader.mk 0 0 0 0 [] None false EOLNONE 0 0 0 false
                               (bufio.NewReader (str "abc")) [])
                    true) /\
  (forall (fuel : nat) (acc : list (list gostring)),
      Reader.readAllLoop fuel
        (Reader.set_initialskipdone
           (Reader.mk 0 0 0 0 [] None false EOLNONE 0 0 0 false
                      (bufio.NewReader (str "abc")) [])
           true)
        acc = Spins) /\
  Reader.ReadAll
    (Reader.mk 0 0 0 0 [] None false EOLNONE 0 0 0 false
               (bufio.NewReader (str "abc")) []) = Spins.
Proof.
  apply (ReadAll_without_columns_never_returns
           (Reader.mk 0 0 0 0 [] None false EOLNONE 0 0 0 false
                      (bufio.NewReader (str "abc")) []));
    reflexivity.
Defined.

(** ** The record of a line *)

Lemma skipLoop_state (n : nat) :
  forall (x x' : Reader.t) (err : option error),
    Reader.skipLoop n x = Returns (err, x') ->
    exists b, x' = Reader.set_r x b.
Proof.
  induction n as [|n IH]; intros x x' err; cbn [Reader.skipLoop].
  - intros [= _ <-]. exists (Reader.r x). now rewrite set_r_same.
  - destruct (Reader.readLine x) as [[[t e] x1]| |] eqn:E; cbn [bind];
      try discriminate.
    destruct (readLine_set_r _ _ _ _ E) as [b1 ->].
    destruct e as [e|].
    + intros [= _ <-]. eauto.
    + intros H. apply IH in H. destruct H as [b ->]. exists b.
      now destruct x.
Qed.

Lemma initialSkip_state (x x' : Reader.t) (err : option error) :
  Reader.initialSkip x = Returns (err, x') ->
  exists b d, x' = Reader.set_initialskipdone (Reader.set_r x b) d.
Proof.
  unfold Reader.initialSkip, Reader.skipInitialLines.
  destruct (Reader.initialskipdone x) eqn:Hd; cbn [negb].
  - intros [= _ <-]. exists (Reader.r x), true. rewrite set_r_same.
    now destruct x; cbn in *; subst.
  - destruct (Reader.skipLoop _ x) as [[e x1]| |] eqn:E; cbn [bind];
      try discriminate.
    apply skipLoop_state in E. destruct E as [b ->].
    destruct e as [e|]; intros [= _ <-].
    + exists b, false. now destruct x; cbn in *; subst.
    + exists b, true. reflexivity.
Qed.

Lemma extractFields_columns (trim : bool) (tmp : gostring) (fl : list Z) :
  forall (curpos : Z) (acc res : list gostring),
    0 <= curpos ->
    Forall (fun n => 0 < n) fl ->
    curpos + sumZ fl <= GoInt.max_int ->
    Reader.extractFields trim tmp curpos fl acc = Returns res ->
    exists cs post,
      skipn (Z.to_nat curpos) tmp = List.concat cs ++ post /\
      Forall2 (fun c n => len c = n) cs fl /\
      res = acc ++ map (fun c => if trim then strings.Trim c [SP; TAB] else c) cs.
Proof.
  induction fl as [|n fl IH]; intros curpos acc res H0 Hp Hs;
    cbn [Reader.extractFields].
  - intros [= <-]. exists [], (skipn (Z.to_nat curpos) tmp).
    cbn. rewrite app_nil_r. auto.
  - inversion Hp as [|? ? Hn Hp']; subst.
    pose proof (sumZ_nonneg _ Hp') as Hnn.
    unfold sumZ in Hs. cbn [fold_right] in Hs. fold (sumZ fl) in Hs.
    rewrite add_in_range
      by (unfold GoInt.in_range, GoInt.min_int, GoInt.max_int in *; lia).
    unfold slice at 1.
    destruct ((0 <=? curpos) && (curpos <=? curpos + n) &&
              (curpos + n <=? len tmp)) eqn:Eb; cbn [bind]; [|discriminate].
    apply andb_prop in Eb. destruct Eb as [_ Hb]. apply Z.leb_le in Hb.
    intros H. apply IH in H; auto; try lia.
    destruct H as (cs & post & Hk & Hf & ->).
    set (c := firstn (Z.to_nat (curpos + n - curpos))
                     (skipn (Z.to_nat curpos) tmp)) in *.
    exists (c :: cs), post. split; [|split].
    + cbn [List.concat]. rewrite <- app_assoc, <- Hk.
      replace (Z.to_nat (curpos + n)) with
        (Z.to_nat (curpos + n - curpos) + Z.to_nat curpos)%nat by lia.
      rewrite <- skipn_skipn. subst c. now rewrite firstn_skipn.
    + constructor; [|exact Hf]. subst c. unfold len in *.
      rewrite length_firstn, length_skipn. lia.
    + cbn [map]. now rewrite <- app_assoc.
Qed.

Lemma hasCRorLF_false (tmp : gostring) :
  Reader.hasCRorLF tmp = false ->
  forall b, In b tmp -> b <> CR /\ b <> LF.
Proof.
  rewrite hasCRorLF_bytes. intros H b Hb.
  assert (Hf : (byteZ b =? 13) || (byteZ b =? 10) = false).
  { destruct ((byteZ b =? 13) || (byteZ b =? 10)) eqn:E; [|reflexivity].
    rewrite <- H. symmetry. apply existsb_exists. eauto. }
  apply orb_false_elim in Hf. destruct Hf as [H13 H10].
  split; intros ->; [now rewrite byteZ_CR in H13|now rewrite byteZ_LF in H10].
Qed.

(** X17: a record that [Read] returns, from a reader as a successful
    [Init] leaves it, is cut out of one raw line that [readLine] has
    returned: the line is [SkipStart] bytes, then one cell for each column,
    of the length of the column, then [SkipEnd] bytes; the record holds the
    cells in this order, each as it is, or without the spaces and tabs at
    its ends when [TrimFields] is set; and the line holds no CR and no
    LF. *)
Theorem Read_returns_the_columns
        (x x' : Reader.t) (record : list gostring) :
  configured x ->
  Reader.Read x = Returns (record, None, x') ->
  exists pre cs post,
    (exists xl,
        Reader.readLine xl =
          Returns (pre ++ List.concat cs ++ post, None, x')) /\
    len pre = Reader.SkipStart x /\
    len post = Reader.SkipEnd x /\
    Forall2 (fun c n => len c = n) cs (Reader.FieldLengths x) /\
    record =
      map (fun c => if Reader.TrimFields x
                    then strings.Trim c [SP; TAB] else c) cs /\
    (forall b, In b (pre ++ List.concat cs ++ post) -> b <> CR /\ b <> LF).
Proof.
  intros Hc. unfold Reader.Read.
  destruct (Reader.initialSkip x) as [[e x0]| |] eqn:Es; cbn [bind];
    try discriminate.
  destruct e as [e|]; [discriminate|].
  destruct (initialSkip_state _ _ _ Es) as (b0 & d & ->).
  intros H. apply parseRecord_line in H.
  destruct H as (xl & tmp & Hr & _ & _ & Hw & Hcl & Hx).
  change (Reader.TrimFields _) with (Reader.TrimFields x) in Hx.
  change (Reader.SkipStart _) with (Reader.SkipStart x) in Hx.
  change (Reader.FieldLengths _) with (Reader.FieldLengths x) in Hx.
  change (Reader.width _) with (Reader.width x) in Hw.
  destruct Hc as (H0s & H0e & _ & Hp & Hwd & Hmax).
  pose proof (sumZ_nonneg _ Hp) as Hnn.
  apply extractFields_columns in Hx; auto; try lia.
  destruct Hx as (cs & post & Hk & Hf & ->).
  assert (Ht : tmp = firstn (Z.to_nat (Reader.SkipStart x)) tmp ++
                     List.concat cs ++ post)
    by (rewrite <- Hk; symmetry; apply firstn_skipn).
  assert (Hlc : len (List.concat cs) = sumZ (Reader.FieldLengths x))
    by (eapply len_concat_widths; eauto).
  assert (Hlp : len (firstn (Z.to_nat (Reader.SkipStart x)) tmp) =
                Reader.SkipStart x) by (apply len_firstn_le; lia).
  exists (firstn (Z.to_nat (Reader.SkipStart x)) tmp), cs, post.
  rewrite <- Ht. split; [eauto|]. split; [exact Hlp|]. split.
  - rewrite Ht, !len_app, Hlp, Hlc in Hw. lia.
  - split; [exact Hf|]. split; [reflexivity|].
    now apply hasCRorLF_false.
Qed.

Lemma Read_returns_the_columns_witness :
  exists pre cs post,
    (exists xl,
        Reader.readLine xl =
          Returns (pre ++ List.concat cs ++ post, None,
                   Reader.set_initialskipdone
                     (Reader.set_r
                        (Examples.readerPair true (str "  ab    c " ++ [LF]))
                        (Examples.buffered []))
                     true)) /\
    len pre =
      Reader.SkipStart (Examples.readerPair true (str "  ab    c " ++ [LF])) /\
    len post =
      Reader.SkipEnd (Examples.readerPair true (str "  ab    c " ++ [LF])) /\
    Forall2 (fun c n => len c = n) cs
            (Reader.FieldLengths
               (Examples.readerPair true (str "  ab    c " ++ [LF]))) /\
    [str "ab"; str "c"] =
      map (fun c => if Reader.TrimFields
                         (Examples.readerPair true (str "  ab    c " ++ [LF]))
                    then strings.Trim c [SP; TAB] else c) cs /\
    (forall b, In b (pre ++ List.concat cs ++ post) -> b <> CR /\ b <> LF).
Proof.
  apply (Read_returns_the_columns
           (Examples.readerPair true (str "  ab    c " ++ [LF]))
           (Reader.set_initialskipdone
              (Reader.set_r
                 (Examples.readerPair true (str "  ab    c " ++ [LF]))
                 (Examples.buffered []))
              true)
           [str "ab"; str "c"]).
  - unfold configured. vm_compute.
    repeat split; try discriminate.
    constructor; [reflexivity|]. constructor; [reflexivity|constructor].
  - reflexivity.
Defined.

(** ** The lines to skip *)

Lemma set_r_set_r (x : Reader.t) (b b' : bufio.Reader) :
  Reader.set_r (Reader.set_r x b) b' = Reader.set_r x b'.
Proof. reflexivity. Qed.

Lemma readLine_missing (x : Reader.t) (d : byte) :
  (Reader.HasEOL x = EOLCR /\ d = CR) \/ (Reader.HasEOL x = EOLLF /\ d = LF) ->
  ~ In d (bufio.unread (Reader.r x)) ->
  Reader.readLine x =
    Returns (bufio.unread (Reader.r x), Some EOF,
             Reader.set_r x (bufio.mkReader [] [])).
Proof.
  intros Hm Hn. unfold Reader.readLine.
  destruct Hm as [[Hm ->]|[Hm ->]]; rewrite Hm; simpl Z.eqb; cbv iota;
    rewrite ReadString_missing by assumption; reflexivity.
Qed.

Lemma skipLoop_lines (d : byte) (lines : list gostring) (rest : list byte) :
  Forall (fun l => ~ In d l) lines ->
  forall x : Reader.t,
    (Reader.HasEOL x = EOLCR /\ d = CR) \/
    (Reader.HasEOL x = EOLLF /\ d = LF) ->
    bufio.unread (Reader.r x) = joined d lines ++ rest ->
    forall more : nat,
    exists b,
      Reader.skipLoop (List.length lines + more) x =
        Reader.skipLoop more (Reader.set_r x b) /\
      bufio.unread b = rest.
Proof.
  induction 1 as [|l lines Hl _ IH]; intros x Hm Hr more.
  - exists (Reader.r x). rewrite set_r_same. auto.
  - unfold joined in Hr. cbn [map List.concat] in Hr.
    rewrite <- !app_assoc in Hr. cbn [app] in Hr.
    destruct (readLine_delimited x d l _ Hm Hr Hl) as (b & Hrl & Hb).
    cbn [List.length Nat.add Reader.skipLoop]. rewrite Hrl. cbn [bind].
    destruct (IH (Reader.set_r x b)) with (more := more) as (b' & Hs & Hb');
      [exact Hm|exact Hb|].
    exists b'. rewrite Hs. auto.
Qed.

(** X18: with lines ended by CR or by LF, the first call of [Read] or
    [ReadAll] on a reader takes [SkipLines] lines off the input, whatever
    they hold, and goes on as a call does on a reader whose skipping is
    done and whose input starts behind these lines. *)
Theorem initial_lines_are_skipped
        (x : Reader.t) (d : byte) (lines : list gostring) (rest : list byte) :
  Reader.initialskipdone x = false ->
  (Reader.HasEOL x = EOLCR /\ d = CR) \/ (Reader.HasEOL x = EOLLF /\ d = LF) ->
  Reader.SkipLines x = len lines ->
  Forall (fun l => ~ In d l) lines ->
  bufio.unread (Reader.r x) = joined d lines ++ rest ->
  exists b,
    bufio.unread b = rest /\
    Reader.Read x =
      Reader.Read (Reader.set_initialskipdone (Reader.set_r x b) true) /\
    Reader.ReadAll x =
      Reader.ReadAll (Reader.set_initialskipdone (Reader.set_r x b) true) /\
    Reader.Read (Reader.set_initialskipdone (Reader.set_r x b) true) =
      Reader.parseRecord (Reader.set_initialskipdone (Reader.set_r x b) true).
Proof.
  intros Hd Hm Hn Hl Hr.
  destruct (skipLoop_lines d lines rest Hl x Hm Hr 0) as (b & Hs & Hb).
  rewrite Nat.add_0_r in Hs. cbn [Reader.skipLoop] in Hs.
  assert (Hi : Reader.initialSkip x =
               Returns (None, Reader.set_initialskipdone (Reader.set_r x b) true)).
  { unfold Reader.initialSkip, Reader.skipInitialLines.
    rewrite Hd, Hn. cbn [negb]. unfold len. rewrite Nat2Z.id, Hs.
    reflexivity. }
  exists b. split; [exact Hb|].
  assert (Hi' : Reader.initialSkip
                  (Reader.set_initialskipdone (Reader.set_r x b) true) =
                Returns (None, Reader.set_initialskipdone (Reader.set_r x b) true))
    by (apply initialSkip_done; reflexivity).
  unfold Reader.Read, Reader.ReadAll. rewrite Hi, Hi'. cbn [bind]. auto.
Qed.

Lemma initial_lines_are_skipped_witness :
  exists b,
    bufio.unread b = str "ab" ++ [LF] /\
    Reader.Read
      (Inputs.oneColumn 0 2 EOLLF false
         (joined LF [str "a header"; []] ++ str "ab" ++ [LF])) =
      Reader.Read
        (Reader.set_initialskipdone
           (Reader.set_r
              (Inputs.oneColumn 0 2 EOLLF false
                 (joined LF [str "a header"; []] ++ str "ab" ++ [LF])) b)
           true) /\
    Reader.ReadAll
      (Inputs.oneColumn 0 2 EOLLF false
         (joined LF [str "a header"; []] ++ str "ab" ++ [LF])) =
      Reader.ReadAll
        (Reader.set_initialskipdone
           (Reader.set_r
              (Inputs.oneColumn 0 2 EOLLF false
                 (joined LF [str "a header"; []] ++ str "ab" ++ [LF])) b)
           true) /\
    Reader.Read
      (Reader.set_initialskipdone
         (Reader.set_r
            (Inputs.oneColumn 0 2 EOLLF false
               (joined LF [str "a header"; []] ++ str "ab" ++ [LF])) b)
         true) =
      Reader.parseRecord
        (Reader.set_initialskipdone
           (Reader.set_r
              (Inputs.oneColumn 0 2 EOLLF false
                 (joined LF [str "a header"; []] ++ str "ab" ++ [LF])) b)
           true).
Proof.
  apply (initial_lines_are_skipped
           (Inputs.oneColumn 0 2 EOLLF false
              (joined LF [str "a header"; []] ++ str "ab" ++ [LF]))
           LF [str "a header"; []] (str "ab" ++ [LF])).
  - reflexivity.
  - right. split; reflexivity.
  - reflexivity.
  - constructor; [|constructor; [|constructor]]; vm_compute; intros H;
      repeat (destruct H as [H|H]; [discriminate|]); exact H.
  - reflexivity.
Defined.

Lemma skipLoop_short (x : Reader.t) (d : byte) (more : nat) :
  (Reader.HasEOL x = EOLCR /\ d = CR) \/ (Reader.HasEOL x = EOLLF /\ d = LF) ->
  ~ In d (bufio.unread (Reader.r x)) ->
  Reader.skipLoop (S more) x =
    Returns (Some EOF, Reader.set_r x (bufio.mkReader [] [])).
Proof.
  intros Hm Hn. cbn [Reader.skipLoop].
  rewrite (readLine_missing x d) by assumption. reflexivity.
Qed.

(** X19: with lines ended by CR or by LF, on an input that holds fewer
    line endings than there are lines to skip, the first call of [Read],
    of [ReadAll] and of [ReadRows] takes the whole input and returns
    [io.EOF] wrapped in a [ParseError], with no record; [ReadAll] too,
    which otherwise takes [io.EOF] for the end of its work.  The skipping
    is not marked as done. *)
Theorem input_shorter_than_the_lines_to_skip
        (x : Reader.t) (d : byte) (lines : list gostring) (tail : list byte)
        (n : Z) :
  Reader.initialskipdone x = false ->
  (Reader.HasEOL x = EOLCR /\ d = CR) \/ (Reader.HasEOL x = EOLLF /\ d = LF) ->
  len lines < Reader.SkipLines x ->
  Forall (fun l => ~ In d l) lines ->
  ~ In d tail ->
  bufio.unread (Reader.r x) = joined d lines ++ tail ->
  Reader.Read x =
    Returns ([], Some (ParseError (Reader.line x) (Reader.column x) EOF),
             Reader.set_r x (bufio.mkReader [] [])) /\
  Reader.ReadAll x =
    Returns ([], Some (ParseError (Reader.line x) (Reader.column x) EOF),
             Reader.set_r x (bufio.mkReader [] [])) /\
  Reader.ReadRows x n =
    Returns ([], Some (ParseError (Reader.line x) (Reader.column x) EOF),
             Reader.set_r x (bufio.mkReader [] [])) /\
  Reader.initialskipdone (Reader.set_r x (bufio.mkReader [] [])) = false.
Proof.
  intros Hd Hm Hn Hl Ht Hr.
  assert (Hi : Reader.initialSkip x =
               Returns (Some EOF, Reader.set_r x (bufio.mkReader [] []))).
  { unfold Reader.initialSkip, Reader.skipInitialLines.
    rewrite Hd. cbn [negb].
    replace (Z.to_nat (Reader.SkipLines x)) with
      (List.length lines +
       S (Z.to_nat (Reader.SkipLines x) - S (List.length lines)))%nat
      by (unfold len in Hn; lia).
    destruct (skipLoop_lines d lines tail Hl x Hm Hr
                (S (Z.to_nat (Reader.SkipLines x) - S (List.length lines))))
      as (b & Hs & Hb).
    rewrite Hs, (skipLoop_short _ d);
      [reflexivity|exact Hm|cbn [Reader.r Reader.set_r]; now rewrite Hb]. }
  unfold Reader.Read, Reader.ReadAll, Reader.ReadRows. rewrite Hi.
  cbn [bind]. repeat split; auto.
Qed.

Lemma input_shorter_than_the_lines_to_skip_witness :
  Reader.Read (Inputs.oneColumn 0 2 EOLLF false (str "a header" ++ LF :: str "ab")) =
    Returns ([], Some (ParseError
                         (Reader.line (Inputs.oneColumn 0 2 EOLLF false
                                         (str "a header" ++ LF :: str "ab")))
                         (Reader.column (Inputs.oneColumn 0 2 EOLLF false
                                           (str "a header" ++ LF :: str "ab")))
                         EOF),
             Reader.set_r (Inputs.oneColumn 0 2 EOLLF false
                             (str "a header" ++ LF :: str "ab"))
                          (bufio.mkReader [] [])) /\
  Reader.ReadAll (Inputs.oneColumn 0 2 EOLLF false (str "a header" ++ LF :: str "ab")) =
    Returns ([], Some (ParseError
                         (Reader.line (Inputs.oneColumn 0 2 EOLLF false
                                         (str "a header" ++ LF :: str "ab")))
                         (Reader.column (Inputs.oneColumn 0 2 EOLLF false
                                           (str "a header" ++ LF :: str "ab")))
                         EOF),
             Reader.set_r (Inputs.oneColumn 0 2 EOLLF false
                             (str "a header" ++ LF :: str "ab"))
                          (bufio.mkReader [] [])) /\
  Reader.ReadRows (Inputs.oneColumn 0 2 EOLLF false (str "a header" ++ LF :: str "ab")) 1 =
    Returns ([], Some (ParseError
                         (Reader.line (Inputs.oneColumn 0 2 EOLLF false
                                         (str "a header" ++ LF :: str "ab")))
                         (Reader.column (Inputs.oneColumn 0 2 EOLLF false
                                           (str "a header" ++ LF :: str "ab")))
                         EOF),
             Reader.set_r (Inputs.oneColumn 0 2 EOLLF false
                             (str "a header" ++ LF :: str "ab"))
                          (bufio.mkReader [] [])) /\
  Reader.initialskipdone
    (Reader.set_r (Inputs.oneColumn 0 2 EOLLF false
                     (str "a header" ++ LF :: str "ab"))
                  (bufio.mkReader [] [])) = false.
Proof.
  apply (input_shorter_than_the_lines_to_skip
           (Inputs.oneColumn 0 2 EOLLF false (str "a header" ++ LF :: str "ab"))
           LF [str "a header"] (str "ab") 1).
  - reflexivity.
  - right. split; reflexivity.
  - reflexivity.
  - constructor; [|constructor]. vm_compute. intros H.
    repeat (destruct H as [H|H]; [discriminate|]); exact H.
  - vm_compute. intros H.
    repeat (destruct H as [H|H]; [discriminate|]); exact H.
  - reflexivity.
Defined.

(** ** The rows of [ReadRows] *)




Example ReadRows_three_of_two :
  Reader.ReadRows Examples.readerTwoRecords 3 =
    Returns ([[str "ab"]; [str "cd"]], Some (ParseError 0 0 EOF),
             Reader.set_initialskipdone
               (Reader.set_r Examples.readerTwoRecords (Examples.buffered []))
               true).
Proof. reflexivity. Qed.

(** ** Lines without a line ending *)

Lemma skipn_repeat {A : Type} (a : A) (n k : nat) :
  skipn k (repeat a n) = repeat a (n - k).
Proof.
  revert k. induction n as [|n IH]; intros k.
  - now rewrite skipn_nil.
  - destruct k as [|k]; [reflexivity|]. cbn [repeat skipn Nat.sub]. apply IH.
Qed.

Lemma bufio_Read_short (w : nat) (b : bufio.Reader) (l : list byte) :
  l <> [] -> (List.length l < w)%nat ->
  bufio.buf b = l \/ (bufio.buf b = [] /\ bufio.src b = l) ->
  exists b',
    bufio.Read (repeat zero w) b =
      (l ++ repeat zero (w - List.length l), Z.of_nat (List.length l), None, b') /\
    bufio.unread b' = skipn (List.length l) (bufio.unread b).
Proof.
  intros Hl Hw Hb. unfold bufio.Read, bufio.unread.
  destruct w as [|w]; [lia|]. cbn [repeat].
  change (zero :: repeat zero w) with (repeat zero (S w)).
  destruct Hb as [Hb|[Hb Hs]].
  - rewrite Hb. destruct l as [|c l]; [congruence|].
    rewrite repeat_length.
    rewrite (Nat.min_r (S w) (List.length (c :: l))) by lia.
    rewrite firstn_all, skipn_all, skipn_repeat.
    eexists. split; [reflexivity|]. cbn [bufio.buf bufio.src app].
    change (c :: l ++ bufio.src b) with ((c :: l) ++ bufio.src b).
    now rewrite skipn_app, skipn_all, Nat.sub_diag.
  - rewrite Hb, Hs. destruct l as [|c l]; [congruence|].
    rewrite repeat_length. cbn [app].
    destruct (bufio.defaultBufSize <=? _) eqn:Eb.
    + rewrite (Nat.min_r (S w) (List.length (c :: l))) by lia.
      rewrite firstn_all, skipn_all, skipn_repeat.
      eexists. split; [reflexivity|]. reflexivity.
    + apply Z.leb_gt in Eb. unfold len in Eb. rewrite repeat_length in Eb.
      unfold bufio.fill. rewrite Hb, Hs. cbn [bufio.buf bufio.src app].
      change (len (@nil byte)) with 0.
      replace (Z.to_nat (Z.min (bufio.defaultBufSize - 0) (len (c :: l))))
        with (List.length (c :: l)) by (unfold len; lia).
      rewrite firstn_all, skipn_all.
      rewrite (Nat.min_r (S w) (List.length (c :: l))) by lia.
      rewrite firstn_all, skipn_all, skipn_repeat.
      eexists. split; reflexivity.
Qed.

(** X21: without a line ending, [readLine] does not look at the count that
    [bufio]'s [Read] returns.  When the buffer holds fewer bytes than a
    line is wide, or is empty over an input that holds fewer, the line
    that comes back is these bytes followed by the zero bytes of [make],
    up to the width: bytes that the input does not hold, in a line that
    passes the check of the width. *)
Theorem readLine_none_short_read (x : Reader.t) (l : list byte) :
  Reader.HasEOL x = EOLNONE ->
  Reader.width x <= maxAlloc ->
  l <> [] ->
  len l < Reader.width x ->
  bufio.buf (Reader.r x) = l \/
  (bufio.buf (Reader.r x) = [] /\ bufio.src (Reader.r x) = l) ->
  exists b,
    Reader.readLine x =
      Returns (l ++ repeat zero (Z.to_nat (Reader.width x - len l)), None,
               Reader.set_r x b) /\
    bufio.unread b = skipn (List.length l) (bufio.unread (Reader.r x)) /\
    len (l ++ repeat zero (Z.to_nat (Reader.width x - len l))) = Reader.width x.
Proof.
  intros Hm _ Hl Hw Hb. unfold Reader.readLine. rewrite Hm.
  simpl Z.eqb. cbv iota. unfold make_bytes.
  pose proof (len_nonneg l).
  replace (Reader.width x <? 0) with false by (symmetry; apply Z.ltb_ge; lia).
  cbn [bind].
  destruct (bufio_Read_short (Z.to_nat (Reader.width x)) (Reader.r x) l)
    as (b' & Hr & Hu); auto; [unfold len in Hw; lia|].
  rewrite Hr. exists b'.
  replace (Z.to_nat (Reader.width x - len l)) with
    (Z.to_nat (Reader.width x) - List.length l)%nat by (unfold len; lia).
  split; [reflexivity|]. split; [exact Hu|].
  rewrite len_app. unfold len in *. rewrite repeat_length. lia.
Qed.

Lemma readLine_none_short_read_witness :
  exists b,
    Reader.readLine Examples.readerNoneSplit =
      Returns (str "ab" ++
               repeat zero
                 (Z.to_nat (Reader.width Examples.readerNoneSplit -
                            len (str "ab"))),
               None, Reader.set_r Examples.readerNoneSplit b) /\
    bufio.unread b =
      skipn (List.length (str "ab"))
            (bufio.unread (Reader.r Examples.readerNoneSplit)) /\
    len (str "ab" ++
         repeat zero
           (Z.to_nat (Reader.width Examples.readerNoneSplit - len (str "ab")))) =
      Reader.width Examples.readerNoneSplit.
Proof.
  apply (readLine_none_short_read Examples.readerNoneSplit (str "ab")).
  - reflexivity.
  - vm_compute. discriminate.
  - discriminate.
  - reflexivity.
  - left. reflexivity.
Defined.

(** ** A reader on which [Init] was not called *)

(** X22: a reader that has columns but the width zero (columns given to a
    new reader, and no [Init] called) panics in [Read] on an empty line,
    with lines ended by CR or by LF and no comment marker: the empty line
    passes the check of the width, and the slice for the first column goes
    beyond its end. *)
Theorem Read_without_Init_panics_on_empty_line
        (x : Reader.t) (d : byte) (n : Z) (fl : list Z) (rest : list byte) :
  Reader.initialskipdone x = true ->
  (Reader.HasEOL x = EOLCR /\ d = CR) \/ (Reader.HasEOL x = EOLLF /\ d = LF) ->
  Reader.Comment x = 0 ->
  Reader.width x = 0 ->
  Reader.FieldLengths x = n :: fl ->
  0 < n ->
  0 <= Reader.SkipStart x ->
  Reader.SkipStart x + n <= GoInt.max_int ->
  bufio.unread (Reader.r x) = d :: rest ->
  Reader.Read x = Panics SliceBoundsOutOfRange.
Proof.
  intros Hs Hm Hc Hw Hf Hn H0 Hmax Hr.
  destruct (readLine_delimited x d [] rest Hm Hr) as (b & Hl & Hb); [tauto|].
  rewrite Read_done by assumption.
  unfold Reader.parseRecord. rewrite Hl. cbn [bind].
  rewrite dropComments_data by (left; exact Hc). cbn [bind].
  unfold Reader.cutLine.
  change (Reader.width (Reader.set_r x b)) with (Reader.width x).
  change (Reader.TrimFields (Reader.set_r x b)) with (Reader.TrimFields x).
  change (Reader.SkipStart (Reader.set_r x b)) with (Reader.SkipStart x).
  change (Reader.FieldLengths (Reader.set_r x b)) with (Reader.FieldLengths x).
  rewrite Hw, Hf. cbn [len List.length Z.of_nat Z.eqb negb].
  change (Reader.hasCRorLF []) with false. cbv iota.
  cbn [Reader.extractFields].
  rewrite add_in_range
    by (unfold GoInt.in_range, GoInt.min_int, GoInt.max_int in *; lia).
  unfold slice.
  replace (Reader.SkipStart x + n <=? len (@nil byte)) with false
    by (symmetry; apply Z.leb_gt; change (len (@nil byte)) with 0; lia).
  rewrite andb_false_r. reflexivity.
Qed.

Lemma Read_without_Init_panics_on_empty_line_witness :
  Reader.Read
    (Reader.mk 0 0 0 0 [2] None false EOLLF 0 0 0 true
               (bufio.NewReader (LF :: str "ab" ++ [LF])) []) =
    Panics SliceBoundsOutOfRange.
Proof.
  apply (Read_without_Init_panics_on_empty_line
           (Reader.mk 0 0 0 0 [2] None false EOLLF 0 0 0 true
                      (bufio.NewReader (LF :: str "ab" ++ [LF])) [])
           LF 2 [] (str "ab" ++ [LF])).
  - reflexivity.
  - right. split; reflexivity.
  - reflexivity.
  - reflexivity.
  - reflexivity.
  - lia.
  - cbn. lia.
  - vm_compute. discriminate.
  - reflexivity.
Defined.

(** ** Lines ended by CR LF *)

Lemma readLine_CRLF_progress (x x' : Reader.t) (tmp : gostring) :
  Reader.HasEOL x = EOLCRLF ->
  Reader.readLine x = Returns (tmp, None, x') ->
  (pending x' < pending x)%nat /\ Reader.hasCRorLF tmp = true /\ tmp <> [].
Proof.
  intros Hm H.
  destruct (readLine_CRLF_keeps_CR _ _ _ Hm H) as (l & -> & _ & _).
  split; [|split].
  - destruct (readLine_progress _ _ _ H) as [Hlt|(_ & _ & Hn & _)]; [exact Hlt|].
    rewrite Hm in Hn. discriminate.
  - apply hasCRorLF_last_CR.
  - destruct l; discriminate.
Qed.

Lemma skipComments_CRLF (fuel : nat) :
  forall (x : Reader.t) (tmp : gostring),
    Reader.HasEOL x = EOLCRLF ->
    tmp <> [] -> Reader.hasCRorLF tmp = true ->
    (pending x < fuel)%nat ->
    exists t' e b,
      Reader.skipComments fuel x tmp = Returns (t', e, Reader.set_r x b) /\
      (e = None -> Reader.hasCRorLF t' = true).
Proof.
  induction fuel as [|fuel IH]; intros x tmp Hm Hne Hcr Hf; [lia|].
  cbn [Reader.skipComments].
  destruct tmp as [|c t]; [congruence|]. rewrite index_head. cbn [bind].
  destruct (byteZ c =? Reader.Comment x).
  - destruct (readLine_returns x) as (t1 & e1 & b1 & Hr); [auto|].
    rewrite Hr. cbn [bind].
    destruct e1 as [e1|].
    + exists t1, (Some e1), b1. split; [reflexivity|discriminate].
    + destruct (readLine_CRLF_progress _ _ _ Hm Hr) as (Hlt & Hcr1 & Hne1).
      destruct (IH (Reader.set_r x b1) t1) as (t' & e & b & Hs & He); auto;
        [lia|].
      exists t', e, b. rewrite Hs. split; [now destruct x|exact He].
  - exists (c :: t), None, (Reader.r x). rewrite set_r_same. auto.
Qed.

Lemma parseRecord_CRLF_error (x : Reader.t) :
  Reader.HasEOL x = EOLCRLF ->
  exists e x', Reader.parseRecord x = Returns ([], Some e, x').
Proof.
  intros Hm. unfold Reader.parseRecord.
  destruct (readLine_returns x) as (t1 & e1 & b1 & Hr); [auto|].
  rewrite Hr. cbn [bind].
  destruct e1 as [e1|]; [eauto|].
  destruct (readLine_CRLF_progress _ _ _ Hm Hr) as (Hlt & Hcr1 & Hne1).
  assert (Hd : exists t' e b,
             Reader.dropComments (Reader.set_r x b1) t1 =
               Returns (t', e, Reader.set_r x b) /\
             (e = None -> Reader.hasCRorLF t' = true)).
  { unfold Reader.dropComments.
    destruct (negb (Reader.Comment (Reader.set_r x b1) =? 0)).
    - destruct t1 as [|c t]; [congruence|]. rewrite index_head. cbn [bind].
      destruct (byteZ c =? Reader.Comment (Reader.set_r x b1)).
      + destruct (skipComments_CRLF
                    (S (List.length (bufio.unread (Reader.r (Reader.set_r x b1)))))
                    (Reader.set_r x b1) (c :: t))
          as (t' & e & b & Hs & He); auto; try (unfold pending; lia).
        exists t', e, b. rewrite Hs. split; [now destruct x|exact He].
      + exists (c :: t), None, b1. auto.
    - exists t1, None, b1. auto. }
  destruct Hd as (t' & e & b & -> & He). cbn [bind].
  destruct e as [e|]; [eauto|].
  unfold Reader.cutLine. rewrite (He eq_refl).
  destruct (negb (len t' =? Reader.width (Reader.set_r x b))); eauto.
Qed.

(** X23: with lines ended by CR LF, the mode of a new reader, no call
    returns a record, whatever the input and the columns: [Read] returns
    an error and no record, and [ReadAll] returns an empty list; neither
    panics. *)
Theorem CRLF_mode_returns_no_record (x : Reader.t) :
  Reader.HasEOL x = EOLCRLF ->
  (exists e x', Reader.Read x = Returns ([], Some e, x')) /\
  (exists err x', Reader.ReadAll x = Returns ([], err, x')).
Proof.
  intros Hm.
  destruct (initialSkip_returns x) as (err & b & d & Hs); [auto|].
  assert (Hm' : Reader.HasEOL
                  (Reader.set_initialskipdone (Reader.set_r x b) d) = EOLCRLF)
    by exact Hm.
  destruct (parseRecord_CRLF_error _ Hm') as (e & x' & Hp).
  split.
  - unfold Reader.Read. rewrite Hs. cbn [bind].
    destruct err as [e0|]; eauto.
  - unfold Reader.ReadAll. rewrite Hs. cbn [bind].
    destruct err as [e0|]; [eauto|].
    cbn [Reader.readAllLoop]. rewrite Hp. cbn [bind].
    destruct (String.eqb (Error e) "EOF"); eauto.
Qed.

Lemma CRLF_mode_returns_no_record_witness :
  (exists e x', Reader.Read Examples.readerCRLF = Returns ([], Some e, x')) /\
  (exists err x', Reader.ReadAll Examples.readerCRLF = Returns ([], err, x')).
Proof.
  apply (CRLF_mode_returns_no_record Examples.readerCRLF). reflexivity.
Defined.

(** * The revision of 2016: properties *)

(** ** The check of the columns *)

Lemma Rev2016_sumWidth_Reader (fl : list Z) :
  forall w, Rev2016.Reader.sumWidth w fl = Reader.sumWidth w fl.
Proof.
  induction fl as [|n fl IH]; intros w;
    cbn [Rev2016.Reader.sumWidth Reader.sumWidth]; [reflexivity|].
  destruct (n <=? 0); [reflexivity|apply IH].
Qed.

(** [updateWidth], with the two tests on the skips read as a maximum. *)
Lemma Rev2016_updateWidth_steps (x : Rev2016.Reader.t) :
  Rev2016.Reader.updateWidth x =
    let ss := Z.max 0 (Rev2016.Reader.SkipStart x) in
    let se := Z.max 0 (Rev2016.Reader.SkipEnd x) in
    let y w :=
      Rev2016.Reader.mk
        (Rev2016.Reader.Comment x) (Rev2016.Reader.SkipLines x) ss se
        (Rev2016.Reader.FieldLengths x) (Rev2016.Reader.TrimFields x)
        (Rev2016.Reader.HasEOL x) w (Rev2016.Reader.line x)
        (Rev2016.Reader.column x) (Rev2016.Reader.initialskipdone x)
        (Rev2016.Reader.r x) (Rev2016.Reader.stdout x) in
    match Rev2016.Reader.FieldLengths x with
    | [] => (Some ErrNoFields, y (GoInt.add ss se))
    | _ :: _ =>
        let '(w, err) :=
          Rev2016.Reader.sumWidth (GoInt.add ss se)
                                  (Rev2016.Reader.FieldLengths x) in
        (err, y w)
    end.
Proof.
  destruct x as [c sl ss se fl tf he wd ln cl isd b so].
  unfold Rev2016.Reader.updateWidth.
  cbn [Rev2016.Reader.SkipStart Rev2016.Reader.SkipEnd
       Rev2016.Reader.FieldLengths].
  rewrite <- (max0_clamp ss), <- (max0_clamp se).
  destruct (ss <? 0); cbn; destruct (se <? 0); cbn;
    (destruct fl as [|n fl]; [reflexivity|]);
    match goal with
    | |- context [Rev2016.Reader.sumWidth ?w ?l] =>
        destruct (Rev2016.Reader.sumWidth w l) as [w' [e|]]
    end; reflexivity.
Qed.

(** X24 (revision of 2016): [Read], [ReadRows] and [ReadAll] check the
    columns before they touch the input.  Without columns they return
    [ErrNoFields], and with a column whose length is not positive
    [ErrFieldLengthError], wrapped in a [ParseError], with no record; the
    input is as it was. *)
Theorem Rev2016_Read_checks_the_columns_first
        (x : Rev2016.Reader.t) (n : Z) :
  Rev2016.Reader.FieldLengths x = [] \/
  Exists (fun v => v <= 0) (Rev2016.Reader.FieldLengths x) ->
  exists (e : error) (x' : Rev2016.Reader.t),
    (Rev2016.Reader.FieldLengths x = [] -> e = ErrNoFields) /\
    (Rev2016.Reader.FieldLengths x <> [] -> e = ErrFieldLengthError) /\
    Rev2016.Reader.r x' = Rev2016.Reader.r x /\
    Rev2016.Reader.Read x =
      Returns ([], Some (ParseError (Rev2016.Reader.line x)
                                    (Rev2016.Reader.column x) e), x') /\
    Rev2016.Reader.ReadRows x n =
      Returns ([], Some (ParseError (Rev2016.Reader.line x)
                                    (Rev2016.Reader.column x) e), x') /\
    Rev2016.Reader.ReadAll x =
      Returns ([], Some (ParseError (Rev2016.Reader.line x)
                                    (Rev2016.Reader.column x) e), x').
Proof.
  intros H.
  unfold Rev2016.Reader.Read, Rev2016.Reader.ReadRows, Rev2016.Reader.ReadAll,
    Rev2016.Reader.prepare.
  rewrite Rev2016_updateWidth_steps. cbn zeta.
  destruct (Rev2016.Reader.FieldLengths x) as [|v fl] eqn:E.
  - eexists _, _. split; [reflexivity|]. split; [congruence|].
    match goal with
    | |- ?A /\ ?B => assert (HB : B); [cbn; auto|split; [|exact HB]]
    end.
    reflexivity.
  - destruct H as [H|H]; [discriminate|].
    rewrite Rev2016_sumWidth_Reader.
    pose proof (Reader_sumWidth_error (v :: fl)
                  (GoInt.add (Z.max 0 (Rev2016.Reader.SkipStart x))
                             (Z.max 0 (Rev2016.Reader.SkipEnd x)))) as Hs.
    destruct (Reader.sumWidth _ (v :: fl)) as [w err]. cbn [snd] in Hs.
    apply forallb_not_positive in H. rewrite H in Hs. subst err.
    eexists _, _. split; [discriminate|]. split; [reflexivity|].
    match goal with
    | |- ?A /\ ?B => assert (HB : B); [cbn; auto|split; [|exact HB]]
    end.
    reflexivity.
Qed.

Lemma Rev2016_Read_checks_the_columns_first_witness :
  exists (e : error) (x' : Rev2016.Reader.t),
    (Rev2016.Reader.FieldLengths (Rev2016.Reader.NewReader (str "ab")) = [] ->
     e = ErrNoFields) /\
    (Rev2016.Reader.FieldLengths (Rev2016.Reader.NewReader (str "ab")) <> [] ->
     e = ErrFieldLengthError) /\
    Rev2016.Reader.r x' = Rev2016.Reader.r (Rev2016.Reader.NewReader (str "ab")) /\
    Rev2016.Reader.Read (Rev2016.Reader.NewReader (str "ab")) =
      Returns ([], Some (ParseError
                           (Rev2016.Reader.line (Rev2016.Reader.NewReader (str "ab")))
                           (Rev2016.Reader.column (Rev2016.Reader.NewReader (str "ab")))
                           e), x') /\
    Rev2016.Reader.ReadRows (Rev2016.Reader.NewReader (str "ab")) 1 =
      Returns ([], Some (ParseError
                           (Rev2016.Reader.line (Rev2016.Reader.NewReader (str "ab")))
                           (Rev2016.Reader.column (Rev2016.Reader.NewReader (str "ab")))
                           e), x') /\
    Rev2016.Reader.ReadAll (Rev2016.Reader.NewReader (str "ab")) =
      Returns ([], Some (ParseError
                           (Rev2016.Reader.line (Rev2016.Reader.NewReader (str "ab")))
                           (Rev2016.Reader.column (Rev2016.Reader.NewReader (str "ab")))
                           e), x').
Proof.
  apply (Rev2016_Read_checks_the_columns_first
           (Rev2016.Reader.NewReader (str "ab")) 1).
  left. reflexivity.
Defined.

(** ** The error of [ReadAll] *)

Lemma Rev2016_readAllLoop_error (fuel : nat) :
  forall (x x' : Rev2016.Reader.t) (acc records : list (list gostring))
         (err : option error),
    Rev2016.Reader.readAllLoop fuel x acc = Returns (records, err, x') ->
    exists e,
      err = Some (ParseError (Rev2016.Reader.line x')
                             (Rev2016.Reader.column x') e).
Proof.
  induction fuel as [|fuel IH]; intros x x' acc records err;
    cbn [Rev2016.Reader.readAllLoop]; [discriminate|].
  destruct (Rev2016.Reader.parseRecord x) as [[[record e] x1]| |];
    cbn [bind]; try discriminate.
  destruct e as [e|]; [|apply IH].
  intros [= _ <- <-]. unfold Rev2016.Reader.error_. eauto.
Qed.

(** X25 (revision of 2016): [ReadAll] never returns without an error: its
    loop ends at the first error only, and every error comes back wrapped
    in a [ParseError]; the end of the input, too, is reported as an
    error. *)
Theorem Rev2016_ReadAll_always_returns_an_error
        (x x' : Rev2016.Reader.t) (records : list (list gostring))
        (err : option error) :
  Rev2016.Reader.ReadAll x = Returns (records, err, x') ->
  exists e,
    err = Some (ParseError (Rev2016.Reader.line x')
                           (Rev2016.Reader.column x') e).
Proof.
  unfold Rev2016.Reader.ReadAll, Rev2016.Reader.prepare.
  destruct (Rev2016.Reader.updateWidth x) as [[e|] x0].
  { intros [= _ <- <-]. unfold Rev2016.Reader.error_. eauto. }
  destruct (negb (Rev2016.Reader.initialskipdone x0)).
  - destruct (Rev2016.Reader.skipInitialLines x0) as [[e|] x1].
    + intros [= _ <- <-]. unfold Rev2016.Reader.error_. eauto.
    + apply Rev2016_readAllLoop_error.
  - apply Rev2016_readAllLoop_error.
Qed.

Lemma Rev2016_ReadAll_always_returns_an_error_witness :
  exists e,
    Some (ParseError 0 0 EOF) =
    Some (ParseError (Rev2016.Reader.line Inputs2016.twoRecordsRead)
                     (Rev2016.Reader.column Inputs2016.twoRecordsRead) e).
Proof.
  apply (Rev2016_ReadAll_always_returns_an_error
           Inputs2016.twoRecords Inputs2016.twoRecordsRead
           [[str "ab"]; [str "cd"]] (Some (ParseError 0 0 EOF))).
  reflexivity.
Defined.

Example Rev2016_ReadAll_two_records :
  Rev2016.Reader.ReadAll Inputs2016.twoRecords =
    Returns ([[str "ab"]; [str "cd"]], Some (ParseError 0 0 EOF),
             Inputs2016.twoRecordsRead).
Proof. reflexivity. Qed.

(** ** [bufio] for the reader of 2016 *)

Lemma Rev2016_Read_some (p : list byte) (b : Rev2016.Bufio.Reader) :
  p <> [] -> Rev2016.Bufio.unread b <> [] -> Rev2016.Bufio.err b = None ->
  exists k b',
    Rev2016.Bufio.Read p b =
      (firstn k (Rev2016.Bufio.unread b) ++ skipn k p, Z.of_nat k, None, b') /\
    Rev2016.Bufio.unread b' = skipn k (Rev2016.Bufio.unread b) /\
    Rev2016.Bufio.err b' = None /\
    (1 <= k <= Nat.min (List.length p)
                       (List.length (Rev2016.Bufio.unread b)))%nat /\
    (Rev2016.Bufio.buf b = [] \/
     (List.length p <= List.length (Rev2016.Bufio.buf b))%nat ->
     k = Nat.min (List.length p) (List.length (Rev2016.Bufio.unread b))).
Proof.
  intros Hp Hu He. unfold Rev2016.Bufio.Read, Rev2016.Bufio.unread in *.
  destruct p as [|p0 p]; [congruence|].
  destruct (Rev2016.Bufio.buf b) as [|c l] eqn:Eb.
  - rewrite He. cbn [app] in *.
    destruct (Rev2016.Bufio.src b) as [|c s] eqn:Es; [congruence|].
    destruct (bufio.defaultBufSize <=? len (p0 :: p)) eqn:Ed.
    + eexists _, _. split; [reflexivity|]. cbn [Rev2016.Bufio.buf
        Rev2016.Bufio.src Rev2016.Bufio.err app].
      split; [reflexivity|]. split; [reflexivity|].
      split; [cbn [List.length]; lia|auto].
    + apply Z.leb_gt in Ed. unfold len, bufio.defaultBufSize in Ed.
      cbn [Rev2016.Bufio.buf Rev2016.Bufio.src Rev2016.Bufio.err
           Rev2016.Bufio.lastByte].
      set (k := Nat.min (Z.to_nat bufio.defaultBufSize) (List.length (c :: s))).
      set (n := Nat.min (List.length (p0 :: p))
                        (List.length (firstn k (c :: s)))).
      assert (Hk : (List.length (firstn k (c :: s)) = k)%nat)
        by (rewrite length_firstn; subst k; lia).
      assert (Hn : n = Nat.min (List.length (p0 :: p)) (List.length (c :: s))).
      { subst n. rewrite Hk. subst k. unfold bufio.defaultBufSize. lia. }
      assert (Hle : (n <= k)%nat) by (subst n; rewrite Hk; lia).
      assert (Hf : firstn n (firstn k (c :: s)) = firstn n (c :: s))
        by (rewrite firstn_firstn; f_equal; lia).
      rewrite Hf. exists n. eexists. split; [reflexivity|].
      cbn [Rev2016.Bufio.buf Rev2016.Bufio.src Rev2016.Bufio.err].
      split; [|split; [reflexivity|split; [|intros _; exact Hn]]].
      * rewrite <- (firstn_skipn k (c :: s)) at 3.
        rewrite skipn_app, Hk.
        replace (n - k)%nat with 0%nat by lia. reflexivity.
      * rewrite Hn. cbn [List.length]. lia.
  - set (n := Nat.min (List.length (p0 :: p)) (List.length (c :: l))).
    assert (Hf : firstn n ((c :: l) ++ Rev2016.Bufio.src b) = firstn n (c :: l)).
    { rewrite firstn_app.
      replace (n - List.length (c :: l))%nat with 0%nat by (subst n; lia).
      now rewrite firstn_O, app_nil_r. }
    exists n. rewrite Hf. eexists. split; [reflexivity|].
    cbn [Rev2016.Bufio.buf Rev2016.Bufio.src Rev2016.Bufio.err].
    split; [|split; [exact He|split]].
    + rewrite skipn_app.
      replace (n - List.length (c :: l))%nat with 0%nat by (subst n; lia).
      reflexivity.
    + subst n. rewrite length_app. cbn [List.length]. lia.
    + intros [H|H]; [discriminate|]. subst n. rewrite length_app. lia.
Qed.

Lemma Rev2016_ReadByte_ok (b : Rev2016.Bufio.Reader) (c : byte) (rest : list byte) :
  Rev2016.Bufio.err b = None ->
  Rev2016.Bufio.unread b = c :: rest ->
  exists b',
    Rev2016.Bufio.ReadByte b = (c, None, b') /\
    Rev2016.Bufio.unread b' = rest /\
    Rev2016.Bufio.err b' = None /\
    Rev2016.Bufio.lastByte b' = Some c.
Proof.
  intros He Hu. unfold Rev2016.Bufio.ReadByte, Rev2016.Bufio.unread in *.
  destruct (Rev2016.Bufio.buf b) as [|c0 l] eqn:Eb.
  - rewrite He. cbn [app] in Hu.
    unfold Rev2016.Bufio.fill. rewrite Hu, Eb.
    cbn [Rev2016.Bufio.buf Rev2016.Bufio.src app].
    change (len (@nil byte)) with 0.
    unfold bufio.defaultBufSize, len.
    destruct (Z.to_nat (Z.min (4096 - 0) (Z.of_nat (List.length (c :: rest)))))
      as [|k] eqn:Ek; [cbn [List.length] in Ek; lia|].
    cbn [firstn skipn Rev2016.Bufio.buf Rev2016.Bufio.src Rev2016.Bufio.err].
    eexists. split; [reflexivity|].
    cbn [Rev2016.Bufio.buf Rev2016.Bufio.src Rev2016.Bufio.err
         Rev2016.Bufio.lastByte].
    rewrite firstn_skipn. auto.
  - cbn [app] in Hu. injection Hu as -> Hu.
    eexists. split; [reflexivity|].
    cbn [Rev2016.Bufio.buf Rev2016.Bufio.src Rev2016.Bufio.err
         Rev2016.Bufio.lastByte]. auto.
Qed.

Lemma Rev2016_ReadByte_EOF (b : Rev2016.Bufio.Reader) :
  Rev2016.Bufio.err b = None ->
  Rev2016.Bufio.unread b = [] ->
  exists b',
    Rev2016.Bufio.ReadByte b = (zero, Some EOF, b') /\
    Rev2016.Bufio.unread b' = [] /\
    Rev2016.Bufio.err b' = None.
Proof.
  intros He Hu. unfold Rev2016.Bufio.ReadByte, Rev2016.Bufio.unread in *.
  apply app_eq_nil in Hu. destruct Hu as [Hb Hs].
  rewrite Hb, He. unfold Rev2016.Bufio.fill. rewrite Hs, Hb.
  cbn [Rev2016.Bufio.buf Rev2016.Bufio.src Rev2016.Bufio.err].
  eexists. split; [reflexivity|]. auto.
Qed.

Lemma Rev2016_UnreadByte_ok (b : Rev2016.Bufio.Reader) (c : byte) :
  Rev2016.Bufio.lastByte b = Some c ->
  Rev2016.Bufio.unread (snd (Rev2016.Bufio.UnreadByte b)) =
    c :: Rev2016.Bufio.unread b /\
  Rev2016.Bufio.err (snd (Rev2016.Bufio.UnreadByte b)) = Rev2016.Bufio.err b.
Proof.
  intros H. unfold Rev2016.Bufio.UnreadByte. rewrite H. auto.
Qed.

(** ** A line and its ending, for the reader of 2016 *)

Lemma Rev2016_extractFields_Reader (trim : bool) (tmp : gostring) (fl : list Z) :
  forall (curpos : Z) (acc : list gostring),
    Rev2016.Reader.extractFields trim tmp curpos fl acc =
    Reader.extractFields trim tmp curpos fl acc.
Proof.
  induction fl as [|n fl IH]; intros curpos acc;
    cbn [Rev2016.Reader.extractFields Reader.extractFields]; [reflexivity|].
  destruct (slice tmp curpos (GoInt.add curpos n)); cbn [bind]; auto.
Qed.

Lemma Rev2016_set_r_same (x : Rev2016.Reader.t) :
  Rev2016.Reader.set_r x (Rev2016.Reader.r x) = x.
Proof. now destruct x. Qed.

Lemma Rev2016_endOfLine_ok
      (x : Rev2016.Reader.t) (tail rest : list byte) :
  Rev2016.Reader.HasEOL x = true ->
  Rev2016.Bufio.err (Rev2016.Reader.r x) = None ->
  Rev2016.Bufio.unread (Rev2016.Reader.r x) = tail ->
  lineEnd2016 tail rest ->
  exists b,
    Rev2016.Reader.endOfLine x = (None, Rev2016.Reader.set_r x b) /\
    Rev2016.Bufio.unread b = rest /\
    Rev2016.Bufio.err b = None.
Proof.
  intros Hm He Hu Hend. unfold Rev2016.Reader.endOfLine. rewrite Hm.
  destruct Hend as [rest|rest|rest Hn].
  - destruct (Rev2016_ReadByte_ok _ _ _ He Hu) as (b1 & -> & Hu1 & He1 & _).
    exists b1. rewrite byteZ_CR. cbn. auto.
  - destruct (Rev2016_ReadByte_ok _ _ _ He Hu) as (b1 & -> & Hu1 & He1 & _).
    rewrite byteZ_LF. cbn [Z.eqb negb andb Pos.eqb].
    cbn [Rev2016.Reader.r Rev2016.Reader.set_r].
    destruct (Rev2016_ReadByte_ok _ _ _ He1 Hu1) as (b2 & -> & Hu2 & He2 & _).
    exists b2. rewrite byteZ_CR. cbn. auto.
  - destruct (Rev2016_ReadByte_ok _ _ _ He Hu) as (b1 & -> & Hu1 & He1 & _).
    rewrite byteZ_LF. cbn [Z.eqb negb andb Pos.eqb].
    cbn [Rev2016.Reader.r Rev2016.Reader.set_r].
    destruct rest as [|c t].
    + destruct (Rev2016_ReadByte_EOF _ He1 Hu1) as (b2 & -> & Hu2 & He2).
      exists b2. auto.
    + destruct (Rev2016_ReadByte_ok _ _ _ He1 Hu1) as (b2 & -> & Hu2 & He2 & Hl).
      assert (Hc : (byteZ c =? 13) = false).
      { apply Z.eqb_neq. intros Hc. rewrite <- byteZ_CR in Hc.
        apply byteZ_inj in Hc. subst c. now apply (Hn t). }
      rewrite Hc. cbn [negb].
      cbn [Rev2016.Reader.r Rev2016.Reader.set_r].
      destruct (Rev2016_UnreadByte_ok _ _ Hl) as [Hu3 He3].
      eexists. split; [reflexivity|]. rewrite Hu3, He3, Hu2. auto.
Qed.

Lemma sumZ_cons (n : Z) (fl : list Z) : sumZ (n :: fl) = n + sumZ fl.
Proof. reflexivity. Qed.

Lemma sumZ_positive (fl : list Z) :
  fl <> [] -> Forall (fun n => 0 < n) fl -> 0 < sumZ fl.
Proof.
  intros Hne Hp. destruct fl as [|n fl]; [congruence|].
  inversion Hp; subst. pose proof (sumZ_nonneg _ H2). rewrite sumZ_cons. lia.
Qed.

Lemma existsb_clean (l : gostring) :
  (forall b, In b l -> b <> CR /\ b <> LF) ->
  existsb (fun val => (byteZ val =? 13) || (byteZ val =? 10)) l = false.
Proof.
  intros H. rewrite <- hasCRorLF_bytes. now apply hasCRorLF_clean.
Qed.

(** The reader that [updateWidth] leaves, for columns it accepts. *)
Lemma Rev2016_updateWidth_ok (x : Rev2016.Reader.t) :
  Rev2016.Reader.FieldLengths x <> [] ->
  Forall (fun n => 0 < n) (Rev2016.Reader.FieldLengths x) ->
  Z.max 0 (Rev2016.Reader.SkipStart x) + Z.max 0 (Rev2016.Reader.SkipEnd x) +
    sumZ (Rev2016.Reader.FieldLengths x) <= GoInt.max_int ->
  Rev2016.Reader.updateWidth x =
    (None,
     Rev2016.Reader.mk
       (Rev2016.Reader.Comment x) (Rev2016.Reader.SkipLines x)
       (Z.max 0 (Rev2016.Reader.SkipStart x))
       (Z.max 0 (Rev2016.Reader.SkipEnd x))
       (Rev2016.Reader.FieldLengths x) (Rev2016.Reader.TrimFields x)
       (Rev2016.Reader.HasEOL x)
       (Z.max 0 (Rev2016.Reader.SkipStart x) +
        Z.max 0 (Rev2016.Reader.SkipEnd x) +
        sumZ (Rev2016.Reader.FieldLengths x))
       (Rev2016.Reader.line x) (Rev2016.Reader.column x)
       (Rev2016.Reader.initialskipdone x) (Rev2016.Reader.r x)
       (Rev2016.Reader.stdout x)).
Proof.
  intros Hne Hp Hm. rewrite Rev2016_updateWidth_steps. cbn zeta.
  destruct (Rev2016.Reader.FieldLengths x) as [|n fl] eqn:E; [now elim Hne|].
  pose proof (sumZ_nonneg _ Hp) as H0.
  rewrite add_in_range
    by (unfold GoInt.in_range, GoInt.min_int, GoInt.max_int in *; lia).
  rewrite Rev2016_sumWidth_Reader, Reader_sumWidth_sum; auto; lia.
Qed.

Lemma firstn_length_app {A : Type} (l t : list A) :
  firstn (List.length l) (l ++ t) = l.
Proof.
  rewrite firstn_app, Nat.sub_diag, firstn_O, app_nil_r. apply firstn_all.
Qed.

Lemma skipn_length_app {A : Type} (l t : list A) :
  skipn (List.length l) (l ++ t) = t.
Proof. rewrite skipn_app, Nat.sub_diag, skipn_all. reflexivity. Qed.

(** A line of the width of the reader, without CR and LF, in front of
    the input, with no comment marker set: what [parseRecord] does up to
    the line ending. *)
Lemma Rev2016_parseRecord_line
      (x : Rev2016.Reader.t) (l tail : list byte) :
  Rev2016.Reader.Comment x = 0 ->
  0 < Rev2016.Reader.width x ->
  len l = Rev2016.Reader.width x ->
  (forall b, In b l -> b <> CR /\ b <> LF) ->
  Rev2016.Bufio.err (Rev2016.Reader.r x) = None ->
  Rev2016.Bufio.unread (Rev2016.Reader.r x) = l ++ tail ->
  Rev2016.Bufio.buf (Rev2016.Reader.r x) = [] \/
  Rev2016.Reader.width x <= len (Rev2016.Bufio.buf (Rev2016.Reader.r x)) ->
  exists b,
    Rev2016.Bufio.unread b = tail /\ Rev2016.Bufio.err b = None /\
    Rev2016.Reader.parseRecord x =
      (let '(err, x1) := Rev2016.Reader.endOfLine (Rev2016.Reader.set_r x b) in
       match err with
       | Some e => Returns ([], Some e, x1)
       | None =>
           result <- Reader.extractFields (Rev2016.Reader.TrimFields x) l
                       (Rev2016.Reader.SkipStart x)
                       (Rev2016.Reader.FieldLengths x) [] ;;
           Returns (result, None, x1)
       end).
Proof.
  intros Hc Hw Hl Hcl He Hu Hb.
  unfold Rev2016.Reader.parseRecord, make_bytes.
  replace (Rev2016.Reader.width x <? 0) with false
    by (symmetry; apply Z.ltb_ge; lia).
  cbn [bind]. unfold Rev2016.Reader.dropComments.
  rewrite Hc. rewrite andb_false_r. cbn [bind].
  assert (Hp : repeat zero (Z.to_nat (Rev2016.Reader.width x)) <> [])
    by (destruct (Z.to_nat (Rev2016.Reader.width x)) eqn:E; [lia|discriminate]).
  assert (Hne : Rev2016.Bufio.unread (Rev2016.Reader.r x) <> []).
  { rewrite Hu. destruct l; [unfold len in Hl; cbn in Hl; lia|discriminate]. }
  destruct (Rev2016_Read_some _ _ Hp Hne He) as (k & b & Hr & Hub & Heb & _ & Hk).
  assert (Ek : k = List.length l).
  { rewrite Hk.
    - rewrite repeat_length, Hu, length_app. unfold len in Hl. lia.
    - destruct Hb as [Hb|Hb]; [now left|right].
      rewrite repeat_length. unfold len in Hb. lia. }
  subst k. rewrite Hr. rewrite Hu, firstn_length_app in *.
  rewrite skipn_length_app in Hub.
  rewrite skipn_all2 by (rewrite repeat_length; unfold len in Hl; lia).
  rewrite app_nil_r.
  exists b. split; [exact Hub|]. split; [exact Heb|].
  cbn [Rev2016.Reader.width Rev2016.Reader.set_r].
  fold (len l). rewrite Hl, Z.eqb_refl. cbn [negb].
  rewrite existsb_clean by exact Hcl.
  destruct (Rev2016.Reader.endOfLine (Rev2016.Reader.set_r x b)) as [err x1] eqn:Ee.
  destruct err as [e|]; [reflexivity|].
  assert (Hcfg : Rev2016.Reader.TrimFields x1 = Rev2016.Reader.TrimFields x /\
                 Rev2016.Reader.SkipStart x1 = Rev2016.Reader.SkipStart x /\
                 Rev2016.Reader.FieldLengths x1 = Rev2016.Reader.FieldLengths x).
  { revert Ee. unfold Rev2016.Reader.endOfLine.
    destruct (Rev2016.Reader.HasEOL _); [|now intros [= <-]].
    destruct (Rev2016.Bufio.ReadByte _) as [[c e] b1].
    destruct e; [discriminate|].
    destruct (negb (byteZ c =? 13) && negb (byteZ c =? 10)); [discriminate|].
    destruct (byteZ c =? 10); [|now intros [= <-]].
    destruct (Rev2016.Bufio.ReadByte _) as [[c2 e2] b2].
    destruct e2; [now intros [= <-]|].
    destruct (negb (byteZ c2 =? 13)); now intros [= <-]. }
  destruct Hcfg as (-> & -> & ->).
  now rewrite Rev2016_extractFields_Reader.
Qed.

(** X26 (revision of 2016): with line endings and no comment marker, a
    reader with columns of positive lengths, whose skipping is done, reads
    a line of the width of its layout that holds no CR and no LF and is
    followed by a CR, by an LF and a CR, or by an LF with no CR behind it:
    [Read] returns the cells of the columns, in their order and without
    the spaces and tabs at their ends when [TrimFields] is set, and the
    input stands behind the line ending.  An LF behind a CR is not part
    of the line ending.  The buffer is empty or holds the whole line. *)
Theorem Rev2016_Read_line
        (x : Rev2016.Reader.t) (pre post tail rest : list byte)
        (cs : list gostring) :
  Rev2016.Reader.HasEOL x = true ->
  Rev2016.Reader.Comment x = 0 ->
  Rev2016.Reader.initialskipdone x = true ->
  Rev2016.Reader.FieldLengths x <> [] ->
  Forall (fun n => 0 < n) (Rev2016.Reader.FieldLengths x) ->
  Z.max 0 (Rev2016.Reader.SkipStart x) + Z.max 0 (Rev2016.Reader.SkipEnd x) +
    sumZ (Rev2016.Reader.FieldLengths x) <= GoInt.max_int ->
  len pre = Z.max 0 (Rev2016.Reader.SkipStart x) ->
  len post = Z.max 0 (Rev2016.Reader.SkipEnd x) ->
  Forall2 (fun c n => len c = n) cs (Rev2016.Reader.FieldLengths x) ->
  (forall b, In b (pre ++ List.concat cs ++ post) -> b <> CR /\ b <> LF) ->
  Rev2016.Bufio.err (Rev2016.Reader.r x) = None ->
  Rev2016.Bufio.unread (Rev2016.Reader.r x) =
    (pre ++ List.concat cs ++ post) ++ tail ->
  Rev2016.Bufio.buf (Rev2016.Reader.r x) = [] \/
  len (pre ++ List.concat cs ++ post) <=
    len (Rev2016.Bufio.buf (Rev2016.Reader.r x)) ->
  lineEnd2016 tail rest ->
  exists x',
    Rev2016.Reader.Read x =
      Returns (map (fun c => if Rev2016.Reader.TrimFields x
                             then strings.Trim c [SP; TAB] else c) cs,
               None, x') /\
    Rev2016.Bufio.unread (Rev2016.Reader.r x') = rest /\
    Rev2016.Bufio.err (Rev2016.Reader.r x') = None.
Proof.
  intros Hm Hc Hd Hne Hp Hmax Hlp Hlq Hcs Hcl He Hu Hb Hend.
  assert (Hlen : len (pre ++ List.concat cs ++ post) =
                 Z.max 0 (Rev2016.Reader.SkipStart x) +
                 Z.max 0 (Rev2016.Reader.SkipEnd x) +
                 sumZ (Rev2016.Reader.FieldLengths x)).
  { rewrite !len_app, Hlp, Hlq, (len_concat_widths _ _ Hcs). lia. }
  pose proof (sumZ_positive _ Hne Hp) as Hpos.
  unfold Rev2016.Reader.Read, Rev2016.Reader.prepare.
  rewrite Rev2016_updateWidth_ok by assumption.
  cbn [Rev2016.Reader.initialskipdone]. rewrite Hd. cbn [negb].
  match goal with
  | |- context [Rev2016.Reader.parseRecord ?y] => set (x0 := y)
  end.
  destruct (Rev2016_parseRecord_line x0 (pre ++ List.concat cs ++ post) tail)
    as (b & Hub & Heb & Hpr); subst x0;
    cbn [Rev2016.Reader.Comment Rev2016.Reader.width Rev2016.Reader.r];
    auto; try lia.
  { rewrite Hlen in Hb. exact Hb. }
  rewrite Hpr.
  match goal with
  | |- context [Rev2016.Reader.endOfLine ?y] => set (x1 := y)
  end.
  destruct (Rev2016_endOfLine_ok x1 tail rest) as (b' & Hee & Hub' & Heb');
    subst x1; auto.
  rewrite Hee.
  cbn [Rev2016.Reader.TrimFields Rev2016.Reader.SkipStart
       Rev2016.Reader.FieldLengths].
  rewrite <- Hlp.
  rewrite (extractFields_cells _ _ _ Hcs) by (rewrite Hlp; lia).
  cbn [bind app]. eexists. split; [reflexivity|].
  cbn [Rev2016.Reader.r Rev2016.Reader.set_r]. auto.
Qed.

Lemma Rev2016_Read_line_witness :
  exists x',
    Rev2016.Reader.Read
      (Inputs2016.readerPair true (str "  ab  xyz " ++ LF :: CR :: str "next")) =
      Returns (map (fun c =>
                      if Rev2016.Reader.TrimFields
                           (Inputs2016.readerPair true
                              (str "  ab  xyz " ++ LF :: CR :: str "next"))
                      then strings.Trim c [SP; TAB] else c)
                   [str "ab  "; str "xyz"],
               None, x') /\
    Rev2016.Bufio.unread (Rev2016.Reader.r x') = str "next" /\
    Rev2016.Bufio.err (Rev2016.Reader.r x') = None.
Proof.
  apply (Rev2016_Read_line
           (Inputs2016.readerPair true
              (str "  ab  xyz " ++ LF :: CR :: str "next"))
           (str "  ") (str " ") (LF :: CR :: str "next") (str "next")
           [str "ab  "; str "xyz"]).
  - reflexivity.
  - reflexivity.
  - reflexivity.
  - discriminate.
  - constructor; [reflexivity|]. constructor; [reflexivity|constructor].
  - vm_compute. discriminate.
  - reflexivity.
  - reflexivity.
  - constructor; [reflexivity|]. constructor; [reflexivity|constructor].
  - vm_compute. intros b H.
    repeat (destruct H as [H|H];
            [subst b; split; discriminate|]); contradiction.
  - reflexivity.
  - reflexivity.
  - left. reflexivity.
  - apply lineEnd_LF_CR.
Defined.

Example Rev2016_Read_trimmed :
  Rev2016.Reader.Read
    (Inputs2016.readerPair true (str "  ab  xyz " ++ LF :: CR :: str "next")) =
    Returns ([str "ab"; str "xyz"], None,
             Rev2016.Reader.mk 0 0 2 1 [4; 3] true true 10 0 0 true
               (Rev2016.Bufio.mk (str "next") [] None (Some CR) []) []).
Proof. reflexivity. Qed.

(** ** The line of the writer of 2016 *)

Lemma Rev2016_set_w_set_w (x : Rev2016.Writer.t) (o o' : list byte) :
  Rev2016.Writer.set_w (Rev2016.Writer.set_w x o) o' = Rev2016.Writer.set_w x o'.
Proof. reflexivity. Qed.

Lemma Rev2016_set_w_same (x : Rev2016.Writer.t) :
  Rev2016.Writer.set_w x (Rev2016.Writer.w x) = x.
Proof. now destruct x. Qed.

Lemma Rev2016_writeField_cell
      (x : Rev2016.Writer.t) (flds : list gostring) (i : Z)
      (f : gostring) (n : Z) :
  index flds i = Returns f ->
  index (Rev2016.Writer.FieldLengths x) i = Returns n ->
  fieldOK (Rev2016.Writer.TrimFields x) f n ->
  Rev2016.Writer.writeField x flds i =
    Returns (None,
             Rev2016.Writer.set_w x
               (Rev2016.Writer.w x ++
                (if len f >? n then firstn (Z.to_nat n) f
                 else f ++ spaces (n - len f)))).
Proof.
  intros Hf Hn Hok. unfold Rev2016.Writer.writeField.
  rewrite Hf, Hn. cbn [bind].
  destruct (Z.gtb_spec (len f) n) as [Hgt|Hle].
  - destruct Hok as [Hle|[Ht H0]]; [lia|]. rewrite Ht. cbn [negb].
    rewrite slice_firstn by lia. cbn [bind]. unfold Rev2016.Bufio.Write.
    rewrite len_firstn_le by lia. rewrite Z.eqb_refl. reflexivity.
  - unfold Rev2016.Bufio.Write. rewrite Z.eqb_refl. cbn [negb].
    unfold Rev2016.Writer.outputSpaces, spaces.
    cbn [Rev2016.Writer.w Rev2016.Writer.set_w].
    rewrite Rev2016_set_w_set_w. now rewrite <- app_assoc.
Qed.

Lemma Rev2016_writeLoop_cells (pre : list gostring) :
  forall (preL : list Z) (F0 F1 : list gostring) (L0 L1 : list Z)
         (x : Rev2016.Writer.t),
    Rev2016.Writer.FieldLengths x = L0 ++ preL ++ L1 ->
    List.length L0 = List.length F0 ->
    List.length preL = List.length pre ->
    Forall2 (fieldOK (Rev2016.Writer.TrimFields x)) pre preL ->
    Rev2016.Writer.writeLoop (List.length pre) x (F0 ++ pre ++ F1) (len F0) =
      Returns (None,
               Rev2016.Writer.set_w x
                 (Rev2016.Writer.w x ++ List.concat (cells2016 preL pre))).
Proof.
  induction pre as [|f pre IH]; intros preL F0 F1 L0 L1 x HL HL0 HLp Hok.
  - destruct preL; try discriminate. cbn.
    now rewrite app_nil_r, Rev2016_set_w_same.
  - destruct preL as [|n preL]; [discriminate|].
    inversion Hok as [|? ? ? ? Hf Hok']; subst.
    cbn [List.length Rev2016.Writer.writeLoop].
    assert (Hif : index (F0 ++ (f :: pre) ++ F1) (len F0) = Returns f)
      by apply index_app_mid.
    assert (Hin : index (Rev2016.Writer.FieldLengths x) (len F0) = Returns n).
    { rewrite HL. replace (len F0) with (len L0) by (unfold len; lia).
      apply index_app_mid. }
    rewrite (Rev2016_writeField_cell x _ _ f n Hif Hin Hf). cbn [bind].
    replace (F0 ++ (f :: pre) ++ F1) with ((F0 ++ [f]) ++ pre ++ F1)
      by (now rewrite <- app_assoc).
    rewrite <- (len_snoc F0 f).
    rewrite (IH preL (F0 ++ [f]) F1 (L0 ++ [n]) L1).
    + cbn [Rev2016.Writer.w Rev2016.Writer.set_w cells2016 List.concat].
      rewrite Rev2016_set_w_set_w. now rewrite <- app_assoc.
    + cbn. rewrite HL. now rewrite <- app_assoc.
    + rewrite !length_app. cbn. lia.
    + cbn in HLp. lia.
    + exact Hok'.
Qed.

Lemma Rev2016_Write_cells (x : Rev2016.Writer.t) (flds : list gostring) :
  Forall2 (fieldOK (Rev2016.Writer.TrimFields x)) flds
          (Rev2016.Writer.FieldLengths x) ->
  Rev2016.Writer.Write x flds =
    Returns (None,
             Rev2016.Writer.set_w x
               (Rev2016.Writer.w x ++ writtenLine2016 x flds ++ eol2016 x)).
Proof.
  intros Hok. pose proof (Forall2_length Hok) as HL.
  unfold Rev2016.Writer.Write.
  cbn [Rev2016.Writer.FieldLengths Rev2016.Writer.outputSpaces
       Rev2016.Writer.set_w].
  replace (len flds =? len (Rev2016.Writer.FieldLengths x)) with true
    by (symmetry; apply Z.eqb_eq; unfold len; lia).
  cbn [negb].
  pose proof (Rev2016_writeLoop_cells flds (Rev2016.Writer.FieldLengths x)
                [] [] [] []
                (Rev2016.Writer.outputSpaces x (Rev2016.Writer.SkipStart x)))
    as H.
  cbn [app] in H. rewrite !app_nil_r in H.
  change (len (@nil gostring)) with 0 in H.
  unfold Rev2016.Writer.outputSpaces in H |- *. rewrite H; auto.
  cbn [bind]. unfold writtenLine2016, eol2016, spaces,
    Rev2016.Bufio.WriteByte.
  cbn [Rev2016.Writer.w Rev2016.Writer.set_w Rev2016.Writer.SkipEnd
       Rev2016.Writer.HasEOL snd].
  destruct (Rev2016.Writer.HasEOL x); rewrite !Rev2016_set_w_set_w;
    rewrite <- ?app_assoc; [reflexivity|].
  now rewrite app_nil_r.
Qed.

(** X27 (revision of 2016): [Write] of a record with one field for each
    column, each no longer than its column or of any length when
    [TrimFields] is set, returns no error and has put out the leading
    spaces, each field cut to its column or filled up with spaces on its
    right, the trailing spaces, and CR LF when [HasEOL] is set. *)
Theorem Rev2016_Write_line (x : Rev2016.Writer.t) (flds : list gostring) :
  Forall2 (fieldOK (Rev2016.Writer.TrimFields x)) flds
          (Rev2016.Writer.FieldLengths x) ->
  Rev2016.Writer.Write x flds =
    Returns (None,
             Rev2016.Writer.set_w x
               (Rev2016.Writer.w x ++ writtenLine2016 x flds ++ eol2016 x)).
Proof. apply Rev2016_Write_cells. Qed.

Lemma Rev2016_Write_line_witness :
  Rev2016.Writer.Write (Inputs2016.writerPair true) [str "ab"; str "wxyz"] =
    Returns (None,
             Rev2016.Writer.set_w (Inputs2016.writerPair true)
               (Rev2016.Writer.w (Inputs2016.writerPair true) ++
                writtenLine2016 (Inputs2016.writerPair true)
                                [str "ab"; str "wxyz"] ++
                eol2016 (Inputs2016.writerPair true))).
Proof.
  apply (Rev2016_Write_line (Inputs2016.writerPair true)
                            [str "ab"; str "wxyz"]).
  constructor; [left; vm_compute; discriminate|].
  constructor; [right; split; [reflexivity|vm_compute; discriminate]|].
  constructor.
Defined.

Example Rev2016_Write_ab_wxyz :
  Rev2016.Writer.Write (Inputs2016.writerPair true) [str "ab"; str "wxyz"] =
    Returns (None,
             Rev2016.Writer.set_w (Inputs2016.writerPair true)
               (str "  ab  wxy " ++ [CR; LF])).
Proof. reflexivity. Qed.

(** ** What the reader of 2016 makes of CR LF *)

(** [Read] on a reader whose columns [updateWidth] accepts and whose
    skipping is done. *)
Lemma Rev2016_Read_parseRecord (x : Rev2016.Reader.t) :
  Rev2016.Reader.initialskipdone x = true ->
  Rev2016.Reader.FieldLengths x <> [] ->
  Forall (fun n => 0 < n) (Rev2016.Reader.FieldLengths x) ->
  Z.max 0 (Rev2016.Reader.SkipStart x) + Z.max 0 (Rev2016.Reader.SkipEnd x) +
    sumZ (Rev2016.Reader.FieldLengths x) <= GoInt.max_int ->
  Rev2016.Reader.Read x =
    Rev2016.Reader.parseRecord
      (Rev2016.Reader.mk
         (Rev2016.Reader.Comment x) (Rev2016.Reader.SkipLines x)
         (Z.max 0 (Rev2016.Reader.SkipStart x))
         (Z.max 0 (Rev2016.Reader.SkipEnd x))
         (Rev2016.Reader.FieldLengths x) (Rev2016.Reader.TrimFields x)
         (Rev2016.Reader.HasEOL x)
         (Z.max 0 (Rev2016.Reader.SkipStart x) +
          Z.max 0 (Rev2016.Reader.SkipEnd x) +
          sumZ (Rev2016.Reader.FieldLengths x))
         (Rev2016.Reader.line x) (Rev2016.Reader.column x)
         (Rev2016.Reader.initialskipdone x) (Rev2016.Reader.r x)
         (Rev2016.Reader.stdout x)).
Proof.
  intros Hd Hne Hp Hmax.
  unfold Rev2016.Reader.Read, Rev2016.Reader.prepare.
  rewrite Rev2016_updateWidth_ok by assumption.
  cbn [Rev2016.Reader.initialskipdone]. rewrite Hd. reflexivity.
Qed.

(** A reader that finds a CR or an LF where a line should start. *)
Lemma Rev2016_parseRecord_line_break_first
      (x : Rev2016.Reader.t) (c : byte) (rest : list byte) :
  Rev2016.Reader.Comment x = 0 ->
  0 < Rev2016.Reader.width x ->
  c = CR \/ c = LF ->
  Rev2016.Bufio.err (Rev2016.Reader.r x) = None ->
  Rev2016.Bufio.unread (Rev2016.Reader.r x) = c :: rest ->
  exists x',
    Rev2016.Reader.parseRecord x =
      Returns ([], Some ErrIncorrectLineWidth, x').
Proof.
  intros Hc Hw Hcr He Hu.
  unfold Rev2016.Reader.parseRecord, make_bytes.
  replace (Rev2016.Reader.width x <? 0) with false
    by (symmetry; apply Z.ltb_ge; lia).
  cbn [bind]. unfold Rev2016.Reader.dropComments.
  rewrite Hc. rewrite andb_false_r. cbn [bind].
  assert (Hp : repeat zero (Z.to_nat (Rev2016.Reader.width x)) <> [])
    by (destruct (Z.to_nat (Rev2016.Reader.width x)) eqn:E; [lia|discriminate]).
  assert (Hne : Rev2016.Bufio.unread (Rev2016.Reader.r x) <> [])
    by (rewrite Hu; discriminate).
  destruct (Rev2016_Read_some _ _ Hp Hne He) as (k & b & Hr & _ & _ & Hk & _).
  rewrite Hr. rewrite Hu.
  destruct k as [|k]; [lia|]. cbn [firstn app].
  cbn [Rev2016.Reader.width Rev2016.Reader.set_r].
  destruct (negb (Z.of_nat (S k) =? Rev2016.Reader.width x)); [eauto|].
  cbn [existsb].
  replace ((byteZ c =? 13) || (byteZ c =? 10)) with true
    by (destruct Hcr as [-> | ->]; reflexivity).
  cbn [orb]. eauto.
Qed.

Lemma Rev2016_Read_line_state
      (x : Rev2016.Reader.t) (pre post tail rest : list byte)
      (cs : list gostring) :
  Rev2016.Reader.HasEOL x = true ->
  Rev2016.Reader.Comment x = 0 ->
  Rev2016.Reader.initialskipdone x = true ->
  Rev2016.Reader.FieldLengths x <> [] ->
  Forall (fun n => 0 < n) (Rev2016.Reader.FieldLengths x) ->
  Z.max 0 (Rev2016.Reader.SkipStart x) + Z.max 0 (Rev2016.Reader.SkipEnd x) +
    sumZ (Rev2016.Reader.FieldLengths x) <= GoInt.max_int ->
  len pre = Z.max 0 (Rev2016.Reader.SkipStart x) ->
  len post = Z.max 0 (Rev2016.Reader.SkipEnd x) ->
  Forall2 (fun c n => len c = n) cs (Rev2016.Reader.FieldLengths x) ->
  (forall b, In b (pre ++ List.concat cs ++ post) -> b <> CR /\ b <> LF) ->
  Rev2016.Bufio.err (Rev2016.Reader.r x) = None ->
  Rev2016.Bufio.unread (Rev2016.Reader.r x) =
    (pre ++ List.concat cs ++ post) ++ tail ->
  Rev2016.Bufio.buf (Rev2016.Reader.r x) = [] \/
  len (pre ++ List.concat cs ++ post) <=
    len (Rev2016.Bufio.buf (Rev2016.Reader.r x)) ->
  lineEnd2016 tail rest ->
  exists b,
    Rev2016.Reader.Read x =
      Returns (map (fun c => if Rev2016.Reader.TrimFields x
                             then strings.Trim c [SP; TAB] else c) cs,
               None,
               Rev2016.Reader.mk
                 (Rev2016.Reader.Comment x) (Rev2016.Reader.SkipLines x)
                 (Z.max 0 (Rev2016.Reader.SkipStart x))
                 (Z.max 0 (Rev2016.Reader.SkipEnd x))
                 (Rev2016.Reader.FieldLengths x) (Rev2016.Reader.TrimFields x)
                 (Rev2016.Reader.HasEOL x)
                 (Z.max 0 (Rev2016.Reader.SkipStart x) +
                  Z.max 0 (Rev2016.Reader.SkipEnd x) +
                  sumZ (Rev2016.Reader.FieldLengths x))
                 (Rev2016.Reader.line x) (Rev2016.Reader.column x)
                 (Rev2016.Reader.initialskipdone x) b
                 (Rev2016.Reader.stdout x)) /\
    Rev2016.Bufio.unread b = rest /\
    Rev2016.Bufio.err b = None.
Proof.
  intros Hm Hc Hd Hne Hp Hmax Hlp Hlq Hcs Hcl He Hu Hb Hend.
  assert (Hlen : len (pre ++ List.concat cs ++ post) =
                 Z.max 0 (Rev2016.Reader.SkipStart x) +
                 Z.max 0 (Rev2016.Reader.SkipEnd x) +
                 sumZ (Rev2016.Reader.FieldLengths x)).
  { rewrite !len_app, Hlp, Hlq, (len_concat_widths _ _ Hcs). lia. }
  pose proof (sumZ_positive _ Hne Hp) as Hpos.
  rewrite Rev2016_Read_parseRecord by assumption.
  match goal with
  | |- context [Rev2016.Reader.parseRecord ?y] => set (x0 := y)
  end.
  destruct (Rev2016_parseRecord_line x0 (pre ++ List.concat cs ++ post) tail)
    as (b & Hub & Heb & Hpr); subst x0;
    cbn [Rev2016.Reader.Comment Rev2016.Reader.width Rev2016.Reader.r];
    auto; try lia.
  { rewrite Hlen in Hb. exact Hb. }
  rewrite Hpr.
  match goal with
  | |- context [Rev2016.Reader.endOfLine ?y] => set (x1 := y)
  end.
  destruct (Rev2016_endOfLine_ok x1 tail rest) as (b' & Hee & Hub' & Heb');
    subst x1; auto.
  rewrite Hee.
  cbn [Rev2016.Reader.TrimFields Rev2016.Reader.SkipStart
       Rev2016.Reader.FieldLengths].
  rewrite <- Hlp.
  rewrite (extractFields_cells _ _ _ Hcs) by (rewrite Hlp; lia).
  cbn [bind app]. exists b'. split; [|auto].
  rewrite Hlp, Hd. reflexivity.
Qed.

Lemma cells2016_len (flds : list gostring) (fl : list Z) :
  Forall2 fits flds fl ->
  Forall2 (fun c n => len c = n) (cells2016 fl flds) fl.
Proof.
  induction 1 as [|f n flds fl Hf _ IH]; cbn [cells2016]; constructor; auto.
  unfold fits in Hf.
  replace (len f >? n) with false
    by (rewrite Z.gtb_ltb; symmetry; apply Z.ltb_ge; lia).
  rewrite len_app, len_spaces by lia. lia.
Qed.

Lemma cells2016_clean (flds : list gostring) (fl : list Z) :
  Forall2 fits flds fl ->
  Forall clean flds ->
  forall b, In b (List.concat (cells2016 fl flds)) -> b <> CR /\ b <> LF.
Proof.
  induction 1 as [|f n flds fl Hf _ IH]; intros Hc b Hb; [contradiction|].
  inversion Hc as [|? ? [Hcr Hlf] Hc']; subst.
  cbn [cells2016 List.concat] in Hb. apply in_app_or in Hb.
  destruct Hb as [Hb|Hb]; [|now apply IH].
  unfold fits in Hf.
  replace (len f >? n) with false in Hb
    by (rewrite Z.gtb_ltb; symmetry; apply Z.ltb_ge; lia).
  apply in_app_or in Hb. destruct Hb as [Hb|Hb].
  - split; intros ->; contradiction.
  - apply In_spaces in Hb. subst b. split; discriminate.
Qed.

Lemma writtenLine2016_clean (wr : Rev2016.Writer.t) (flds : list gostring) :
  Forall2 fits flds (Rev2016.Writer.FieldLengths wr) ->
  Forall clean flds ->
  forall b, In b (writtenLine2016 wr flds) -> b <> CR /\ b <> LF.
Proof.
  intros Hf Hc b Hb. unfold writtenLine2016 in Hb.
  apply in_app_or in Hb. destruct Hb as [Hb|Hb].
  { apply In_spaces in Hb. subst b. split; discriminate. }
  apply in_app_or in Hb. destruct Hb as [Hb|Hb].
  - eapply cells2016_clean; eauto.
  - apply In_spaces in Hb. subst b. split; discriminate.
Qed.

Lemma len_spaces_max (n : Z) : len (spaces n) = Z.max 0 n.
Proof. unfold len, spaces. rewrite repeat_length. lia. Qed.

(** X28 (revision of 2016): the reader does not read what the writer
    writes beyond the first record.  [Write] ends each line with CR LF;
    [Read], over the lines of two records written one behind the other,
    returns the first record (its fields with their spaces, or without
    the spaces at their ends when [TrimFields] is set), takes the CR for
    the line ending and leaves the LF; the next [Read] finds the LF where
    the line should start and returns [ErrIncorrectLineWidth]. *)
Theorem Rev2016_second_record_is_not_read
        (wr : Rev2016.Writer.t) (rd : Rev2016.Reader.t)
        (flds1 flds2 : list gostring) :
  Rev2016.Writer.HasEOL wr = true ->
  Rev2016.Reader.HasEOL rd = true ->
  Rev2016.Reader.Comment rd = 0 ->
  Rev2016.Reader.initialskipdone rd = true ->
  Rev2016.Reader.SkipStart rd = Rev2016.Writer.SkipStart wr ->
  Rev2016.Reader.SkipEnd rd = Rev2016.Writer.SkipEnd wr ->
  Rev2016.Reader.FieldLengths rd = Rev2016.Writer.FieldLengths wr ->
  Rev2016.Reader.TrimFields rd = Rev2016.Writer.TrimFields wr ->
  Rev2016.Writer.FieldLengths wr <> [] ->
  Forall (fun n => 0 < n) (Rev2016.Writer.FieldLengths wr) ->
  Z.max 0 (Rev2016.Writer.SkipStart wr) + Z.max 0 (Rev2016.Writer.SkipEnd wr) +
    sumZ (Rev2016.Writer.FieldLengths wr) <= GoInt.max_int ->
  Forall2 fits flds1 (Rev2016.Writer.FieldLengths wr) ->
  Forall2 fits flds2 (Rev2016.Writer.FieldLengths wr) ->
  Forall clean flds1 ->
  Rev2016.Reader.r rd =
    Rev2016.Bufio.NewReader
      (writtenLine2016 wr flds1 ++ [CR; LF] ++
       writtenLine2016 wr flds2 ++ [CR; LF]) ->
  Rev2016.Writer.WriteAll wr [flds1; flds2] =
    Returns (None,
             Rev2016.Writer.set_w wr
               (Rev2016.Writer.w wr ++
                writtenLine2016 wr flds1 ++ [CR; LF] ++
                writtenLine2016 wr flds2 ++ [CR; LF])) /\
  exists rd1 rd2,
    Rev2016.Reader.Read rd =
      Returns (map (fun c => if Rev2016.Writer.TrimFields wr
                             then strings.Trim c [SP; TAB] else c)
                   (cells2016 (Rev2016.Writer.FieldLengths wr) flds1),
               None, rd1) /\
    Rev2016.Bufio.unread (Rev2016.Reader.r rd1) =
      LF :: writtenLine2016 wr flds2 ++ [CR; LF] /\
    Rev2016.Reader.Read rd1 =
      Returns ([], Some ErrIncorrectLineWidth, rd2).
Proof.
  intros Hw Hm Hc Hd Hss Hse Hfl Htf Hne Hp Hmax Hf1 Hf2 Hcl Hr.
  split.
  - unfold Rev2016.Writer.WriteAll. cbn [Rev2016.Writer.WriteAll_loop].
    rewrite Rev2016_Write_cells
      by (eapply Forall2_impl; [|exact Hf1]; intros f n Hf; now left).
    cbn [bind].
    rewrite Rev2016_Write_cells
      by (eapply Forall2_impl; [|exact Hf2]; intros f n Hf; now left).
    cbn [bind]. unfold Rev2016.Writer.Flush, Rev2016.Bufio.Flush, eol2016.
    cbn [snd Rev2016.Writer.HasEOL Rev2016.Writer.set_w Rev2016.Writer.w].
    rewrite Hw. unfold writtenLine2016.
    cbn [Rev2016.Writer.SkipStart Rev2016.Writer.SkipEnd
         Rev2016.Writer.FieldLengths Rev2016.Writer.set_w].
    rewrite <- !app_assoc. reflexivity.
  - destruct (Rev2016_Read_line_state rd
                (spaces (Rev2016.Writer.SkipStart wr))
                (spaces (Rev2016.Writer.SkipEnd wr))
                (CR :: LF :: writtenLine2016 wr flds2 ++ [CR; LF])
                (LF :: writtenLine2016 wr flds2 ++ [CR; LF])
                (cells2016 (Rev2016.Writer.FieldLengths wr) flds1))
      as (b & Hrd & Hub & Heb); auto.
    + now rewrite Hfl.
    + now rewrite Hfl.
    + now rewrite Hss, Hse, Hfl.
    + rewrite Hss. apply len_spaces_max.
    + rewrite Hse. apply len_spaces_max.
    + rewrite Hfl. now apply cells2016_len.
    + apply (writtenLine2016_clean wr flds1); assumption.
    + now rewrite Hr.
    + rewrite Hr. unfold Rev2016.Bufio.unread, Rev2016.Bufio.NewReader.
      cbn [Rev2016.Bufio.buf Rev2016.Bufio.src app].
      unfold writtenLine2016. now rewrite <- !app_assoc.
    + left. now rewrite Hr.
    + apply lineEnd_CR.
    + rewrite Htf in Hrd. eexists. 
      match type of Hrd with
      | _ = Returns (_, _, ?y) => set (rd1 := y) in *
      end.
      assert (Hx : exists rd2,
                 Rev2016.Reader.Read rd1 =
                   Returns ([], Some ErrIncorrectLineWidth, rd2)).
      { rewrite Rev2016_Read_parseRecord; subst rd1;
          cbn [Rev2016.Reader.initialskipdone Rev2016.Reader.FieldLengths
               Rev2016.Reader.SkipStart Rev2016.Reader.SkipEnd];
          rewrite ?Hfl; auto;
          [|rewrite !(Z.max_r 0 (Z.max 0 _)) by lia;
            now rewrite Hss, Hse].
        apply (Rev2016_parseRecord_line_break_first _ LF
                 (writtenLine2016 wr flds2 ++ [CR; LF]));
          cbn [Rev2016.Reader.Comment Rev2016.Reader.width Rev2016.Reader.r];
          auto.
        pose proof (sumZ_positive _ Hne Hp). lia. }
      destruct Hx as [rd2 Hx]. exists rd2.
      split; [exact Hrd|]. split; [exact Hub|exact Hx].
Qed.

Lemma Rev2016_second_record_is_not_read_witness :
  Rev2016.Writer.WriteAll (Inputs2016.writerPair false)
                          [[str "ab"; str "c"]; [str "de"; str "f"]] =
    Returns (None,
             Rev2016.Writer.set_w (Inputs2016.writerPair false)
               (Rev2016.Writer.w (Inputs2016.writerPair false) ++
                writtenLine2016 (Inputs2016.writerPair false) [str "ab"; str "c"] ++
                [CR; LF] ++
                writtenLine2016 (Inputs2016.writerPair false) [str "de"; str "f"] ++
                [CR; LF])) /\
  exists rd1 rd2,
    Rev2016.Reader.Read
      (Inputs2016.readerPair false
         (str "  ab  c   " ++ CR :: LF :: str "  de  f   " ++ [CR; LF])) =
      Returns (map (fun c => if Rev2016.Writer.TrimFields
                                  (Inputs2016.writerPair false)
                             then strings.Trim c [SP; TAB] else c)
                   (cells2016 (Rev2016.Writer.FieldLengths
                                 (Inputs2016.writerPair false))
                              [str "ab"; str "c"]),
               None, rd1) /\
    Rev2016.Bufio.unread (Rev2016.Reader.r rd1) =
      LF :: writtenLine2016 (Inputs2016.writerPair false) [str "de"; str "f"] ++
      [CR; LF] /\
    Rev2016.Reader.Read rd1 =
      Returns ([], Some ErrIncorrectLineWidth, rd2).
Proof.
  apply (Rev2016_second_record_is_not_read
           (Inputs2016.writerPair false)
           (Inputs2016.readerPair false
              (str "  ab  c   " ++ CR :: LF :: str "  de  f   " ++ [CR; LF]))
           [str "ab"; str "c"] [str "de"; str "f"]);
    try reflexivity.
  - discriminate.
  - constructor; [reflexivity|]. constructor; [reflexivity|constructor].
  - vm_compute. discriminate.
  - constructor; [vm_compute; discriminate|].
    constructor; [vm_compute; discriminate|constructor].
  - constructor; [vm_compute; discriminate|].
    constructor; [vm_compute; discriminate|constructor].
  - repeat constructor; vm_compute; intros H;
      repeat (destruct H as [H|H]; [discriminate|]); exact H.
Defined.

Example Rev2016_ReadAll_of_WriteAll :
  Rev2016.Reader.ReadAll
    (Inputs2016.readerPair false
       (str "  ab  c   " ++ CR :: LF :: str "  de  f   " ++ [CR; LF])) =
    Returns ([[str "ab  "; str "c  "]],
             Some (ParseError 0 0 ErrIncorrectLineWidth),
             Rev2016.Reader.mk 0 0 2 1 [4; 3] false true 10 0 0 true
               (Rev2016.Bufio.mk (str " " ++ [CR; LF]) [] None (Some SP) [])
               ["Contains cr or lf"%string]).
Proof. reflexivity. Qed.

(** ** A line across the end of the buffer, for the reader of 2016 *)

(** X29 (revision of 2016): [parseRecord] takes the bytes of a line with
    one [Read] of [bufio] and checks the count.  When the buffer holds
    some bytes, but fewer than a line is wide, [Read] returns
    [ErrIncorrectLineWidth] whatever the source still holds, the rest of
    a correct line included: in an input larger than the buffer, a line
    that goes across the end of the buffer is refused. *)
Theorem Rev2016_Read_across_the_buffer
        (x : Rev2016.Reader.t) (l : list byte) :
  Rev2016.Reader.Comment x = 0 ->
  Rev2016.Reader.initialskipdone x = true ->
  Rev2016.Reader.FieldLengths x <> [] ->
  Forall (fun n => 0 < n) (Rev2016.Reader.FieldLengths x) ->
  Z.max 0 (Rev2016.Reader.SkipStart x) + Z.max 0 (Rev2016.Reader.SkipEnd x) +
    sumZ (Rev2016.Reader.FieldLengths x) <= maxAlloc ->
  Rev2016.Bufio.err (Rev2016.Reader.r x) = None ->
  Rev2016.Bufio.buf (Rev2016.Reader.r x) = l ->
  l <> [] ->
  len l < Z.max 0 (Rev2016.Reader.SkipStart x) +
          Z.max 0 (Rev2016.Reader.SkipEnd x) +
          sumZ (Rev2016.Reader.FieldLengths x) ->
  exists x',
    Rev2016.Reader.Read x = Returns ([], Some ErrIncorrectLineWidth, x') /\
    Rev2016.Bufio.unread (Rev2016.Reader.r x') =
      Rev2016.Bufio.src (Rev2016.Reader.r x).
Proof.
  intros Hc Hd Hne Hp Hmax He Hb Hl Hlen.
  assert (Hmax' : Z.max 0 (Rev2016.Reader.SkipStart x) +
                  Z.max 0 (Rev2016.Reader.SkipEnd x) +
                  sumZ (Rev2016.Reader.FieldLengths x) <= GoInt.max_int)
    by (unfold maxAlloc, GoInt.max_int in *; lia).
  rewrite Rev2016_Read_parseRecord by assumption.
  unfold Rev2016.Reader.parseRecord, make_bytes.
  cbn [Rev2016.Reader.width Rev2016.Reader.Comment Rev2016.Reader.HasEOL
       Rev2016.Reader.r].
  pose proof (len_nonneg l).
  match goal with
  | |- context [?w <? 0] =>
      replace (w <? 0) with false by (symmetry; apply Z.ltb_ge; lia)
  end.
  cbn [bind]. unfold Rev2016.Reader.dropComments.
  cbn [Rev2016.Reader.Comment Rev2016.Reader.HasEOL].
  rewrite Hc. rewrite andb_false_r. cbn [bind].
  cbn [Rev2016.Reader.r].
  unfold Rev2016.Bufio.Read.
  match goal with
  | |- context [repeat zero ?n] => destruct n as [|k] eqn:Ek; [lia|]
  end.
  cbn [repeat]. rewrite Hb. destruct l as [|c l]; [congruence|].
  cbn [Rev2016.Reader.width Rev2016.Reader.set_r].
  change (zero :: repeat zero k) with (repeat zero (S k)).
  rewrite repeat_length.
  rewrite (Nat.min_r (S k) (List.length (c :: l))) by (unfold len in Hlen; lia).
  match goal with
  | |- context [negb (?a =? ?b)] =>
      replace (a =? b) with false
        by (symmetry; apply Z.eqb_neq; unfold len in Hlen; lia)
  end.
  cbn [negb]. eexists. split; [reflexivity|].
  cbn [Rev2016.Reader.r]. unfold Rev2016.Bufio.unread.
  cbn [Rev2016.Bufio.buf Rev2016.Bufio.src].
  now rewrite skipn_all.
Qed.

Lemma Rev2016_Read_across_the_buffer_witness :
  exists x',
    Rev2016.Reader.Read Inputs2016.readerSplit =
      Returns ([], Some ErrIncorrectLineWidth, x') /\
    Rev2016.Bufio.unread (Rev2016.Reader.r x') =
      Rev2016.Bufio.src (Rev2016.Reader.r Inputs2016.readerSplit).
Proof.
  apply (Rev2016_Read_across_the_buffer Inputs2016.readerSplit (str "a")).
  - reflexivity.
  - reflexivity.
  - discriminate.
  - constructor; [reflexivity|constructor].
  - vm_compute. discriminate.
  - reflexivity.
  - reflexivity.
  - discriminate.
  - reflexivity.
Defined.

Example Rev2016_ReadAll_many_lines :
  exists x',
    Rev2016.Reader.ReadAll Inputs2016.manyLines =
      Returns (repeat [str "ab"] 1365,
               Some (ParseError 0 0 ErrIncorrectLineWidth), x') /\
    Rev2016.Bufio.unread (Rev2016.Reader.r x') = str "b" ++ [LF].
Proof. eexists. split; vm_compute; reflexivity. Qed.

(** ** Comment lines, for the reader of 2016 *)

Lemma cut_first (d : byte) (pre post : list byte) :
  ~ In d pre -> bufio.cut d (pre ++ d :: post) = Some (pre, post).
Proof.
  induction pre as [|c pre IH]; intros Hn; cbn [bufio.cut app].
  - now rewrite Ascii.eqb_refl.
  - destruct (Ascii.eqb_spec c d) as [->|Hcd]; [elim Hn; now left|].
    rewrite IH; [reflexivity|]. intros H. apply Hn. now right.
Qed.

Lemma FullRune_ascii (c : byte) (l : list byte) :
  byteZ c < 128 -> Rev2016.Bufio.FullRune (c :: l) = true.
Proof.
  intros Hc. unfold Rev2016.Bufio.FullRune, utf8.lead.
  repeat match goal with
         | |- context [if ?b then _ else _] =>
             replace b with false
               by (symmetry;
                   first [apply andb_false_iff; left; apply Z.leb_gt; lia
                         |apply Z.eqb_neq; lia])
         end.
  reflexivity.
Qed.

(** [ReadRune] with an ASCII byte at the head of the buffer. *)
Lemma Rev2016_ReadRune_ascii (b : Rev2016.Bufio.Reader) (c : byte) (l : list byte) :
  byteZ c < 128 ->
  Rev2016.Bufio.buf b = c :: l ->
  Rev2016.Bufio.ReadRune b =
    (byteZ c, 1, None,
     Rev2016.Bufio.mk l (Rev2016.Bufio.src b) (Rev2016.Bufio.err b) (Some c) [c]).
Proof.
  intros Hc Hb. unfold Rev2016.Bufio.ReadRune.
  cbn [Rev2016.Bufio.fillRune]. rewrite Hb, (FullRune_ascii c l Hc).
  rewrite andb_false_r. cbn [andb]. rewrite Hb.
  replace (byteZ c <? 128) with true by (symmetry; apply Z.ltb_lt; lia).
  reflexivity.
Qed.

(** [ReadRune] on an empty buffer, over a source that fits in the buffer
    and starts with an ASCII byte. *)
Lemma Rev2016_ReadRune_fresh (c : byte) (l : list byte)
      (lb : option byte) (lr : list byte) :
  byteZ c < 128 ->
  len (c :: l) <= bufio.defaultBufSize ->
  Rev2016.Bufio.ReadRune (Rev2016.Bufio.mk [] (c :: l) None lb lr) =
    (byteZ c, 1, None, Rev2016.Bufio.mk l [] None (Some c) [c]).
Proof.
  intros Hc Hl. unfold Rev2016.Bufio.ReadRune.
  cbn [Rev2016.Bufio.src List.length].
  cbn [Rev2016.Bufio.fillRune].
  cbn [Rev2016.Bufio.buf Rev2016.Bufio.err Rev2016.Bufio.FullRune negb andb].
  change (len (@nil byte)) with 0.
  replace (0 <? 4) with true by reflexivity.
  replace (0 <? bufio.defaultBufSize) with true by reflexivity.
  cbn [andb].
  assert (Ef : Rev2016.Bufio.fill (Rev2016.Bufio.mk [] (c :: l) None lb lr) =
               Rev2016.Bufio.mk (c :: l) [] None lb []).
  { unfold Rev2016.Bufio.fill.
    cbn [Rev2016.Bufio.src Rev2016.Bufio.buf Rev2016.Bufio.err
         Rev2016.Bufio.lastByte].
    change (len (@nil byte)) with 0.
    rewrite Z.sub_0_r, Z.min_r by exact Hl.
    unfold len. rewrite Nat2Z.id, firstn_all, skipn_all. reflexivity. }
  rewrite Ef.
  cbn [Rev2016.Bufio.buf]. rewrite (FullRune_ascii c l Hc).
  rewrite andb_false_r. cbn [andb].
  cbn [Rev2016.Bufio.buf Rev2016.Bufio.src Rev2016.Bufio.err
       Rev2016.Bufio.lastByte].
  replace (byteZ c <? 128) with true by (symmetry; apply Z.ltb_lt; lia).
  reflexivity.
Qed.

(** [ReadLine] with the line and its LF in the buffer. *)
Lemma Rev2016_ReadLine_buffered
      (b : Rev2016.Bufio.Reader) (t post : list byte) :
  ~ In LF t ->
  Rev2016.Bufio.buf b = t ++ LF :: post ->
  exists line,
    Rev2016.Bufio.ReadLine b =
      (line, false, None,
       Rev2016.Bufio.mk post (Rev2016.Bufio.src b) (Rev2016.Bufio.err b)
                        (Some LF) []).
Proof.
  intros Hn Hb. unfold Rev2016.Bufio.ReadLine, Rev2016.Bufio.ReadSlice.
  cbn [Rev2016.Bufio.readSlice]. rewrite Hb, (cut_first LF t post Hn).
  rewrite rev_app_distr. cbn [rev app].
  change (byteZ LF =? 10) with true. cbv iota.
  destruct (rev t) as [|c' front'].
  - eexists. reflexivity.
  - destruct (byteZ c' =? 13); eexists; reflexivity.
Qed.

Lemma Rev2016_set_r_set_r (x : Rev2016.Reader.t) (a b : Rev2016.Bufio.Reader) :
  Rev2016.Reader.set_r (Rev2016.Reader.set_r x a) b = Rev2016.Reader.set_r x b.
Proof. reflexivity. Qed.

Lemma comments2016_length (m : Z) (texts : list gostring) :
  (List.length texts <= List.length (comments2016 m texts))%nat.
Proof.
  induction texts as [|t texts IH]; [apply Nat.le_refl|].
  unfold comments2016 in *. cbn [map List.concat].
  rewrite length_app. cbn [List.length]. lia.
Qed.

Lemma comments2016_cons (m : Z) (t : gostring) (texts : list gostring)
      (tail : list byte) :
  comments2016 m (t :: texts) ++ tail =
    byte_of_Z m :: t ++ LF :: comments2016 m texts ++ tail.
Proof.
  unfold comments2016. cbn [map List.concat].
  rewrite <- !app_comm_cons, <- !app_assoc. reflexivity.
Qed.

(** The loop of [parseRecord] over comment lines that the buffer holds,
    entered behind the marker of the first one: it ends behind the first
    byte of the line that follows them. *)
Lemma Rev2016_skipComments_block (m : Z) (c : byte) (rest : list byte) :
  0 < m < 128 -> byteZ c < 128 -> byteZ c <> m ->
  forall (texts : list gostring) (t : gostring) (fuel : nat)
         (x : Rev2016.Reader.t) (lb : option byte) (lr : list byte),
    (S (List.length texts) < fuel)%nat ->
    Rev2016.Reader.Comment x = m ->
    Forall (fun t => ~ In LF t) (t :: texts) ->
    Rev2016.Reader.r x =
      Rev2016.Bufio.mk (t ++ LF :: comments2016 m texts ++ c :: rest)
                       [] None lb lr ->
    Rev2016.Reader.skipComments fuel x m =
      Returns (None,
               Rev2016.Reader.set_r x
                 (Rev2016.Bufio.mk rest [] None (Some c) [c])).
Proof.
  intros Hm Hc Hcm texts.
  induction texts as [|t' texts IH]; intros t fuel x lb lr Hf Hx Hall Hr;
    (destruct fuel as [|fuel]; [lia|]);
    cbn [Rev2016.Reader.skipComments];
    rewrite Hx, Z.eqb_refl;
    inversion Hall as [|? ? Ht Hall']; subst;
    destruct (Rev2016_ReadLine_buffered (Rev2016.Reader.r x) t _ Ht
                ltac:(rewrite Hr; reflexivity)) as [line ->];
    rewrite Hr; cbn [Rev2016.Bufio.src Rev2016.Bufio.err Rev2016.Reader.r
                     Rev2016.Reader.set_r].
  - unfold comments2016. cbn [map List.concat app].
    rewrite (Rev2016_ReadRune_ascii _ c rest Hc) by reflexivity.
    cbn [Rev2016.Bufio.src Rev2016.Bufio.err].
    destruct fuel as [|fuel]; [lia|].
    cbn [Rev2016.Reader.skipComments Rev2016.Reader.Comment
         Rev2016.Reader.set_r].
    replace (byteZ c =? Rev2016.Reader.Comment x) with false
      by (symmetry; apply Z.eqb_neq; exact Hcm).
    reflexivity.
  - rewrite comments2016_cons.
    assert (Hb : byteZ (byte_of_Z (Rev2016.Reader.Comment x)) =
                 Rev2016.Reader.Comment x) by (apply byteZ_byte_of_Z; lia).
    rewrite (Rev2016_ReadRune_ascii _ (byte_of_Z (Rev2016.Reader.Comment x))
               (t' ++ LF :: comments2016 (Rev2016.Reader.Comment x) texts ++
                c :: rest))
      by first [rewrite Hb; lia | reflexivity].
    cbn [Rev2016.Bufio.src Rev2016.Bufio.err]. rewrite Hb.
    erewrite IH; [reflexivity|cbn [List.length] in Hf; lia|reflexivity
                 |exact Hall'|reflexivity].
Qed.

(** The first part of [parseRecord] on a fresh reader over comment lines
    and a line that starts with an ASCII byte other than the marker, all
    of which fits in the buffer. *)
Lemma Rev2016_dropComments_block
      (x : Rev2016.Reader.t) (texts : list gostring) (c : byte)
      (rest : list byte) :
  Rev2016.Reader.HasEOL x = true ->
  0 < Rev2016.Reader.Comment x < 128 ->
  byteZ c < 128 -> byteZ c <> Rev2016.Reader.Comment x ->
  Forall (fun t => ~ In LF t) texts ->
  len (comments2016 (Rev2016.Reader.Comment x) texts ++ c :: rest) <=
    bufio.defaultBufSize ->
  Rev2016.Reader.r x =
    Rev2016.Bufio.NewReader
      (comments2016 (Rev2016.Reader.Comment x) texts ++ c :: rest) ->
  Rev2016.Reader.dropComments x =
    Returns (None,
             Rev2016.Reader.set_r x
               (Rev2016.Bufio.mk (c :: rest) [] None None [])).
Proof.
  intros He Hm Hc Hcm Hall Hl Hr.
  unfold Rev2016.Reader.dropComments. rewrite He.
  replace (Rev2016.Reader.Comment x =? 0) with false
    by (symmetry; apply Z.eqb_neq; lia).
  cbn [negb andb]. rewrite Hr. unfold Rev2016.Bufio.NewReader.
  destruct texts as [|t texts].
  - unfold comments2016 in *. cbn [map List.concat app] in *.
    rewrite (Rev2016_ReadRune_fresh c rest None [] Hc Hl).
    cbn [Rev2016.Reader.r Rev2016.Reader.set_r Rev2016.Bufio.unread
         Rev2016.Bufio.buf Rev2016.Bufio.src app].
    cbn [Rev2016.Reader.skipComments Rev2016.Reader.Comment
         Rev2016.Reader.set_r].
    replace (byteZ c =? Rev2016.Reader.Comment x) with false
      by (symmetry; apply Z.eqb_neq; exact Hcm).
    cbn [bind]. reflexivity.
  - assert (Hb : byteZ (byte_of_Z (Rev2016.Reader.Comment x)) =
                 Rev2016.Reader.Comment x) by (apply byteZ_byte_of_Z; lia).
    pose proof (comments2016_length (Rev2016.Reader.Comment x) texts) as Hlen.
    rewrite comments2016_cons in Hl |- *.
    rewrite (Rev2016_ReadRune_fresh (byte_of_Z (Rev2016.Reader.Comment x)) _
               None []) by first [rewrite Hb; lia | exact Hl].
    rewrite Hb.
    cbn [Rev2016.Reader.r Rev2016.Reader.set_r Rev2016.Bufio.unread
         Rev2016.Bufio.buf Rev2016.Bufio.src].
    erewrite (Rev2016_skipComments_block (Rev2016.Reader.Comment x) c rest
                Hm Hc Hcm texts t);
      [| |reflexivity|exact Hall|reflexivity].
    + cbn [bind Rev2016.Reader.r Rev2016.Reader.set_r].
      reflexivity.
    + unfold Rev2016.Bufio.unread.
      cbn [Rev2016.Bufio.buf Rev2016.Bufio.src].
      rewrite app_nil_r, length_app. cbn [List.length].
      rewrite length_app. cbn [List.length]. lia.
Qed.

(** X30 (revision of 2016): with line endings and a comment marker that is
    an ASCII character, [Read] on a fresh reader, whose skipping is done,
    passes over the comment lines at the head of the input, each of them
    the marker, a text without LF and an LF: it gives what it gives on a
    fresh reader over the input behind them, when that input starts with
    an ASCII byte other than the marker and the whole input fits in the
    buffer of [bufio]. *)
Theorem Rev2016_comment_lines_are_skipped
        (x : Rev2016.Reader.t) (texts : list gostring) (c : byte)
        (rest : list byte) :
  Rev2016.Reader.HasEOL x = true ->
  0 < Rev2016.Reader.Comment x < 128 ->
  Rev2016.Reader.initialskipdone x = true ->
  Rev2016.Reader.FieldLengths x <> [] ->
  Forall (fun n => 0 < n) (Rev2016.Reader.FieldLengths x) ->
  Z.max 0 (Rev2016.Reader.SkipStart x) + Z.max 0 (Rev2016.Reader.SkipEnd x) +
    sumZ (Rev2016.Reader.FieldLengths x) <= GoInt.max_int ->
  Forall (fun t => ~ In LF t) texts ->
  byteZ c < 128 -> byteZ c <> Rev2016.Reader.Comment x ->
  len (comments2016 (Rev2016.Reader.Comment x) texts ++ c :: rest) <=
    bufio.defaultBufSize ->
  Rev2016.Reader.r x =
    Rev2016.Bufio.NewReader
      (comments2016 (Rev2016.Reader.Comment x) texts ++ c :: rest) ->
  Rev2016.Reader.Read x =
    Rev2016.Reader.Read
      (Rev2016.Reader.set_r x (Rev2016.Bufio.NewReader (c :: rest))).
Proof.
  intros He Hm Hd Hne Hp Hmax Hall Hc Hcm Hl Hr.
  rewrite !Rev2016_Read_parseRecord by assumption.
  cbn [Rev2016.Reader.set_r Rev2016.Reader.Comment Rev2016.Reader.SkipLines
       Rev2016.Reader.SkipStart Rev2016.Reader.SkipEnd
       Rev2016.Reader.FieldLengths Rev2016.Reader.TrimFields
       Rev2016.Reader.HasEOL Rev2016.Reader.line Rev2016.Reader.column
       Rev2016.Reader.initialskipdone Rev2016.Reader.r Rev2016.Reader.stdout].
  unfold Rev2016.Reader.parseRecord.
  cbn [Rev2016.Reader.width].
  destruct (make_bytes _) as [tmp| |]; cbn [bind]; try reflexivity.
  assert (Hl' : len (comments2016 (Rev2016.Reader.Comment x) [] ++ c :: rest)
                <= bufio.defaultBufSize).
  { rewrite len_app in Hl.
    pose proof (len_nonneg (comments2016 (Rev2016.Reader.Comment x) texts)).
    unfold comments2016. cbn [map List.concat app]. lia. }
  rewrite (Rev2016_dropComments_block _ texts c rest)
    by (cbn [Rev2016.Reader.Comment Rev2016.Reader.HasEOL Rev2016.Reader.r];
        assumption).
  rewrite (Rev2016_dropComments_block _ [] c rest)
    by (cbn [Rev2016.Reader.Comment Rev2016.Reader.HasEOL Rev2016.Reader.r];
        first [assumption | constructor | reflexivity]).
  reflexivity.
Qed.

Lemma Rev2016_comment_lines_are_skipped_witness :
  Rev2016.Reader.Read
    (Inputs2016.commented
       (comments2016 35 [str "x"; str " y"] ++
        byte_of_Z 97 :: str "b" ++ LF :: str "cd")) =
  Rev2016.Reader.Read
    (Rev2016.Reader.set_r
       (Inputs2016.commented
          (comments2016 35 [str "x"; str " y"] ++
           byte_of_Z 97 :: str "b" ++ LF :: str "cd"))
       (Rev2016.Bufio.NewReader (byte_of_Z 97 :: str "b" ++ LF :: str "cd"))).
Proof.
  apply (Rev2016_comment_lines_are_skipped
           (Inputs2016.commented
              (comments2016 35 [str "x"; str " y"] ++
               byte_of_Z 97 :: str "b" ++ LF :: str "cd"))
           [str "x"; str " y"] (byte_of_Z 97) (str "b" ++ LF :: str "cd")).
  - reflexivity.
  - split; reflexivity.
  - reflexivity.
  - discriminate.
  - constructor; [reflexivity|constructor].
  - vm_compute. discriminate.
  - repeat constructor; vm_compute; intros H;
      repeat (destruct H as [H|H]; [discriminate|]); exact H.
  - reflexivity.
  - vm_compute. discriminate.
  - vm_compute. discriminate.
  - reflexivity.
Defined.

Example Rev2016_Read_behind_comments :
  Rev2016.Reader.Read
    (Inputs2016.commented (str "#x" ++ LF :: str "# y" ++ LF :: str "ab" ++
                           LF :: str "cd")) =
    Returns ([str "ab"], None,
             Rev2016.Reader.mk 35 0 0 0 [2] false true 2 0 0 true
               (Rev2016.Bufio.mk (str "cd") [] None None []) []).
Proof. reflexivity. Qed.
